(** * pdf-paper-converter: a shallow embedding of the processing pipeline

    The development follows the three Python sources of the repository:
    - [mineru_processor.py]  (module [Mineru]): the MinerU facade, the demo
      document and the Markdown renderers;
    - [app.py]               (module [App]): the local Streamlit entry point;
    - [streamlit_app_vercel.py] (module [Vercel]): the serverless entry point
      with its remote-API branch.

    Python [str] values are sequences of Unicode code points; they are
    modelled as [list N].  Dictionaries with a fixed key set are records,
    the [outputs] and [config] dictionaries are [gmap]s keyed by their
    (ASCII) key names. *)

From Stdlib Require Import QArith Qabs Lqa.
From Stdlib Require Import DecimalString.
From stdpp Require Import gmap strings list sorting.

Local Open Scope N_scope.
Local Open Scope list_scope.

(** ** Python strings *)

Definition pystr := list N.

Fixpoint bytes_of (s : string) : list N :=
  match s with
  | EmptyString => []
  | String a s' => Ascii.N_of_ascii a :: bytes_of s'
  end.

(** Source literals are written in UTF-8; [utf8_decode] recovers the code
    points Python sees. *)
Fixpoint utf8_decode (bs : list N) : pystr :=
  match bs with
  | [] => []
  | b0 :: r0 =>
    if b0 <? 128 then b0 :: utf8_decode r0
    else
      match r0 with
      | [] => []
      | b1 :: r1 =>
        if b0 <? 224 then ((b0 mod 32) * 64 + b1 mod 64) :: utf8_decode r1
        else
          match r1 with
          | [] => []
          | b2 :: r2 =>
            if b0 <? 240
            then ((b0 mod 16) * 4096 + (b1 mod 64) * 64 + b2 mod 64)
                   :: utf8_decode r2
            else
              match r2 with
              | [] => []
              | b3 :: r3 =>
                ((b0 mod 8) * 262144 + (b1 mod 64) * 4096
                 + (b2 mod 64) * 64 + b3 mod 64) :: utf8_decode r3
              end
          end
      end
  end.

Definition lit (s : string) : pystr := utf8_decode (bytes_of s).

(** [chr(10)], the double quote and a few marker characters. *)
Definition NL : N := 10.
Definition DQUOTE : N := 34.
Definition HASH : N := 35.
Definition STAR : N := 42.
Definition BACKTICK : N := 96.
Definition LBRACKET : N := 91.
Definition RBRACKET : N := 93.
Definition LPAREN : N := 40.
Definition RPAREN : N := 41.
Definition PIPE : N := 124.
Definition HYPHEN : N := 45.
Definition SLASH : N := 47.
Definition DOT : N := 46.
Definition DOLLAR : N := 36.

(** [str(n)] for a non-negative integer. *)
Definition str_of_nat (n : nat) : pystr :=
  bytes_of (NilZero.string_of_uint (Nat.to_uint n)).

(** [str.isspace] on one code point (the set CPython's
    [Py_UNICODE_ISSPACE] accepts); [str.strip()] and the regex class [\s]
    both use it. *)
Definition isspace (c : N) : bool :=
  ((9 <=? c) && (c <=? 13)) || ((28 <=? c) && (c <=? 32))
  || (c =? 133) || (c =? 160) || (c =? 5760)
  || ((8192 <=? c) && (c <=? 8202))
  || (c =? 8232) || (c =? 8233) || (c =? 8239) || (c =? 8287)
  || (c =? 12288).

Fixpoint lstrip (s : pystr) : pystr :=
  match s with
  | [] => []
  | c :: s' => if isspace c then lstrip s' else s
  end.

Fixpoint rstrip (s : pystr) : pystr :=
  match s with
  | [] => []
  | c :: s' =>
    match rstrip s' with
    | [] => if isspace c then [] else [c]
    | t => c :: t
    end
  end.

(** [s.strip()] *)
Definition strip (s : pystr) : pystr := rstrip (lstrip s).

(** Truth value of a string: [if s:] *)
Definition truthy (s : pystr) : bool :=
  match s with [] => false | _ => true end.

Definition pystr_eqb (a b : pystr) : bool := bool_decide (a = b).

Fixpoint starts_with (pre s : pystr) : bool :=
  match pre, s with
  | [], _ => true
  | _ :: _, [] => false
  | a :: pre', b :: s' => (a =? b) && starts_with pre' s'
  end.

(** [s.replace(old, new)] for a non-empty [old] (every call site passes
    one): occurrences are replaced left to right without overlap. *)
Fixpoint replace_from (old new s : pystr) (skip : nat) : pystr :=
  match s with
  | [] => []
  | c :: s' =>
    match skip with
    | S k => replace_from old new s' k
    | O =>
      if starts_with old s
      then new ++ replace_from old new s' (length old - 1)
      else c :: replace_from old new s' 0
    end
  end.

Definition replace (old new s : pystr) : pystr := replace_from old new s 0.

(** [sep.join(parts)] *)
Fixpoint join (sep : pystr) (parts : list pystr) : pystr :=
  match parts with
  | [] => []
  | [p] => p
  | p :: rest => p ++ sep ++ join sep rest
  end.

(** [s.count(sub)] for a non-empty [sub]: non-overlapping occurrences. *)
Fixpoint count_from (sub s : pystr) (skip : nat) : nat :=
  match s with
  | [] => O
  | _ :: s' =>
    match skip with
    | S k => count_from sub s' k
    | O =>
      if starts_with sub s
      then S (count_from sub s' (length sub - 1))
      else count_from sub s' 0
    end
  end.

Definition count (sub s : pystr) : nat := count_from sub s 0.

(** [s.split(sep)] for a non-empty [sep]; [cur] is the piece being read,
    in reverse. *)
Fixpoint split_from (sep s : pystr) (skip : nat) (cur : pystr) : list pystr :=
  match s with
  | [] => [rev cur]
  | c :: s' =>
    match skip with
    | S k => split_from sep s' k cur
    | O =>
      if starts_with sep s
      then rev cur :: split_from sep s' (length sep - 1) []
      else split_from sep s' 0 (c :: cur)
    end
  end.

Definition split (sep s : pystr) : list pystr := split_from sep s 0 [].

(** ** The fragment of [re] the renderers use

    Every pattern of the sources is a sequence of single characters,
    quantified character classes and one capturing group.  The matcher is
    the usual backtracking one: a greedy quantifier tries the longest run
    first, a lazy one the shortest, and the first successful alternative
    wins. *)

Inductive cls :=
| CChar (c : N)   (* a literal character *)
| CDot            (* [.] without DOTALL: anything but a newline *)
| CSpace.         (* [\s] *)

Definition cls_match (k : cls) (c : N) : bool :=
  match k with
  | CChar a => c =? a
  | CDot => negb (c =? NL)
  | CSpace => isspace c
  end.

Inductive quant := Greedy | Lazy.

Inductive node :=
| One (k : cls)
| Rep (q : quant) (k : cls) (lo : nat) (hi : option nat)
| GOpen
| GClose.

Definition regex := list node.

Definition below (hi : option nat) (n : nat) : bool :=
  match hi with
  | None => true
  | Some h => (n <? h)%nat
  end.

Definition span := (nat * nat)%type.

(** One quantified class [k{lo,hi}] ([k{lo,hi}?] when lazy) followed by
    the rest of the pattern, [rest].  [n] is the number of repetitions
    taken so far. *)
Fixpoint rep_match (rest : pystr -> nat -> option (nat * span))
    (q : quant) (k : cls) (lo : nat) (hi : option nat)
    (s : pystr) (n pos : nat) {struct s} : option (nat * span) :=
  let stop := fun _ : unit => if (lo <=? n)%nat then rest s pos else None in
  let more := fun _ : unit =>
    match s with
    | c :: s' =>
      if below hi n && cls_match k c
      then rep_match rest q k lo hi s' (S n) (S pos)
      else None
    | [] => None
    end in
  match q with
  | Greedy => match more tt with Some r => Some r | None => stop tt end
  | Lazy => match stop tt with Some r => Some r | None => more tt end
  end.

(** [match_here p s pos g]: match [p] at the head of [s]; [pos] counts the
    characters consumed since the match began and [g] is the span of
    group 1.  The result is the length of the match and the group span. *)
Fixpoint match_here (p : regex) (s : pystr) (pos : nat) (g : span)
  {struct p} : option (nat * span) :=
  match p with
  | [] => Some (pos, g)
  | One k :: p' =>
    match s with
    | c :: s' => if cls_match k c then match_here p' s' (S pos) g else None
    | [] => None
    end
  | GOpen :: p' => match_here p' s pos (pos, snd g)
  | GClose :: p' => match_here p' s pos (fst g, pos)
  | Rep q k lo hi :: p' =>
    rep_match (fun s pos => match_here p' s pos g) q k lo hi s O pos
  end.

(** Replacement templates: literal text and the back-reference [\1]. *)
Inductive rpart := RLit (t : pystr) | RGroup.

Definition expand (r : list rpart) (s : pystr) (g : span) : pystr :=
  flat_map (fun x =>
              match x with
              | RLit t => t
              | RGroup => take (snd g - fst g) (drop (fst g) s)
              end) r.

(** [re.sub(p, r, s)]: scan left to right, replace each leftmost match and
    resume after it.  [skip] is the number of characters of the current
    match still to be dropped.  An empty match copies the character it
    stands before (none of the patterns below can match the empty
    string). *)
Fixpoint sub_from (p : regex) (r : list rpart) (s : pystr) (skip : nat)
  : pystr :=
  match s with
  | [] =>
    match skip, match_here p [] 0 (O, O) with
    | O, Some (_, g) => expand r [] g
    | _, _ => []
    end
  | c :: s' =>
    match skip with
    | S k => sub_from p r s' k
    | O =>
      match match_here p s 0 (O, O) with
      | Some (O, g) => expand r s g ++ c :: sub_from p r s' 0
      | Some (S e, g) => expand r s g ++ sub_from p r s' e
      | None => c :: sub_from p r s' 0
      end
    end
  end.

Definition re_sub (p : regex) (r : list rpart) (s : pystr) : pystr :=
  sub_from p r s 0.

(** ** Paths ([os.path], [pathlib]) *)

(** [os.path.join(a, b)] *)
Definition path_join (a b : pystr) : pystr :=
  if starts_with [SLASH] b then b
  else match a with
       | [] => b
       | _ => if starts_with [SLASH] (rev a) then a ++ b
              else a ++ SLASH :: b
       end.

Fixpoint drop_until_slash (r : pystr) : pystr :=
  match r with
  | [] => []
  | c :: r' => if c =? SLASH then r else drop_until_slash r'
  end.

Fixpoint drop_slashes (r : pystr) : pystr :=
  match r with
  | [] => []
  | c :: r' => if c =? SLASH then drop_slashes r' else r
  end.

(** [os.path.dirname(p)]: the text before the last slash, without its
    trailing slashes unless it consists of slashes only. *)
Definition dirname (p : pystr) : pystr :=
  let head := drop_until_slash (rev p) in
  match drop_slashes head with
  | [] => rev head
  | h => rev h
  end.

(** [Path(p).name]: the last component that is neither empty nor [.] *)
Definition path_name (p : pystr) : pystr :=
  List.last
    (List.filter (fun part => negb (pystr_eqb part [])
                              && negb (pystr_eqb part [DOT]))
                 (split [SLASH] p))
    [].

Fixpoint find_index (c : N) (s : pystr) : option nat :=
  match s with
  | [] => None
  | a :: s' => if a =? c then Some O else option_map S (find_index c s')
  end.

(** [Path(p).stem]: with [i = name.rfind('.')], the name up to [i] when
    [0 < i < len(name) - 1], the whole name otherwise. *)
Definition path_stem (p : pystr) : pystr :=
  let name := path_name p in
  match find_index DOT (rev name) with
  | Some j =>
    let i := (length name - 1 - j)%nat in
    if (0 <? i)%nat && (i <? length name - 1)%nat then take i name else name
  | None => name
  end.

(** ** Data model *)

(** What PyMuPDF sees in a stored file: [fitz.open] raises, or there is a
    document whose pages yield the given texts. *)
Inductive pdf_data :=
| Unreadable (msg : pystr)
| Pages (texts : list pystr).

Inductive fcontent :=
| Binary (d : pdf_data) (size : Z)
| Text (t : pystr).

(** Values of the configuration dictionary. *)
Inductive cfgval := CStr (s : pystr) | CBool (b : bool).

#[global] Instance cfgval_eq_dec : EqDecision cfgval.
Proof. solve_decision. Defined.

#[local] Unset Elimination Schemes.
Inductive json :=
| JStr (s : pystr)
| JInt (n : Z)
| JFloat (q : Q)
| JArr (l : list json)
| JObj (l : list (pystr * json)).
#[local] Set Elimination Schemes.

Record Stats := {
  total_pages : nat;
  text_blocks : nat;
  tables : nat;
  formulas : nat
}.

(** The result dictionary.  A key that a branch does not set is [None].
    Every branch of the repository sets [success]; only a dictionary
    answered by the remote API can lack it: [has_success] tells whether
    the key is there, and [success] is the truth value of its value (not
    looked at when the key is missing). *)
Record Result := {
  success : bool;
  outputs : option (gmap string pystr);
  stats : option Stats;
  method : option pystr;
  error : option pystr;
  traceback : option pystr;
  file_name : option pystr;
  has_success : bool
}.

(** [result['file_name'] = name] *)
Definition set_file_name (r : Result) (name : pystr) : Result :=
  {| success := success r; outputs := outputs r; stats := stats r;
     method := method r; error := error r; traceback := traceback r;
     file_name := Some name; has_success := has_success r |}.

Inductive ui_event :=
| UiWarning (msg : pystr)
| UiSuccess (msg : pystr)
| UiError (msg : pystr).

(** The part of the outside world the code reads and writes: stored files,
    existing directories, the progress bar of the file being processed,
    the messages shown, and the calls of [cleanup_temp_dirs] made so
    far. *)
Record World := {
  files : gmap pystr fcontent;
  dirs : gset pystr;
  progress : list (Q * pystr);
  ui : list ui_event;
  cleanups : list pystr
}.

Inductive exc (A : Type) :=
| Ok (a : A)
| Raise (e : pystr).
Arguments Ok {A} a.
Arguments Raise {A} e.

(** A computation may change the world and either returns or raises
    [Exception(e)]; what it did before raising stays done. *)
Definition M (A : Type) : Type := World -> exc A * World.

Definition ret {A} (a : A) : M A := fun w => (Ok a, w).
Definition raise {A} (e : pystr) : M A := fun w => (Raise e, w).
Definition bind {A B} (m : M A) (k : A -> M B) : M B :=
  fun w =>
    match m w with
    | (Ok a, w') => k a w'
    | (Raise e, w') => (Raise e, w')
    end.

Notation "'let!' x ':=' m 'in' k" := (bind m (fun x => k))
  (at level 10, x pattern, m at level 100, k at level 200).
Notation "m ';;' k" := (bind m (fun _ => k))
  (at level 100, k at level 200, right associativity).

(** [try: body except Exception as e: handler(str(e))] *)
Definition try_except {A} (body : M A) (handler : pystr -> M A) : M A :=
  fun w =>
    match body w with
    | (Ok a, w') => (Ok a, w')
    | (Raise e, w') => handler e w'
    end.

(** [try: body finally: cleanup] *)
Definition try_finally {A} (body : M A) (cleanup : M unit) : M A :=
  fun w =>
    match body w with
    | (r, w1) =>
      match cleanup w1 with
      | (Ok _, w2) => (r, w2)
      | (Raise e, w2) => (Raise e, w2)
      end
    end.

Definition callback := Q -> pystr -> M unit.

(** [if progress_callback: progress_callback(p, msg)] *)
Definition notify (progress_callback : option callback) (p : Q) (msg : pystr)
  : M unit :=
  match progress_callback with
  | Some cb => cb p msg
  | None => ret tt
  end.

(** [update_progress] of both [main] functions: the bar and the status
    text of the file being processed. *)
Definition update_progress : callback :=
  fun p msg w =>
    (Ok tt, {| files := files w; dirs := dirs w;
               progress := progress w ++ [(p, msg)];
               ui := ui w; cleanups := cleanups w |}).

Definition show (e : ui_event) : M unit :=
  fun w =>
    (Ok tt, {| files := files w; dirs := dirs w; progress := progress w;
               ui := ui w ++ [e]; cleanups := cleanups w |}).

(** [st.progress(0)]: a fresh bar for the next file. *)
Definition new_progress_bar : M unit :=
  fun w =>
    (Ok tt, {| files := files w; dirs := dirs w; progress := [];
               ui := ui w; cleanups := cleanups w |}).

(** What [response.json()] does with the body of an answer: it raises,
    or it returns [None], a dictionary, a list, or a string, number or
    boolean (named by its Python type: [str], [int], [float],
    [bool]). *)
Inductive json_body :=
| BadJson                       (* [response.json()] raises *)
| JsonNull                      (* the body is [null] *)
| JsonResult (r : Result)       (* an object *)
| JsonList                      (* an array *)
| JsonScalar (type_name : pystr).

(** A value that is not [None]: a dictionary, or something else, on
    which [value['file_name'] = ...] raises a [TypeError] with the given
    message. *)
Inductive pyvalue :=
| PyDict (r : Result)
| PyOther (setitem_error : pystr).

Definition body_value (body : json_body) : option pyvalue :=
  match body with
  | BadJson | JsonNull => None
  | JsonResult r => Some (PyDict r)
  | JsonList =>
    Some (PyOther (lit "list indices must be integers or slices, not str"))
  | JsonScalar type_name =>
    Some (PyOther ([39] ++ type_name ++ [39]
                   ++ lit " object does not support item assignment"))
  end.

Inductive http_outcome :=
| TransportError (msg : pystr)
| Response (status_code : Z) (body : json_body).

(** What the code takes from its environment: which optional packages
    import, the library functions it calls, the clock, the process
    environment and the operating system's answers. *)
Record Env := {
  fitz_importable : bool;
  mineru_processor_importable : bool;
  magic_pdf_importable : bool;
  markdown_markdown : option (pystr -> pystr);
  json_dumps : json -> pystr;
  json_loads : pystr -> option json;
  do_parse : pystr -> pystr -> cfgval -> cfgval -> gmap pystr fcontent
             -> exc (list (pystr * pystr));
  datetime_now_isoformat : pystr;
  time_strftime : pystr;
  time_time : Q;
  format_exc : pystr -> pystr;
  MINERU_API_URL : option pystr;
  requests_post : pystr -> fcontent -> gmap string cfgval -> http_outcome;
  scandir_rank : pystr -> N;
  mkdtemp : pystr;
  open_error : pystr -> option pystr;
  makedirs_error : pystr -> option pystr;
  rmtree_error : pystr -> option pystr
}.

(** *** Operating-system calls *)

Definition is_under (root p : pystr) : bool :=
  pystr_eqb p root || starts_with (root ++ [SLASH]) p.

(** [os.makedirs(p, exist_ok=True)] *)
Definition os_makedirs (E : Env) (p : pystr) : M unit :=
  fun w =>
    match makedirs_error E p with
    | Some e => (Raise e, w)
    | None =>
      (Ok tt, {| files := files w; dirs := dirs w ∪ {[p]};
                 progress := progress w; ui := ui w;
                 cleanups := cleanups w |})
    end.

(** [with open(p, 'w') as f: f.write(c)] *)
Definition write_file (E : Env) (p : pystr) (c : fcontent) : M unit :=
  fun w =>
    match open_error E p with
    | Some e => (Raise e, w)
    | None =>
      (Ok tt, {| files := <[p := c]> (files w); dirs := dirs w;
                 progress := progress w; ui := ui w;
                 cleanups := cleanups w |})
    end.

(** [os.path.exists(p)] *)
Definition os_path_exists (p : pystr) (w : World) : bool :=
  bool_decide (p ∈ dirs w) || bool_decide (is_Some (files w !! p)).

(** [shutil.rmtree(p)]: the tree under [p] disappears, unless the call
    fails, which leaves it in place. *)
Definition shutil_rmtree (E : Env) (p : pystr) : M unit :=
  fun w =>
    match rmtree_error E p with
    | Some e => (Raise e, w)
    | None =>
      (Ok tt, {| files := filter (fun kv => is_under p kv.1 = false) (files w);
                 dirs := filter (fun d => is_under p d = false) (dirs w);
                 progress := progress w; ui := ui w;
                 cleanups := cleanups w |})
    end.

(** [fitz.open(p)] followed by reading every page. *)
Definition fitz_open (p : pystr) : M (list pystr) :=
  fun w =>
    match files w !! p with
    | Some (Binary (Pages texts) _) => (Ok texts, w)
    | Some (Binary (Unreadable msg) _) => (Raise msg, w)
    | Some (Text _) => (Raise (lit "Failed to open file"), w)
    | None => (Raise (lit "no such file"), w)
    end.

(** [os.path.getsize(p)] *)
Definition os_path_getsize (p : pystr) : M Z :=
  fun w =>
    match files w !! p with
    | Some (Binary _ n) => (Ok n, w)
    | Some (Text t) => (Ok (Z.of_nat (length t)), w)
    | None => (Raise (lit "No such file or directory"), w)
    end.

Definition get_world : M World := fun w => (Ok w, w).

(** [import fitz] *)
Definition import_fitz (E : Env) : M unit :=
  if fitz_importable E then ret tt else raise (lit "No module named 'fitz'").

(** An uploaded file: its name, its size and its bytes (as PyMuPDF will
    read them). *)
Record UploadedFile := {
  name : pystr;
  size : Z;
  getvalue : pdf_data
}.

(** *** The page loop of the two [process_pdf_basic]

    Both functions run the same loop; only the two constants of the
    progress formula differ ([base + (page_num + 1) / total_pages * span]).
    [markdown_content] and [text_content] are the two lists being
    appended to. *)
Fixpoint page_loop (progress_callback : option callback) (base span : Q)
    (total_pages : nat) (pages : list pystr) (page_num : nat)
    (markdown_content text_content : list pystr)
  : M (list pystr * list pystr) :=
  match pages with
  | [] => ret (markdown_content, text_content)
  | page_text :: rest =>
    let '(markdown_content, text_content) :=
      if truthy (strip page_text)
      then (markdown_content
              ++ [lit "# 页面 " ++ str_of_nat (page_num + 1) ++ [NL; NL]
                  ++ page_text ++ [NL; NL]],
            text_content ++ [page_text])
      else (markdown_content, text_content) in
    let progress :=
      (base + inject_Z (Z.of_nat (page_num + 1))
              / inject_Z (Z.of_nat total_pages) * span)%Q in
    notify progress_callback progress
      (lit "处理第 " ++ str_of_nat (page_num + 1) ++ lit "/"
       ++ str_of_nat total_pages ++ lit " 页...") ;;
    page_loop progress_callback base span total_pages rest (S page_num)
              markdown_content text_content
  end.

(** [config.get(key, default)] *)
Definition config_get (config : gmap string cfgval) (key : string)
    (default_value : cfgval) : cfgval :=
  default default_value (config !! key).

(** The messages [main] shows once the loop is over (the statistics
    cards, preview tabs and download buttons are widgets only).  The two
    list comprehensions read [r['success']] of every result first: a
    result without the key raises [KeyError]. *)
Definition result_error (r : Result) : pystr :=
  default (lit "未知错误") (error r).
Definition result_file_name (r : Result) : pystr :=
  default (lit "unknown") (file_name r).

Definition show_results (results : list Result) : M unit :=
  if negb (forallb has_success results) then raise (lit "'success'") else
  let successful_results := List.filter success results in
  let failed_results := List.filter (fun r => negb (success r)) results in
  (match successful_results with
   | [] => ret tt
   | _ => show (UiSuccess (lit "🎉 成功处理 "
                           ++ str_of_nat (length successful_results)
                           ++ lit " 个文件！"))
   end) ;;
  match failed_results with
  | [] => ret tt
  | _ =>
    show (UiError (lit "❌ " ++ str_of_nat (length failed_results)
                   ++ lit " 个文件处理失败")) ;;
    foldr (fun r k =>
             show (UiError (lit "文件 " ++ result_file_name r
                            ++ lit " 处理失败: " ++ result_error r)) ;; k)
          (ret tt) failed_results
  end.

(** [create_temp_dirs] (the same in both entry points) *)
Definition create_temp_dirs (E : Env) : M (pystr * pystr) :=
  let temp_dir := mkdtemp E in
  (fun w => (Ok tt, {| files := files w; dirs := dirs w ∪ {[temp_dir]};
                       progress := progress w; ui := ui w;
                       cleanups := cleanups w |})) ;;
  let input_dir := path_join temp_dir (lit "input") in
  let output_dir := path_join temp_dir (lit "output") in
  os_makedirs E input_dir ;;
  os_makedirs E output_dir ;;
  ret (input_dir, output_dir).

(** [cleanup_temp_dirs] (the same in both entry points); each call is
    recorded in [cleanups]. *)
Definition cleanup_temp_dirs (E : Env) (temp_dir : pystr) : M unit :=
  (fun w => (Ok tt, {| files := files w; dirs := dirs w;
                       progress := progress w; ui := ui w;
                       cleanups := cleanups w ++ [temp_dir] |})) ;;
  try_except
    (let! w := get_world in
     if os_path_exists temp_dir w then shutil_rmtree E temp_dir else ret tt)
    (fun e => show (UiWarning (lit "清理临时文件时出错: " ++ e))).

Module Mineru.

(** *** [MinerUProcessor._markdown_to_text] *)

(* r'#{1,6}\s*' *)
Definition re_heading : regex :=
  [Rep Greedy (CChar HASH) 1 (Some 6%nat); Rep Greedy CSpace 0 None].
(* r'\*\*(.*?)\*\*' *)
Definition re_bold : regex :=
  [One (CChar STAR); One (CChar STAR); GOpen; Rep Lazy CDot 0 None; GClose;
   One (CChar STAR); One (CChar STAR)].
(* r'\*(.*?)\*' *)
Definition re_italic : regex :=
  [One (CChar STAR); GOpen; Rep Lazy CDot 0 None; GClose; One (CChar STAR)].
(* r'`(.*?)`' *)
Definition re_code : regex :=
  [One (CChar BACKTICK); GOpen; Rep Lazy CDot 0 None; GClose;
   One (CChar BACKTICK)].
(* r'\[(.*?)\]\(.*?\)' *)
Definition re_link : regex :=
  [One (CChar LBRACKET); GOpen; Rep Lazy CDot 0 None; GClose;
   One (CChar RBRACKET); One (CChar LPAREN); Rep Lazy CDot 0 None;
   One (CChar RPAREN)].
(* r'\|.*?\|' *)
Definition re_pipes : regex :=
  [One (CChar PIPE); Rep Lazy CDot 0 None; One (CChar PIPE)].
(* r'-{3,}' *)
Definition re_rule : regex := [Rep Greedy (CChar HYPHEN) 3 None].
(* r'\n{3,}' *)
Definition re_blank : regex := [Rep Greedy (CChar NL) 3 None].

Definition _markdown_to_text (markdown_content : pystr) : pystr :=
  let text := re_sub re_heading [] markdown_content in
  let text := re_sub re_bold [RGroup] text in
  let text := re_sub re_italic [RGroup] text in
  let text := re_sub re_code [RGroup] text in
  let text := re_sub re_link [RGroup] text in
  let text := re_sub re_pipes [] text in
  let text := re_sub re_rule [] text in
  let text := re_sub re_blank [RLit [NL; NL]] text in
  strip text.

(** *** [MinerUProcessor._markdown_to_html] *)

Definition styled_html_head : pystr :=
  lit "
<!DOCTYPE html>
<html>
<head>
    <meta charset="
  ++ [DQUOTE]
  ++ lit "UTF-8"
  ++ [DQUOTE]
  ++ lit ">
    <title>PDF 解析结果</title>
    <style>
        body {
            font-family: -apple-system, BlinkMacSystemFont, 'Segoe UI', Roboto, sans-serif;
            line-height: 1.6;
            max-width: 800px;
            margin: 0 auto;
            padding: 20px;
            color: #333;
        }
        h1, h2, h3 { color: #667eea; }
        table {
            border-collapse: collapse;
            width: 100%;
            margin: 20px 0;
        }
        th, td {
            border: 1px solid #ddd;
            padding: 12px;
            text-align: left;
        }
        th { background-color: #f8f9fa; }
        code {
            background-color: #f8f9fa;
            padding: 2px 4px;
            border-radius: 3px;
        }
        blockquote {
            border-left: 4px solid #667eea;
            margin: 0;
            padding-left: 20px;
            color: #666;
        }
    </style>
</head>
<body>
".

Definition styled_html_tail : pystr :=
  lit "
</body>
</html>
".

Definition plain_html_head : pystr :=
  lit "
<!DOCTYPE html>
<html>
<head>
    <meta charset="
  ++ [DQUOTE]
  ++ lit "UTF-8"
  ++ [DQUOTE]
  ++ lit ">
    <title>PDF 解析结果</title>
</head>
<body>
".

Definition plain_html_tail : pystr :=
  lit "
</body>
</html>
".

Definition _markdown_to_html (E : Env) (markdown_content : pystr) : pystr :=
  match markdown_markdown E with
  | Some markdown =>
    let html := markdown markdown_content in
    styled_html_head ++ html ++ styled_html_tail
  | None =>
    (* ImportError: the markdown package is missing *)
    let html_content := replace [NL] (lit "<br>") markdown_content in
    let html_content :=
      replace [NL] (lit "</h1>" ++ [NL])
              (replace (lit "# ") (lit "<h1>") html_content) in
    let html_content :=
      replace [NL] (lit "</h2>" ++ [NL])
              (replace (lit "## ") (lit "<h2>") html_content) in
    let html_content :=
      replace [NL] (lit "</h3>" ++ [NL])
              (replace (lit "### ") (lit "<h3>") html_content) in
    plain_html_head ++ html_content ++ plain_html_tail
  end.

(** *** [MinerUProcessor._calculate_stats] *)

Definition _calculate_stats (outputs : gmap string pystr) : Stats :=
  let markdown_content := default [] (outputs !! "markdown_content"%string) in
  let paragraphs :=
    List.filter (fun p => truthy (strip p)) (split [NL; NL] markdown_content) in
  let table_count := count [PIPE] markdown_content in
  {| total_pages := 1;
     text_blocks := length paragraphs;
     tables :=
       if (0 <? table_count)%nat
       then match count (lit "|---") markdown_content with
            | O => 1%nat
            | n => n
            end
       else O;
     formulas := (count [DOLLAR] markdown_content / 2)%nat |}.

(** *** The demo document of [_create_demo_result] *)

Definition demo_markdown (pdf_name : pystr) : pystr :=
  lit "# "
  ++ pdf_name
  ++ lit " - 演示解析结果

## 📋 文档概述

这是一个演示的 PDF 解析结果。在实际部署中，当 MinerU 引擎可用时，将提供完整的 AI 解析功能。

## 🎯 主要功能

### 文本识别
- 高精度 OCR 文本识别
- 支持中英文混合文档
- 保持原始格式和布局

### 表格解析
| 功能 | 状态 | 说明 |
|------|------|------|
| 表格识别 | ✅ 支持 | 自动识别表格结构 |
| 单元格合并 | ✅ 支持 | 处理复杂表格布局 |
| 数据提取 | ✅ 支持 | 结构化数据输出 |

### 公式识别
数学公式示例：
- 线性方程：$y = ax + b$
- 二次方程：$ax^2 + bx + c = 0$
- 积分公式：$\int_a^b f(x)dx$

## 📊 处理统计

- **总页数**: 演示页面
- **文本块**: 多个文本区域
- **表格数量**: 1个示例表格
- **公式数量**: 3个数学公式

## 🚀 完整功能

要体验完整的 AI 解析功能，请：
1. 安装 MinerU 引擎
2. 配置相关依赖
3. 重新处理文档

---
*这是演示模式的输出结果*
".

Definition demo_json (E : Env) (pdf_name : pystr) : json :=
  JObj [
    (lit "document", JObj [
      (lit "title", JStr pdf_name);
      (lit "type", JStr (lit "demo"));
      (lit "pages", JInt 1);
      (lit "content", JObj [
        (lit "text_blocks", JArr [
          JObj [(lit "type", JStr (lit "heading"));
                (lit "content", JStr (pdf_name ++ lit " - 演示解析结果"))];
          JObj [(lit "type", JStr (lit "paragraph"));
                (lit "content", JStr (lit "这是一个演示的 PDF 解析结果。"))];
          JObj [(lit "type", JStr (lit "table"));
                (lit "content", JStr (lit "示例表格数据"))];
          JObj [(lit "type", JStr (lit "formula"));
                (lit "content", JStr (lit "数学公式示例"))]]);
        (lit "tables", JArr [
          JObj [
            (lit "headers",
             JArr [JStr (lit "功能"); JStr (lit "状态"); JStr (lit "说明")]);
            (lit "rows", JArr [
              JArr [JStr (lit "表格识别"); JStr (lit "✅ 支持");
                    JStr (lit "自动识别表格结构")];
              JArr [JStr (lit "单元格合并"); JStr (lit "✅ 支持");
                    JStr (lit "处理复杂表格布局")];
              JArr [JStr (lit "数据提取"); JStr (lit "✅ 支持");
                    JStr (lit "结构化数据输出")]])]]);
        (lit "formulas", JArr [
          JStr (lit "y = ax + b");
          JStr (lit "ax^2 + bx + c = 0");
          JStr (lit "∫f(x)dx")])])]);
    (lit "metadata", JObj [
      (lit "processed_at", JStr (time_strftime E));
      (lit "method", JStr (lit "demo"));
      (lit "version", JStr (lit "1.0.0"))])].

Definition failure (error_msg : pystr) (tb : option pystr) : Result :=
  {| success := false; outputs := None; stats := None; method := None;
     error := Some error_msg; traceback := tb; file_name := None;
     has_success := true |}.

Definition _create_demo_result (E : Env) (pdf_path output_dir : pystr)
    (progress_callback : option callback) : M Result :=
  try_except
    (let pdf_name := path_stem pdf_path in
     notify progress_callback (3 # 10) (lit "生成演示内容...") ;;
     let markdown_content := demo_markdown pdf_name in
     notify progress_callback (6 # 10) (lit "生成输出文件...") ;;
     let markdown_file := path_join output_dir (pdf_name ++ lit ".md") in
     write_file E markdown_file (Text markdown_content) ;;
     let html_content := _markdown_to_html E markdown_content in
     let html_file := path_join output_dir (pdf_name ++ lit ".html") in
     write_file E html_file (Text html_content) ;;
     let text_content := _markdown_to_text markdown_content in
     let text_file := path_join output_dir (pdf_name ++ lit ".txt") in
     write_file E text_file (Text text_content) ;;
     let json_data := demo_json E pdf_name in
     let json_file := path_join output_dir (pdf_name ++ lit ".json") in
     write_file E json_file (Text (json_dumps E json_data)) ;;
     notify progress_callback 1 (lit "演示结果生成完成！") ;;
     ret {| success := true;
            outputs := Some (
              <["markdown_content"%string := markdown_content]> (
              <["html_content"%string := html_content]> (
              <["text_content"%string := text_content]> (
              <["json_content"%string := json_dumps E json_data]> (
              <["markdown"%string := markdown_file]> (
              <["html"%string := html_file]> (
              <["text"%string := text_file]> (
              <["json"%string := json_file]> ∅))))))));
            stats := Some {| total_pages := 1; text_blocks := 4;
                             tables := 1; formulas := 3 |};
            method := Some (lit "demo");
            error := None; traceback := None; file_name := None;
            has_success := true |})
    (fun e => raise (lit "生成演示结果失败: " ++ e)).

(** *** [_process_mineru_output] *)

Definition ends_with (suf s : pystr) : bool :=
  starts_with (rev suf) (rev s).

(** The loop [for root, dirs, files in os.walk(output_dir): for file in
    files], as the list of the paths [os.path.join(root, file)] it
    visits.  The walk is top-down: the files of a directory come first,
    then the trees of its subdirectories, one after the other; the
    entries of one directory come in the order [os.scandir] lists them,
    which is the operating system's ([scandir_rank], on the paths of the
    entries). *)

(** A path relative to a directory, cut at its first slash: the name of
    the entry, and what follows when the entry is a subdirectory. *)
Fixpoint cut_slash (p : pystr) : pystr * option pystr :=
  match p with
  | [] => ([], None)
  | c :: p' =>
    if c =? SLASH then ([], Some p')
    else let '(a, b) := cut_slash p' in (c :: a, b)
  end.

Definition rank_le (E : Env) (a b : pystr) : Prop :=
  (scandir_rank E a <= scandir_rank E b)%N.

#[global] Instance rank_le_dec E a b : Decision (rank_le E a b).
Proof. unfold rank_le. apply _. Defined.

Definition by_rank (E : Env) (l : list pystr) : list pystr :=
  merge_sort (rank_le E) l.

(** [root] ends with a slash; [rels] are the paths, relative to [root],
    of the files stored below it. *)
Fixpoint walk_tree (E : Env) (fuel : nat) (root : pystr)
    (rels : list pystr) : list pystr :=
  match fuel with
  | O => []
  | S fuel' =>
    let entries := map cut_slash rels in
    let files :=
      omap (fun e => match e with
                     | (file, None) => Some (root ++ file)
                     | _ => None
                     end) entries in
    let dirs :=
      remove_dups
        (omap (fun e => match e with
                        | (d, Some _) => Some (root ++ d)
                        | _ => None
                        end) entries) in
    by_rank E files
    ++ flat_map
         (fun d =>
            walk_tree E fuel' (d ++ [SLASH])
              (omap (fun e => match e with
                              | (n, Some rest) =>
                                if pystr_eqb (root ++ n) d then Some rest
                                else None
                              | _ => None
                              end) entries))
         (by_rank E dirs)
  end.

(** The files below [output_dir] are those whose path starts with
    [output_dir] and a slash (with [output_dir] itself when it ends with
    one). *)
Definition os_walk (E : Env) (output_dir : pystr) (w : World)
  : list pystr :=
  match output_dir with
  | [] => []
  | _ =>
    let root :=
      if ends_with [SLASH] output_dir then output_dir
      else output_dir ++ [SLASH] in
    let rels :=
      omap (fun p => if starts_with root p && negb (pystr_eqb p root)
                     then Some (drop (length root) p) else None)
           (map_to_list (files w)).*1 in
    walk_tree E (S (list_max (map length rels))) root rels
  end.

(** The two assignments of the walking loop: the last [.md] file and the
    last [.json] file seen are kept. *)
Fixpoint scan_outputs (paths : list pystr)
    (markdown_file json_file : option pystr)
  : option pystr * option pystr :=
  match paths with
  | [] => (markdown_file, json_file)
  | file_path :: rest =>
    if ends_with (lit ".md") file_path
    then scan_outputs rest (Some file_path) json_file
    else if ends_with (lit ".json") file_path
         then scan_outputs rest markdown_file (Some file_path)
         else scan_outputs rest markdown_file json_file
  end.

(** [open(p, 'r', encoding='utf-8').read()] *)
Definition read_text (p : pystr) : M pystr :=
  fun w =>
    match files w !! p with
    | Some (Text t) => (Ok t, w)
    | Some (Binary _ _) => (Raise (lit "codec can't decode"), w)
    | None => (Raise (lit "No such file or directory"), w)
    end.

Definition _process_mineru_output (E : Env) (output_dir pdf_path : pystr)
  : M (gmap string pystr) :=
  let outputs : gmap string pystr := ∅ in
  let pdf_name := path_stem pdf_path in
  let! w := get_world in
  let '(markdown_file, json_file) :=
    scan_outputs (os_walk E output_dir w) None None in
  let! outputs :=
    match markdown_file with
    | Some f =>
      if truthy f && os_path_exists f w
      then let! markdown_content := read_text f in
           ret (<["markdown"%string := f]>
                  (<["markdown_content"%string := markdown_content]> outputs))
      else ret (<["markdown_content"%string :=
                    lit "# 处理结果" ++ [NL; NL]
                    ++ lit "未能生成 Markdown 内容。"]> outputs)
    | None =>
      ret (<["markdown_content"%string :=
              lit "# 处理结果" ++ [NL; NL] ++ lit "未能生成 Markdown 内容。"]> outputs)
    end in
  let! outputs :=
    match json_file with
    | Some f =>
      if truthy f && os_path_exists f w
      then let! text := read_text f in
           match json_loads E text with
           | Some json_data =>
             ret (<["json"%string := f]>
                    (<["json_content"%string := json_dumps E json_data]>
                       outputs))
           | None => raise (lit "Expecting value")
           end
      else ret (<["json_content"%string :=
                    lit "{" ++ [DQUOTE] ++ lit "message" ++ [DQUOTE]
                    ++ lit ": " ++ [DQUOTE] ++ lit "未能生成 JSON 数据"
                    ++ [DQUOTE] ++ lit "}"]> outputs)
    | None =>
      ret (<["json_content"%string :=
              lit "{" ++ [DQUOTE] ++ lit "message" ++ [DQUOTE] ++ lit ": "
              ++ [DQUOTE] ++ lit "未能生成 JSON 数据" ++ [DQUOTE]
              ++ lit "}"]> outputs)
    end in
  let html_content :=
    _markdown_to_html E (default [] (outputs !! "markdown_content"%string)) in
  let html_file := path_join output_dir (pdf_name ++ lit ".html") in
  write_file E html_file (Text html_content) ;;
  let outputs :=
    <["html"%string := html_file]>
      (<["html_content"%string := html_content]> outputs) in
  let text_content :=
    _markdown_to_text (default [] (outputs !! "markdown_content"%string)) in
  let text_file := path_join output_dir (pdf_name ++ lit ".txt") in
  write_file E text_file (Text text_content) ;;
  let outputs :=
    <["text"%string := text_file]>
      (<["text_content"%string := text_content]> outputs) in
  ret outputs.

(** *** [_process_with_mineru] *)

(** The call of the external engine: it raises, or it leaves its output
    files in the world. *)
Definition run_do_parse (E : Env) (pdf_path output_dir : pystr)
    (method lang : cfgval) : M unit :=
  fun w =>
    match do_parse E pdf_path output_dir method lang (files w) with
    | Raise e => (Raise e, w)
    | Ok produced =>
      (Ok tt, {| files := foldr (fun kv m => <[kv.1 := Text kv.2]> m)
                                (files w) produced;
                 dirs := dirs w; progress := progress w; ui := ui w;
                 cleanups := cleanups w |})
    end.

Definition _process_with_mineru (E : Env) (pdf_path output_dir : pystr)
    (language parse_method formula_enable table_enable : cfgval)
    (progress_callback : option callback) : M Result :=
  try_except
    (notify progress_callback (2 # 10) (lit "配置 MinerU 参数...") ;;
     let lang :=
       if negb (bool_decide (language = CStr (lit "auto"))) then language
       else CStr (lit "ch") in
     notify progress_callback (3 # 10) (lit "开始解析 PDF...") ;;
     run_do_parse E pdf_path output_dir parse_method lang ;;
     notify progress_callback (8 # 10) (lit "生成输出文件...") ;;
     let! outputs := _process_mineru_output E output_dir pdf_path in
     notify progress_callback 1 (lit "处理完成！") ;;
     ret {| success := true;
            outputs := Some outputs;
            stats := Some (_calculate_stats outputs);
            method := Some (lit "mineru");
            error := None; traceback := None; file_name := None;
            has_success := true |})
    (fun e => raise (lit "MinerU 处理失败: " ++ e)).

(** *** [MinerUProcessor] *)

Record MinerUProcessor := { mineru_available : bool }.

(** [__init__] with [setup_mineru]: the engine is available when
    [magic_pdf] imports. *)
Definition new_processor (E : Env) : MinerUProcessor :=
  {| mineru_available := magic_pdf_importable E |}.

Definition process_pdf (E : Env) (self : MinerUProcessor)
    (pdf_path output_dir : pystr)
    (language parse_method formula_enable table_enable : cfgval)
    (progress_callback : option callback) : M Result :=
  try_except
    (notify progress_callback (1 # 10) (lit "初始化处理器...") ;;
     os_makedirs E output_dir ;;
     if negb (mineru_available self)
     then _create_demo_result E pdf_path output_dir progress_callback
     else _process_with_mineru E pdf_path output_dir language parse_method
                               formula_enable table_enable progress_callback)
    (fun e =>
       let error_msg := lit "处理 PDF 时出错: " ++ e in
       notify progress_callback 1 (lit "处理失败: " ++ e) ;;
       ret (failure error_msg (Some (format_exc E e)))).

End Mineru.

Module App.

(** [MINERU_AVAILABLE]: whether [from mineru_processor import
    MinerUProcessor] succeeded at start-up. *)
Definition MINERU_AVAILABLE (E : Env) : bool := mineru_processor_importable E.

Definition html_head : pystr :=
  lit "
<!DOCTYPE html>
<html>
<head>
    <meta charset="
  ++ [DQUOTE]
  ++ lit "UTF-8"
  ++ [DQUOTE]
  ++ lit ">
    <title>PDF 解析结果</title>
    <style>
        body { 
            font-family: -apple-system, BlinkMacSystemFont, 'Segoe UI', Roboto, sans-serif;
            line-height: 1.6; 
            max-width: 800px; 
            margin: 0 auto; 
            padding: 20px;
            color: #333;
        }
        h1 { 
            color: #667eea; 
            border-bottom: 2px solid #667eea;
            padding-bottom: 10px;
        }
        h2 { color: #764ba2; }
        p { margin: 1rem 0; }
    </style>
</head>
<body>
    <h1>PDF 解析结果</h1>
    <div>".

Definition html_tail : pystr :=
  lit "</div>
</body>
</html>
".

Definition process_pdf_basic (E : Env) (pdf_path output_dir : pystr)
    (config : gmap string cfgval) (progress_callback : option callback)
  : M Result :=
  try_except
    (import_fitz E ;;
     notify progress_callback (1 # 10) (lit "初始化基础处理器...") ;;
     let! doc := fitz_open pdf_path in
     let total_pages := length doc in
     notify progress_callback (2 # 10)
       (lit "开始处理 " ++ str_of_nat total_pages ++ lit " 页内容...") ;;
     let! (markdown_content, text_content) :=
       page_loop progress_callback (2 # 10) (6 # 10) total_pages doc 0 [] [] in
     notify progress_callback (9 # 10) (lit "生成输出文件...") ;;
     let full_markdown := join [] markdown_content in
     let full_text := join [NL; NL] text_content in
     let html_content :=
       html_head ++ replace [NL] (lit "<br>") full_text ++ html_tail in
     let! file_size := os_path_getsize pdf_path in
     let json_data :=
       JObj [
         (lit "document", JObj [
           (lit "title", JStr (path_stem pdf_path));
           (lit "pages", JInt (Z.of_nat total_pages));
           (lit "processed_at", JStr (datetime_now_isoformat E));
           (lit "method", JStr (lit "basic_extraction"));
           (lit "processor", JStr (lit "PyMuPDF"))]);
         (lit "content", JObj [
           (lit "text", JStr full_text);
           (lit "markdown", JStr full_markdown)]);
         (lit "metadata", JObj [
           (lit "file_size", JInt file_size);
           (lit "processing_time", JFloat (time_time E))])] in
     notify progress_callback 1 (lit "处理完成！") ;;
     ret {| success := true;
            outputs := Some (
              <["markdown_content"%string := full_markdown]> (
              <["html_content"%string := html_content]> (
              <["text_content"%string := full_text]> (
              <["json_content"%string := json_dumps E json_data]> ∅))));
            stats := Some {|
              total_pages := total_pages;
              text_blocks :=
                length (List.filter (fun p => truthy (strip p)) text_content);
              tables := 0;
              formulas := 0 |};
            method := Some (lit "basic");
            error := None; traceback := None; file_name := None;
            has_success := true |})
    (fun e => raise (lit "基础处理失败: " ++ e)).

Definition process_pdf_file (E : Env) (pdf_path output_dir : pystr)
    (config : gmap string cfgval) (progress_callback : option callback)
  : M Result :=
  try_except
    (if MINERU_AVAILABLE E
     then
       let processor := Mineru.new_processor E in
       Mineru.process_pdf E processor pdf_path output_dir
         (config_get config "language" (CStr (lit "ch")))
         (config_get config "parse_method" (CStr (lit "auto")))
         (config_get config "formula_enable" (CBool true))
         (config_get config "table_enable" (CBool true))
         progress_callback
     else process_pdf_basic E pdf_path output_dir config progress_callback)
    (fun e =>
       let error_msg := lit "处理 PDF 时出错: " ++ e in
       notify progress_callback 1 (lit "处理失败: " ++ e) ;;
       ret (Mineru.failure error_msg (Some (format_exc E e)))).

(** One turn of the loop over [uploaded_files] in [main]. *)
Definition process_upload (E : Env) (config : gmap string cfgval)
    (input_dir output_dir : pystr) (uploaded_file : UploadedFile) : M Result :=
  let pdf_path := path_join input_dir (name uploaded_file) in
  write_file E pdf_path
             (Binary (getvalue uploaded_file) (size uploaded_file)) ;;
  new_progress_bar ;;
  let file_output_dir :=
    path_join output_dir (path_stem (name uploaded_file)) in
  os_makedirs E file_output_dir ;;
  let! result :=
    process_pdf_file E pdf_path file_output_dir config (Some update_progress) in
  ret (set_file_name result (name uploaded_file)).

Fixpoint process_uploads (E : Env) (config : gmap string cfgval)
    (input_dir output_dir : pystr) (uploaded_files : list UploadedFile)
    (results : list Result) : M (list Result) :=
  match uploaded_files with
  | [] => ret results
  | uploaded_file :: rest =>
    let! result := process_upload E config input_dir output_dir uploaded_file in
    process_uploads E config input_dir output_dir rest (results ++ [result])
  end.

(** The body of [main] once the start button is pressed: workspace,
    loop, messages, and the [finally] block.  The list of results is
    returned so that properties of the batch can be stated. *)
Definition main_batch (E : Env) (config : gmap string cfgval)
    (uploaded_files : list UploadedFile) : M (list Result) :=
  let! (input_dir, output_dir) := create_temp_dirs E in
  let temp_base_dir := dirname input_dir in
  try_finally
    (let! results :=
       process_uploads E config input_dir output_dir uploaded_files [] in
     show_results results ;;
     ret results)
    (cleanup_temp_dirs E temp_base_dir).

End App.

Module Vercel.

Definition html_head : pystr :=
  lit "
<!DOCTYPE html>
<html>
<head>
    <meta charset="
  ++ [DQUOTE]
  ++ lit "UTF-8"
  ++ [DQUOTE]
  ++ lit ">
    <title>PDF 解析结果</title>
    <style>
        body { font-family: Arial, sans-serif; line-height: 1.6; max-width: 800px; margin: 0 auto; padding: 20px; }
        h1 { color: #333; border-bottom: 2px solid #667eea; }
    </style>
</head>
<body>
    <h1>PDF 解析结果</h1>
    <div>".

Definition html_tail : pystr :=
  lit "</div>
</body>
</html>
".

Definition failure (error_msg : pystr) : Result :=
  {| success := false; outputs := None; stats := None; method := None;
     error := Some error_msg; traceback := None; file_name := None;
     has_success := true |}.

Definition process_pdf_basic (E : Env) (pdf_path output_dir : pystr)
    (config : gmap string cfgval) (progress_callback : option callback)
  : M Result :=
  try_except
    (notify progress_callback (1 # 10) (lit "初始化处理器...") ;;
     import_fitz E ;;
     notify progress_callback (3 # 10) (lit "读取 PDF 文件...") ;;
     let! doc := fitz_open pdf_path in
     let total_pages := length doc in
     notify progress_callback (4 # 10)
       (lit "处理 " ++ str_of_nat total_pages ++ lit " 页内容...") ;;
     let! (markdown_content, text_content) :=
       page_loop progress_callback (4 # 10) (4 # 10) total_pages doc 0 [] [] in
     notify progress_callback (9 # 10) (lit "生成输出文件...") ;;
     let full_markdown := join [] markdown_content in
     let full_text := join [NL; NL] text_content in
     let html_content :=
       html_head ++ replace [NL] (lit "<br>") full_text ++ html_tail in
     let json_data :=
       JObj [
         (lit "document", JObj [
           (lit "title", JStr (path_stem pdf_path));
           (lit "pages", JInt (Z.of_nat total_pages));
           (lit "processed_at", JStr (datetime_now_isoformat E));
           (lit "method", JStr (lit "basic_extraction"))]);
         (lit "content", JObj [
           (lit "text", JStr full_text);
           (lit "markdown", JStr full_markdown)])] in
     notify progress_callback 1 (lit "处理完成！") ;;
     ret {| success := true;
            outputs := Some (
              <["markdown_content"%string := full_markdown]> (
              <["html_content"%string := html_content]> (
              <["text_content"%string := full_text]> (
              <["json_content"%string := json_dumps E json_data]> ∅))));
            stats := Some {|
              total_pages := total_pages;
              text_blocks :=
                length (List.filter (fun p => truthy (strip p)) text_content);
              tables := 0;
              formulas := 0 |};
            method := Some (lit "basic");
            error := None; traceback := None; file_name := None;
            has_success := true |})
    (fun e =>
       let error_msg := lit "处理 PDF 时出错: " ++ e in
       notify progress_callback 1 (lit "处理失败: " ++ e) ;;
       ret (failure error_msg)).

(** [open(pdf_path, 'rb')] *)
Definition open_rb (p : pystr) : M fcontent :=
  fun w =>
    match files w !! p with
    | Some c => (Ok c, w)
    | None => (Raise (lit "No such file or directory"), w)
    end.

(** [call_mineru_api]: [None] stands for Python's [None]. *)
Definition call_mineru_api (E : Env) (pdf_path : pystr)
    (config : gmap string cfgval) (progress_callback : option callback)
  : M (option pyvalue) :=
  try_except
    (match MINERU_API_URL E with
     | None => ret None
     | Some api_url =>
       if negb (truthy api_url) then ret None
       else
         notify progress_callback (2 # 10) (lit "连接 MinerU API 服务...") ;;
         let! f := open_rb pdf_path in
         match requests_post E (api_url ++ lit "/process") f config with
         | TransportError msg => raise msg
         | Response status_code body =>
           if (status_code =? 200)%Z
           then
             match body with
             | BadJson => raise (lit "Expecting value")
             | _ =>
               let result := body_value body in
               notify progress_callback 1 (lit "API 处理完成！") ;;
               ret result
             end
           else ret None
         end
     end)
    (fun e => ret None).

(** One turn of the loop over [uploaded_files] in [main]. *)
Definition process_upload (E : Env) (processing_mode : pystr)
    (config : gmap string cfgval) (input_dir output_dir : pystr)
    (uploaded_file : UploadedFile) : M Result :=
  let pdf_path := path_join input_dir (name uploaded_file) in
  write_file E pdf_path
             (Binary (getvalue uploaded_file) (size uploaded_file)) ;;
  new_progress_bar ;;
  let! result :=
    if pystr_eqb processing_mode (lit "api")
    then
      let! result := call_mineru_api E pdf_path config (Some update_progress) in
      match result with
      | None =>
        show (UiWarning (lit "API 服务不可用，切换到基础模式")) ;;
        let! result :=
          process_pdf_basic E pdf_path output_dir config
                            (Some update_progress) in
        ret (PyDict result)
      | Some result => ret result
      end
    else
      let! result :=
        process_pdf_basic E pdf_path output_dir config
                          (Some update_progress) in
      ret (PyDict result) in
  match result with
  | PyDict result => ret (set_file_name result (name uploaded_file))
  | PyOther setitem_error => raise setitem_error
  end.

Fixpoint process_uploads (E : Env) (processing_mode : pystr)
    (config : gmap string cfgval) (input_dir output_dir : pystr)
    (uploaded_files : list UploadedFile) (results : list Result)
  : M (list Result) :=
  match uploaded_files with
  | [] => ret results
  | uploaded_file :: rest =>
    let! result :=
      process_upload E processing_mode config input_dir output_dir
                     uploaded_file in
    process_uploads E processing_mode config input_dir output_dir rest
                    (results ++ [result])
  end.

(** The configuration [main] builds from the sidebar. *)
Definition make_config (language processing_mode : pystr)
  : gmap string cfgval :=
  <["language"%string := CStr language]>
    (<["processing_mode"%string := CStr processing_mode]> ∅).

(** The body of [main] once the start button is pressed. *)
Definition main_batch (E : Env) (language processing_mode : pystr)
    (uploaded_files : list UploadedFile) : M (list Result) :=
  let config := make_config language processing_mode in
  let! (input_dir, output_dir) := create_temp_dirs E in
  let temp_base_dir := dirname input_dir in
  try_finally
    (let! results :=
       process_uploads E processing_mode config input_dir output_dir
                       uploaded_files [] in
     show_results results ;;
     ret results)
    (cleanup_temp_dirs E temp_base_dir).

End Vercel.

(** ** Auxiliary notions for the statements below *)

(** The characters a pattern can start a match with, and whether it can
    match the empty string (both over-approximated). *)
Fixpoint can_start (p : regex) (c : N) : bool :=
  match p with
  | [] => true
  | One k :: _ => cls_match k c
  | Rep _ k lo _ :: p' =>
    cls_match k c || match lo with O => can_start p' c | S _ => false end
  | GOpen :: p' => can_start p' c
  | GClose :: p' => can_start p' c
  end.

Fixpoint nullable (p : regex) : bool :=
  match p with
  | [] => true
  | One _ :: _ => false
  | Rep _ _ lo _ :: p' => match lo with O => nullable p' | S _ => false end
  | GOpen :: p' => nullable p'
  | GClose :: p' => nullable p'
  end.

(** The characters that open one of the Markdown constructs
    [_markdown_to_text] removes. *)
Definition is_marker (c : N) : bool :=
  (c =? HASH) || (c =? STAR) || (c =? BACKTICK) || (c =? LBRACKET)
  || (c =? PIPE) || (c =? HYPHEN).

(** Text without any marker character. *)
Definition plain (s : pystr) : bool := forallb (fun c => negb (is_marker c)) s.

(** Text without marker characters and without line breaks. *)
Definition inline (s : pystr) : bool :=
  forallb (fun c => negb (is_marker c) && negb (c =? NL)) s.

(** The leading whitespace of a string: [s = take_ws s ++ lstrip s]. *)
Fixpoint take_ws (s : pystr) : pystr :=
  match s with
  | [] => []
  | c :: s' => if isspace c then c :: take_ws s' else []
  end.

(** No three consecutive newline characters. *)
Fixpoint nl3_free (s : pystr) : bool :=
  match s with
  | [] => true
  | a :: t => negb (starts_with [NL; NL; NL] s) && nl3_free t
  end.

(** The number of newline characters a string begins with, and what
    follows them. *)
Fixpoint nlrun (s : pystr) : nat :=
  match s with
  | [] => O
  | c :: s' => if c =? NL then S (nlrun s') else O
  end.

Fixpoint drop_nl (s : pystr) : pystr :=
  match s with
  | [] => []
  | c :: s' => if c =? NL then drop_nl s' else s
  end.

(** [d] does not occur in [s]. *)
Definition lacks (d : N) (s : pystr) : bool :=
  forallb (fun c => negb (c =? d)) s.

Definition not_headed (c : N) (t : pystr) : Prop :=
  match t with [] => True | a :: _ => a <> c end.

(** The blank-line pass on its own. *)
Definition collapse (s : pystr) : pystr :=
  sub_from Mineru.re_blank [RLit [NL; NL]] s 0.

(** The seven marker passes of [_markdown_to_text], before blank lines
    are collapsed and the result is stripped. *)
Definition strip_markers (s : pystr) : pystr :=
  re_sub Mineru.re_rule []
    (re_sub Mineru.re_pipes []
       (re_sub Mineru.re_link [RGroup]
          (re_sub Mineru.re_code [RGroup]
             (re_sub Mineru.re_italic [RGroup]
                (re_sub Mineru.re_bold [RGroup]
                   (re_sub Mineru.re_heading [] s)))))).

Definition unmarked (s : pystr) : Prop :=
  Forall (fun c => is_marker c = false) s.

(** The shape of the italic and inline-code patterns: [d(.*?)d]. *)
Definition wrap1 (d : N) : regex :=
  [One (CChar d); GOpen; Rep Lazy CDot 0 None; GClose; One (CChar d)].

(** *** Notions used to describe runs *)

(** The world after the progress callback of [main] received [evs]. *)
Definition add_progress (evs : list (Q * pystr)) (w : World) : World :=
  {| files := files w; dirs := dirs w; progress := progress w ++ evs;
     ui := ui w; cleanups := cleanups w |}.

(** A page with extractable text: [page_text.strip()] is not empty. *)
Definition nonblank (page_text : pystr) : bool := truthy (strip page_text).

(** The Markdown block of one page. *)
Definition page_block (page_num : nat) (page_text : pystr) : pystr :=
  lit "# 页面 " ++ str_of_nat (page_num + 1) ++ [NL; NL] ++ page_text
  ++ [NL; NL].

Fixpoint page_blocks (pages : list pystr) (page_num : nat) : list pystr :=
  match pages with
  | [] => []
  | page_text :: rest =>
    (if nonblank page_text then [page_block page_num page_text] else [])
    ++ page_blocks rest (S page_num)
  end.

(** The progress event of one page. *)
Definition page_event (base span : Q) (total_pages page_num : nat)
  : Q * pystr :=
  ((base + inject_Z (Z.of_nat (page_num + 1))
           / inject_Z (Z.of_nat total_pages) * span)%Q,
   lit "处理第 " ++ str_of_nat (page_num + 1) ++ lit "/"
   ++ str_of_nat total_pages ++ lit " 页...").

Fixpoint page_events (base span : Q) (total_pages : nat)
    (pages : list pystr) (page_num : nat) : list (Q * pystr) :=
  match pages with
  | [] => []
  | _ :: rest =>
    page_event base span total_pages page_num
    :: page_events base span total_pages rest (S page_num)
  end.

(** [html] holds an opening [<html>] tag and, after it, a closing one. *)
Definition html_wrapped (html : pystr) : Prop :=
  exists a b c, html = a ++ lit "<html>" ++ b ++ lit "</html>" ++ c.

(** The first occurrence of [sub] in [s]: what stands before and after. *)
Fixpoint cut_at (sub s : pystr) : option (pystr * pystr) :=
  if starts_with sub s then Some ([], drop (length sub) s)
  else match s with
       | [] => None
       | c :: s' =>
         match cut_at sub s' with
         | Some (a, b) => Some (c :: a, b)
         | None => None
         end
       end.

(** The value stored under a key of [outputs], when there is one. *)
Definition output (key : string) (r : Result) : option pystr :=
  match outputs r with
  | Some o => o !! key
  | None => None
  end.

(** The result of a run, when it returned one. *)
Definition returned {A} (x : exc A * World) : option A :=
  match x.1 with
  | Ok a => Some a
  | Raise _ => None
  end.

(** The progress values, in the order they were emitted. *)
Definition fractions (w : World) : list Q := map fst (progress w).

Fixpoint nondecreasing (l : list Q) : Prop :=
  match l with
  | [] => True
  | a :: rest =>
    match rest with
    | [] => True
    | b :: _ => (a <= b)%Q
    end /\ nondecreasing rest
  end.

(** What the progress callback receives from the two basic branches on a
    readable document. *)
Definition vercel_basic_events (pages : list pystr) : list (Q * pystr) :=
  [(1 # 10, lit "初始化处理器...");
   (3 # 10, lit "读取 PDF 文件...");
   (4 # 10, lit "处理 " ++ str_of_nat (length pages) ++ lit " 页内容...")]
  ++ page_events (4 # 10) (4 # 10) (length pages) pages 0
  ++ [(9 # 10, lit "生成输出文件..."); (1%Q, lit "处理完成！")].

Definition app_basic_events (pages : list pystr) : list (Q * pystr) :=
  [(1 # 10, lit "初始化基础处理器...");
   (2 # 10, lit "开始处理 " ++ str_of_nat (length pages) ++ lit " 页内容...")]
  ++ page_events (2 # 10) (6 # 10) (length pages) pages 0
  ++ [(9 # 10, lit "生成输出文件..."); (1%Q, lit "处理完成！")].

(** The statistics of the basic branches. *)
Definition basic_stats (pages : list pystr) : Stats :=
  {| total_pages := length pages;
     text_blocks := length (List.filter nonblank pages);
     tables := 0;
     formulas := 0 |}.

(** What [fitz.open] finds under a path: the page texts and the size of
    the file, or the message of the exception. *)
Definition stored_pdf (fs : gmap pystr fcontent) (p : pystr)
  : exc (list pystr * Z) :=
  match fs !! p with
  | Some (Binary (Pages texts) n) => Ok (texts, n)
  | Some (Binary (Unreadable msg) _) => Raise msg
  | Some (Text _) => Raise (lit "Failed to open file")
  | None => Raise (lit "no such file")
  end.

(** [import fitz] followed by [fitz.open]. *)
Definition opened (E : Env) (fs : gmap pystr fcontent) (p : pystr)
  : exc (list pystr * Z) :=
  if fitz_importable E then stored_pdf fs p
  else Raise (lit "No module named 'fitz'").

(** The dictionaries the two basic branches return for a document with
    the given pages. *)
Definition vercel_basic_success (E : Env) (pdf_path : pystr)
    (pages : list pystr) : Result :=
  let full_markdown := join [] (page_blocks pages 0) in
  let full_text := join [NL; NL] (List.filter nonblank pages) in
  {| success := true;
     outputs := Some (
       <["markdown_content"%string := full_markdown]> (
       <["html_content"%string :=
           Vercel.html_head ++ replace [NL] (lit "<br>") full_text
           ++ Vercel.html_tail]> (
       <["text_content"%string := full_text]> (
       <["json_content"%string :=
           json_dumps E (JObj [
             (lit "document", JObj [
               (lit "title", JStr (path_stem pdf_path));
               (lit "pages", JInt (Z.of_nat (length pages)));
               (lit "processed_at", JStr (datetime_now_isoformat E));
               (lit "method", JStr (lit "basic_extraction"))]);
             (lit "content", JObj [
               (lit "text", JStr full_text);
               (lit "markdown", JStr full_markdown)])])]> ∅))));
     stats := Some (basic_stats pages);
     method := Some (lit "basic");
     error := None; traceback := None; file_name := None;
     has_success := true |}.

Definition app_basic_success (E : Env) (pdf_path : pystr)
    (pages : list pystr) (file_size : Z) : Result :=
  let full_markdown := join [] (page_blocks pages 0) in
  let full_text := join [NL; NL] (List.filter nonblank pages) in
  {| success := true;
     outputs := Some (
       <["markdown_content"%string := full_markdown]> (
       <["html_content"%string :=
           App.html_head ++ replace [NL] (lit "<br>") full_text
           ++ App.html_tail]> (
       <["text_content"%string := full_text]> (
       <["json_content"%string :=
           json_dumps E (JObj [
             (lit "document", JObj [
               (lit "title", JStr (path_stem pdf_path));
               (lit "pages", JInt (Z.of_nat (length pages)));
               (lit "processed_at", JStr (datetime_now_isoformat E));
               (lit "method", JStr (lit "basic_extraction"));
               (lit "processor", JStr (lit "PyMuPDF"))]);
             (lit "content", JObj [
               (lit "text", JStr full_text);
               (lit "markdown", JStr full_markdown)]);
             (lit "metadata", JObj [
               (lit "file_size", JInt file_size);
               (lit "processing_time", JFloat (time_time E))])])]> ∅))));
     stats := Some (basic_stats pages);
     method := Some (lit "basic");
     error := None; traceback := None; file_name := None;
     has_success := true |}.

(** What the progress callback receives when a basic branch fails with
    message [e]. *)
Definition vercel_failure_events (E : Env) (e : pystr) : list (Q * pystr) :=
  [(1 # 10, lit "初始化处理器...")]
  ++ (if fitz_importable E then [(3 # 10, lit "读取 PDF 文件...")] else [])
  ++ [(1%Q, lit "处理失败: " ++ e)].

Definition app_failure_events (E : Env) (e : pystr) : list (Q * pystr) :=
  (if fitz_importable E then [(1 # 10, lit "初始化基础处理器...")] else [])
  ++ [(1%Q, lit "处理失败: " ++ lit "基础处理失败: " ++ e)].

(** The dictionary [_create_demo_result] returns for a file stem. *)
Definition demo_result (E : Env) (pdf_name output_dir : pystr) : Result :=
  let markdown_content := Mineru.demo_markdown pdf_name in
  {| success := true;
     outputs := Some (
       <["markdown_content"%string := markdown_content]> (
       <["html_content"%string :=
           Mineru._markdown_to_html E markdown_content]> (
       <["text_content"%string :=
           Mineru._markdown_to_text markdown_content]> (
       <["json_content"%string :=
           json_dumps E (Mineru.demo_json E pdf_name)]> (
       <["markdown"%string := path_join output_dir (pdf_name ++ lit ".md")]> (
       <["html"%string := path_join output_dir (pdf_name ++ lit ".html")]> (
       <["text"%string := path_join output_dir (pdf_name ++ lit ".txt")]> (
       <["json"%string := path_join output_dir (pdf_name ++ lit ".json")]>
         ∅))))))));
     stats := Some {| total_pages := 1; text_blocks := 4;
                      tables := 1; formulas := 3 |};
     method := Some (lit "demo");
     error := None; traceback := None; file_name := None;
     has_success := true |}.

(** *** Concrete environments and worlds

    An environment for concrete runs: PyMuPDF imports, the [markdown]
    package and the MinerU engine do not, and every file operation
    succeeds unless [rmtree_msg] says otherwise.  [api] is the value of
    [MINERU_API_URL] and [answer] what the endpoint answers.  The JSON
    serializer, which none of the runs below looks at, is a
    placeholder. *)
Definition sample_env (api : option pystr) (answer : http_outcome)
    (rmtree_msg : option pystr) : Env :=
  {| fitz_importable := true;
     mineru_processor_importable := false;
     magic_pdf_importable := false;
     markdown_markdown := None;
     json_dumps := fun _ => lit "{}";
     json_loads := fun _ => None;
     do_parse := fun _ _ _ _ _ => Raise (lit "magic_pdf is not installed");
     datetime_now_isoformat := lit "2024-01-01T00:00:00";
     time_strftime := lit "2024-01-01 00:00:00";
     time_time := 0;
     format_exc := fun e => lit "Traceback (most recent call last): " ++ e;
     MINERU_API_URL := api;
     requests_post := fun _ _ _ => answer;
     scandir_rank := fun _ => 0;
     mkdtemp := lit "/tmp/mineru_ab12cd";
     open_error := fun _ => None;
     makedirs_error := fun _ => None;
     rmtree_error := fun _ => rmtree_msg |}.

(** No API configured, nothing fails. *)
Definition plain_env : Env := sample_env None (TransportError []) None.

(** The API is configured and answers HTTP 500. *)
Definition api_down_env : Env :=
  sample_env (Some (lit "http://mineru.example")) (Response 500 BadJson) None.

(** Removing the workspace fails. *)
Definition rmtree_denied_env : Env :=
  sample_env None (TransportError []) (Some (lit "Permission denied")).

Definition empty_world : World :=
  {| files := ∅; dirs := ∅; progress := []; ui := []; cleanups := [] |}.

(** A world that stores one file. *)
Definition world_with (p : pystr) (c : fcontent) : World :=
  {| files := {[ p := c ]}; dirs := ∅; progress := []; ui := [];
     cleanups := [] |}.

Definition upload (n : string) (d : pdf_data) : UploadedFile :=
  {| name := lit n; size := 1024; getvalue := d |}.

(** An uploaded file PyMuPDF can open. *)
Definition readable (f : UploadedFile) : bool :=
  match getvalue f with
  | Pages _ => true
  | Unreadable _ => false
  end.

(** The world a run leaves. *)
Definition returned_world {A} (x : exc A * World) : World := x.2.

(** The endpoint is unavailable for the upload [f]: whenever an API URL is
    configured, posting [f] is met by a transport failure or by a status
    other than 200. *)
Definition endpoint_down (E : Env) (f : fcontent)
    (config : gmap string cfgval) : Prop :=
  forall api_url,
    MINERU_API_URL E = Some api_url ->
    match requests_post E (api_url ++ lit "/process") f config with
    | TransportError _ => True
    | Response status_code _ => status_code <> 200%Z
    end.

(** The world after an upload was saved under [p] and given a fresh
    progress bar. *)
Definition saved (p : pystr) (c : fcontent) (w : World) : World :=
  {| files := <[p := c]> (files w); dirs := dirs w; progress := [];
     ui := ui w; cleanups := cleanups w |}.

(** The world after a message was shown. *)
Definition shown (e : ui_event) (w : World) : World :=
  {| files := files w; dirs := dirs w; progress := progress w;
     ui := ui w ++ [e]; cleanups := cleanups w |}.

(** [result['file_name'] = name], through a run. *)
Definition named {A} (n : pystr) (x : exc Result * A) : exc Result * A :=
  match x with
  | (Ok r, w) => (Ok (set_file_name r n), w)
  | (Raise e, w) => (Raise e, w)
  end.

(** A computation that records no cleanup and removes no directory. *)
Definition keeps_cleanups {A} (m : M A) : Prop :=
  forall w, cleanups (m w).2 = cleanups w /\ dirs w ⊆ dirs (m w).2.

(** A computation that always returns. *)
Definition total {A} (m : M A) : Prop :=
  forall w, exists a w', m w = (Ok a, w').

(** *** Batches on the basic branches

    What one turn of the upload loop appends to [results] when the basic
    branch processes the upload: the dictionary of the branch, with the
    name of the upload. *)
Definition vercel_upload_result (E : Env) (input_dir : pystr)
    (f : UploadedFile) : Result :=
  set_file_name
    match getvalue f with
    | Pages texts =>
      vercel_basic_success E (path_join input_dir (name f)) texts
    | Unreadable msg => Vercel.failure (lit "处理 PDF 时出错: " ++ msg)
    end
    (name f).

Definition app_upload_result (E : Env) (input_dir : pystr)
    (f : UploadedFile) : Result :=
  set_file_name
    match getvalue f with
    | Pages texts =>
      app_basic_success E (path_join input_dir (name f)) texts (size f)
    | Unreadable msg =>
      Mineru.failure
        (lit "处理 PDF 时出错: " ++ lit "基础处理失败: " ++ msg)
        (Some (format_exc E (lit "基础处理失败: " ++ msg)))
    end
    (name f).

(** [results] answers the batch [uploaded_files] file by file, and all
    of them succeeded but the one at index [k], the one of [bad], which
    carries an error message. *)
Definition one_failure (uploaded_files : list UploadedFile) (k : nat)
    (bad : UploadedFile) (results : list Result) : Prop :=
  map file_name results = map (fun f => Some (name f)) uploaded_files
  /\ length results = length uploaded_files
  /\ length (List.filter success results) = (length uploaded_files - 1)%nat
  /\ exists r,
       List.filter (fun r => negb (success r)) results = [r]
       /\ results !! k = Some r
       /\ is_Some (error r)
       /\ file_name r = Some (name bad).

(** The world [cleanup_temp_dirs] leaves when the directory exists. *)
Definition cleaned (E : Env) (temp_dir : pystr) (w : World) : World :=
  match rmtree_error E temp_dir with
  | None =>
    {| files := filter (fun kv => is_under temp_dir kv.1 = false) (files w);
       dirs := filter (fun d => is_under temp_dir d = false) (dirs w);
       progress := progress w; ui := ui w;
       cleanups := cleanups w ++ [temp_dir] |}
  | Some e =>
    {| files := files w; dirs := dirs w; progress := progress w;
       ui := ui w ++ [UiWarning (lit "清理临时文件时出错: " ++ e)];
       cleanups := cleanups w ++ [temp_dir] |}
  end.

(** *** Progress

    [l] rises from [lo] to [hi]: [lo <= l1 <= ... <= ln <= hi]. *)
Fixpoint ascends (lo : Q) (l : list Q) (hi : Q) : Prop :=
  match l with
  | [] => (lo <= hi)%Q
  | a :: rest => (lo <= a)%Q /\ ascends a rest hi
  end.

(** A computation whose progress values rise from [lo] to [hi], whether
    it returns or raises. *)
Definition climbs {A} (lo hi : Q) (m : M A) : Prop :=
  forall w,
    exists l, fractions (m w).2 = fractions w ++ l /\ ascends lo l hi.

(** A computation that reports no progress. *)
Definition silent {A} (m : M A) : Prop :=
  forall w, progress (m w).2 = progress w.

(** The progress values a computation adds are non-decreasing and lie
    between 0 and 1. *)
Definition rises {A} (m : M A) : Prop :=
  forall w,
    exists l,
      fractions (m w).2 = fractions w ++ l
      /\ nondecreasing l
      /\ Forall (fun q => 0 <= q <= 1)%Q l.

(** A non-empty path that does not end with a slash, as [mkdtemp]
    returns them. *)
Definition proper_dir (p : pystr) : bool :=
  match rev p with
  | [] => false
  | c :: _ => negb (c =? SLASH)
  end.

(** The sample environment with [mineru_processor] importable and the
    engine itself ([magic_pdf]) missing: the configuration in which the
    local entry point falls to the demo document. *)
Definition demo_env : Env :=
  {| fitz_importable := true;
     mineru_processor_importable := true;
     magic_pdf_importable := false;
     markdown_markdown := None;
     json_dumps := json_dumps plain_env;
     json_loads := json_loads plain_env;
     do_parse := do_parse plain_env;
     datetime_now_isoformat := datetime_now_isoformat plain_env;
     time_strftime := time_strftime plain_env;
     time_time := time_time plain_env;
     format_exc := format_exc plain_env;
     MINERU_API_URL := None;
     requests_post := requests_post plain_env;
     scandir_rank := fun _ => 0;
     mkdtemp := mkdtemp plain_env;
     open_error := fun _ => None;
     makedirs_error := fun _ => None;
     rmtree_error := fun _ => None |}.

(** ** Auxiliary notions for the further properties *)

Definition SPACE : N := 32.

(** No [a] is directly followed by [b] in [s]. *)
Fixpoint pair_free (a b : N) (s : pystr) : bool :=
  match s with
  | [] => true
  | x :: t =>
    negb ((x =? a) && match t with y :: _ => y =? b | [] => false end)
    && pair_free a b t
  end.

(** The number of times the character [c] stands in [s]. *)
Definition occurrences (c : N) (s : pystr) : nat :=
  length (List.filter (fun x => x =? c) s).

(** The world after [c] was written to [p]. *)
Definition wrote (p : pystr) (c : fcontent) (w : World) : World :=
  {| files := <[p := c]> (files w); dirs := dirs w; progress := progress w;
     ui := ui w; cleanups := cleanups w |}.

(** The world after the directory [p] was made. *)
Definition made (p : pystr) (w : World) : World :=
  {| files := files w; dirs := dirs w ∪ {[p]}; progress := progress w;
     ui := ui w; cleanups := cleanups w |}.

(** The result names a file for [kind] ([markdown], [html], [text] or
    [json]), and that file holds what the result gives as
    [<kind>_content]. *)
Definition stored_output (kind : string) (r : Result) (w : World) : Prop :=
  exists path content,
    output kind r = Some path
    /\ output (kind +:+ "_content") r = Some content
    /\ files w !! path = Some (Text content).

(** The placeholders [_process_mineru_output] uses when the engine left
    no Markdown or no JSON file. *)
Definition markdown_placeholder : pystr :=
  lit "# 处理结果" ++ [NL; NL] ++ lit "未能生成 Markdown 内容。".

Definition json_placeholder : pystr :=
  lit "{" ++ [DQUOTE] ++ lit "message" ++ [DQUOTE] ++ lit ": "
  ++ [DQUOTE] ++ lit "未能生成 JSON 数据" ++ [DQUOTE] ++ lit "}".

(** The sample environment with the engine installed; [answer] is what
    [do_parse] does: raise, or return after writing the given files. *)
Definition engine_env (answer : exc (list (pystr * pystr))) : Env :=
  {| fitz_importable := true;
     mineru_processor_importable := true;
     magic_pdf_importable := true;
     markdown_markdown := None;
     json_dumps := json_dumps plain_env;
     json_loads := json_loads plain_env;
     do_parse := fun _ _ _ _ _ => answer;
     datetime_now_isoformat := datetime_now_isoformat plain_env;
     time_strftime := time_strftime plain_env;
     time_time := time_time plain_env;
     format_exc := format_exc plain_env;
     MINERU_API_URL := None;
     requests_post := requests_post plain_env;
     scandir_rank := fun _ => 0;
     mkdtemp := mkdtemp plain_env;
     open_error := fun _ => None;
     makedirs_error := fun _ => None;
     rmtree_error := fun _ => None |}.

(** The sample environment on a full disk: no directory can be made. *)
Definition disk_full_env : Env :=
  {| fitz_importable := true;
     mineru_processor_importable := false;
     magic_pdf_importable := false;
     markdown_markdown := None;
     json_dumps := json_dumps plain_env;
     json_loads := json_loads plain_env;
     do_parse := do_parse plain_env;
     datetime_now_isoformat := datetime_now_isoformat plain_env;
     time_strftime := time_strftime plain_env;
     time_time := time_time plain_env;
     format_exc := format_exc plain_env;
     MINERU_API_URL := None;
     requests_post := requests_post plain_env;
     scandir_rank := fun _ => 0;
     mkdtemp := mkdtemp plain_env;
     open_error := fun _ => None;
     makedirs_error := fun _ => Some (lit "No space left on device");
     rmtree_error := fun _ => None |}.

(** ** The result page of the two [main] functions

    Once the loop is over, [main] shows the messages modelled by
    [show_results] and, between them, the statistic cards, the preview
    tabs and the download buttons.  These widgets are modelled here, as
    the list [main] renders. *)

(** [output_formats], the four check boxes of the sidebar. *)
Record OutputFormats := {
  fmt_markdown : bool;
  fmt_html : bool;
  fmt_text : bool;
  fmt_json : bool
}.

(** [output_formats.items()] *)
Definition format_items (output_formats : OutputFormats)
  : list (string * bool) :=
  [("markdown"%string, fmt_markdown output_formats);
   ("html"%string, fmt_html output_formats);
   ("text"%string, fmt_text output_formats);
   ("json"%string, fmt_json output_formats)].

Inductive widget :=
| MetricCards (total_pages text_blocks tables formulas : nat)
| PreviewTab (title shown : pystr)
| DownloadButton (label data file_name mime : pystr).

(** [content[:n] + "..." if len(content) > n else content] *)
Definition preview (n : nat) (content : pystr) : pystr :=
  if (n <? length content)%nat then take n content ++ lit "..."
  else content.

(** [result['outputs']]: a [KeyError] when the key is missing. *)
Definition result_outputs (result : Result) : M (gmap string pystr) :=
  match outputs result with
  | Some o => ret o
  | None => raise (lit "'outputs'")
  end.

(** [if output_formats[k] and key in result['outputs']:] followed by the
    two [append]s; [and] does not look at [result] when the box is not
    ticked. *)
Definition tab_entry (enabled : bool) (title : pystr)
    (format_type key : string) (result : Result)
    (tabs : list (pystr * string * pystr))
  : M (list (pystr * string * pystr)) :=
  if enabled
  then
    let! o := result_outputs result in
    match o !! key with
    | Some content => ret (tabs ++ [(title, format_type, content)])
    | None => ret tabs
    end
  else ret tabs.

(** [format_name.upper()] (the format names are ASCII). *)
Definition upper (s : pystr) : pystr :=
  map (fun c => if (97 <=? c) && (c <=? 122) then c - 32 else c) s.

(** [{'markdown': 'md', 'html': 'html', 'text': 'txt', 'json': 'json'}] *)
Definition file_exts : gmap string pystr :=
  <["markdown"%string := lit "md"]> (
  <["html"%string := lit "html"]> (
  <["text"%string := lit "txt"]> (
  <["json"%string := lit "json"]> ∅))).

(** The loop over [enabled_formats] of the download section. *)
Fixpoint download_loop (enabled_formats : list string) (file_name : pystr)
    (result : Result) : M (list widget) :=
  match enabled_formats with
  | [] => ret []
  | format_name :: rest =>
    let content_key := (format_name +:+ "_content")%string in
    let! o := result_outputs result in
    let! button :=
      match o !! content_key with
      | Some content =>
        match file_exts !! format_name with
        | Some file_ext =>
          ret [DownloadButton
                 (lit "📄 " ++ upper (lit format_name))
                 content
                 (file_name ++ lit "." ++ file_ext)
                 (lit "text/" ++ file_ext)]
        | None => raise ([39] ++ lit format_name ++ [39])
        end
      | None => ret []
      end in
    let! buttons := download_loop rest file_name result in
    ret (button ++ buttons)
  end.

(** The download section (the same in both entry points). *)
Definition download_buttons (output_formats : OutputFormats)
    (uploaded_files : list UploadedFile) (result : Result)
  : M (list widget) :=
  let enabled_formats :=
    map fst (List.filter snd (format_items output_formats)) in
  match enabled_formats with
  | [] => ret []
  | _ =>
    let! file_name :=
      match uploaded_files with
      | uploaded_file :: _ => ret (path_stem (name uploaded_file))
      | [] => raise (lit "list index out of range")
      end in
    download_loop enabled_formats file_name result
  end.

(** The statistic cards: [if 'stats' in result:]. *)
Definition metric_cards (result : Result) : list widget :=
  match stats result with
  | Some st =>
    [MetricCards (total_pages st) (text_blocks st) (tables st) (formulas st)]
  | None => []
  end.

Module AppPage.

(** What a preview tab shows. *)
Definition render_tab (tab : pystr * string * pystr) : widget :=
  let '(title, format_type, content) := tab in
  if bool_decide (format_type = "markdown"%string)
  then PreviewTab title (preview 2000 content)
  else if bool_decide (format_type = "html"%string)
  then PreviewTab title content
  else if bool_decide (format_type = "json"%string)
  then PreviewTab title (preview 1000 content)
  else PreviewTab title (preview 1000 content).

Definition preview_tabs (output_formats : OutputFormats) (result : Result)
  : M (list widget) :=
  let! tab_contents :=
    tab_entry (fmt_markdown output_formats) (lit "📝 Markdown")
              "markdown" "markdown_content" result [] in
  let! tab_contents :=
    tab_entry (fmt_html output_formats) (lit "🌐 HTML")
              "html" "html_content" result tab_contents in
  let! tab_contents :=
    tab_entry (fmt_text output_formats) (lit "📄 纯文本")
              "text" "text_content" result tab_contents in
  let! tab_contents :=
    tab_entry (fmt_json output_formats) (lit "🔧 JSON")
              "json" "json_content" result tab_contents in
  ret (map render_tab tab_contents).

(** The widgets of the result page: nothing unless exactly one file
    succeeded. *)
Definition result_widgets (output_formats : OutputFormats)
    (uploaded_files : list UploadedFile) (results : list Result)
  : M (list widget) :=
  let successful_results := List.filter success results in
  match successful_results with
  | [result] =>
    let cards := metric_cards result in
    let! tabs := preview_tabs output_formats result in
    let! buttons := download_buttons output_formats uploaded_files result in
    ret (cards ++ tabs ++ buttons)
  | _ => ret []
  end.

(** The configuration [main] builds from the sidebar. *)
Definition make_config (language parse_method : pystr)
    (enable_formula enable_table : bool) : gmap string cfgval :=
  <["language"%string := CStr language]> (
  <["parse_method"%string := CStr parse_method]> (
  <["formula_enable"%string := CBool enable_formula]> (
  <["table_enable"%string := CBool enable_table]> ∅))).

(** [sum(f.size for f in uploaded_files)] *)
Definition total_bytes (uploaded_files : list UploadedFile) : Z :=
  foldr (fun f acc => (size f + acc)%Z) 0%Z uploaded_files.

(** [main] from the upload on.  [IS_VERCEL] is [os.getenv('VERCEL') ==
    '1'] and [start] tells whether the button was pressed.  The total
    size in megabytes is a float in the source; dividing by 1024 is
    exact there, and the model computes with rationals.  The result is
    [None] when no batch was run. *)
Definition main (E : Env) (IS_VERCEL : bool) (language parse_method : pystr)
    (enable_formula enable_table : bool)
    (uploaded_files : list UploadedFile) (start : bool)
  : M (option (list Result)) :=
  let max_size : nat := if IS_VERCEL then 50%nat else 200%nat in
  match uploaded_files with
  | [] => ret None
  | _ =>
    let total_size :=
      (inject_Z (total_bytes uploaded_files) / 1024 / 1024)%Q in
    if negb (Qle_bool total_size (inject_Z (Z.of_nat max_size)))
    then
      show (UiError (lit "❌ 文件总大小超出限制（" ++ str_of_nat max_size
                     ++ lit "MB），请减少文件数量或选择较小的文件")) ;;
      ret None
    else if start
    then
      let config :=
        make_config language parse_method enable_formula enable_table in
      let! results := App.main_batch E config uploaded_files in
      ret (Some results)
    else ret None
  end.

End AppPage.

Module VercelPage.

(** What a preview tab shows; there is no JSON tab here. *)
Definition render_tab (tab : pystr * string * pystr) : widget :=
  let '(title, format_type, content) := tab in
  if bool_decide (format_type = "markdown"%string)
  then PreviewTab title (preview 2000 content)
  else if bool_decide (format_type = "html"%string)
  then PreviewTab title content
  else PreviewTab title (preview 1000 content).

Definition preview_tabs (output_formats : OutputFormats) (result : Result)
  : M (list widget) :=
  let! tab_contents :=
    tab_entry (fmt_markdown output_formats) (lit "📝 Markdown")
              "markdown" "markdown_content" result [] in
  let! tab_contents :=
    tab_entry (fmt_html output_formats) (lit "🌐 HTML")
              "html" "html_content" result tab_contents in
  let! tab_contents :=
    tab_entry (fmt_text output_formats) (lit "📄 纯文本")
              "text" "text_content" result tab_contents in
  ret (map render_tab tab_contents).

Definition result_widgets (output_formats : OutputFormats)
    (uploaded_files : list UploadedFile) (results : list Result)
  : M (list widget) :=
  let successful_results := List.filter success results in
  match successful_results with
  | [result] =>
    let cards := metric_cards result in
    let! tabs := preview_tabs output_formats result in
    let! buttons := download_buttons output_formats uploaded_files result in
    ret (cards ++ tabs ++ buttons)
  | _ => ret []
  end.

End VercelPage.

(** ** Notions used to state properties of the result page *)

(** The button [b], if it is a download button, hands out one of the
    contents of [result] under the name [stem] with the extension of its
    format. *)
Definition offers (stem : pystr) (result : Result) (b : widget) : Prop :=
  match b with
  | DownloadButton label data file_name mime =>
    exists format_name file_ext o,
      file_exts !! format_name = Some file_ext
      /\ outputs result = Some o
      /\ o !! (format_name +:+ "_content")%string = Some data
      /\ label = lit "📄 " ++ upper (lit format_name)
      /\ file_name = stem ++ lit "." ++ file_ext
      /\ mime = lit "text/" ++ file_ext
  | _ => True
  end.

(** The four contents the result page asks for. *)
Definition content_keys : list string :=
  ["markdown_content"; "html_content"; "text_content";
   "json_content"]%string.

(** A result with its outputs, all four contents among them, and its
    statistics. *)
Definition complete (r : Result) : Prop :=
  exists o st,
    outputs r = Some o
    /\ stats r = Some st
    /\ Forall (fun k => is_Some (o !! k)) content_keys.

(** A computation that deletes no stored file. *)
Definition keeps_files {A} (m : M A) : Prop :=
  forall w p, is_Some (files w !! p) -> is_Some (files (m w).2 !! p).

(** The endpoint never answers HTTP 200 with a list, a string, a number
    or a boolean: what [call_mineru_api] returns is [None] or a
    dictionary. *)
Definition answers_objects (E : Env) : Prop :=
  forall url f config body e,
    requests_post E url f config = Response 200 body ->
    body_value body <> Some (PyOther e).

(** The world after the engine left the files [produced]. *)
Definition parsed (produced : list (pystr * pystr)) (w : World) : World :=
  {| files := foldr (fun kv m => <[kv.1 := Text kv.2]> m) (files w) produced;
     dirs := dirs w; progress := progress w; ui := ui w;
     cleanups := cleanups w |}.

(** The sample environment with a JSON parser that accepts [{}] only. *)
Definition json_env : Env :=
  {| fitz_importable := true;
     mineru_processor_importable := true;
     magic_pdf_importable := true;
     markdown_markdown := None;
     json_dumps := json_dumps plain_env;
     json_loads :=
       fun t => if pystr_eqb t (lit "{}") then Some (JObj []) else None;
     do_parse := do_parse plain_env;
     datetime_now_isoformat := datetime_now_isoformat plain_env;
     time_strftime := time_strftime plain_env;
     time_time := time_time plain_env;
     format_exc := format_exc plain_env;
     MINERU_API_URL := None;
     requests_post := requests_post plain_env;
     scandir_rank := fun _ => 0;
     mkdtemp := mkdtemp plain_env;
     open_error := fun _ => None;
     makedirs_error := fun _ => None;
     rmtree_error := fun _ => None |}.

(** The engine raises on a document PyMuPDF cannot open. *)
Definition engine_rejects_unreadable (E : Env) : Prop :=
  forall pdf_path output_dir method lang fs msg sz,
    fs !! pdf_path = Some (Binary (Unreadable msg) sz) ->
    exists e, do_parse E pdf_path output_dir method lang fs = Raise e.

(** The engine is installed; it raises on a document PyMuPDF cannot
    open and writes nothing for any other. *)
Definition strict_engine_env : Env :=
  {| fitz_importable := true;
     mineru_processor_importable := true;
     magic_pdf_importable := true;
     markdown_markdown := None;
     json_dumps := json_dumps plain_env;
     json_loads := json_loads plain_env;
     do_parse := fun pdf_path _ _ _ fs =>
       match fs !! pdf_path with
       | Some (Binary (Unreadable msg) _) => Raise msg
       | _ => Ok []
       end;
     datetime_now_isoformat := datetime_now_isoformat plain_env;
     time_strftime := time_strftime plain_env;
     time_time := time_time plain_env;
     format_exc := format_exc plain_env;
     MINERU_API_URL := None;
     requests_post := requests_post plain_env;
     scandir_rank := fun _ => 0;
     mkdtemp := mkdtemp plain_env;
     open_error := fun _ => None;
     makedirs_error := fun _ => None;
     rmtree_error := fun _ => None |}.

(** The unavailable endpoint, whatever is posted. *)
Definition endpoint_always_down (E : Env) : Prop :=
  forall f config, endpoint_down E f config.

(** ** The conversion to text, pass by pass

    A description of [_markdown_to_text] that does not go through the
    regular-expression matcher: each pass scans the text once from left
    to right; where a construct stands, it is replaced and the scan
    resumes after it; every other character is copied. *)

(** The length of the run of [c] the string begins with. *)
Fixpoint run (c : N) (s : pystr) : nat :=
  match s with
  | a :: s' => if a =? c then S (run c s') else O
  | [] => O
  end.

(** The length of the shortest text without a line break after which
    [closing] stands, if there is one. *)
Fixpoint until (closing s : pystr) : option nat :=
  if starts_with closing s then Some O
  else match s with
       | [] => None
       | c :: s' => if c =? NL then None else S <$> until closing s'
       end.

(** [here s] tells whether a construct begins [s]: the text that
    replaces it and the number of characters it takes. *)
Fixpoint pass_from (here : pystr -> option (pystr * nat)) (s : pystr)
    (skip : nat) : pystr :=
  match s with
  | [] => []
  | c :: s' =>
    match skip with
    | S k => pass_from here s' k
    | O =>
      match here s with
      | Some (out, S n) => out ++ pass_from here s' n
      | _ => c :: pass_from here s' 0
      end
    end
  end.

Definition pass (here : pystr -> option (pystr * nat)) (s : pystr) : pystr :=
  pass_from here s 0.

(** A heading marker: up to six [#] and all the whitespace after them
    (line breaks included); it is deleted. *)
Definition heading_here (s : pystr) : option (pystr * nat) :=
  match run HASH s with
  | O => None
  | S k =>
    let n := Nat.min (S k) 6 in
    Some ([], (n + length (take_ws (drop n s)))%nat)
  end.

(** [opening], the shortest text [x] on one line, [closing]: replaced
    by [x]. *)
Definition wrapped_here (opening closing s : pystr)
  : option (pystr * nat) :=
  if starts_with opening s
  then
    match until closing (drop (length opening) s) with
    | Some n =>
      Some (take n (drop (length opening) s),
            (length opening + n + length closing)%nat)
    | None => None
    end
  else None.

(** A link [[x](u)] on one line, [x] ending at the first [](] and [u]
    at the first [)] after it: replaced by [x]. *)
Definition link_here (s : pystr) : option (pystr * nat) :=
  if starts_with [LBRACKET] s
  then
    match until [RBRACKET; LPAREN] (drop 1 s) with
    | Some n =>
      match until [RPAREN] (drop (n + 3) s) with
      | Some m => Some (take n (drop 1 s), (n + m + 4)%nat)
      | None => None
      end
    | None => None
    end
  else None.

(** From a pipe to the next pipe on the same line, with the text
    between them: deleted. *)
Definition pipes_here (s : pystr) : option (pystr * nat) :=
  match wrapped_here [PIPE] [PIPE] s with
  | Some (_, n) => Some ([], n)
  | None => None
  end.

(** A run of three or more [c]: replaced by [out]. *)
Definition run_here (c : N) (out s : pystr) : option (pystr * nat) :=
  if (3 <=? run c s)%nat then Some (out, run c s) else None.

(** The seven marker passes, in the order of the source. *)
Definition marker_passes : list (pystr -> option (pystr * nat)) :=
  [heading_here;
   wrapped_here [STAR; STAR] [STAR; STAR];
   wrapped_here [STAR] [STAR];
   wrapped_here [BACKTICK] [BACKTICK];
   link_here;
   pipes_here;
   run_here HYPHEN []].

(** The conversion: the marker passes, then every run of three or more
    line breaks becomes two, then whitespace is trimmed at both ends. *)
Definition to_text_passes (s : pystr) : pystr :=
  strip (pass (run_here NL [NL; NL])
           (foldl (fun t here => pass here t) s marker_passes)).

(** No construct of [here] begins anywhere in [s]. *)
Fixpoint quiet (here : pystr -> option (pystr * nat)) (s : pystr) : bool :=
  match s with
  | [] => true
  | _ :: s' => negb (bool_decide (is_Some (here s))) && quiet here s'
  end.

(** No marker pass finds anything in [s]. *)
Definition settled (s : pystr) : bool :=
  forallb (fun here => quiet here s) marker_passes.

(** *** Two notions for reasoning about the matcher *)

(** The pattern that matches the characters of [l] one after another. *)
Definition lits (l : pystr) : regex := map (fun c => One (CChar c)) l.

(** The number of repetitions a greedy quantifier [k{lo,hi}] takes at
    most at the head of [s], [n] of them taken already. *)
Fixpoint taken (k : cls) (hi : option nat) (s : pystr) (n : nat) : nat :=
  match s with
  | c :: s' =>
    if below hi n && cls_match k c then S (taken k hi s' (S n)) else O
  | [] => O
  end.

(** What [re.sub] puts for a match of [p] that begins [s], and the
    length of that match. *)
Definition replaced (p : regex) (r : list rpart) (s : pystr)
  : option (pystr * nat) :=
  match match_here p s 0 (O, O) with
  | Some (e, g) => Some (expand r s g, e)
  | None => None
  end.

(** The seven marker substitutions of the source, and the texts in which
    none of their patterns matches anywhere. *)
Definition marker_subs : list (regex * list rpart) :=
  [(Mineru.re_heading, []);
   (Mineru.re_bold, [RGroup]);
   (Mineru.re_italic, [RGroup]);
   (Mineru.re_code, [RGroup]);
   (Mineru.re_link, [RGroup]);
   (Mineru.re_pipes, []);
   (Mineru.re_rule, [])].

Definition unmatched (s : pystr) : bool :=
  forallb (fun sub => quiet (replaced sub.1 sub.2) s) marker_subs.

(** A pass never lengthens a text: what replaces a construct is shorter
    than the construct, which lies within the text. *)
Definition shrinks (here : pystr -> option (pystr * nat)) : Prop :=
  forall s out e, here s = Some (out, e) ->
    (length out < e <= length s)%nat.

(** * Lemmas *)

#[local] Arguments N.eqb : simpl never.
#[local] Arguments lit : simpl never.

(** ** The matcher *)

Lemma match_here_cant_start p c s pos g :
  can_start p c = false -> match_here p (c :: s) pos g = None.
Proof.
  revert pos g.
  induction p as [|nd p IH]; intros pos g H; simpl in H; [discriminate|].
  destruct nd as [k|q k lo hi| |]; simpl.
  - by rewrite H.
  - apply orb_false_iff in H as [Hk Hlo].
    rewrite Hk, andb_false_r.
    destruct lo; simpl; [rewrite IH by done|]; by destruct q.
  - by apply IH.
  - by apply IH.
Qed.

Lemma match_here_nil p pos g :
  nullable p = false -> match_here p [] pos g = None.
Proof.
  revert pos g.
  induction p as [|nd p IH]; intros pos g H; simpl in H; [discriminate|].
  destruct nd as [k|q k lo hi| |]; simpl; auto.
  destruct lo; simpl; [rewrite IH by done|]; by destruct q.
Qed.

(** *** [re.sub] *)

Lemma sub_from_skip p r u s :
  sub_from p r (u ++ s) (length u) = sub_from p r s 0.
Proof. induction u as [|a u IH]; simpl; auto. Qed.

Lemma sub_from_keep p r pre s :
  Forall (fun c => can_start p c = false) pre ->
  sub_from p r (pre ++ s) 0 = pre ++ sub_from p r s 0.
Proof.
  induction 1 as [|c pre Hc _ IH]; simpl; [done|].
  by rewrite match_here_cant_start, IH.
Qed.

Lemma sub_from_nil p r : nullable p = false -> sub_from p r [] 0 = [].
Proof. intros H. simpl. by rewrite match_here_nil. Qed.

(** A text none of whose characters can start a match is left alone. *)
Lemma re_sub_fixed p r s :
  nullable p = false ->
  Forall (fun c => can_start p c = false) s ->
  re_sub p r s = s.
Proof.
  intros Hn Hs. unfold re_sub.
  rewrite <- (app_nil_r s) at 1.
  by rewrite sub_from_keep, sub_from_nil, app_nil_r.
Qed.

(** A match at the head is replaced and the scan resumes after it. *)
Lemma sub_from_match p r m rest g :
  m <> [] ->
  match_here p (m ++ rest) 0 (O, O) = Some (length m, g) ->
  sub_from p r (m ++ rest) 0 = expand r (m ++ rest) g ++ sub_from p r rest 0.
Proof.
  destruct m as [|c m]; [done|]. intros _ H.
  change (sub_from p r ((c :: m) ++ rest) 0)
    with (match match_here p ((c :: m) ++ rest) 0 (O, O) with
          | Some (O, g) =>
            expand r ((c :: m) ++ rest) g ++ c :: sub_from p r (m ++ rest) 0
          | Some (S e, g) =>
            expand r ((c :: m) ++ rest) g ++ sub_from p r (m ++ rest) e
          | None => c :: sub_from p r (m ++ rest) 0
          end).
  simpl length in H. rewrite H. by rewrite sub_from_skip.
Qed.

Lemma sub_from_no_match p r c s :
  match_here p (c :: s) 0 (O, O) = None ->
  sub_from p r (c :: s) 0 = c :: sub_from p r s 0.
Proof. intros H. simpl. by rewrite H. Qed.

(** *** Quantifiers *)

Lemma rep_lazy_stop rest k hi t n pos r :
  rest t pos = Some r -> rep_match rest Lazy k 0 hi t n pos = Some r.
Proof. intros H. destruct t; simpl; by rewrite H. Qed.

(** A lazy quantifier walks over the characters on which the rest of the
    pattern cannot begin. *)
Lemma rep_lazy_skip rest k d x t n pos :
  (forall c s' pos', c <> d -> rest (c :: s') pos' = None) ->
  Forall (fun c => c <> d /\ cls_match k c = true) x ->
  rep_match rest Lazy k 0 None (x ++ t) n pos
  = rep_match rest Lazy k 0 None t (n + length x) (pos + length x).
Proof.
  intros Hrest Hx. revert n pos.
  induction Hx as [|c x [Hc Hk] _ IH]; intros n pos; simpl.
  - by rewrite !Nat.add_0_r.
  - rewrite Hrest, Hk by done. simpl. rewrite IH.
    by rewrite !Nat.add_succ_r.
Qed.

Lemma rep_lazy_fail rest k d hi q n pos :
  (forall c s' pos', c <> d -> rest (c :: s') pos' = None) ->
  (forall pos', rest [] pos' = None) ->
  Forall (fun c => c <> d) q ->
  rep_match rest Lazy k 0 hi q n pos = None.
Proof.
  intros Hrest Hnil Hq. revert n pos.
  induction Hq as [|c q Hc _ IH]; intros n pos; simpl.
  - by rewrite Hnil.
  - rewrite Hrest by done. destruct (below hi n && cls_match k c); auto.
Qed.

(** A greedy quantifier over a literal takes the whole run when the rest
    of the pattern accepts what follows. *)
Lemma rep_greedy_run rest c lo hi n t m pos r :
  not_headed c t ->
  (forall i, (i < n)%nat -> below hi (m + i) = true) ->
  (lo <= m + n)%nat ->
  rest t (pos + n)%nat = Some r ->
  rep_match rest Greedy (CChar c) lo hi (repeat c n ++ t) m pos = Some r.
Proof.
  intros Ht. revert m pos.
  induction n as [|n IH]; intros m pos Hhi Hlo Hr; simpl.
  - rewrite Nat.add_0_r in *.
    apply Nat.leb_le in Hlo.
    destruct t as [|a t]; simpl; [by rewrite Hlo, Hr|]. simpl in Ht.
    apply N.eqb_neq in Ht. by rewrite Ht, andb_false_r, Hlo, Hr.
  - rewrite N.eqb_refl, andb_true_r.
    rewrite <- (Nat.add_0_r m) at 1. rewrite Hhi by lia.
    rewrite (IH (S m) (S pos)); [done| | |].
    + intros i Hi. replace (S m + i)%nat with (m + S i)%nat by lia.
      apply Hhi. lia.
    + lia.
    + by replace (S pos + n)%nat with (pos + S n)%nat by lia.
Qed.

(** ... and fails when the run is shorter than the lower bound. *)
Lemma rep_greedy_short rest c lo hi n t m pos :
  not_headed c t ->
  (m + n < lo)%nat ->
  rep_match rest Greedy (CChar c) lo hi (repeat c n ++ t) m pos = None.
Proof.
  intros Ht. revert m pos.
  induction n as [|n IH]; intros m pos Hlo; simpl.
  - assert ((lo <=? m)%nat = false) as Hm by (apply Nat.leb_gt; lia).
    destruct t as [|a t]; simpl; [by rewrite Hm|]. simpl in Ht.
    apply N.eqb_neq in Ht. by rewrite Ht, andb_false_r, Hm.
  - assert ((lo <=? m)%nat = false) as -> by (apply Nat.leb_gt; lia).
    rewrite N.eqb_refl, andb_true_r.
    destruct (below hi m); [|done].
    rewrite IH; [done|lia].
Qed.

(** Whitespace after a heading marker: everything is taken. *)
Lemma rep_greedy_space g x n pos :
  rep_match (fun _ pos => Some (pos, g)) Greedy CSpace 0 None x n pos
  = Some ((pos + length (take_ws x))%nat, g).
Proof.
  revert n pos. induction x as [|c x IH]; intros n pos; simpl.
  - by rewrite Nat.add_0_r.
  - destruct (isspace c); simpl.
    + rewrite IH. do 2 f_equal. lia.
    + by rewrite Nat.add_0_r.
Qed.

(** *** Stripping *)

Lemma take_ws_lstrip s : take_ws s ++ lstrip s = s.
Proof.
  induction s as [|c s IH]; simpl; [done|].
  destruct (isspace c); simpl; [by rewrite IH|done].
Qed.

Lemma lstrip_not_space s :
  match lstrip s with [] => True | c :: _ => isspace c = false end.
Proof.
  induction s as [|c s IH]; simpl; [done|].
  destruct (isspace c) eqn:E; [done|by simpl].
Qed.

Lemma lstrip_fixed s :
  match s with [] => True | c :: _ => isspace c = false end -> lstrip s = s.
Proof. destruct s as [|c s]; simpl; [done|]. by intros ->. Qed.

Lemma rstrip_head c s :
  rstrip (c :: s) = [] \/ exists t, rstrip (c :: s) = c :: t.
Proof.
  simpl. destruct (rstrip s); [destruct (isspace c)|]; eauto.
Qed.

Lemma rstrip_idem s : rstrip (rstrip s) = rstrip s.
Proof.
  induction s as [|c s IH]; simpl; [done|].
  destruct (rstrip s) as [|a t] eqn:E.
  - destruct (isspace c) eqn:Ec; simpl; [done|by rewrite Ec].
  - change (rstrip (c :: a :: t))
      with (match rstrip (a :: t) with
            | [] => if isspace c then [] else [c]
            | u => c :: u
            end).
    by rewrite IH.
Qed.

Lemma rstrip_prefix s : exists u, s = rstrip s ++ u.
Proof.
  induction s as [|c s [u IH]]; simpl; [by exists []|].
  destruct (rstrip s) as [|a t] eqn:E.
  - destruct (isspace c); [by exists (c :: s)|].
    exists u. simpl in *. congruence.
  - exists u. simpl in *. congruence.
Qed.

Lemma lstrip_rstrip_lstrip s : lstrip (rstrip (lstrip s)) = rstrip (lstrip s).
Proof.
  pose proof (lstrip_not_space s) as H.
  destruct (lstrip s) as [|c t]; [done|].
  destruct (rstrip_head c t) as [->|[u ->]]; [done|].
  simpl. by rewrite H.
Qed.

(** The result of [strip] has no whitespace at either end. *)
Lemma lstrip_strip s : lstrip (strip s) = strip s.
Proof. apply lstrip_rstrip_lstrip. Qed.

Lemma rstrip_strip s : rstrip (strip s) = strip s.
Proof. apply rstrip_idem. Qed.

Lemma strip_idem s : strip (strip s) = strip s.
Proof. unfold strip at 1. by rewrite lstrip_strip, rstrip_strip. Qed.

Lemma Forall_lstrip (P : N -> Prop) s : Forall P s -> Forall P (lstrip s).
Proof.
  induction 1 as [|c s Hc Hs IH]; simpl; [done|].
  destruct (isspace c); auto.
Qed.

Lemma Forall_rstrip (P : N -> Prop) s : Forall P s -> Forall P (rstrip s).
Proof.
  intros H. destruct (rstrip_prefix s) as [u Hu].
  rewrite Hu in H. by apply Forall_app in H as [? _].
Qed.

Lemma Forall_strip (P : N -> Prop) s : Forall P s -> Forall P (strip s).
Proof. intros. by apply Forall_rstrip, Forall_lstrip. Qed.

(** ** The passes of [_markdown_to_text] *)

Lemma lacks_Forall d s : lacks d s = true <-> Forall (fun c => c <> d) s.
Proof.
  unfold lacks. induction s as [|c s IH]; simpl.
  - split; [constructor|done].
  - rewrite andb_true_iff, negb_true_iff, N.eqb_neq, IH.
    split; [intros []; by constructor|by inversion 1].
Qed.

Lemma marker_cases c :
  is_marker c = false ->
  c <> HASH /\ c <> STAR /\ c <> BACKTICK /\ c <> LBRACKET /\ c <> PIPE
  /\ c <> HYPHEN.
Proof.
  unfold is_marker. rewrite !orb_false_iff, !N.eqb_neq. tauto.
Qed.

Lemma plain_Forall s :
  plain s = true -> Forall (fun c => is_marker c = false) s.
Proof.
  unfold plain. induction s as [|c s IH]; simpl; [constructor|].
  rewrite andb_true_iff, negb_true_iff. intros []. constructor; auto.
Qed.

Lemma inline_Forall s :
  inline s = true -> Forall (fun c => is_marker c = false /\ c <> NL) s.
Proof.
  unfold inline. induction s as [|c s IH]; simpl; [constructor|].
  rewrite !andb_true_iff, !negb_true_iff, N.eqb_neq. intros [[] ?].
  constructor; auto.
Qed.

(** A pass leaves a text alone when the character its pattern starts
    with does not occur. *)
Lemma pass_fixed p r d s :
  nullable p = false ->
  (forall c, c <> d -> can_start p c = false) ->
  Forall (fun c => c <> d) s ->
  re_sub p r s = s.
Proof.
  intros Hn Hp Hs. apply re_sub_fixed; [done|].
  eapply Forall_impl; [exact Hs|]. auto.
Qed.

Lemma sub_keep p r d pre s :
  (forall c, c <> d -> can_start p c = false) ->
  Forall (fun c => c <> d) pre ->
  sub_from p r (pre ++ s) 0 = pre ++ sub_from p r s 0.
Proof.
  intros Hp Hs. apply sub_from_keep.
  eapply Forall_impl; [exact Hs|]. auto.
Qed.

Lemma sub_fixed p r d s :
  nullable p = false ->
  (forall c, c <> d -> can_start p c = false) ->
  Forall (fun c => c <> d) s ->
  sub_from p r s 0 = s.
Proof. apply pass_fixed. Qed.

Lemma eqb_start c d : c <> d -> (c =? d) = false.
Proof. apply N.eqb_neq. Qed.

Lemma start_heading c : c <> HASH -> can_start Mineru.re_heading c = false.
Proof. intros H. simpl. by rewrite eqb_start. Qed.
Lemma start_bold c : c <> STAR -> can_start Mineru.re_bold c = false.
Proof. intros H. simpl. by rewrite eqb_start. Qed.
Lemma start_italic c : c <> STAR -> can_start Mineru.re_italic c = false.
Proof. intros H. simpl. by rewrite eqb_start. Qed.
Lemma start_code c : c <> BACKTICK -> can_start Mineru.re_code c = false.
Proof. intros H. simpl. by rewrite eqb_start. Qed.
Lemma start_link c : c <> LBRACKET -> can_start Mineru.re_link c = false.
Proof. intros H. simpl. by rewrite eqb_start. Qed.
Lemma start_pipes c : c <> PIPE -> can_start Mineru.re_pipes c = false.
Proof. intros H. simpl. by rewrite eqb_start. Qed.
Lemma start_rule c : c <> HYPHEN -> can_start Mineru.re_rule c = false.
Proof. intros H. simpl. by rewrite eqb_start. Qed.
Lemma start_blank c : c <> NL -> can_start Mineru.re_blank c = false.
Proof. intros H. simpl. by rewrite eqb_start. Qed.

(** *** Blank lines *)

Lemma run_split s : s = repeat NL (nlrun s) ++ drop_nl s.
Proof.
  induction s as [|c s IH]; simpl; [done|].
  destruct (N.eqb_spec c NL) as [->|]; simpl; [by rewrite <- IH|done].
Qed.

Lemma drop_nl_not_headed s : not_headed NL (drop_nl s).
Proof.
  induction s as [|c s IH]; simpl; [done|].
  destruct (N.eqb_spec c NL); [done|by simpl].
Qed.

Lemma length_drop_nl s : (length (drop_nl s) + nlrun s = length s)%nat.
Proof.
  induction s as [|c s IH]; simpl; [done|].
  destruct (c =? NL); simpl; lia.
Qed.

Lemma nlrun_not_headed s : not_headed NL s -> nlrun s = O.
Proof.
  destruct s as [|c s]; simpl; [done|]. intros H. by rewrite eqb_start.
Qed.

Lemma starts_with_run k s :
  starts_with (repeat NL k) s = (k <=? nlrun s)%nat.
Proof.
  revert s. induction k as [|k IH]; intros [|c s]; simpl; try done.
  rewrite N.eqb_sym. destruct (c =? NL); simpl; [apply IH|done].
Qed.

Lemma blank_match n t g :
  (3 <= n)%nat -> not_headed NL t ->
  match_here Mineru.re_blank (repeat NL n ++ t) 0 g = Some (n, g).
Proof.
  intros Hn Ht. unfold Mineru.re_blank. simpl.
  by apply rep_greedy_run.
Qed.

Lemma blank_short n t g :
  (n < 3)%nat -> not_headed NL t ->
  match_here Mineru.re_blank (repeat NL n ++ t) 0 g = None.
Proof.
  intros Hn Ht. unfold Mineru.re_blank. simpl.
  by apply rep_greedy_short.
Qed.

Lemma collapse_match s :
  (3 <= nlrun s)%nat -> collapse s = NL :: NL :: collapse (drop_nl s).
Proof.
  intros Hn. unfold collapse.
  rewrite (run_split s) at 1.
  rewrite (sub_from_match _ _ (repeat NL (nlrun s)) _ (O, O)).
  - done.
  - destruct (nlrun s); [lia|done].
  - rewrite repeat_length.
    apply blank_match; [done|apply drop_nl_not_headed].
Qed.

Lemma collapse_no_match c s :
  (nlrun (c :: s) < 3)%nat -> collapse (c :: s) = c :: collapse s.
Proof.
  intros Hn. apply sub_from_no_match.
  rewrite (run_split (c :: s)).
  apply blank_short; [done|apply drop_nl_not_headed].
Qed.

Lemma collapse_shape n s :
  (length s <= n)%nat ->
  nl3_free (collapse s) = true
  /\ nlrun (collapse s) = Nat.min (nlrun s) 2.
Proof.
  revert s. induction n as [|n IH]; intros s Hlen.
  - destruct s; [|simpl in Hlen; lia].
    unfold collapse. by rewrite sub_from_nil.
  - destruct s as [|c s].
    { unfold collapse. by rewrite sub_from_nil. }
    destruct (le_lt_dec 3 (nlrun (c :: s))) as [Hrun|Hrun].
    + rewrite collapse_match by done.
      destruct (IH (drop_nl (c :: s))) as [Hfree Hnl].
      { pose proof (length_drop_nl (c :: s)). simpl in *. lia. }
      rewrite (nlrun_not_headed (drop_nl (c :: s))) in Hnl
        by apply drop_nl_not_headed.
      set (o := collapse (drop_nl (c :: s))) in *.
      change (Nat.min 0 2) with O in Hnl.
      assert (starts_with [NL] o = false) as Ho.
      { change [NL] with (repeat NL 1). rewrite starts_with_run, Hnl. done. }
      split.
      * change (nl3_free (NL :: NL :: o))
          with (negb (starts_with [NL] o)
                && (negb (starts_with [NL; NL] o) && nl3_free o)).
        change [NL; NL] with (repeat NL 2).
        rewrite Ho, starts_with_run, Hnl, Hfree. done.
      * change (nlrun (NL :: NL :: o)) with (S (S (nlrun o))).
        rewrite Hnl. lia.
    + rewrite collapse_no_match by done.
      destruct (IH s) as [Hfree Hnl]; [simpl in Hlen; lia|].
      set (o := collapse s) in *.
      change (nl3_free (c :: o))
        with (negb (starts_with (repeat NL 3) (c :: o)) && nl3_free o).
      rewrite starts_with_run, Hfree, andb_true_r.
      assert (nlrun (c :: o) = Nat.min (nlrun (c :: s)) 2) as Hn2.
      { simpl in Hrun |- *. destruct (c =? NL); [|done]. rewrite Hnl. lia. }
      split; [|done]. rewrite Hn2. apply negb_true_iff, Nat.leb_gt. lia.
Qed.

(** The blank-line pass leaves no three newlines in a row ... *)
Lemma collapse_nl3_free s : nl3_free (collapse s) = true.
Proof. by apply (collapse_shape (length s)). Qed.

(** ... and changes nothing when there are none. *)
Lemma collapse_fixed s : nl3_free s = true -> collapse s = s.
Proof.
  induction s as [|c s IH]; intros H.
  - unfold collapse. by rewrite sub_from_nil.
  - change (nl3_free (c :: s))
      with (negb (starts_with [NL; NL; NL] (c :: s)) && nl3_free s) in H.
    apply andb_true_iff in H as [H1 H2].
    rewrite collapse_no_match, IH; [done|done|].
    change [NL; NL; NL] with (repeat NL 3) in H1.
    rewrite starts_with_run in H1.
    apply negb_true_iff, Nat.leb_gt in H1. done.
Qed.

Lemma nl3_free_tail c s : nl3_free (c :: s) = true -> nl3_free s = true.
Proof.
  change (nl3_free (c :: s))
    with (negb (starts_with [NL; NL; NL] (c :: s)) && nl3_free s).
  by intros [_ ?]%andb_true_iff.
Qed.

Lemma nl3_free_lstrip s : nl3_free s = true -> nl3_free (lstrip s) = true.
Proof.
  induction s as [|c s IH]; simpl lstrip; [done|].
  destruct (isspace c); [|done].
  intros H. by apply IH, (nl3_free_tail c).
Qed.

Lemma starts_with_app pre s u :
  starts_with pre s = true -> starts_with pre (s ++ u) = true.
Proof.
  revert s. induction pre as [|a pre IH]; intros [|b s]; simpl; try done.
  intros [-> ?]%andb_true_iff. simpl. auto.
Qed.

Lemma nl3_free_prefix s u : nl3_free (s ++ u) = true -> nl3_free s = true.
Proof.
  induction s as [|c s IH]; [done|].
  change (nl3_free ((c :: s) ++ u))
    with (negb (starts_with [NL; NL; NL] ((c :: s) ++ u))
          && nl3_free (s ++ u)).
  change (nl3_free (c :: s))
    with (negb (starts_with [NL; NL; NL] (c :: s)) && nl3_free s).
  intros [H1 H2]%andb_true_iff. rewrite IH by done.
  destruct (starts_with [NL; NL; NL] (c :: s)) eqn:E; [|done].
  by rewrite (starts_with_app _ _ u E) in H1.
Qed.

Lemma nl3_free_strip s : nl3_free s = true -> nl3_free (strip s) = true.
Proof.
  intros H%nl3_free_lstrip. unfold strip.
  destruct (rstrip_prefix (lstrip s)) as [u Hu].
  rewrite Hu in H. by apply nl3_free_prefix in H.
Qed.

(** The characters of the output of a pass with a literal replacement
    come from the input or from the replacement. *)
Lemma Forall_sub_lit (P : N -> Prop) p t s skip :
  Forall P t -> Forall P s -> Forall P (sub_from p [RLit t] s skip).
Proof.
  intros Ht Hs. revert skip.
  induction Hs as [|c s Hc Hs IH]; intros skip; simpl.
  - destruct skip; [|done].
    destruct (match_here p [] 0 (O, O)) as [[? ?]|]; [|done].
    simpl. by rewrite app_nil_r.
  - destruct skip; [|apply IH].
    destruct (match_here p (c :: s) 0 (O, O)) as [[[|e] ?]|]; simpl;
      rewrite ?app_nil_r; repeat first [apply Forall_app_2 | constructor];
      auto.
Qed.

Lemma to_text_unfold s :
  Mineru._markdown_to_text s = strip (collapse (strip_markers s)).
Proof. reflexivity. Qed.

Lemma unmarked_lacks s d : is_marker d = true -> unmarked s ->
  Forall (fun c => c <> d) s.
Proof.
  intros Hd H. eapply Forall_impl; [exact H|]. intros c Hc ->. congruence.
Qed.

Lemma strip_markers_plain s : unmarked s -> strip_markers s = s.
Proof.
  intros H. unfold strip_markers.
  rewrite (pass_fixed _ _ HASH s);
    [|done|apply start_heading|by apply unmarked_lacks].
  rewrite (pass_fixed _ _ STAR s);
    [|done|apply start_bold|by apply unmarked_lacks].
  rewrite (pass_fixed _ _ STAR s);
    [|done|apply start_italic|by apply unmarked_lacks].
  rewrite (pass_fixed _ _ BACKTICK s);
    [|done|apply start_code|by apply unmarked_lacks].
  rewrite (pass_fixed _ _ LBRACKET s);
    [|done|apply start_link|by apply unmarked_lacks].
  rewrite (pass_fixed _ _ PIPE s);
    [|done|apply start_pipes|by apply unmarked_lacks].
  rewrite (pass_fixed _ _ HYPHEN s);
    [|done|apply start_rule|by apply unmarked_lacks].
  done.
Qed.

Lemma to_text_plain s :
  unmarked s -> Mineru._markdown_to_text s = strip (collapse s).
Proof. intros H. by rewrite to_text_unfold, strip_markers_plain. Qed.

Lemma to_text_fixed s :
  unmarked (Mineru._markdown_to_text s) ->
  Mineru._markdown_to_text (Mineru._markdown_to_text s)
  = Mineru._markdown_to_text s.
Proof.
  intros H. rewrite (to_text_plain _ H).
  rewrite to_text_unfold at 1 2.
  rewrite collapse_fixed by apply nl3_free_strip, collapse_nl3_free.
  by rewrite strip_idem.
Qed.

Lemma unmarked_to_text s : unmarked s -> unmarked (Mineru._markdown_to_text s).
Proof.
  intros H. rewrite to_text_plain by done.
  apply Forall_strip, Forall_sub_lit; [|done].
  by repeat constructor.
Qed.

(** *** What each pass does to the construct it is written for *)

Lemma dot_text (d : N) x :
  Forall (fun c => c <> d /\ c <> NL) x ->
  Forall (fun c => c <> d /\ cls_match CDot c = true) x.
Proof.
  intros H. eapply Forall_impl; [exact H|]. intros c [? ?]. split; [done|].
  simpl. by rewrite eqb_start.
Qed.

Lemma expand_group s a n x t :
  drop a s = x ++ t -> length x = n ->
  expand [RGroup] s (a, (a + n)%nat) = x.
Proof.
  intros Hd Hn. unfold expand. simpl.
  replace (a + n - a)%nat with n by lia.
  rewrite Hd, app_nil_r. subst n. by rewrite take_app_length.
Qed.

Lemma wrap1_match d x q :
  Forall (fun c => c <> d /\ c <> NL) x ->
  match_here (wrap1 d) (d :: x ++ d :: q) 0 (O, O)
  = Some (S (length x + 1), (1, 1 + length x))%nat.
Proof.
  intros Hx. unfold wrap1. simpl. rewrite N.eqb_refl.
  rewrite (rep_lazy_skip _ _ d).
  - apply rep_lazy_stop. simpl. rewrite N.eqb_refl.
    do 2 f_equal. lia.
  - intros c s' pos' Hc. simpl. by rewrite eqb_start.
  - by apply dot_text.
Qed.

Lemma wrap1_sub d p x q :
  Forall (fun c => c <> d) p ->
  Forall (fun c => c <> d /\ c <> NL) x ->
  Forall (fun c => c <> d) q ->
  re_sub (wrap1 d) [RGroup] (p ++ d :: x ++ d :: q) = p ++ x ++ q.
Proof.
  intros Hp Hx Hq. unfold re_sub.
  rewrite (sub_keep _ _ d);
    [|intros c Hc; simpl; by rewrite eqb_start|done].
  change (d :: x ++ d :: q) with ((d :: x) ++ [d] ++ q).
  rewrite (app_assoc (d :: x) [d] q).
  rewrite (sub_from_match _ _ _ _ (1, 1 + length x)%nat); [|done|].
  - rewrite (expand_group _ 1 (length x) x (d :: q));
      [|by rewrite <- app_assoc|done].
    rewrite (sub_fixed _ _ d); [done|done| |done].
    intros c Hc. simpl. by rewrite eqb_start.
  - rewrite <- app_assoc. simpl app.
    rewrite wrap1_match by done.
    simpl length. by rewrite length_app.
Qed.

Lemma bold_match x q :
  Forall (fun c => c <> STAR /\ c <> NL) x ->
  match_here Mineru.re_bold (STAR :: STAR :: x ++ STAR :: STAR :: q) 0 (O, O)
  = Some (length (STAR :: STAR :: x ++ [STAR; STAR]), (2, 2 + length x))%nat.
Proof.
  intros Hx. unfold Mineru.re_bold. simpl.
  rewrite ?N.eqb_refl.
  rewrite (rep_lazy_skip _ _ STAR).
  - apply rep_lazy_stop. simpl. rewrite ?N.eqb_refl.
    rewrite length_app. simpl. do 2 f_equal. lia.
  - intros c s' pos' Hc. simpl. by rewrite eqb_start.
  - by apply dot_text.
Qed.

Lemma bold_sub p x q :
  Forall (fun c => c <> STAR) p ->
  Forall (fun c => c <> STAR /\ c <> NL) x ->
  Forall (fun c => c <> STAR) q ->
  re_sub Mineru.re_bold [RGroup] (p ++ STAR :: STAR :: x ++ STAR :: STAR :: q)
  = p ++ x ++ q.
Proof.
  intros Hp Hx Hq. unfold re_sub.
  rewrite (sub_keep _ _ STAR); [|apply start_bold|done].
  change (STAR :: STAR :: x ++ STAR :: STAR :: q)
    with ((STAR :: STAR :: x) ++ [STAR; STAR] ++ q).
  rewrite (app_assoc (STAR :: STAR :: x) [STAR; STAR] q).
  rewrite (sub_from_match _ _ _ _ (2, 2 + length x)%nat); [|done|].
  - rewrite (expand_group _ 2 (length x) x (STAR :: STAR :: q));
      [|by rewrite <- app_assoc|done].
    by rewrite (sub_fixed _ _ STAR); [|done|apply start_bold|done].
  - rewrite <- app_assoc. simpl app. by rewrite bold_match.
Qed.

(** A single pair of stars is not bold. *)
Lemma bold_single p x q :
  Forall (fun c => c <> STAR) p ->
  Forall (fun c => c <> STAR) x ->
  Forall (fun c => c <> STAR) q ->
  re_sub Mineru.re_bold [RGroup] (p ++ STAR :: x ++ STAR :: q)
  = p ++ STAR :: x ++ STAR :: q.
Proof.
  intros Hp Hx Hq. unfold re_sub.
  rewrite (sub_keep _ _ STAR); [|apply start_bold|done]. f_equal.
  assert (sub_from Mineru.re_bold [RGroup] (STAR :: q) 0 = STAR :: q) as Hq'.
  { rewrite sub_from_no_match.
    - by rewrite (sub_fixed _ _ STAR); [|done|apply start_bold|done].
    - unfold Mineru.re_bold. simpl. rewrite ?N.eqb_refl.
      destruct Hq as [|c q Hc Hq]; [done|]. by rewrite eqb_start. }
  rewrite sub_from_no_match.
  - f_equal. rewrite (sub_keep _ _ STAR); [|apply start_bold|done].
    by rewrite Hq'.
  - unfold Mineru.re_bold. simpl. rewrite ?N.eqb_refl.
    destruct Hx as [|c x Hc Hx]; simpl.
    + rewrite ?N.eqb_refl.
      apply (rep_lazy_fail _ _ STAR); [| |done].
      * intros c s' pos' Hc. simpl. by rewrite eqb_start.
      * done.
    + by rewrite eqb_start.
Qed.

Lemma link_match x u q :
  Forall (fun c => c <> RBRACKET /\ c <> NL) x ->
  Forall (fun c => c <> RPAREN /\ c <> NL) u ->
  match_here Mineru.re_link
    (LBRACKET :: x ++ RBRACKET :: LPAREN :: u ++ RPAREN :: q) 0 (O, O)
  = Some (length (LBRACKET :: x ++ RBRACKET :: LPAREN :: u ++ [RPAREN]),
          (1, 1 + length x))%nat.
Proof.
  intros Hx Hu. unfold Mineru.re_link. simpl.
  rewrite ?N.eqb_refl.
  rewrite (rep_lazy_skip _ _ RBRACKET).
  - apply rep_lazy_stop. simpl. rewrite ?N.eqb_refl.
    rewrite (rep_lazy_skip _ _ RPAREN).
    + apply rep_lazy_stop. simpl. rewrite ?N.eqb_refl.
      rewrite !length_app. simpl. rewrite length_app. simpl.
      do 2 f_equal. lia.
    + intros c s' pos' Hc. simpl. by rewrite eqb_start.
    + by apply dot_text.
  - intros c s' pos' Hc. simpl. by rewrite eqb_start.
  - by apply dot_text.
Qed.

Lemma link_sub p x u q :
  Forall (fun c => c <> LBRACKET) p ->
  Forall (fun c => c <> RBRACKET /\ c <> NL) x ->
  Forall (fun c => c <> RPAREN /\ c <> NL) u ->
  Forall (fun c => c <> LBRACKET) q ->
  re_sub Mineru.re_link [RGroup]
    (p ++ LBRACKET :: x ++ RBRACKET :: LPAREN :: u ++ RPAREN :: q)
  = p ++ x ++ q.
Proof.
  intros Hp Hx Hu Hq. unfold re_sub.
  rewrite (sub_keep _ _ LBRACKET); [|apply start_link|done].
  assert ((LBRACKET :: x ++ RBRACKET :: LPAREN :: u ++ [RPAREN]) ++ q
          = LBRACKET :: x ++ RBRACKET :: LPAREN :: u ++ RPAREN :: q) as Heq.
  { simpl. rewrite <- app_assoc. simpl. by rewrite <- app_assoc. }
  rewrite <- Heq.
  rewrite (sub_from_match _ _ _ _ (1, 1 + length x)%nat); [|done|].
  - rewrite (expand_group _ 1 (length x) x
               (RBRACKET :: LPAREN :: u ++ RPAREN :: q));
      [|by rewrite Heq|done].
    by rewrite (sub_fixed _ _ LBRACKET); [|done|apply start_link|done].
  - rewrite Heq. by apply link_match.
Qed.

Lemma pipes_match x q :
  Forall (fun c => c <> PIPE /\ c <> NL) x ->
  match_here Mineru.re_pipes (PIPE :: x ++ PIPE :: q) 0 (O, O)
  = Some (length (PIPE :: x ++ [PIPE]), (O, O)).
Proof.
  intros Hx. unfold Mineru.re_pipes. simpl.
  rewrite ?N.eqb_refl.
  rewrite (rep_lazy_skip _ _ PIPE).
  - apply rep_lazy_stop. simpl. rewrite ?N.eqb_refl.
    rewrite length_app. simpl. do 2 f_equal. lia.
  - intros c s' pos' Hc. simpl. by rewrite eqb_start.
  - by apply dot_text.
Qed.

(** The pipe pass removes what stands between two pipes as well. *)
Lemma pipes_sub p x q :
  Forall (fun c => c <> PIPE) p ->
  Forall (fun c => c <> PIPE /\ c <> NL) x ->
  Forall (fun c => c <> PIPE) q ->
  re_sub Mineru.re_pipes [] (p ++ PIPE :: x ++ PIPE :: q) = p ++ q.
Proof.
  intros Hp Hx Hq. unfold re_sub.
  rewrite (sub_keep _ _ PIPE); [|apply start_pipes|done].
  change (PIPE :: x ++ PIPE :: q) with ((PIPE :: x) ++ [PIPE] ++ q).
  rewrite (app_assoc (PIPE :: x) [PIPE] q).
  rewrite (sub_from_match _ _ _ _ (O, O)); [|done|].
  - simpl expand.
    by rewrite (sub_fixed _ _ PIPE); [|done|apply start_pipes|done].
  - rewrite <- app_assoc. simpl app. by rewrite pipes_match.
Qed.

Lemma Forall_not_headed d s : Forall (fun c => c <> d) s -> not_headed d s.
Proof. by destruct 1. Qed.

Lemma heading_match n x :
  (1 <= n <= 6)%nat ->
  Forall (fun c => c <> HASH) x ->
  match_here Mineru.re_heading (repeat HASH n ++ x) 0 (O, O)
  = Some ((n + length (take_ws x))%nat, (O, O)).
Proof.
  intros Hn Hx. unfold Mineru.re_heading. simpl.
  apply rep_greedy_run.
  - by apply Forall_not_headed.
  - intros i Hi. simpl. apply Nat.ltb_lt. lia.
  - lia.
  - by rewrite rep_greedy_space.
Qed.

(** The heading pass removes the marker and the whitespace after it. *)
Lemma heading_sub n p x :
  (1 <= n <= 6)%nat ->
  Forall (fun c => c <> HASH) p ->
  Forall (fun c => c <> HASH) x ->
  re_sub Mineru.re_heading [] (p ++ repeat HASH n ++ x) = p ++ lstrip x.
Proof.
  intros Hn Hp Hx. unfold re_sub.
  rewrite (sub_keep _ _ HASH); [|apply start_heading|done]. f_equal.
  rewrite <- (take_ws_lstrip x) at 1.
  rewrite app_assoc.
  rewrite (sub_from_match _ _ _ _ (O, O)).
  - simpl expand.
    rewrite (sub_fixed _ _ HASH); [done|done|apply start_heading|].
    by apply Forall_lstrip.
  - destruct n; [lia|done].
  - rewrite <- app_assoc, take_ws_lstrip, length_app, repeat_length.
    by apply heading_match.
Qed.

Lemma rule_sub n p q :
  (3 <= n)%nat ->
  Forall (fun c => c <> HYPHEN) p ->
  Forall (fun c => c <> HYPHEN) q ->
  re_sub Mineru.re_rule [] (p ++ repeat HYPHEN n ++ q) = p ++ q.
Proof.
  intros Hn Hp Hq. unfold re_sub.
  rewrite (sub_keep _ _ HYPHEN); [|apply start_rule|done]. f_equal.
  rewrite (sub_from_match _ _ _ _ (O, O)).
  - simpl expand.
    by rewrite (sub_fixed _ _ HYPHEN); [|done|apply start_rule|done].
  - destruct n; [lia|done].
  - rewrite repeat_length. unfold Mineru.re_rule. simpl.
    apply rep_greedy_run; [by apply Forall_not_headed|done|lia|done].
Qed.

Lemma collapse_keep p s :
  Forall (fun c => c <> NL) p -> collapse (p ++ s) = p ++ collapse s.
Proof. intros Hp. apply (sub_keep _ _ NL); [apply start_blank|done]. Qed.

Lemma collapse_inline s : Forall (fun c => c <> NL) s -> collapse s = s.
Proof. intros Hp. by apply (sub_fixed _ _ NL); [|apply start_blank|]. Qed.

(** Three or more newlines become two ... *)
Lemma collapse_run n p q :
  (3 <= n)%nat ->
  Forall (fun c => c <> NL) p ->
  Forall (fun c => c <> NL) q ->
  collapse (p ++ repeat NL n ++ q) = p ++ [NL; NL] ++ q.
Proof.
  intros Hn Hp Hq. rewrite collapse_keep by done. f_equal.
  unfold collapse.
  rewrite (sub_from_match _ _ _ _ (O, O)).
  - simpl expand. simpl app. do 2 f_equal. by apply collapse_inline.
  - destruct n; [lia|done].
  - rewrite repeat_length.
    apply blank_match; [done|by apply Forall_not_headed].
Qed.

(** ... and one or two newlines stay. *)
Lemma collapse_short n p q :
  (n <= 2)%nat ->
  Forall (fun c => c <> NL) p ->
  Forall (fun c => c <> NL) q ->
  collapse (p ++ repeat NL n ++ q) = p ++ repeat NL n ++ q.
Proof.
  intros Hn Hp Hq. rewrite collapse_keep by done. f_equal.
  assert (nlrun q = O) as Hq0 by by apply nlrun_not_headed, Forall_not_headed.
  destruct n as [|[|[|n]]]; [| | |lia]; simpl repeat; simpl app.
  - by apply collapse_inline.
  - rewrite collapse_no_match, collapse_inline; [done|done|].
    simpl. rewrite ?N.eqb_refl, Hq0. lia.
  - rewrite collapse_no_match, collapse_no_match, collapse_inline;
      [done|done| |]; simpl; rewrite ?N.eqb_refl, Hq0; lia.
Qed.

(** *** The whole conversion on marked-up text *)

Lemma plain_unmarked s : plain s = true <-> unmarked s.
Proof.
  unfold plain, unmarked. induction s as [|c s IH]; simpl.
  - split; [constructor|done].
  - rewrite andb_true_iff, negb_true_iff, IH.
    split; [intros []; by constructor|by inversion 1].
Qed.

Lemma inline_plain s : inline s = true -> unmarked s.
Proof.
  intros H%inline_Forall. eapply Forall_impl; [exact H|]. by intros c [].
Qed.

Lemma inline_lacks d s :
  is_marker d = true \/ d = NL -> inline s = true ->
  Forall (fun c => c <> d) s.
Proof.
  intros Hd H%inline_Forall. eapply Forall_impl; [exact H|].
  intros c [Hc Hn] ->. destruct Hd; congruence.
Qed.

Lemma inline_dot d s :
  Forall (fun c => c <> d) s -> inline s = true ->
  Forall (fun c => c <> d /\ c <> NL) s.
Proof.
  intros Hd H%inline_Forall. apply Forall_and. split; [done|].
  eapply Forall_impl; [exact H|]. by intros c [].
Qed.

Lemma Forall_repeat (P : N -> Prop) c n : P c -> Forall P (repeat c n).
Proof. intros H. induction n; simpl; by constructor. Qed.

Lemma unmarked_app a b : unmarked a -> unmarked b -> unmarked (a ++ b).
Proof. apply Forall_app_2. Qed.

Ltac lacks_tac :=
  repeat first
    [ apply Forall_app_2
    | apply Forall_cons_2
    | apply Forall_nil_2
    | apply Forall_lstrip
    | apply Forall_repeat
    | apply inline_dot
    | by apply lacks_Forall
    | by (apply inline_lacks; [by (left + right)|assumption])
    | by apply inline_plain
    | done ].

Ltac pass_id p d :=
  rewrite (pass_fixed p _ d);
  [|done
   |first [apply start_heading | apply start_bold | apply start_italic
          |apply start_code | apply start_link | apply start_pipes
          |apply start_rule]
   |lacks_tac].

(** Once the construct is gone, what is left is plain text. *)
Lemma finish_inline t :
  inline t = true -> strip (collapse t) = strip t.
Proof.
  intros H. rewrite collapse_inline; [done|].
  apply inline_lacks; [by right|done].
Qed.

Lemma inline_app a b :
  inline a = true -> inline b = true -> inline (a ++ b) = true.
Proof. unfold inline. rewrite forallb_app. by intros -> ->. Qed.

Lemma inline_lstrip s : inline s = true -> inline (lstrip s) = true.
Proof.
  unfold inline. induction s as [|c s IH]; simpl; [done|].
  intros [H1 H2]%andb_true_iff.
  destruct (isspace c); [auto|]. simpl. by rewrite H1, H2.
Qed.

Section Passes.
Variables p x u q : pystr.
Hypothesis Hp : inline p = true.
Hypothesis Hx : inline x = true.
Hypothesis Hu : inline u = true.
Hypothesis Hq : inline q = true.

Lemma to_text_heading n :
  (1 <= n <= 6)%nat ->
  Mineru._markdown_to_text (p ++ repeat HASH n ++ x)
  = strip (p ++ lstrip x).
Proof using Hp Hx.
  intros Hn. rewrite to_text_unfold. unfold strip_markers.
  rewrite heading_sub by lacks_tac.
  pass_id Mineru.re_bold STAR. pass_id Mineru.re_italic STAR.
  pass_id Mineru.re_code BACKTICK. pass_id Mineru.re_link LBRACKET.
  pass_id Mineru.re_pipes PIPE. pass_id Mineru.re_rule HYPHEN.
  apply finish_inline. by apply inline_app, inline_lstrip.
Qed.

Lemma to_text_bold :
  Mineru._markdown_to_text (p ++ [STAR; STAR] ++ x ++ [STAR; STAR] ++ q)
  = strip (p ++ x ++ q).
Proof using Hp Hx Hq.
  rewrite to_text_unfold. unfold strip_markers. simpl app.
  pass_id Mineru.re_heading HASH.
  rewrite bold_sub by lacks_tac.
  pass_id Mineru.re_italic STAR. pass_id Mineru.re_code BACKTICK.
  pass_id Mineru.re_link LBRACKET.
  pass_id Mineru.re_pipes PIPE. pass_id Mineru.re_rule HYPHEN.
  apply finish_inline. by repeat apply inline_app.
Qed.

Lemma to_text_italic :
  Mineru._markdown_to_text (p ++ [STAR] ++ x ++ [STAR] ++ q)
  = strip (p ++ x ++ q).
Proof using Hp Hx Hq.
  rewrite to_text_unfold. unfold strip_markers. simpl app.
  pass_id Mineru.re_heading HASH.
  rewrite bold_single by lacks_tac.
  change Mineru.re_italic with (wrap1 STAR).
  rewrite wrap1_sub by lacks_tac.
  pass_id Mineru.re_code BACKTICK. pass_id Mineru.re_link LBRACKET.
  pass_id Mineru.re_pipes PIPE. pass_id Mineru.re_rule HYPHEN.
  apply finish_inline. by repeat apply inline_app.
Qed.

Lemma to_text_code :
  Mineru._markdown_to_text (p ++ [BACKTICK] ++ x ++ [BACKTICK] ++ q)
  = strip (p ++ x ++ q).
Proof using Hp Hx Hq.
  rewrite to_text_unfold. unfold strip_markers. simpl app.
  pass_id Mineru.re_heading HASH. pass_id Mineru.re_bold STAR.
  pass_id Mineru.re_italic STAR.
  change Mineru.re_code with (wrap1 BACKTICK).
  rewrite wrap1_sub by lacks_tac.
  pass_id Mineru.re_link LBRACKET. pass_id Mineru.re_pipes PIPE.
  pass_id Mineru.re_rule HYPHEN.
  apply finish_inline. by repeat apply inline_app.
Qed.

Lemma to_text_link :
  lacks RBRACKET x = true -> lacks RPAREN u = true ->
  Mineru._markdown_to_text
    (p ++ [LBRACKET] ++ x ++ [RBRACKET; LPAREN] ++ u ++ [RPAREN] ++ q)
  = strip (p ++ x ++ q).
Proof using Hp Hx Hu Hq.
  intros Hx' Hu'.
  rewrite to_text_unfold. unfold strip_markers. simpl app.
  pass_id Mineru.re_heading HASH. pass_id Mineru.re_bold STAR.
  pass_id Mineru.re_italic STAR. pass_id Mineru.re_code BACKTICK.
  rewrite link_sub by lacks_tac.
  pass_id Mineru.re_pipes PIPE. pass_id Mineru.re_rule HYPHEN.
  apply finish_inline. by repeat apply inline_app.
Qed.

Lemma to_text_pipes :
  Mineru._markdown_to_text (p ++ [PIPE] ++ x ++ [PIPE] ++ q)
  = strip (p ++ q).
Proof using Hp Hx Hq.
  rewrite to_text_unfold. unfold strip_markers. simpl app.
  pass_id Mineru.re_heading HASH. pass_id Mineru.re_bold STAR.
  pass_id Mineru.re_italic STAR. pass_id Mineru.re_code BACKTICK.
  pass_id Mineru.re_link LBRACKET.
  rewrite pipes_sub by lacks_tac.
  pass_id Mineru.re_rule HYPHEN.
  apply finish_inline. by repeat apply inline_app.
Qed.

Lemma to_text_rule n :
  (3 <= n)%nat ->
  Mineru._markdown_to_text (p ++ repeat HYPHEN n ++ q) = strip (p ++ q).
Proof using Hp Hq.
  intros Hn. rewrite to_text_unfold. unfold strip_markers.
  pass_id Mineru.re_heading HASH. pass_id Mineru.re_bold STAR.
  pass_id Mineru.re_italic STAR. pass_id Mineru.re_code BACKTICK.
  pass_id Mineru.re_link LBRACKET. pass_id Mineru.re_pipes PIPE.
  rewrite rule_sub by lacks_tac.
  apply finish_inline. by repeat apply inline_app.
Qed.

Lemma newlines_unmarked n : unmarked (p ++ repeat NL n ++ q).
Proof using Hp Hq. unfold unmarked. lacks_tac. Qed.

Lemma to_text_blank_run n :
  (3 <= n)%nat ->
  Mineru._markdown_to_text (p ++ repeat NL n ++ q)
  = strip (p ++ [NL; NL] ++ q).
Proof using Hp Hq.
  intros Hn. rewrite to_text_plain by apply newlines_unmarked.
  by rewrite collapse_run by lacks_tac.
Qed.

Lemma to_text_blank_short n :
  (n <= 2)%nat ->
  Mineru._markdown_to_text (p ++ repeat NL n ++ q)
  = strip (p ++ repeat NL n ++ q).
Proof using Hp Hq.
  intros Hn. rewrite to_text_plain by apply newlines_unmarked.
  by rewrite collapse_short by lacks_tac.
Qed.
End Passes.

Lemma to_text_trimmed s :
  lstrip (Mineru._markdown_to_text s) = Mineru._markdown_to_text s
  /\ rstrip (Mineru._markdown_to_text s) = Mineru._markdown_to_text s.
Proof.
  rewrite to_text_unfold. split; [apply lstrip_strip|apply rstrip_strip].
Qed.

(** ** The passes of [_markdown_to_text], without the matcher *)

(** *** Quantifiers in general *)

Lemma rep_match_ext rest rest' q k lo hi s n pos :
  (forall s pos, rest s pos = rest' s pos) ->
  rep_match rest q k lo hi s n pos = rep_match rest' q k lo hi s n pos.
Proof.
  intros H. revert n pos.
  induction s as [|c s IH]; intros n pos; simpl; rewrite H; [done|].
  by rewrite IH.
Qed.

(** A greedy quantifier whose continuation cannot fail takes all it
    can. *)
Lemma rep_greedy_total rest k lo hi s n pos :
  (forall s pos, is_Some (rest s pos)) ->
  rep_match rest Greedy k lo hi s n pos
  = if (lo <=? n + taken k hi s n)%nat
    then rest (drop (taken k hi s n) s) (pos + taken k hi s n)%nat
    else None.
Proof.
  intros Hrest. revert n pos.
  induction s as [|c s IH]; intros n pos; simpl.
  - by rewrite !Nat.add_0_r.
  - destruct (below hi n && cls_match k c) eqn:Hc.
    + rewrite IH.
      replace (n + S (taken k hi s (S n)))%nat
        with (S n + taken k hi s (S n))%nat by lia.
      replace (pos + S (taken k hi s (S n)))%nat
        with (S pos + taken k hi s (S n))%nat by lia.
      destruct (S n + taken k hi s (S n))%nat eqn:Hn; [lia|].
      rewrite <- Hn. clear Hn.
      destruct (lo <=? S n + taken k hi s (S n))%nat eqn:Hlo.
      * destruct (Hrest (drop (taken k hi s (S n)) s)
                    (S pos + taken k hi s (S n))%nat) as [r Hr].
        simpl drop. by rewrite Hr.
      * apply Nat.leb_gt in Hlo.
        destruct (lo <=? n)%nat eqn:Hlo'; [apply Nat.leb_le in Hlo'; lia|].
        done.
    + by rewrite !Nat.add_0_r.
Qed.

Lemma taken_char c s n : taken (CChar c) None s n = run c s.
Proof.
  revert n. induction s as [|a s IH]; intros n; simpl; [done|].
  destruct (a =? c); by rewrite ?IH.
Qed.

Lemma taken_space s n : taken CSpace None s n = length (take_ws s).
Proof.
  revert n. induction s as [|a s IH]; intros n; simpl; [done|].
  destruct (isspace a); simpl; by rewrite ?IH.
Qed.

Lemma taken_char_bounded c h s n :
  taken (CChar c) (Some h) s n = Nat.min (run c s) (h - n).
Proof.
  revert n. induction s as [|a s IH]; intros n; simpl; [done|].
  destruct (n <? h)%nat eqn:Hn; simpl.
  - apply Nat.ltb_lt in Hn. destruct (a =? c); [|done].
    rewrite IH. lia.
  - apply Nat.ltb_ge in Hn. replace (h - n)%nat with O by lia.
    by rewrite Nat.min_0_r.
Qed.

Lemma run_length c s : (run c s <= length s)%nat.
Proof.
  induction s as [|a s IH]; simpl; [done|]. destruct (a =? c); simpl; lia.
Qed.

Lemma length_take_ws s : (length (take_ws s) <= length s)%nat.
Proof.
  induction s as [|a s IH]; simpl; [done|].
  destruct (isspace a); simpl; lia.
Qed.

(** *** Literal characters *)

Lemma match_lits l p s pos g :
  match_here (lits l ++ p) s pos g
  = if starts_with l s
    then match_here p (drop (length l) s) (pos + length l)%nat g
    else None.
Proof.
  revert s pos. induction l as [|a l IH]; intros s pos; simpl.
  - by rewrite Nat.add_0_r.
  - destruct s as [|b s]; [done|]. simpl.
    rewrite (N.eqb_sym a b). destruct (b =? a); [|done]. simpl.
    rewrite IH. by replace (S pos + length l)%nat
                     with (pos + S (length l))%nat by lia.
Qed.

Lemma match_lits_end l s pos g :
  match_here (lits l) s pos g
  = if starts_with l s then Some ((pos + length l)%nat, g) else None.
Proof.
  rewrite <- (app_nil_r (lits l)). by rewrite match_lits.
Qed.

Lemma starts_with_length l s :
  starts_with l s = true -> (length l <= length s)%nat.
Proof.
  revert s. induction l as [|a l IH]; intros [|b s]; simpl; try done; [lia|].
  intros [_ H]%andb_true_iff. apply IH in H. lia.
Qed.

(** *** The lazy [.*?] *)

Lemma until_spec closing s m :
  until closing s = Some m ->
  Forall (fun c => c <> NL) (take m s)
  /\ starts_with closing (drop m s) = true
  /\ (m + length closing <= length s)%nat.
Proof.
  revert m. induction s as [|c s IH]; intros m; simpl.
  - destruct (starts_with closing []) eqn:Hs; [|done].
    intros [= <-]. split; [done|]. split; [done|].
    apply starts_with_length in Hs. simpl in *. lia.
  - destruct (starts_with closing (c :: s)) eqn:Hs.
    + intros [= <-]. split; [done|]. split; [done|].
      apply starts_with_length in Hs. simpl in *. lia.
    + destruct (c =? NL) eqn:Hc; [done|].
      destruct (until closing s) as [m'|]; [|done].
      intros [= <-]. destruct (IH m' eq_refl) as (H1 & H2 & H3).
      apply N.eqb_neq in Hc. simpl. split; [by constructor|].
      split; [done|lia].
Qed.

Lemma starts_with_take l s : starts_with l s = true -> take (length l) s = l.
Proof.
  revert s. induction l as [|a l IH]; intros [|b s]; simpl; try done.
  intros [Ha H]%andb_true_iff. apply N.eqb_eq in Ha. subst b.
  by rewrite IH.
Qed.

Lemma until_line closing s m :
  until closing s = Some m ->
  Forall (fun c => c <> NL) closing ->
  Forall (fun c => c <> NL) (take (m + length closing) s).
Proof.
  intros (H1 & H2 & H3)%until_spec Hc.
  rewrite <- take_take_drop.
  apply Forall_app. split; [done|]. by rewrite starts_with_take.
Qed.

Lemma until_none_drop closing t j :
  until closing t = None ->
  Forall (fun c => c <> NL) (take j t) ->
  until closing (drop j t) = None.
Proof.
  revert t. induction j as [|j IH]; intros t; [done|].
  destruct t as [|c t]; [done|]. simpl.
  destruct (starts_with closing (c :: t)); [done|].
  intros H Hj. apply Forall_cons in Hj as [Hc Hj].
  apply N.eqb_neq in Hc. rewrite Hc in H.
  destruct (until closing t) eqn:Hu; [done|]. by apply IH.
Qed.

(** The lazy quantifier before a literal [closing] whose continuation
    cannot fail stops at the first [closing] on the line. *)
Lemma rep_lazy_until closing (f : nat -> nat * span) s n pos :
  rep_match (fun s pos => if starts_with closing s then Some (f pos) else None)
    Lazy CDot 0 None s n pos
  = (fun m => f (pos + m)%nat) <$> until closing s.
Proof.
  revert n pos. induction s as [|c s IH]; intros n pos; simpl.
  - destruct (starts_with closing []); simpl; [by rewrite Nat.add_0_r|done].
  - destruct (starts_with closing (c :: s)); simpl;
      [by rewrite Nat.add_0_r|].
    destruct (c =? NL); simpl; [done|].
    rewrite IH. destruct (until closing s) as [m|]; simpl; [|done].
    do 2 f_equal. lia.
Qed.

(** The link: when no [)] follows the first [](] on the line, none
    follows a later one either. *)
Lemma rep_lazy_link (f : nat -> nat -> nat * span) s n pos :
  rep_match
    (fun s pos =>
       if starts_with [RBRACKET; LPAREN] s
       then f pos <$> until [RPAREN] (drop 2 s)
       else None)
    Lazy CDot 0 None s n pos
  = match until [RBRACKET; LPAREN] s with
    | Some m => f (pos + m)%nat <$> until [RPAREN] (drop (m + 2) s)
    | None => None
    end.
Proof.
  revert n pos. induction s as [|c s IH]; intros n pos; [done|].
  cbn [rep_match until].
  destruct (starts_with [RBRACKET; LPAREN] (c :: s)) eqn:Hs.
  - rewrite Nat.add_0_r. change (0 + 2)%nat with 2%nat.
    destruct (until [RPAREN] (drop 2 (c :: s))) as [k|] eqn:Hk;
      [done|].
    simpl fmap. cbv iota beta.
    assert (Hc : c = RBRACKET).
    { simpl in Hs. apply andb_true_iff in Hs as [Hs _].
      apply N.eqb_eq in Hs. done. }
    subst c. change (RBRACKET =? NL) with false.
    change (below None n && cls_match CDot RBRACKET) with true.
    cbv iota. rewrite IH.
    destruct (until [RBRACKET; LPAREN] s) as [m|] eqn:Hm; [|done].
    replace (drop (m + 2) s) with (drop (m + 1) (drop 1 s))
      by (rewrite drop_drop; f_equal; lia).
    rewrite (until_none_drop [RPAREN] (drop 1 s) (m + 1)); [done|exact Hk|].
    rewrite take_drop_commute. apply Forall_drop.
    replace (1 + (m + 1))%nat with (m + length [RBRACKET; LPAREN])%nat
      by (simpl; lia).
    apply until_line; [done|]. by repeat constructor.
  - cbv iota. simpl cls_match. simpl below. cbn [andb].
    destruct (c =? NL); simpl negb; cbv iota; [done|].
    rewrite IH.
    destruct (until [RBRACKET; LPAREN] s) as [m|]; simpl; [|done].
    do 2 f_equal. lia.
Qed.

(** *** [re.sub] as a pass *)

Lemma sub_pass p r here :
  nullable p = false ->
  shrinks here ->
  (forall s, replaced p r s = here s) ->
  forall s skip, sub_from p r s skip = pass_from here s skip.
Proof.
  intros Hnull Hshr H.
  induction s as [|c s IH]; intros skip.
  - destruct skip; simpl; [|done]. by rewrite match_here_nil.
  - destruct skip as [|k]; simpl; [|apply IH].
    rewrite <- H. unfold replaced.
    destruct (match_here p (c :: s) 0 (0, 0)%nat) as [[[|e] g]|] eqn:Hm.
    + specialize (H (c :: s)). unfold replaced in H. rewrite Hm in H.
      symmetry in H. apply Hshr in H. lia.
    + by rewrite IH.
    + by rewrite IH.
Qed.

(** *** Each pattern of the source against its pass *)

Lemma heading_replaced s : replaced Mineru.re_heading [] s = heading_here s.
Proof.
  unfold replaced, heading_here.
  change (match_here Mineru.re_heading s 0 (0, 0)%nat)
    with (rep_match
            (fun s pos =>
               rep_match (fun s pos => Some (pos, (O, O)))
                 Greedy CSpace 0 None s 0 pos)
            Greedy (CChar HASH) 1 (Some 6%nat) s 0 0).
  rewrite (rep_match_ext _
             (fun s pos => Some ((pos + length (take_ws s))%nat, (O, O)))).
  2:{ intros t pos. rewrite rep_greedy_total by (intros; eauto).
      by rewrite taken_space. }
  rewrite rep_greedy_total by (intros; eauto).
  rewrite taken_char_bounded.
  destruct (run HASH s) as [|k]; [done|].
  change (6 - 0)%nat with 6%nat.
  destruct (Nat.min (S k) 6) as [|n] eqn:Hn; [lia|]. done.
Qed.

Lemma wrapped_replaced opening closing s :
  replaced
    (lits opening ++ GOpen :: Rep Lazy CDot 0 None :: GClose :: lits closing)
    [RGroup] s
  = wrapped_here opening closing s.
Proof.
  unfold replaced, wrapped_here. rewrite match_lits.
  destruct (starts_with opening s); [|done].
  cbn [match_here].
  rewrite (rep_match_ext _
             (fun s pos =>
                if starts_with closing s
                then Some ((fun pos => ((pos + length closing)%nat,
                                        (length opening, pos))) pos)
                else None)).
  2:{ intros t pos. cbn [match_here]. by rewrite match_lits_end. }
  rewrite (rep_lazy_until closing
             (fun pos => ((pos + length closing)%nat, (length opening, pos)))).
  destruct (until closing (drop (length opening) s)) as [m|]; [|done].
  simpl. unfold expand. simpl. rewrite app_nil_r.
  by replace (length opening + m - length opening)%nat with m by lia.
Qed.

Lemma pipes_replaced s : replaced Mineru.re_pipes [] s = pipes_here s.
Proof.
  unfold replaced, pipes_here, wrapped_here.
  change Mineru.re_pipes
    with (lits [PIPE] ++ Rep Lazy CDot 0 None :: lits [PIPE]).
  rewrite match_lits.
  destruct (starts_with [PIPE] s); [|done].
  cbn [match_here].
  rewrite (rep_match_ext _
             (fun s pos =>
                if starts_with [PIPE] s
                then Some ((fun pos => ((pos + 1)%nat, (O, O))) pos)
                else None)).
  2:{ intros t pos. by rewrite match_lits_end. }
  rewrite (rep_lazy_until [PIPE] (fun pos => ((pos + 1)%nat, (O, O)))).
  by destruct (until [PIPE] (drop (length [PIPE]) s)) as [m|].
Qed.

Lemma link_replaced s : replaced Mineru.re_link [RGroup] s = link_here s.
Proof.
  unfold replaced, link_here.
  change Mineru.re_link
    with (lits [LBRACKET]
          ++ GOpen :: Rep Lazy CDot 0 None :: GClose
          :: lits [RBRACKET; LPAREN]
          ++ Rep Lazy CDot 0 None :: lits [RPAREN]).
  rewrite match_lits.
  destruct (starts_with [LBRACKET] s); [|done].
  cbn [match_here].
  rewrite (rep_match_ext _
             (fun s pos =>
                if starts_with [RBRACKET; LPAREN] s
                then (fun pos m => ((pos + 2 + m + 1)%nat, (1%nat, pos))) pos
                     <$> until [RPAREN] (drop 2 s)
                else None)).
  2:{ intros t pos. cbn [match_here]. rewrite match_lits.
      destruct (starts_with [RBRACKET; LPAREN] t); [|done].
      cbn [match_here].
      rewrite (rep_match_ext _
                 (fun s pos' =>
                    if starts_with [RPAREN] s
                    then Some ((fun pos' => ((pos' + 1)%nat, (1%nat, pos)))
                                 pos')
                    else None)).
      2:{ intros u pos'. by rewrite match_lits_end. }
      rewrite (rep_lazy_until [RPAREN]
                 (fun pos' => ((pos' + 1)%nat, (1%nat, pos)))).
      reflexivity. }
  rewrite (rep_lazy_link
             (fun pos m => ((pos + 2 + m + 1)%nat, (1%nat, pos)))).
  change (length [LBRACKET]) with 1%nat.
  destruct (until [RBRACKET; LPAREN] (drop 1 s)) as [n|]; [|done].
  rewrite drop_drop. replace (1 + (n + 2))%nat with (n + 3)%nat by lia.
  destruct (until [RPAREN] (drop (n + 3) s)) as [m|]; [|done].
  simpl. unfold expand. simpl. rewrite app_nil_r.
  replace (n - 0)%nat with n by lia.
  do 2 f_equal. lia.
Qed.

Lemma run_replaced c r out s :
  (forall g, expand r s g = out) ->
  replaced [Rep Greedy (CChar c) 3 None] r s = run_here c out s.
Proof.
  intros Hout. unfold replaced, run_here. cbn [match_here].
  rewrite rep_greedy_total by (intros; eauto).
  rewrite taken_char. change (0 + run c s)%nat with (run c s).
  destruct (3 <=? run c s)%nat; [|done]. by rewrite Hout.
Qed.

(** *** No pass lengthens the text *)

Lemma heading_shrinks : shrinks heading_here.
Proof.
  intros s out e. unfold heading_here.
  pose proof (run_length HASH s) as Hrun.
  destruct (run HASH s) as [|k]; [done|].
  assert (Hn : (1 <= Nat.min (S k) 6 <= S k)%nat) by lia.
  revert Hn. generalize (Nat.min (S k) 6). intros n Hn [= <- <-].
  pose proof (length_take_ws (drop n s)) as Hws.
  rewrite length_drop in Hws. simpl length. lia.
Qed.

Lemma wrapped_shrinks opening closing :
  opening <> [] -> shrinks (wrapped_here opening closing).
Proof.
  intros Hop s out e. unfold wrapped_here.
  destruct (starts_with opening s) eqn:Hs; [|done].
  apply starts_with_length in Hs.
  destruct (until closing (drop (length opening) s)) as [n|] eqn:Hn; [|done].
  apply until_spec in Hn as (_ & _ & Hn). rewrite length_drop in Hn.
  intros [= <- <-]. rewrite length_take, length_drop.
  destruct opening; [done|]. simpl length in *. lia.
Qed.

Lemma pipes_shrinks : shrinks pipes_here.
Proof.
  intros s out e. unfold pipes_here.
  destruct (wrapped_here [PIPE] [PIPE] s) as [[x n]|] eqn:Hw; [|done].
  intros [= <- <-]. apply wrapped_shrinks in Hw; [|done]. simpl. lia.
Qed.

Lemma link_shrinks : shrinks link_here.
Proof.
  intros s out e. unfold link_here.
  destruct (starts_with [LBRACKET] s) eqn:Hs; [|done].
  destruct (until [RBRACKET; LPAREN] (drop 1 s)) as [n|] eqn:Hn; [|done].
  destruct (until [RPAREN] (drop (n + 3) s)) as [m|] eqn:Hm; [|done].
  apply until_spec in Hm as (_ & _ & Hm). rewrite length_drop in Hm.
  apply until_spec in Hn as (_ & _ & Hn). rewrite length_drop in Hn.
  intros [= <- <-]. rewrite length_take, length_drop.
  simpl length in *. lia.
Qed.

Lemma run_shrinks c out : (length out < 3)%nat -> shrinks (run_here c out).
Proof.
  intros Hout s out' e. unfold run_here.
  pose proof (run_length c s).
  destruct (3 <=? run c s)%nat eqn:Hrun; [|done].
  apply Nat.leb_le in Hrun. intros [= <- <-]. lia.
Qed.

Lemma marker_passes_shrink : Forall shrinks marker_passes.
Proof.
  unfold marker_passes. repeat apply Forall_cons_2; [..|apply Forall_nil_2].
  - apply heading_shrinks.
  - by apply wrapped_shrinks.
  - by apply wrapped_shrinks.
  - by apply wrapped_shrinks.
  - apply link_shrinks.
  - apply pipes_shrinks.
  - by apply run_shrinks; simpl; lia.
Qed.

(** *** The conversion, pass by pass *)

Lemma re_sub_heading s : re_sub Mineru.re_heading [] s = pass heading_here s.
Proof.
  apply sub_pass; [done|apply heading_shrinks|apply heading_replaced].
Qed.

Lemma re_sub_bold s :
  re_sub Mineru.re_bold [RGroup] s
  = pass (wrapped_here [STAR; STAR] [STAR; STAR]) s.
Proof.
  apply sub_pass; [done|by apply wrapped_shrinks|].
  apply (wrapped_replaced [STAR; STAR] [STAR; STAR]).
Qed.

Lemma re_sub_italic s :
  re_sub Mineru.re_italic [RGroup] s = pass (wrapped_here [STAR] [STAR]) s.
Proof.
  apply sub_pass; [done|by apply wrapped_shrinks|].
  apply (wrapped_replaced [STAR] [STAR]).
Qed.

Lemma re_sub_code s :
  re_sub Mineru.re_code [RGroup] s
  = pass (wrapped_here [BACKTICK] [BACKTICK]) s.
Proof.
  apply sub_pass; [done|by apply wrapped_shrinks|].
  apply (wrapped_replaced [BACKTICK] [BACKTICK]).
Qed.

Lemma re_sub_link s : re_sub Mineru.re_link [RGroup] s = pass link_here s.
Proof.
  apply sub_pass; [done|apply link_shrinks|apply link_replaced].
Qed.

Lemma re_sub_pipes s : re_sub Mineru.re_pipes [] s = pass pipes_here s.
Proof.
  apply sub_pass; [done|apply pipes_shrinks|apply pipes_replaced].
Qed.

Lemma re_sub_rule s : re_sub Mineru.re_rule [] s = pass (run_here HYPHEN []) s.
Proof.
  apply sub_pass; [done|by apply run_shrinks; simpl; lia|].
  intros t. by apply run_replaced.
Qed.

Lemma collapse_pass s : collapse s = pass (run_here NL [NL; NL]) s.
Proof.
  apply sub_pass; [done|by apply run_shrinks; simpl; lia|].
  intros t. by apply run_replaced.
Qed.

Lemma strip_markers_passes s :
  strip_markers s = foldl (fun t here => pass here t) s marker_passes.
Proof.
  unfold strip_markers. simpl foldl.
  by rewrite re_sub_heading, re_sub_bold, re_sub_italic, re_sub_code,
    re_sub_link, re_sub_pipes, re_sub_rule.
Qed.

Lemma to_text_passes_eq s : Mineru._markdown_to_text s = to_text_passes s.
Proof.
  rewrite to_text_unfold, collapse_pass, strip_markers_passes. done.
Qed.

(** *** When a second conversion changes nothing *)

Lemma quiet_pass here s : quiet here s = true -> pass here s = s.
Proof.
  unfold pass. induction s as [|c s IH]; simpl; [done|].
  intros [Hh Hq]%andb_true_iff. apply negb_true_iff in Hh.
  apply bool_decide_eq_false in Hh.
  destruct (here (c :: s)) as [[out e]|]; [by destruct Hh|].
  by rewrite IH.
Qed.

Lemma quiet_ext here here' s :
  (forall s, here s = here' s) -> quiet here s = quiet here' s.
Proof.
  intros H. induction s as [|c s IH]; simpl; [done|]. by rewrite H, IH.
Qed.

(** No construct of a pass anywhere: no match of a pattern anywhere. *)
Lemma settled_unmatched s : settled s = unmatched s.
Proof.
  unfold settled, unmatched, marker_passes, marker_subs.
  cbn [forallb fst snd].
  f_equal; [symmetry; apply quiet_ext, heading_replaced|].
  f_equal; [symmetry; apply quiet_ext; intros t;
            apply (wrapped_replaced [STAR; STAR] [STAR; STAR])|].
  f_equal; [symmetry; apply quiet_ext; intros t;
            apply (wrapped_replaced [STAR] [STAR])|].
  f_equal; [symmetry; apply quiet_ext; intros t;
            apply (wrapped_replaced [BACKTICK] [BACKTICK])|].
  f_equal; [symmetry; apply quiet_ext, link_replaced|].
  f_equal; [symmetry; apply quiet_ext, pipes_replaced|].
  f_equal. symmetry. apply quiet_ext. intros t. by apply run_replaced.
Qed.

Lemma pass_from_length here s skip :
  shrinks here -> (length (pass_from here s skip) <= length s - skip)%nat.
Proof.
  intros Hshr. revert skip.
  induction s as [|c s IH]; intros skip; simpl; [lia|].
  destruct skip as [|k]; [|apply IH].
  destruct (here (c :: s)) as [[out [|n]]|] eqn:Hh.
  - simpl. specialize (IH O). lia.
  - apply Hshr in Hh. simpl in Hh. rewrite length_app.
    specialize (IH n). lia.
  - simpl. specialize (IH O). lia.
Qed.

Lemma pass_length here s :
  shrinks here -> (length (pass here s) <= length s)%nat.
Proof.
  intros H. pose proof (pass_from_length here s 0 H). unfold pass. lia.
Qed.

Lemma pass_shorter here s :
  shrinks here -> quiet here s = false ->
  (length (pass here s) < length s)%nat.
Proof.
  intros Hshr. unfold pass.
  induction s as [|c s IH]; simpl; [done|].
  destruct (here (c :: s)) as [[out e]|] eqn:Hh.
  - intros _. pose proof (Hshr _ _ _ Hh) as He. simpl in He.
    destruct e as [|n]; [lia|]. rewrite length_app.
    pose proof (pass_from_length here s n Hshr). lia.
  - rewrite bool_decide_eq_false_2 by (by intros [? ?]).
    simpl. intros Hq. apply IH in Hq. lia.
Qed.

Lemma passes_quiet l s :
  forallb (fun here => quiet here s) l = true ->
  foldl (fun t here => pass here t) s l = s.
Proof.
  induction l as [|here l IH]; simpl; [done|].
  intros [Hq Hl]%andb_true_iff. rewrite quiet_pass by done. by apply IH.
Qed.

Lemma passes_length l s :
  Forall shrinks l ->
  (length (foldl (fun t here => pass here t) s l) <= length s)%nat.
Proof.
  intros Hl. revert s.
  induction Hl as [|here l Hh Hl IH]; intros s; simpl; [done|].
  specialize (IH (pass here s)). pose proof (pass_length here s Hh). lia.
Qed.

Lemma passes_shorter l s :
  Forall shrinks l ->
  forallb (fun here => quiet here s) l = false ->
  (length (foldl (fun t here => pass here t) s l) < length s)%nat.
Proof.
  induction 1 as [|here l Hh Hl IH]; simpl; [done|].
  destruct (quiet here s) eqn:Hq; simpl.
  - rewrite quiet_pass by done. apply IH.
  - intros _. pose proof (passes_length l (pass here s) Hl).
    pose proof (pass_shorter here s Hh Hq). lia.
Qed.

Lemma strip_length s : (length (strip s) <= length s)%nat.
Proof.
  unfold strip.
  destruct (rstrip_prefix (lstrip s)) as [u Hu].
  pose proof (take_ws_lstrip s) as Hs.
  apply (f_equal length) in Hu, Hs. rewrite length_app in Hu, Hs. lia.
Qed.

Lemma to_text_length s : (length (Mineru._markdown_to_text s) <= length s)%nat.
Proof.
  rewrite to_text_passes_eq. unfold to_text_passes.
  etrans; [apply strip_length|].
  etrans; [apply pass_length; by apply run_shrinks; simpl; lia|].
  apply passes_length, marker_passes_shrink.
Qed.

Lemma to_text_settled s :
  settled (Mineru._markdown_to_text s) = true ->
  Mineru._markdown_to_text (Mineru._markdown_to_text s)
  = Mineru._markdown_to_text s.
Proof.
  intros H. rewrite to_text_unfold at 1.
  rewrite strip_markers_passes, passes_quiet by done.
  rewrite to_text_unfold.
  rewrite collapse_fixed by apply nl3_free_strip, collapse_nl3_free.
  by rewrite strip_idem.
Qed.

Lemma to_text_unsettled s :
  settled s = false -> (length (Mineru._markdown_to_text s) < length s)%nat.
Proof.
  intros H. rewrite to_text_passes_eq. unfold to_text_passes.
  eapply Nat.le_lt_trans; [apply strip_length|].
  eapply Nat.le_lt_trans;
    [apply pass_length; by apply run_shrinks; simpl; lia|].
  apply passes_shorter; [apply marker_passes_shrink|done].
Qed.

(** ** Runs of the basic branches *)

#[local] Opaque lit str_of_nat.

Lemma add_progress_nil w : add_progress [] w = w.
Proof. destruct w. unfold add_progress. simpl. by rewrite app_nil_r. Qed.

Lemma add_progress_app a b w :
  add_progress b (add_progress a w) = add_progress (a ++ b) w.
Proof. unfold add_progress. simpl. by rewrite app_assoc. Qed.

Lemma update_progress_run p msg w :
  update_progress p msg w = (Ok tt, add_progress [(p, msg)] w).
Proof. reflexivity. Qed.

Lemma filter_nonblank_idem pages :
  List.filter (fun p => truthy (strip p)) (List.filter nonblank pages)
  = List.filter nonblank pages.
Proof.
  induction pages as [|t pages IH]; simpl; [done|].
  destruct (nonblank t) eqn:E; simpl; [|done].
  unfold nonblank in E. by rewrite E, IH.
Qed.

Lemma page_loop_run base span total pages k md txt w :
  page_loop (Some update_progress) base span total pages k md txt w
  = (Ok (md ++ page_blocks pages k, txt ++ List.filter nonblank pages),
     add_progress (page_events base span total pages k) w).
Proof.
  revert k md txt w.
  induction pages as [|t pages IH]; intros k md txt w; simpl.
  - by rewrite !app_nil_r, add_progress_nil.
  - unfold bind, notify. fold (nonblank t).
    destruct (nonblank t); cbv beta iota zeta;
      rewrite update_progress_run, IH, add_progress_app.
    + unfold page_block. simpl. by rewrite <- !app_assoc.
    + done.
Qed.

(** Steps of a run. *)
Lemma bind_notify p msg {B} (k : unit -> M B) w :
  bind (notify (Some update_progress) p msg) k w
  = k tt (add_progress [(p, msg)] w).
Proof. reflexivity. Qed.

Lemma bind_ret {A B} (a : A) (k : A -> M B) w : bind (ret a) k w = k a w.
Proof. reflexivity. Qed.

Lemma bind_import_fitz E {B} (k : unit -> M B) w :
  fitz_importable E = true -> bind (import_fitz E) k w = k tt w.
Proof. intros H. unfold import_fitz. by rewrite H. Qed.

Lemma bind_import_fitz_missing E {B} (k : unit -> M B) w :
  fitz_importable E = false ->
  bind (import_fitz E) k w = (Raise (lit "No module named 'fitz'"), w).
Proof. intros H. unfold import_fitz. by rewrite H. Qed.

Lemma fitz_open_stored pdf_path w :
  fitz_open pdf_path w
  = (match stored_pdf (files w) pdf_path with
     | Ok (pages, _) => Ok pages
     | Raise e => Raise e
     end, w).
Proof.
  unfold fitz_open, stored_pdf.
  by destruct (files w !! pdf_path) as [[[msg|pages] sz|t]|].
Qed.

Lemma bind_fitz_open pdf_path pages sz {B} (k : list pystr -> M B) w :
  stored_pdf (files w) pdf_path = Ok (pages, sz) ->
  bind (fitz_open pdf_path) k w = k pages w.
Proof. intros H. unfold bind. by rewrite fitz_open_stored, H. Qed.

Lemma bind_fitz_open_raise pdf_path e {B} (k : list pystr -> M B) w :
  stored_pdf (files w) pdf_path = Raise e ->
  bind (fitz_open pdf_path) k w = (Raise e, w).
Proof. intros H. unfold bind. by rewrite fitz_open_stored, H. Qed.

Lemma bind_getsize pdf_path pages sz {B} (k : Z -> M B) w :
  stored_pdf (files w) pdf_path = Ok (pages, sz) ->
  bind (os_path_getsize pdf_path) k w = k sz w.
Proof.
  unfold bind, os_path_getsize, stored_pdf.
  destruct (files w !! pdf_path) as [[[msg|pages'] sz'|t]|]; try done.
  by intros [= -> ->].
Qed.

Lemma bind_page_loop base span total pages {B}
    (k : list pystr * list pystr -> M B) w :
  bind (page_loop (Some update_progress) base span total pages 0 [] []) k w
  = k (page_blocks pages 0, List.filter nonblank pages)
      (add_progress (page_events base span total pages 0) w).
Proof. unfold bind. by rewrite page_loop_run. Qed.

Ltac run_step :=
  first
    [ rewrite bind_notify
    | rewrite bind_ret
    | rewrite bind_page_loop
    | rewrite bind_import_fitz by assumption
    | rewrite bind_import_fitz_missing by assumption
    | erewrite bind_fitz_open by eassumption
    | erewrite bind_fitz_open_raise by eassumption
    | erewrite bind_getsize by eassumption ];
  cbv beta iota zeta.

(** The basic branch of the serverless entry point, in closed form. *)
Lemma vercel_basic_run E pdf_path output_dir config w :
  Vercel.process_pdf_basic E pdf_path output_dir config
                           (Some update_progress) w
  = match opened E (files w) pdf_path with
    | Ok (pages, _) =>
      (Ok (vercel_basic_success E pdf_path pages),
       add_progress (vercel_basic_events pages) w)
    | Raise e =>
      (Ok (Vercel.failure (lit "处理 PDF 时出错: " ++ e)),
       add_progress (vercel_failure_events E e) w)
    end.
Proof.
  unfold opened, vercel_failure_events.
  unfold Vercel.process_pdf_basic, try_except.
  destruct (fitz_importable E) eqn:Hfitz.
  - destruct (stored_pdf (files w) pdf_path) as [[pages sz]|e] eqn:Hfile;
      repeat run_step; unfold ret; rewrite !add_progress_app; [|done].
    unfold vercel_basic_success, basic_stats. cbv zeta.
    by rewrite filter_nonblank_idem.
  - repeat run_step. unfold ret. by rewrite !add_progress_app.
Qed.

(** The basic branch of the local entry point: it raises on failure. *)
Lemma app_basic_run E pdf_path output_dir config w :
  App.process_pdf_basic E pdf_path output_dir config
                        (Some update_progress) w
  = match opened E (files w) pdf_path with
    | Ok (pages, sz) =>
      (Ok (app_basic_success E pdf_path pages sz),
       add_progress (app_basic_events pages) w)
    | Raise e =>
      (Raise (lit "基础处理失败: " ++ e),
       add_progress
         (if fitz_importable E then [(1 # 10, lit "初始化基础处理器...")]
          else []) w)
    end.
Proof.
  unfold opened.
  unfold App.process_pdf_basic, try_except.
  destruct (fitz_importable E) eqn:Hfitz.
  - destruct (stored_pdf (files w) pdf_path) as [[pages sz]|e] eqn:Hfile;
      repeat run_step; unfold ret, raise; rewrite ?add_progress_app; [|done].
    unfold app_basic_success, basic_stats. cbv zeta.
    by rewrite filter_nonblank_idem.
  - repeat run_step. unfold raise. by rewrite add_progress_nil.
Qed.

(** The facade of the local entry point when [mineru_processor] did not
    import: the basic branch, with its exception turned into a result. *)
Lemma app_file_basic_run E pdf_path output_dir config w :
  App.MINERU_AVAILABLE E = false ->
  App.process_pdf_file E pdf_path output_dir config (Some update_progress) w
  = match opened E (files w) pdf_path with
    | Ok (pages, sz) =>
      (Ok (app_basic_success E pdf_path pages sz),
       add_progress (app_basic_events pages) w)
    | Raise e =>
      (Ok (Mineru.failure
             (lit "处理 PDF 时出错: " ++ lit "基础处理失败: " ++ e)
             (Some (format_exc E (lit "基础处理失败: " ++ e)))),
       add_progress (app_failure_events E e) w)
    end.
Proof.
  intros Hav. unfold App.process_pdf_file, try_except. rewrite Hav.
  rewrite app_basic_run. unfold app_failure_events.
  destruct (opened E (files w) pdf_path) as [[pages sz]|e]; [done|].
  run_step. unfold ret. by rewrite add_progress_app.
Qed.

(** ** The HTML wrapper *)

Lemma starts_with_drop sub s :
  starts_with sub s = true -> s = sub ++ drop (length sub) s.
Proof.
  revert s. induction sub as [|a sub IH]; intros [|b s]; simpl; try done.
  intros [Hab Hs]%andb_true_iff. apply N.eqb_eq in Hab as ->.
  f_equal. by apply IH.
Qed.

Lemma cut_at_spec sub s a b :
  cut_at sub s = Some (a, b) -> s = a ++ sub ++ b.
Proof.
  revert a b. induction s as [|c s IH]; intros a b; simpl.
  - destruct (starts_with sub []) eqn:E; [|done].
    intros [= <- <-]. by apply starts_with_drop in E.
  - destruct (starts_with sub (c :: s)) eqn:E.
    + intros [= <- <-]. by apply starts_with_drop in E.
    + destruct (cut_at sub s) as [[a' b']|]; [|done].
      intros [= <- <-]. simpl. f_equal. by apply IH.
Qed.

Lemma html_wrapped_parts head body tail :
  is_Some (cut_at (lit "<html>") head) ->
  is_Some (cut_at (lit "</html>") tail) ->
  html_wrapped (head ++ body ++ tail).
Proof.
  intros [[a b1] H1%cut_at_spec] [[b2 c] H2%cut_at_spec].
  exists a, (b1 ++ body ++ b2), c. rewrite H1, H2.
  by rewrite <- !app_assoc.
Qed.

Lemma vercel_html_wrapped body :
  html_wrapped (Vercel.html_head ++ body ++ Vercel.html_tail).
Proof. apply html_wrapped_parts; vm_compute; eauto. Qed.

Lemma app_html_wrapped body :
  html_wrapped (App.html_head ++ body ++ App.html_tail).
Proof. apply html_wrapped_parts; vm_compute; eauto. Qed.

Lemma markdown_to_html_wrapped E md :
  html_wrapped (Mineru._markdown_to_html E md).
Proof.
  unfold Mineru._markdown_to_html.
  destruct (markdown_markdown E);
    apply html_wrapped_parts; vm_compute; eauto.
Qed.

(** ** Reading a run backwards *)

Lemma bind_inv {A B} (m : M A) (k : A -> M B) w b w' :
  bind m k w = (Ok b, w') ->
  exists a w1, m w = (Ok a, w1) /\ k a w1 = (Ok b, w').
Proof.
  unfold bind. destruct (m w) as [[a|e] w1]; [eauto|done].
Qed.

Lemma try_except_inv {A} (body : M A) h w a w' :
  try_except body h w = (Ok a, w') ->
  body w = (Ok a, w')
  \/ exists e w1, body w = (Raise e, w1) /\ h e w1 = (Ok a, w').
Proof.
  unfold try_except. destruct (body w) as [[a'|e] w1]; eauto.
Qed.

Lemma ret_inv {A} (a b : A) w w' : ret a w = (Ok b, w') -> a = b /\ w = w'.
Proof. by intros [= -> ->]. Qed.

Lemma raise_inv {A} e w (b : A) w' : raise e w = (Ok b, w') -> False.
Proof. done. Qed.

Lemma get_world_inv w x w' : get_world w = (Ok x, w') -> x = w /\ w' = w.
Proof. by intros [= -> ->]. Qed.

Ltac run_inv :=
  repeat match goal with
  | H : try_except _ _ _ = (Ok _, _) |- _ =>
    apply try_except_inv in H as [H|(? & ? & _ & H)]
  | H : bind _ _ _ = (Ok _, _) |- _ =>
    apply bind_inv in H as (? & ? & ? & H); cbv beta in H
  | H : raise _ _ = (Ok _, _) |- _ => by destruct (raise_inv _ _ _ _ H)
  | H : ret _ _ = (Ok _, _) |- _ => apply ret_inv in H as [? ?]; subst
  | H : get_world _ = (Ok _, _) |- _ =>
    apply get_world_inv in H as [? ?]; subst
  end.

Lemma demo_result_inv E pdf_path output_dir cb w r w' :
  Mineru._create_demo_result E pdf_path output_dir cb w = (Ok r, w') ->
  r = demo_result E (path_stem pdf_path) output_dir.
Proof.
  intros H. unfold Mineru._create_demo_result in H. by run_inv.
Qed.

Lemma mineru_output_inv E output_dir pdf_path w o w' :
  Mineru._process_mineru_output E output_dir pdf_path w = (Ok o, w') ->
  exists md,
    o !! "markdown_content"%string = Some md
    /\ o !! "html_content"%string = Some (Mineru._markdown_to_html E md).
Proof.
  intros H. unfold Mineru._process_mineru_output in H.
  apply bind_inv in H as (w0 & w1 & [-> ->]%get_world_inv & H).
  cbv beta in H.
  destruct (Mineru.scan_outputs _ _ _) as [markdown_file json_file].
  apply bind_inv in H as (o1 & w2 & H1 & H). cbv beta in H.
  apply bind_inv in H as (o2 & w3 & H2 & H). cbv beta in H.
  assert (exists md, o1 !! "markdown_content"%string = Some md) as [md Hmd].
  { destruct markdown_file as [f|];
      [destruct (truthy f && os_path_exists f w)|]; run_inv; eexists;
      first [by rewrite lookup_insert_eq
            |rewrite lookup_insert_ne by done; by rewrite lookup_insert_eq]. }
  assert (o2 !! "markdown_content"%string = Some md) as Hmd2.
  { destruct json_file as [f|];
      [destruct (truthy f && os_path_exists f w)|]; run_inv;
      [destruct (json_loads E _); run_inv| |];
      by rewrite ?lookup_insert_ne by done. }
  run_inv. exists md. unfold pystr in *.
  rewrite !lookup_insert_ne by done. rewrite lookup_insert_eq.
  by rewrite Hmd2.
Qed.

Lemma mineru_process_pdf_inv E self pdf_path output_dir language parse_method
    formula_enable table_enable cb w r w' :
  Mineru.process_pdf E self pdf_path output_dir language parse_method
                     formula_enable table_enable cb w = (Ok r, w') ->
  success r = true ->
  (Mineru.mineru_available self = false
   /\ r = demo_result E (path_stem pdf_path) output_dir)
  \/ (Mineru.mineru_available self = true
      /\ exists md,
           output "markdown_content" r = Some md
           /\ output "html_content" r
              = Some (Mineru._markdown_to_html E md)).
Proof.
  intros H Hs. unfold Mineru.process_pdf in H.
  apply try_except_inv in H as [H|(e & w1 & _ & H)].
  - apply bind_inv in H as (? & ? & _ & H). cbv beta in H.
    apply bind_inv in H as (? & ? & _ & H). cbv beta in H.
    destruct (Mineru.mineru_available self); simpl in H.
    + right. split; [done|].
      unfold Mineru._process_with_mineru in H. run_inv.
      match goal with
      | Ho : Mineru._process_mineru_output _ _ _ _ = _ |- _ =>
        apply mineru_output_inv in Ho as (md & ? & ?)
      end.
      exists md. by unfold output.
    + left. split; [done|]. by apply demo_result_inv in H.
  - run_inv. done.
Qed.

(** ** Non-empty Markdown *)

Lemma join_empty_sep l : join [] l = concat l.
Proof.
  induction l as [|a [|b l] IH]; simpl in *; [done|by rewrite app_nil_r|].
  by rewrite IH.
Qed.

Lemma page_block_nonempty k t : page_block k t <> [].
Proof.
  unfold page_block. intros H%(f_equal length).
  rewrite !length_app in H. simpl in H. lia.
Qed.

Lemma page_blocks_nonempty pages k :
  join [] (page_blocks pages k) <> []
  <-> Exists (fun t => nonblank t = true) pages.
Proof.
  rewrite join_empty_sep. revert k.
  induction pages as [|t pages IH]; intros k; simpl.
  - split; [done|by inversion 1].
  - destruct (nonblank t) eqn:E; simpl.
    + split; [by left|]. intros _ H.
      apply app_eq_nil in H as [H _]. by apply page_block_nonempty in H.
    + rewrite IH. split; [by right|].
      inversion 1; [congruence|done].
Qed.

Lemma demo_markdown_nonempty pdf_name : Mineru.demo_markdown pdf_name <> [].
Proof.
  unfold Mineru.demo_markdown. intros H.
  apply app_eq_nil in H as [H _]. vm_compute in H. discriminate.
Qed.

Lemma opened_stored E fs p pages sz :
  opened E fs p = Ok (pages, sz) -> stored_pdf fs p = Ok (pages, sz).
Proof. unfold opened. by destruct (fitz_importable E). Qed.

Lemma vercel_basic_inv E pdf_path output_dir config w r w' :
  Vercel.process_pdf_basic E pdf_path output_dir config
                           (Some update_progress) w = (Ok r, w') ->
  success r = true ->
  exists pages sz,
    opened E (files w) pdf_path = Ok (pages, sz)
    /\ r = vercel_basic_success E pdf_path pages
    /\ w' = add_progress (vercel_basic_events pages) w.
Proof.
  rewrite vercel_basic_run.
  destruct (opened E (files w) pdf_path) as [[pages sz]|e].
  - intros [= <- <-] _. by exists pages, sz.
  - by intros [= <- <-] ?.
Qed.

Lemma app_basic_inv E pdf_path output_dir config w r w' :
  App.process_pdf_basic E pdf_path output_dir config
                        (Some update_progress) w = (Ok r, w') ->
  exists pages sz,
    opened E (files w) pdf_path = Ok (pages, sz)
    /\ r = app_basic_success E pdf_path pages sz
    /\ w' = add_progress (app_basic_events pages) w.
Proof.
  rewrite app_basic_run.
  destruct (opened E (files w) pdf_path) as [[pages sz]|e]; [|done].
  intros [= <- <-]. by exists pages, sz.
Qed.

(** ** The remote-API branch *)

Lemma mode_api : pystr_eqb (lit "api") (lit "api") = true.
Proof. vm_compute. reflexivity. Qed.

Lemma mode_basic : pystr_eqb (lit "basic") (lit "api") = false.
Proof. vm_compute. reflexivity. Qed.

(** An unavailable endpoint makes [call_mineru_api] return [None], after
    at most the one progress event of the connection attempt. *)
Lemma call_api_down E pdf_path config w f :
  files w !! pdf_path = Some f ->
  endpoint_down E f config ->
  exists evs,
    Vercel.call_mineru_api E pdf_path config (Some update_progress) w
    = (Ok None, add_progress evs w)
    /\ (evs = [] \/ evs = [(2 # 10, lit "连接 MinerU API 服务...")]).
Proof.
  intros Hf Hdown. unfold Vercel.call_mineru_api, try_except.
  destruct (MINERU_API_URL E) as [api_url|] eqn:Hurl.
  2:{ exists []. rewrite add_progress_nil. by split; [|left]. }
  destruct (truthy api_url); cbn [negb]; cbv iota.
  2:{ exists []. rewrite add_progress_nil. by split; [|left]. }
  exists [(2 # 10, lit "连接 MinerU API 服务...")].
  split; [|by right].
  rewrite bind_notify. unfold bind at 1. unfold Vercel.open_rb.
  simpl files. rewrite Hf.
  specialize (Hdown api_url Hurl).
  destruct (requests_post E (api_url ++ lit "/process") f config)
    as [msg|status_code body]; [done|].
  apply Z.eqb_neq in Hdown. by rewrite Hdown.
Qed.

Lemma vercel_basic_frame E pdf_path output_dir config config' w1 w2 :
  files w1 = files w2 ->
  (Vercel.process_pdf_basic E pdf_path output_dir config
                            (Some update_progress) w1).1
  = (Vercel.process_pdf_basic E pdf_path output_dir config'
                              (Some update_progress) w2).1.
Proof.
  intros Hf. rewrite !vercel_basic_run, Hf.
  by destruct (opened E (files w2) pdf_path) as [[pages sz]|e].
Qed.

Lemma vercel_basic_files E pdf_path output_dir config w :
  files (Vercel.process_pdf_basic E pdf_path output_dir config
                                  (Some update_progress) w).2 = files w
  /\ ui (Vercel.process_pdf_basic E pdf_path output_dir config
                                  (Some update_progress) w).2 = ui w
  /\ dirs (Vercel.process_pdf_basic E pdf_path output_dir config
                                    (Some update_progress) w).2 = dirs w
  /\ cleanups (Vercel.process_pdf_basic E pdf_path output_dir config
                                        (Some update_progress) w).2
     = cleanups w.
Proof.
  rewrite vercel_basic_run.
  by destruct (opened E (files w) pdf_path) as [[pages sz]|e].
Qed.

(** One turn of the upload loop, mode by mode. *)
Lemma vercel_upload_basic E mode config input_dir output_dir f w :
  pystr_eqb mode (lit "api") = false ->
  Vercel.process_upload E mode config input_dir output_dir f w
  = match open_error E (path_join input_dir (name f)) with
    | Some e => (Raise e, w)
    | None =>
      named (name f)
        (Vercel.process_pdf_basic E (path_join input_dir (name f)) output_dir
           config (Some update_progress)
           (saved (path_join input_dir (name f))
                  (Binary (getvalue f) (size f)) w))
    end.
Proof.
  intros Hm. unfold Vercel.process_upload. rewrite Hm.
  unfold bind, write_file, new_progress_bar, ret, named, saved.
  destruct (open_error E (path_join input_dir (name f))); [done|].
  by destruct (Vercel.process_pdf_basic _ _ _ _ _ _) as [[r|e] w'].
Qed.

Lemma vercel_upload_api E config input_dir output_dir f w :
  Vercel.process_upload E (lit "api") config input_dir output_dir f w
  = match open_error E (path_join input_dir (name f)) with
    | Some e => (Raise e, w)
    | None =>
      match Vercel.call_mineru_api E (path_join input_dir (name f)) config
              (Some update_progress)
              (saved (path_join input_dir (name f))
                     (Binary (getvalue f) (size f)) w) with
      | (Ok None, w2) =>
        named (name f)
          (Vercel.process_pdf_basic E (path_join input_dir (name f))
             output_dir config (Some update_progress)
             (shown (UiWarning (lit "API 服务不可用，切换到基础模式")) w2))
      | (Ok (Some (PyDict r)), w2) => (Ok (set_file_name r (name f)), w2)
      | (Ok (Some (PyOther e)), w2) => (Raise e, w2)
      | (Raise e, w2) => (Raise e, w2)
      end
    end.
Proof.
  unfold Vercel.process_upload. rewrite mode_api.
  unfold bind, write_file, new_progress_bar, show, ret, named, saved, shown.
  destruct (open_error E (path_join input_dir (name f))); [done|].
  destruct (Vercel.call_mineru_api _ _ _ _ _) as [[[[r|e']|]|e] w2];
    [done|done| |done].
  by destruct (Vercel.process_pdf_basic _ _ _ _ _ _) as [[r|e] w'].
Qed.

Lemma named_fst {A} n (x y : exc Result * A) :
  x.1 = y.1 -> (named n x).1 = (named n y).1.
Proof. destruct x as [[]], y as [[]]; simpl; congruence. Qed.

Lemma named_snd {A} n (x : exc Result * A) : (named n x).2 = x.2.
Proof. by destruct x as [[]]. Qed.

(** ** Progress *)

Lemma fractions_add_progress evs w :
  fractions (add_progress evs w) = fractions w ++ map fst evs.
Proof. unfold fractions, add_progress. simpl. by rewrite map_app. Qed.

Lemma call_api_down_configured E pdf_path config w f api_url :
  MINERU_API_URL E = Some api_url ->
  truthy api_url = true ->
  files w !! pdf_path = Some f ->
  endpoint_down E f config ->
  Vercel.call_mineru_api E pdf_path config (Some update_progress) w
  = (Ok None, add_progress [(2 # 10, lit "连接 MinerU API 服务...")] w).
Proof.
  intros Hurl Hu Hf Hdown. unfold Vercel.call_mineru_api, try_except.
  rewrite Hurl, Hu. cbn [negb]; cbv iota.
  rewrite bind_notify. unfold bind at 1. unfold Vercel.open_rb.
  simpl files. rewrite Hf.
  specialize (Hdown api_url Hurl).
  destruct (requests_post E (api_url ++ lit "/process") f config)
    as [msg|status_code body]; [done|].
  apply Z.eqb_neq in Hdown. by rewrite Hdown.
Qed.

Lemma vercel_basic_first E pdf_path output_dir config w :
  exists r rest,
    Vercel.process_pdf_basic E pdf_path output_dir config
                             (Some update_progress) w
    = (Ok r, add_progress ((1 # 10, lit "初始化处理器...") :: rest) w).
Proof.
  rewrite vercel_basic_run.
  destruct (opened E (files w) pdf_path) as [[pages sz]|e];
    eexists _, _; reflexivity.
Qed.

(** ** Only [cleanup_temp_dirs] records a cleanup or removes a directory *)

Ltac keeps_prim := intros w; split; [done|set_solver].

Lemma keeps_ret {A} (a : A) : keeps_cleanups (ret a).
Proof. keeps_prim. Qed.

Lemma keeps_raise {A} e : keeps_cleanups (@raise A e).
Proof. keeps_prim. Qed.

Lemma keeps_bind {A B} (m : M A) (k : A -> M B) :
  keeps_cleanups m -> (forall a, keeps_cleanups (k a)) ->
  keeps_cleanups (bind m k).
Proof.
  intros Hm Hk w. unfold bind. destruct (Hm w) as [Hc Hd].
  destruct (m w) as [[a|e] w1]; simpl in *; [|done].
  destruct (Hk a w1) as [Hc' Hd']. split; [congruence|set_solver].
Qed.

Lemma keeps_try_except {A} (body : M A) h :
  keeps_cleanups body -> (forall e, keeps_cleanups (h e)) ->
  keeps_cleanups (try_except body h).
Proof.
  intros Hm Hk w. unfold try_except. destruct (Hm w) as [Hc Hd].
  destruct (body w) as [[a|e] w1]; simpl in *; [done|].
  destruct (Hk e w1) as [Hc' Hd']. split; [congruence|set_solver].
Qed.

Lemma keeps_notify p msg : keeps_cleanups (notify (Some update_progress) p msg).
Proof. keeps_prim. Qed.

Lemma keeps_show e : keeps_cleanups (show e).
Proof. keeps_prim. Qed.

Lemma keeps_new_progress_bar : keeps_cleanups new_progress_bar.
Proof. keeps_prim. Qed.

Lemma keeps_get_world : keeps_cleanups get_world.
Proof. keeps_prim. Qed.

Lemma keeps_makedirs E p : keeps_cleanups (os_makedirs E p).
Proof.
  intros w. unfold os_makedirs.
  destruct (makedirs_error E p); simpl; split; try done; set_solver.
Qed.

Lemma keeps_write_file E p c : keeps_cleanups (write_file E p c).
Proof. intros w. unfold write_file. by destruct (open_error E p). Qed.

Lemma keeps_import_fitz E : keeps_cleanups (import_fitz E).
Proof. intros w. unfold import_fitz. by destruct (fitz_importable E). Qed.

Lemma keeps_fitz_open p : keeps_cleanups (fitz_open p).
Proof.
  intros w. unfold fitz_open.
  by destruct (files w !! p) as [[[msg|pages] sz|t]|].
Qed.

Lemma keeps_getsize p : keeps_cleanups (os_path_getsize p).
Proof.
  intros w. unfold os_path_getsize. by destruct (files w !! p) as [[]|].
Qed.

Lemma keeps_read_text p : keeps_cleanups (Mineru.read_text p).
Proof.
  intros w. unfold Mineru.read_text. by destruct (files w !! p) as [[]|].
Qed.

Lemma keeps_open_rb p : keeps_cleanups (Vercel.open_rb p).
Proof. intros w. unfold Vercel.open_rb. by destruct (files w !! p). Qed.

Lemma keeps_run_do_parse E p o m l :
  keeps_cleanups (Mineru.run_do_parse E p o m l).
Proof.
  intros w. unfold Mineru.run_do_parse. by destruct (do_parse E p o m l _).
Qed.

Lemma keeps_page_loop base span total pages k md txt :
  keeps_cleanups
    (page_loop (Some update_progress) base span total pages k md txt).
Proof. intros w. by rewrite page_loop_run. Qed.

Ltac keeps_tac :=
  repeat first
    [ apply keeps_ret | apply keeps_raise | apply keeps_notify
    | apply keeps_show | apply keeps_new_progress_bar
    | apply keeps_get_world | apply keeps_makedirs | apply keeps_write_file
    | apply keeps_import_fitz | apply keeps_fitz_open | apply keeps_getsize
    | apply keeps_read_text | apply keeps_open_rb | apply keeps_run_do_parse
    | apply keeps_page_loop
    | apply keeps_bind; [|intros ?]
    | apply keeps_try_except; [|intros ?]
    | match goal with
      | |- keeps_cleanups (let '(_, _) := ?x in _) => destruct x
      | |- keeps_cleanups (match ?x with _ => _ end) => destruct x
      | |- keeps_cleanups (if ?x then _ else _) => destruct x
      end ].

Lemma keeps_demo E p o :
  keeps_cleanups (Mineru._create_demo_result E p o (Some update_progress)).
Proof. unfold Mineru._create_demo_result. keeps_tac. Qed.

Lemma keeps_mineru_output E o p :
  keeps_cleanups (Mineru._process_mineru_output E o p).
Proof. unfold Mineru._process_mineru_output. keeps_tac. Qed.

Lemma keeps_with_mineru E p o l pm f t :
  keeps_cleanups
    (Mineru._process_with_mineru E p o l pm f t (Some update_progress)).
Proof.
  unfold Mineru._process_with_mineru.
  keeps_tac; try apply keeps_mineru_output.
Qed.

Lemma keeps_process_pdf E self p o l pm f t :
  keeps_cleanups
    (Mineru.process_pdf E self p o l pm f t (Some update_progress)).
Proof.
  unfold Mineru.process_pdf.
  keeps_tac; first [apply keeps_demo | apply keeps_with_mineru].
Qed.

Lemma keeps_app_basic E p o c :
  keeps_cleanups (App.process_pdf_basic E p o c (Some update_progress)).
Proof. unfold App.process_pdf_basic. keeps_tac. Qed.

Lemma keeps_vercel_basic E p o c :
  keeps_cleanups (Vercel.process_pdf_basic E p o c (Some update_progress)).
Proof. unfold Vercel.process_pdf_basic. keeps_tac. Qed.

Lemma keeps_app_file E p o c :
  keeps_cleanups (App.process_pdf_file E p o c (Some update_progress)).
Proof.
  unfold App.process_pdf_file.
  keeps_tac; first [apply keeps_process_pdf | apply keeps_app_basic].
Qed.

Lemma keeps_call_api E p c :
  keeps_cleanups (Vercel.call_mineru_api E p c (Some update_progress)).
Proof. unfold Vercel.call_mineru_api. keeps_tac. Qed.

Lemma keeps_app_upload E c i o f :
  keeps_cleanups (App.process_upload E c i o f).
Proof. unfold App.process_upload. keeps_tac; apply keeps_app_file. Qed.

Lemma keeps_vercel_upload E m c i o f :
  keeps_cleanups (Vercel.process_upload E m c i o f).
Proof.
  unfold Vercel.process_upload. keeps_tac;
    first [apply keeps_call_api | apply keeps_vercel_basic].
Qed.

Lemma keeps_app_uploads E c i o ups rs :
  keeps_cleanups (App.process_uploads E c i o ups rs).
Proof.
  revert rs. induction ups as [|f ups IH]; intros rs; simpl;
    keeps_tac; first [apply keeps_app_upload | apply IH].
Qed.

Lemma keeps_vercel_uploads E m c i o ups rs :
  keeps_cleanups (Vercel.process_uploads E m c i o ups rs).
Proof.
  revert rs. induction ups as [|f ups IH]; intros rs; simpl;
    keeps_tac; first [apply keeps_vercel_upload | apply IH].
Qed.

Lemma keeps_show_errors (rs : list Result) :
  keeps_cleanups
    (foldr (fun r k =>
              show (UiError (lit "文件 " ++ result_file_name r
                             ++ lit " 处理失败: " ++ result_error r)) ;; k)
           (ret tt) rs).
Proof. induction rs as [|r rs IH]; simpl; keeps_tac; apply IH. Qed.

Lemma keeps_show_results rs : keeps_cleanups (show_results rs).
Proof.
  unfold show_results. keeps_tac; apply keeps_show_errors.
Qed.

(** ** Batches *)

Lemma total_ret {A} (a : A) : total (ret a).
Proof. intros w. by eexists _, _. Qed.

Lemma total_bind {A B} (m : M A) (k : A -> M B) :
  total m -> (forall a, total (k a)) -> total (bind m k).
Proof.
  intros Hm Hk w. unfold bind. destruct (Hm w) as (a & w1 & ->).
  apply Hk.
Qed.

Lemma total_show e : total (show e).
Proof. intros w. by eexists _, _. Qed.

Lemma total_notify cb p msg :
  (forall q m, total (cb q m)) -> total (notify (Some cb) p msg).
Proof. intros H. apply H. Qed.

Lemma total_update_progress p msg : total (update_progress p msg).
Proof. intros w. by eexists _, _. Qed.

(** A handler that returns makes the whole [try] return. *)
Lemma total_try_except {A} (body : M A) h :
  (forall e, total (h e)) -> total (try_except body h).
Proof.
  intros Hh w. unfold try_except.
  destruct (body w) as [[a|e] w1]; [by eexists _, _|apply Hh].
Qed.

Lemma total_show_results rs :
  forallb has_success rs = true -> total (show_results rs).
Proof.
  intros Hrs. unfold show_results. rewrite Hrs. cbn [negb].
  apply total_bind.
  - destruct (List.filter success rs); [apply total_ret|apply total_show].
  - intros _. destruct (List.filter _ rs) as [|r l]; [apply total_ret|].
    apply total_bind; [apply total_show|]. intros _.
    generalize (r :: l). intros l'.
    induction l' as [|r' l' IH]; simpl; [apply total_ret|].
    apply total_bind; [apply total_show|by intros _].
Qed.

Lemma total_cleanup E temp_dir : total (cleanup_temp_dirs E temp_dir).
Proof.
  unfold cleanup_temp_dirs. apply total_bind; [intros w; by eexists _, _|].
  intros _. apply total_try_except. intros e. apply total_show.
Qed.

Lemma show_results_run rs w :
  forallb has_success rs = true ->
  exists w', show_results rs w = (Ok tt, w').
Proof.
  intros Hrs. destruct (total_show_results rs Hrs w) as ([] & w' & ->).
  by exists w'.
Qed.

Lemma show_results_raise rs w :
  forallb has_success rs = false ->
  show_results rs w = (Raise (lit "'success'"), w).
Proof. intros Hrs. unfold show_results. by rewrite Hrs. Qed.

(** *** [create_temp_dirs] and [cleanup_temp_dirs] *)

Lemma create_temp_dirs_run E w :
  makedirs_error E (path_join (mkdtemp E) (lit "input")) = None ->
  makedirs_error E (path_join (mkdtemp E) (lit "output")) = None ->
  exists w0,
    create_temp_dirs E w
    = (Ok (path_join (mkdtemp E) (lit "input"),
           path_join (mkdtemp E) (lit "output")), w0)
    /\ cleanups w0 = cleanups w
    /\ mkdtemp E ∈ dirs w0.
Proof.
  intros Hin Hout. unfold create_temp_dirs, bind, os_makedirs, ret.
  rewrite Hin, Hout. eexists. split; [reflexivity|]. simpl.
  split; [done|set_solver].
Qed.

Lemma pystr_eqb_refl s : pystr_eqb s s = true.
Proof. unfold pystr_eqb. by apply bool_decide_eq_true_2. Qed.

Lemma cleanup_run E temp_dir w :
  temp_dir ∈ dirs w ->
  cleanup_temp_dirs E temp_dir w = (Ok tt, cleaned E temp_dir w).
Proof.
  intros Hd. unfold cleanup_temp_dirs, cleaned, bind, try_except, get_world.
  unfold os_path_exists, shutil_rmtree, show. simpl.
  rewrite bool_decide_eq_true_2 by done. simpl.
  by destruct (rmtree_error E temp_dir).
Qed.

Lemma cleaned_cleanups E temp_dir w :
  cleanups (cleaned E temp_dir w) = cleanups w ++ [temp_dir].
Proof. unfold cleaned. by destruct (rmtree_error E temp_dir). Qed.

(** After a successful [rmtree] nothing under the directory exists. *)
Lemma cleaned_gone E temp_dir w p :
  rmtree_error E temp_dir = None ->
  is_under temp_dir p = true ->
  os_path_exists p (cleaned E temp_dir w) = false.
Proof.
  intros Hrm Hp. unfold cleaned, os_path_exists. rewrite Hrm. simpl.
  apply orb_false_iff. split; apply bool_decide_eq_false_2.
  - intros [H _]%elem_of_filter. congruence.
  - intros [x [_ H]%map_lookup_filter_Some]. simpl in H. congruence.
Qed.

(** A failing [rmtree] leaves the directory and shows a warning. *)
Lemma cleaned_denied E temp_dir w e :
  rmtree_error E temp_dir = Some e ->
  temp_dir ∈ dirs w ->
  os_path_exists temp_dir (cleaned E temp_dir w) = true
  /\ last (ui (cleaned E temp_dir w))
     = Some (UiWarning (lit "清理临时文件时出错: " ++ e)).
Proof.
  intros Hrm Hd. unfold cleaned, os_path_exists. rewrite Hrm. simpl.
  rewrite bool_decide_eq_true_2 by done. split; [done|]. apply last_snoc.
Qed.

(** [main]: the [finally] block runs whatever the loop did. *)
Lemma finally_cleanup {A} E temp_dir (body : M A) w :
  keeps_cleanups body ->
  temp_dir ∈ dirs w ->
  try_finally body (cleanup_temp_dirs E temp_dir) w
  = ((body w).1, cleaned E temp_dir (body w).2).
Proof.
  intros Hb Hd. unfold try_finally. destruct (Hb w) as [_ Hsub].
  destruct (body w) as [r w1]. simpl in *.
  rewrite cleanup_run; [done|set_solver].
Qed.

(** *** One turn of the loop on the basic branches *)

Lemma stored_saved (fs : gmap pystr fcontent) p d sz :
  stored_pdf (<[p := Binary d sz]> fs) p
  = match d with
    | Pages texts => Ok (texts, sz)
    | Unreadable msg => Raise msg
    end.
Proof. unfold stored_pdf. unfold pystr in *. by rewrite lookup_insert_eq. Qed.

Lemma vercel_upload_run E mode config input_dir output_dir f w :
  fitz_importable E = true ->
  open_error E (path_join input_dir (name f)) = None ->
  pystr_eqb mode (lit "api") = false ->
  exists w',
    Vercel.process_upload E mode config input_dir output_dir f w
    = (Ok (vercel_upload_result E input_dir f), w').
Proof.
  intros Hfitz Hopen Hmode.
  rewrite vercel_upload_basic, Hopen, vercel_basic_run by done.
  unfold opened, vercel_upload_result. rewrite Hfitz. simpl files.
  rewrite stored_saved. destruct (getvalue f); by eexists.
Qed.

Lemma app_upload_run E config input_dir output_dir f w :
  fitz_importable E = true ->
  App.MINERU_AVAILABLE E = false ->
  open_error E (path_join input_dir (name f)) = None ->
  makedirs_error E (path_join output_dir (path_stem (name f))) = None ->
  exists w',
    App.process_upload E config input_dir output_dir f w
    = (Ok (app_upload_result E input_dir f), w').
Proof.
  intros Hfitz Hav Hopen Hmk.
  unfold App.process_upload, bind, write_file, new_progress_bar, os_makedirs.
  rewrite Hopen, Hmk, app_file_basic_run by done.
  unfold opened, app_upload_result. rewrite Hfitz. simpl files.
  rewrite stored_saved. destruct (getvalue f); by eexists.
Qed.

Lemma vercel_uploads_run E mode config input_dir output_dir ups rs w :
  fitz_importable E = true ->
  (forall p, open_error E p = None) ->
  pystr_eqb mode (lit "api") = false ->
  exists w',
    Vercel.process_uploads E mode config input_dir output_dir ups rs w
    = (Ok (rs ++ map (vercel_upload_result E input_dir) ups), w').
Proof.
  intros Hfitz Hopen Hmode. revert rs w.
  induction ups as [|f ups IH]; intros rs w; simpl.
  - exists w. by rewrite app_nil_r.
  - unfold bind.
    destruct (vercel_upload_run E mode config input_dir output_dir f w)
      as [w1 ->]; [done..|].
    destruct (IH (rs ++ [vercel_upload_result E input_dir f]) w1) as [w2 ->].
    exists w2. by rewrite <- app_assoc.
Qed.

Lemma app_uploads_run E config input_dir output_dir ups rs w :
  fitz_importable E = true ->
  App.MINERU_AVAILABLE E = false ->
  (forall p, open_error E p = None) ->
  (forall p, makedirs_error E p = None) ->
  exists w',
    App.process_uploads E config input_dir output_dir ups rs w
    = (Ok (rs ++ map (app_upload_result E input_dir) ups), w').
Proof.
  intros Hfitz Hav Hopen Hmk. revert rs w.
  induction ups as [|f ups IH]; intros rs w; simpl.
  - exists w. by rewrite app_nil_r.
  - unfold bind.
    destruct (app_upload_run E config input_dir output_dir f w)
      as [w1 ->]; [done..|].
    destruct (IH (rs ++ [app_upload_result E input_dir f]) w1) as [w2 ->].
    exists w2. by rewrite <- app_assoc.
Qed.

(** *** The whole batch *)

Lemma has_success_map (g : UploadedFile -> Result) ups :
  (forall f, has_success (g f) = true) ->
  forallb has_success ([] ++ map g ups) = true.
Proof.
  intros Hg. simpl. induction ups as [|f ups IH]; simpl; [done|].
  by rewrite Hg, IH.
Qed.

Lemma vercel_result_has_success E input_dir f :
  has_success (vercel_upload_result E input_dir f) = true.
Proof. unfold vercel_upload_result. by destruct (getvalue f). Qed.

Lemma app_result_has_success E input_dir f :
  has_success (app_upload_result E input_dir f) = true.
Proof. unfold app_upload_result. by destruct (getvalue f). Qed.

Lemma vercel_main_run E language mode ups w :
  fitz_importable E = true ->
  (forall p, open_error E p = None) ->
  (forall p, makedirs_error E p = None) ->
  pystr_eqb mode (lit "api") = false ->
  returned (Vercel.main_batch E language mode ups w)
  = Some (map (vercel_upload_result E (path_join (mkdtemp E) (lit "input")))
              ups).
Proof.
  intros Hfitz Hopen Hmk Hmode. unfold Vercel.main_batch.
  unfold bind at 1.
  destruct (create_temp_dirs_run E w) as (w0 & -> & _); [done..|].
  unfold try_finally, bind.
  destruct (vercel_uploads_run E mode (Vercel.make_config language mode)
              (path_join (mkdtemp E) (lit "input"))
              (path_join (mkdtemp E) (lit "output")) ups [] w0)
    as [w1 ->]; [done..|].
  destruct (show_results_run
              ([] ++ map (vercel_upload_result E
                            (path_join (mkdtemp E) (lit "input"))) ups) w1)
    as [w2 ->];
    [apply has_success_map, vercel_result_has_success|].
  unfold ret.
  by destruct (total_cleanup E (dirname (path_join (mkdtemp E) (lit "input")))
                 w2) as ([] & w3 & ->).
Qed.

Lemma app_main_run E config ups w :
  fitz_importable E = true ->
  App.MINERU_AVAILABLE E = false ->
  (forall p, open_error E p = None) ->
  (forall p, makedirs_error E p = None) ->
  returned (App.main_batch E config ups w)
  = Some (map (app_upload_result E (path_join (mkdtemp E) (lit "input")))
              ups).
Proof.
  intros Hfitz Hav Hopen Hmk. unfold App.main_batch.
  unfold bind at 1.
  destruct (create_temp_dirs_run E w) as (w0 & -> & _); [done..|].
  unfold try_finally, bind.
  destruct (app_uploads_run E config
              (path_join (mkdtemp E) (lit "input"))
              (path_join (mkdtemp E) (lit "output")) ups [] w0)
    as [w1 ->]; [done..|].
  destruct (show_results_run
              ([] ++ map (app_upload_result E
                            (path_join (mkdtemp E) (lit "input"))) ups) w1)
    as [w2 ->];
    [apply has_success_map, app_result_has_success|].
  unfold ret.
  by destruct (total_cleanup E (dirname (path_join (mkdtemp E) (lit "input")))
                 w2) as ([] & w3 & ->).
Qed.

(** *** Counting *)

Section Counting.
Variable g : UploadedFile -> Result.
Hypothesis g_success : forall f, success (g f) = readable f.
Hypothesis g_name : forall f, file_name (g f) = Some (name f).
Hypothesis g_error : forall f, readable f = false -> is_Some (error (g f)).

Lemma filter_success_map l :
  List.filter success (map g l) = map g (List.filter readable l).
Proof using g_success.
  induction l as [|f l IH]; simpl; [done|].
  rewrite g_success, IH. by destruct (readable f).
Qed.

Lemma filter_failure_map l :
  List.filter (fun r => negb (success r)) (map g l)
  = map g (List.filter (fun f => negb (readable f)) l).
Proof using g_success.
  induction l as [|f l IH]; simpl; [done|].
  rewrite g_success, IH. by destruct (readable f).
Qed.

Lemma filter_readable_all l :
  forallb readable l = true ->
  List.filter readable l = l
  /\ List.filter (fun f => negb (readable f)) l = [].
Proof.
  induction l as [|f l IH]; simpl; [done|].
  intros [-> [-> ->]%IH]%andb_true_iff. done.
Qed.

Lemma one_failure_map before bad after :
  forallb readable (before ++ after) = true ->
  readable bad = false ->
  one_failure (before ++ bad :: after) (length before) bad
              (map g (before ++ bad :: after)).
Proof using g_success g_name g_error.
  intros Hall Hbad. rewrite forallb_app in Hall.
  apply andb_true_iff in Hall as [Hb Ha].
  destruct (filter_readable_all before Hb) as [Hb1 Hb2].
  destruct (filter_readable_all after Ha) as [Ha1 Ha2].
  split; [|split; [|split]].
  - rewrite map_map. apply map_ext. intros f. apply g_name.
  - by rewrite length_map.
  - rewrite filter_success_map, length_map, List.filter_app. simpl.
    rewrite Hbad, Hb1, Ha1, !length_app. simpl. lia.
  - exists (g bad). rewrite filter_failure_map, List.filter_app. simpl.
    rewrite Hbad, Hb2, Ha2. simpl. split; [done|]. split; [|auto].
    rewrite map_app. simpl.
    rewrite lookup_app_r by (rewrite length_map; lia).
    by rewrite length_map, Nat.sub_diag.
Qed.
End Counting.

(** *** The world a batch leaves *)

Lemma app_main_world E config ups w :
  makedirs_error E (path_join (mkdtemp E) (lit "input")) = None ->
  makedirs_error E (path_join (mkdtemp E) (lit "output")) = None ->
  dirname (path_join (mkdtemp E) (lit "input")) = mkdtemp E ->
  exists w1,
    returned_world (App.main_batch E config ups w)
    = cleaned E (mkdtemp E) w1
    /\ cleanups w1 = cleanups w
    /\ mkdtemp E ∈ dirs w1.
Proof.
  intros Hin Hout Hdir. unfold App.main_batch, returned_world.
  unfold bind at 1.
  destruct (create_temp_dirs_run E w) as (w0 & -> & Hc & Hd); [done..|].
  cbv beta iota. rewrite Hdir.
  set (body := bind _ _).
  assert (keeps_cleanups body) as Hb.
  { unfold body. apply keeps_bind; [apply keeps_app_uploads|].
    intros rs. apply keeps_bind; [apply keeps_show_results|].
    intros _. apply keeps_ret. }
  rewrite finally_cleanup by done. simpl.
  exists (body w0).2. destruct (Hb w0) as [Hc' Hd'].
  split; [done|]. split; [congruence|set_solver].
Qed.

Lemma vercel_main_world E language mode ups w :
  makedirs_error E (path_join (mkdtemp E) (lit "input")) = None ->
  makedirs_error E (path_join (mkdtemp E) (lit "output")) = None ->
  dirname (path_join (mkdtemp E) (lit "input")) = mkdtemp E ->
  exists w1,
    returned_world (Vercel.main_batch E language mode ups w)
    = cleaned E (mkdtemp E) w1
    /\ cleanups w1 = cleanups w
    /\ mkdtemp E ∈ dirs w1.
Proof.
  intros Hin Hout Hdir. unfold Vercel.main_batch, returned_world.
  unfold bind at 1.
  destruct (create_temp_dirs_run E w) as (w0 & -> & Hc & Hd); [done..|].
  cbv beta iota zeta. rewrite Hdir.
  set (body := bind _ _).
  assert (keeps_cleanups body) as Hb.
  { unfold body. apply keeps_bind; [apply keeps_vercel_uploads|].
    intros rs. apply keeps_bind; [apply keeps_show_results|].
    intros _. apply keeps_ret. }
  rewrite finally_cleanup by done. simpl.
  exists (body w0).2. destruct (Hb w0) as [Hc' Hd'].
  split; [done|]. split; [congruence|set_solver].
Qed.

Lemma vercel_result_success E input_dir f :
  success (vercel_upload_result E input_dir f) = readable f.
Proof. unfold vercel_upload_result, readable. by destruct (getvalue f). Qed.

Lemma vercel_result_name E input_dir f :
  file_name (vercel_upload_result E input_dir f) = Some (name f).
Proof. done. Qed.

Lemma vercel_result_error E input_dir f :
  readable f = false -> is_Some (error (vercel_upload_result E input_dir f)).
Proof.
  unfold vercel_upload_result, readable. by destruct (getvalue f).
Qed.

Lemma app_result_success E input_dir f :
  success (app_upload_result E input_dir f) = readable f.
Proof. unfold app_upload_result, readable. by destruct (getvalue f). Qed.

Lemma app_result_name E input_dir f :
  file_name (app_upload_result E input_dir f) = Some (name f).
Proof. done. Qed.

Lemma app_result_error E input_dir f :
  readable f = false -> is_Some (error (app_upload_result E input_dir f)).
Proof. unfold app_upload_result, readable. by destruct (getvalue f). Qed.

(** ** Progress values *)

Lemma ascends_le lo l hi : ascends lo l hi -> (lo <= hi)%Q.
Proof.
  revert lo. induction l as [|a l IH]; intros lo; simpl; [done|].
  intros [H1 H2%IH]. by eapply Qle_trans.
Qed.

Lemma ascends_lower lo lo' l hi :
  (lo' <= lo)%Q -> ascends lo l hi -> ascends lo' l hi.
Proof.
  destruct l as [|a l]; simpl.
  - intros. by eapply Qle_trans.
  - intros H [H1 H2]. split; [by eapply Qle_trans|done].
Qed.

Lemma ascends_raise lo l hi hi' :
  (hi <= hi')%Q -> ascends lo l hi -> ascends lo l hi'.
Proof.
  intros H. revert lo. induction l as [|a l IH]; intros lo; simpl.
  - intros. by eapply Qle_trans.
  - intros [H1 H2]. auto.
Qed.

Lemma ascends_app lo mid hi l1 l2 :
  ascends lo l1 mid -> ascends mid l2 hi -> ascends lo (l1 ++ l2) hi.
Proof.
  revert lo. induction l1 as [|a l1 IH]; intros lo; simpl.
  - intros. by eapply ascends_lower.
  - intros [H1 H2] H3. auto.
Qed.

Lemma ascends_nondecreasing lo l hi : ascends lo l hi -> nondecreasing l.
Proof.
  revert lo. induction l as [|a l IH]; intros lo; [done|].
  intros [_ H]. split; [|by eapply IH].
  destruct l as [|b l]; [done|]. by destruct H.
Qed.

Lemma ascends_within lo l hi :
  ascends lo l hi -> Forall (fun q => lo <= q <= hi)%Q l.
Proof.
  revert lo. induction l as [|a l IH]; intros lo; [constructor|].
  intros [H1 H2]. constructor.
  - split; [done|]. by eapply ascends_le.
  - eapply Forall_impl; [by apply IH|].
    intros q [H3 H4]. split; [by eapply Qle_trans|done].
Qed.

Lemma climbs_rises {A} (m : M A) : climbs 0 1 m -> rises m.
Proof.
  intros H w. destruct (H w) as (l & Hl & Ha). exists l.
  split; [done|]. split.
  - by eapply ascends_nondecreasing.
  - by apply ascends_within.
Qed.

Lemma climbs_weaken {A} lo lo' hi hi' (m : M A) :
  (lo' <= lo)%Q -> (hi <= hi')%Q -> climbs lo hi m -> climbs lo' hi' m.
Proof.
  intros H1 H2 H w. destruct (H w) as (l & Hl & Ha). exists l.
  split; [done|]. by eapply ascends_lower, ascends_raise.
Qed.

Lemma climbs_silent {A} lo hi (m : M A) :
  silent m -> (lo <= hi)%Q -> climbs lo hi m.
Proof.
  intros H Hle w. exists []. unfold fractions. rewrite H, app_nil_r.
  by split.
Qed.

Lemma climbs_bind {A B} lo mid hi (m : M A) (k : A -> M B) :
  (mid <= hi)%Q ->
  climbs lo mid m -> (forall a, climbs mid hi (k a)) ->
  climbs lo hi (bind m k).
Proof.
  intros Hle Hm Hk w. unfold bind. destruct (Hm w) as (l1 & Hl1 & Ha1).
  destruct (m w) as [[a|e] w1]; simpl in *.
  - destruct (Hk a w1) as (l2 & Hl2 & Ha2). exists (l1 ++ l2).
    rewrite Hl2, Hl1, app_assoc. split; [done|]. by eapply ascends_app.
  - exists l1. split; [done|]. by eapply ascends_raise.
Qed.

Lemma climbs_try_except {A} lo mid hi (body : M A) h :
  (mid <= hi)%Q ->
  climbs lo mid body -> (forall e, climbs mid hi (h e)) ->
  climbs lo hi (try_except body h).
Proof.
  intros Hle Hm Hk w. unfold try_except.
  destruct (Hm w) as (l1 & Hl1 & Ha1).
  destruct (body w) as [[a|e] w1]; simpl in *.
  - exists l1. split; [done|]. by eapply ascends_raise.
  - destruct (Hk e w1) as (l2 & Hl2 & Ha2). exists (l1 ++ l2).
    rewrite Hl2, Hl1, app_assoc. split; [done|]. by eapply ascends_app.
Qed.

Lemma climbs_notify lo hi p msg :
  (lo <= p)%Q -> (p <= hi)%Q ->
  climbs lo hi (notify (Some update_progress) p msg).
Proof.
  intros H1 H2 w. exists [p]. split; [|done].
  unfold fractions. simpl. by rewrite map_app.
Qed.

(** A step that reports [p] and goes on from there. *)
Lemma climbs_notify_then {B} lo hi p msg (k : unit -> M B) :
  (lo <= p)%Q -> (p <= hi)%Q ->
  climbs p hi (k tt) ->
  climbs lo hi (bind (notify (Some update_progress) p msg) k).
Proof.
  intros H1 H2 Hk. apply (climbs_bind lo p hi); [done| |by intros []].
  apply climbs_notify; [done|apply Qle_refl].
Qed.

(** A step that reports nothing. *)
Lemma climbs_silent_then {A B} lo hi (m : M A) (k : A -> M B) :
  (lo <= hi)%Q ->
  silent m -> (forall a, climbs lo hi (k a)) ->
  climbs lo hi (bind m k).
Proof.
  intros Hle Hm Hk. apply (climbs_bind lo lo hi); [done| |done].
  apply climbs_silent; [done|apply Qle_refl].
Qed.

(** *** Steps that report nothing *)

Lemma silent_ret {A} (a : A) : silent (ret a).
Proof. by intros w. Qed.

Lemma silent_raise {A} e : silent (@raise A e).
Proof. by intros w. Qed.

Lemma silent_bind {A B} (m : M A) (k : A -> M B) :
  silent m -> (forall a, silent (k a)) -> silent (bind m k).
Proof.
  intros Hm Hk w. unfold bind. specialize (Hm w).
  destruct (m w) as [[a|e] w1]; simpl in *; [|done].
  by rewrite Hk.
Qed.

Lemma silent_get_world : silent get_world.
Proof. by intros w. Qed.

Lemma silent_makedirs E p : silent (os_makedirs E p).
Proof. intros w. unfold os_makedirs. by destruct (makedirs_error E p). Qed.

Lemma silent_write_file E p c : silent (write_file E p c).
Proof. intros w. unfold write_file. by destruct (open_error E p). Qed.

Lemma silent_import_fitz E : silent (import_fitz E).
Proof. intros w. unfold import_fitz. by destruct (fitz_importable E). Qed.

Lemma silent_fitz_open p : silent (fitz_open p).
Proof.
  intros w. unfold fitz_open.
  by destruct (files w !! p) as [[[msg|pages] sz|t]|].
Qed.

Lemma silent_getsize p : silent (os_path_getsize p).
Proof.
  intros w. unfold os_path_getsize. by destruct (files w !! p) as [[]|].
Qed.

Lemma silent_read_text p : silent (Mineru.read_text p).
Proof.
  intros w. unfold Mineru.read_text. by destruct (files w !! p) as [[]|].
Qed.

Lemma silent_open_rb p : silent (Vercel.open_rb p).
Proof. intros w. unfold Vercel.open_rb. by destruct (files w !! p). Qed.

Lemma silent_run_do_parse E p o m l : silent (Mineru.run_do_parse E p o m l).
Proof.
  intros w. unfold Mineru.run_do_parse. by destruct (do_parse E p o m l _).
Qed.

Ltac silent_tac :=
  repeat first
    [ apply silent_ret | apply silent_raise | apply silent_get_world
    | apply silent_makedirs | apply silent_write_file
    | apply silent_import_fitz | apply silent_fitz_open
    | apply silent_getsize | apply silent_read_text | apply silent_open_rb
    | apply silent_run_do_parse
    | apply silent_bind; [|intros ?]
    | match goal with
      | |- silent (let '(_, _) := ?x in _) => destruct x
      | |- silent (match ?x with _ => _ end) => destruct x
      | |- silent (if ?x then _ else _) => destruct x
      end ].

Lemma silent_mineru_output E o p : silent (Mineru._process_mineru_output E o p).
Proof. unfold Mineru._process_mineru_output. silent_tac. Qed.

(** *** The page loop *)

Lemma inject_nat_nonneg n : (0 <= inject_Z (Z.of_nat n))%Q.
Proof. change 0%Q with (inject_Z 0). rewrite <- Zle_Qle. lia. Qed.

Lemma frac_mono base span n a b :
  (0 <= span)%Q -> (a <= b)%nat ->
  (base + inject_Z (Z.of_nat a) / inject_Z (Z.of_nat n) * span
   <= base + inject_Z (Z.of_nat b) / inject_Z (Z.of_nat n) * span)%Q.
Proof.
  intros Hs Hab. apply Qplus_le_r. apply Qmult_le_compat_r; [|done].
  unfold Qdiv. apply Qmult_le_compat_r.
  - rewrite <- Zle_Qle. lia.
  - apply Qinv_le_0_compat, inject_nat_nonneg.
Qed.

Lemma frac_top base span n a :
  (0 <= span)%Q -> (a <= n)%nat ->
  (base + inject_Z (Z.of_nat a) / inject_Z (Z.of_nat n) * span
   <= base + span)%Q.
Proof.
  intros Hs Han. apply Qplus_le_r.
  rewrite <- (Qmult_1_l span) at 2. apply Qmult_le_compat_r; [|done].
  destruct n as [|n].
  - replace a with O by lia. done.
  - apply Qle_shift_div_r.
    + change 0%Q with (inject_Z 0). rewrite <- Zlt_Qlt. lia.
    + rewrite Qmult_1_l, <- Zle_Qle. lia.
Qed.

Lemma frac_bottom base span n :
  (0 <= span)%Q ->
  (base <= base + inject_Z (Z.of_nat 0) / inject_Z (Z.of_nat n) * span)%Q.
Proof.
  intros Hs. rewrite <- (Qplus_0_r base) at 1. apply Qplus_le_r.
  apply Qmult_le_0_compat; [|done].
  apply Qmult_le_0_compat; [done|].
  apply Qinv_le_0_compat, inject_nat_nonneg.
Qed.

Lemma page_fractions_ascend base span total pages k :
  (0 <= span)%Q -> (k + length pages = total)%nat ->
  ascends (base + inject_Z (Z.of_nat k) / inject_Z (Z.of_nat total) * span)
          (map fst (page_events base span total pages k))
          (base + span).
Proof.
  intros Hs. revert k.
  induction pages as [|t pages IH]; intros k Hk; simpl.
  - apply frac_top; [done|lia].
  - split; [apply frac_mono; [done|lia]|].
    rewrite Nat.add_1_r. apply IH. simpl in Hk. lia.
Qed.

Lemma climbs_page_loop base span pages md txt :
  (0 <= span)%Q ->
  climbs base (base + span)
    (page_loop (Some update_progress) base span (length pages) pages 0
               md txt).
Proof.
  intros Hs w. rewrite page_loop_run. eexists.
  split; [apply fractions_add_progress|].
  eapply ascends_lower; [|by apply page_fractions_ascend].
  by apply frac_bottom.
Qed.

(** *** The branches *)

Ltac qle := first [apply Qle_refl | by vm_compute].

Ltac climb :=
  repeat lazymatch goal with
  | |- climbs _ _ (bind (notify _ _ _) _) =>
    apply climbs_notify_then; [qle|qle|]
  | |- climbs _ _ (notify _ _ _) => apply climbs_notify; qle
  | |- climbs _ _ (bind (page_loop _ ?base ?span _ _ _ _ _) _) =>
    apply (climbs_bind _ (base + span)%Q);
    [qle|eapply climbs_weaken; [| |by apply climbs_page_loop]; qle|intros ?]
  | |- climbs _ _ (bind _ _) =>
    apply climbs_silent_then; [qle|silent_tac|intros ?]
  | |- climbs _ _ (ret _) => apply climbs_silent; [apply silent_ret|qle]
  | |- climbs _ _ (raise _) => apply climbs_silent; [apply silent_raise|qle]
  | |- climbs _ _ (let '(_, _) := ?x in _) => destruct x
  | |- climbs _ _ (match ?x with _ => _ end) => destruct x
  | |- climbs _ _ (if ?x then _ else _) => destruct x
  end.

Lemma climbs_vercel_basic E pdf_path output_dir config :
  climbs 0 1
    (Vercel.process_pdf_basic E pdf_path output_dir config
                              (Some update_progress)).
Proof.
  unfold Vercel.process_pdf_basic.
  apply (climbs_try_except 0 1 1); [qle| |intros e]; climb.
Qed.

Lemma climbs_app_basic E pdf_path output_dir config :
  climbs 0 1
    (App.process_pdf_basic E pdf_path output_dir config
                           (Some update_progress)).
Proof.
  unfold App.process_pdf_basic.
  apply (climbs_try_except 0 1 1); [qle| |intros e]; climb.
Qed.

Lemma climbs_demo E pdf_path output_dir :
  climbs (1 # 10) 1
    (Mineru._create_demo_result E pdf_path output_dir
                                (Some update_progress)).
Proof.
  unfold Mineru._create_demo_result.
  apply (climbs_try_except _ 1 1); [qle| |intros e]; climb.
Qed.

Lemma climbs_with_mineru E pdf_path output_dir l pm f t :
  climbs (1 # 10) 1
    (Mineru._process_with_mineru E pdf_path output_dir l pm f t
                                 (Some update_progress)).
Proof.
  unfold Mineru._process_with_mineru.
  apply (climbs_try_except _ 1 1); [qle| |intros e]; climb.
Qed.

Lemma climbs_process_pdf E self pdf_path output_dir l pm f t :
  climbs 0 1
    (Mineru.process_pdf E self pdf_path output_dir l pm f t
                        (Some update_progress)).
Proof.
  unfold Mineru.process_pdf.
  apply (climbs_try_except 0 1 1); [qle| |intros e]; climb.
  - apply climbs_demo.
  - apply climbs_with_mineru.
Qed.

Lemma climbs_app_file E pdf_path output_dir config :
  climbs 0 1
    (App.process_pdf_file E pdf_path output_dir config
                          (Some update_progress)).
Proof.
  unfold App.process_pdf_file.
  apply (climbs_try_except 0 1 1); [qle| |intros e]; climb.
  - apply climbs_process_pdf.
  - apply climbs_app_basic.
Qed.

Lemma climbs_call_api E pdf_path config :
  climbs 0 1
    (Vercel.call_mineru_api E pdf_path config (Some update_progress)).
Proof.
  unfold Vercel.call_mineru_api.
  apply (climbs_try_except 0 1 1); [qle| |intros e]; climb.
Qed.

(** ** What a failure leaves *)

Lemma handler_run e w r w' (mk : pystr -> Result) :
  (notify (Some update_progress) 1 (lit "处理失败: " ++ e) ;; ret (mk e)) w
  = (Ok r, w') ->
  r = mk e /\ last (progress w') = Some (1%Q, lit "处理失败: " ++ e).
Proof.
  rewrite bind_notify. intros [= <- <-]. split; [done|]. apply last_snoc.
Qed.

Lemma mineru_failure_inv E self pdf_path output_dir language parse_method
    formula_enable table_enable w r w' :
  Mineru.process_pdf E self pdf_path output_dir language parse_method
                     formula_enable table_enable (Some update_progress) w
  = (Ok r, w') ->
  success r = false ->
  exists e,
    r = Mineru.failure (lit "处理 PDF 时出错: " ++ e) (Some (format_exc E e))
    /\ last (progress w') = Some (1%Q, lit "处理失败: " ++ e).
Proof.
  intros H Hs. unfold Mineru.process_pdf in H.
  apply try_except_inv in H as [H|(e & w1 & _ & H)].
  - apply bind_inv in H as (? & ? & _ & H). cbv beta in H.
    apply bind_inv in H as (? & ? & _ & H). cbv beta in H.
    destruct (Mineru.mineru_available self); simpl in H.
    + unfold Mineru._process_with_mineru in H. run_inv. done.
    + apply demo_result_inv in H. by subst.
  - exists e.
    by apply (handler_run e w1 r w'
                (fun e => Mineru.failure (lit "处理 PDF 时出错: " ++ e)
                                         (Some (format_exc E e)))).
Qed.

Lemma app_file_failure_inv E pdf_path output_dir config w r w' :
  App.process_pdf_file E pdf_path output_dir config (Some update_progress) w
  = (Ok r, w') ->
  success r = false ->
  exists e,
    r = Mineru.failure (lit "处理 PDF 时出错: " ++ e) (Some (format_exc E e))
    /\ last (progress w') = Some (1%Q, lit "处理失败: " ++ e).
Proof.
  intros H Hs. unfold App.process_pdf_file in H.
  apply try_except_inv in H as [H|(e & w1 & _ & H)].
  - destruct (App.MINERU_AVAILABLE E).
    + by eapply mineru_failure_inv.
    + apply app_basic_inv in H as (pages & sz & _ & -> & _). done.
  - exists e.
    by apply (handler_run e w1 r w'
                (fun e => Mineru.failure (lit "处理 PDF 时出错: " ++ e)
                                         (Some (format_exc E e)))).
Qed.

Lemma vercel_basic_failure_inv E pdf_path output_dir config w r w' :
  Vercel.process_pdf_basic E pdf_path output_dir config
                           (Some update_progress) w = (Ok r, w') ->
  success r = false ->
  exists e,
    r = Vercel.failure (lit "处理 PDF 时出错: " ++ e)
    /\ last (progress w') = Some (1%Q, lit "处理失败: " ++ e).
Proof.
  rewrite vercel_basic_run.
  destruct (opened E (files w) pdf_path) as [[pages sz]|e];
    intros [= <- <-] Hs; [done|].
  exists e. split; [done|].
  assert (forall evs, progress (add_progress evs w) = progress w ++ evs)
    as -> by done.
  unfold vercel_failure_events. rewrite !app_assoc. apply last_snoc.
Qed.

(** ** Nothing in the processing of a file aborts the batch *)

Lemma total_app_file E pdf_path output_dir config :
  total (App.process_pdf_file E pdf_path output_dir config
                              (Some update_progress)).
Proof.
  unfold App.process_pdf_file. apply total_try_except. intros e.
  apply total_bind; [apply total_update_progress|].
  intros _. apply total_ret.
Qed.

Lemma total_vercel_basic E pdf_path output_dir config :
  total (Vercel.process_pdf_basic E pdf_path output_dir config
                                  (Some update_progress)).
Proof.
  unfold Vercel.process_pdf_basic. apply total_try_except. intros e.
  apply total_bind; [apply total_update_progress|].
  intros _. apply total_ret.
Qed.

Lemma total_call_api E pdf_path config :
  total (Vercel.call_mineru_api E pdf_path config (Some update_progress)).
Proof.
  unfold Vercel.call_mineru_api. apply total_try_except. intros e.
  apply total_ret.
Qed.

(** Every branch of the repository sets [success]. *)
Lemma mineru_has_success E self pdf_path output_dir language parse_method
    formula_enable table_enable cb w r w' :
  Mineru.process_pdf E self pdf_path output_dir language parse_method
                     formula_enable table_enable cb w = (Ok r, w') ->
  has_success r = true.
Proof.
  intros H. unfold Mineru.process_pdf in H.
  apply try_except_inv in H as [H|(e & w1 & _ & H)].
  - apply bind_inv in H as (? & ? & _ & H). cbv beta in H.
    apply bind_inv in H as (? & ? & _ & H). cbv beta in H.
    destruct (Mineru.mineru_available self); simpl in H.
    + unfold Mineru._process_with_mineru in H. run_inv. done.
    + apply demo_result_inv in H. by subst.
  - run_inv. done.
Qed.

Lemma app_file_has_success E pdf_path output_dir config w r w' :
  App.process_pdf_file E pdf_path output_dir config (Some update_progress) w
  = (Ok r, w') ->
  has_success r = true.
Proof.
  intros H. unfold App.process_pdf_file in H.
  apply try_except_inv in H as [H|(e & w1 & _ & H)].
  - destruct (App.MINERU_AVAILABLE E).
    + by eapply mineru_has_success.
    + apply app_basic_inv in H as (pages & sz & _ & -> & _). done.
  - apply (handler_run e w1 r w'
             (fun e => Mineru.failure (lit "处理 PDF 时出错: " ++ e)
                                      (Some (format_exc E e)))) in H
      as [-> _].
    done.
Qed.

Lemma vercel_basic_has_success E pdf_path output_dir config w r w' :
  Vercel.process_pdf_basic E pdf_path output_dir config
                           (Some update_progress) w = (Ok r, w') ->
  has_success r = true.
Proof.
  rewrite vercel_basic_run.
  destruct (opened E (files w) pdf_path) as [[pages sz]|e];
    by intros [= <- <-].
Qed.

(** What [call_mineru_api] returns, other than [None], is the body of an
    answer of status 200. *)
Lemma call_api_value E pdf_path config w v w' :
  Vercel.call_mineru_api E pdf_path config (Some update_progress) w
  = (Ok (Some v), w') ->
  exists url f body,
    requests_post E url f config = Response 200 body
    /\ body_value body = Some v.
Proof.
  intros H. unfold Vercel.call_mineru_api in H.
  apply try_except_inv in H as [H|(e & w1 & _ & H)];
    [|by apply ret_inv in H as [[=] _]].
  destruct (MINERU_API_URL E) as [api_url|];
    [|by apply ret_inv in H as [[=] _]].
  destruct (negb (truthy api_url));
    [by apply ret_inv in H as [[=] _]|].
  apply bind_inv in H as (? & w1 & _ & H). cbv beta in H.
  apply bind_inv in H as (f & w2 & _ & H). cbv beta in H.
  destruct (requests_post E (api_url ++ lit "/process") f config)
    as [msg|status_code body] eqn:Hpost; [by run_inv|].
  destruct (status_code =? 200)%Z eqn:Hs;
    [|by apply ret_inv in H as [[=] _]].
  apply Z.eqb_eq in Hs as ->.
  exists (api_url ++ lit "/process"), f, body. split; [done|].
  destruct body; run_inv; done.
Qed.

Lemma app_upload_named E config input_dir output_dir f w :
  (forall p, open_error E p = None) ->
  (forall p, makedirs_error E p = None) ->
  exists r w',
    App.process_upload E config input_dir output_dir f w = (Ok r, w')
    /\ file_name r = Some (name f)
    /\ has_success r = true.
Proof.
  intros Hopen Hmk.
  unfold App.process_upload, bind, write_file, new_progress_bar, os_makedirs.
  rewrite Hopen, Hmk.
  match goal with
  | |- context [App.process_pdf_file ?a ?b ?c ?d ?e ?w0] =>
    destruct (total_app_file a b c d w0) as (r & w' & Hrun);
      pose proof (app_file_has_success _ _ _ _ _ _ _ Hrun) as Hr;
      rewrite Hrun
  end.
  by eexists _, _.
Qed.

Lemma vercel_upload_named E mode config input_dir output_dir f w :
  (forall p, open_error E p = None) ->
  pystr_eqb mode (lit "api") = false \/ answers_objects E ->
  exists r w',
    Vercel.process_upload E mode config input_dir output_dir f w = (Ok r, w')
    /\ file_name r = Some (name f).
Proof.
  intros Hopen Hmode.
  unfold Vercel.process_upload, bind, write_file, new_progress_bar.
  rewrite Hopen.
  destruct (pystr_eqb mode (lit "api")).
  - destruct Hmode as [|Hobj]; [done|].
    match goal with
    | |- context [Vercel.call_mineru_api ?a ?b ?c ?d ?w0] =>
      destruct (total_call_api a b c w0) as ([v|] & w1 & Hcall);
        rewrite Hcall
    end.
    + apply call_api_value in Hcall as (url & f' & body & Hpost & Hv).
      destruct v as [r|e]; [by eexists _, _|].
      by destruct (Hobj _ _ _ _ e Hpost).
    + unfold show.
      match goal with
      | |- context [Vercel.process_pdf_basic ?a ?b ?c ?d ?e ?w0] =>
        destruct (total_vercel_basic a b c d w0) as (r & w' & ->)
      end.
      by eexists _, _.
  - match goal with
    | |- context [Vercel.process_pdf_basic ?a ?b ?c ?d ?e ?w0] =>
      destruct (total_vercel_basic a b c d w0) as (r & w' & ->)
    end.
    by eexists _, _.
Qed.

Lemma app_uploads_named E config input_dir output_dir ups rs w :
  (forall p, open_error E p = None) ->
  (forall p, makedirs_error E p = None) ->
  exists rs' w',
    App.process_uploads E config input_dir output_dir ups rs w
    = (Ok (rs ++ rs'), w')
    /\ map file_name rs' = map (fun f => Some (name f)) ups
    /\ forallb has_success rs' = true.
Proof.
  intros Hopen Hmk. revert rs w.
  induction ups as [|f ups IH]; intros rs w; simpl.
  - exists [], w. by rewrite app_nil_r.
  - unfold bind.
    destruct (app_upload_named E config input_dir output_dir f w)
      as (r & w1 & -> & Hr & Hs); [done..|].
    destruct (IH (rs ++ [r]) w1) as (rs' & w2 & -> & Hrs & Hss).
    exists (r :: rs'), w2. rewrite <- app_assoc. simpl.
    by rewrite Hr, Hrs, Hs, Hss.
Qed.

Lemma vercel_uploads_named E mode config input_dir output_dir ups rs w :
  (forall p, open_error E p = None) ->
  pystr_eqb mode (lit "api") = false \/ answers_objects E ->
  exists rs' w',
    Vercel.process_uploads E mode config input_dir output_dir ups rs w
    = (Ok (rs ++ rs'), w')
    /\ map file_name rs' = map (fun f => Some (name f)) ups.
Proof.
  intros Hopen Hmode. revert rs w.
  induction ups as [|f ups IH]; intros rs w; simpl.
  - exists [], w. by rewrite app_nil_r.
  - unfold bind.
    destruct (vercel_upload_named E mode config input_dir output_dir f w)
      as (r & w1 & -> & Hr); [done..|].
    destruct (IH (rs ++ [r]) w1) as (rs' & w2 & -> & Hrs).
    exists (r :: rs'), w2. rewrite <- app_assoc. simpl.
    by rewrite Hr, Hrs.
Qed.

Lemma app_main_named E config ups w :
  (forall p, open_error E p = None) ->
  (forall p, makedirs_error E p = None) ->
  exists results,
    returned (App.main_batch E config ups w) = Some results
    /\ map file_name results = map (fun f => Some (name f)) ups.
Proof.
  intros Hopen Hmk. unfold App.main_batch.
  unfold bind at 1.
  destruct (create_temp_dirs_run E w) as (w0 & -> & _); [done..|].
  unfold try_finally, bind.
  destruct (app_uploads_named E config
              (path_join (mkdtemp E) (lit "input"))
              (path_join (mkdtemp E) (lit "output")) ups [] w0)
    as (rs & w1 & -> & Hrs & Hss); [done..|].
  destruct (show_results_run ([] ++ rs) w1) as [w2 ->]; [done|].
  unfold ret.
  destruct (total_cleanup E (dirname (path_join (mkdtemp E) (lit "input")))
              w2) as ([] & w3 & ->).
  by exists rs.
Qed.

(** ** The workspace path *)

Lemma drop_until_slash_app a b :
  Forall (fun c => c <> SLASH) a ->
  drop_until_slash (a ++ SLASH :: b) = SLASH :: b.
Proof.
  induction 1 as [|c a Hc _ IH]; simpl.
  - by rewrite ?N.eqb_refl.
  - by rewrite eqb_start.
Qed.

(** [os.path.dirname(os.path.join(temp_dir, "input"))] is [temp_dir]. *)
Lemma dirname_join_input temp_dir :
  proper_dir temp_dir = true ->
  dirname (path_join temp_dir (lit "input")) = temp_dir.
Proof.
  unfold proper_dir. intros H.
  destruct (rev temp_dir) as [|c r] eqn:Hrev; [done|].
  apply negb_true_iff, N.eqb_neq in H.
  assert (starts_with [SLASH] (lit "input") = false) as Hin
    by (vm_compute; reflexivity).
  assert (Forall (fun c => c <> SLASH) (rev (lit "input"))) as Hno
    by (apply lacks_Forall; vm_compute; reflexivity).
  unfold path_join. rewrite Hin, Hrev.
  destruct temp_dir as [|a t] eqn:Ht; [done|]. rewrite <- Ht in *.
  assert (starts_with [SLASH] (c :: r) = false) as ->.
  { simpl. rewrite N.eqb_sym, eqb_start by done. done. }
  unfold dirname.
  rewrite rev_app_distr. simpl rev at 1. rewrite <- app_assoc. simpl app.
  rewrite drop_until_slash_app by done. rewrite Hrev. simpl.
  rewrite ?N.eqb_refl. rewrite (eqb_start c SLASH) by done.
  change (rev r ++ [c]) with (rev (c :: r)).
  by rewrite <- Hrev, rev_involutive.
Qed.

(** ** The demo branch of the local entry point *)

Lemma total_write_file E p c :
  open_error E p = None -> total (write_file E p c).
Proof. intros H w. unfold write_file. rewrite H. by eexists _, _. Qed.

Lemma total_try_body {A} (body : M A) h :
  total body -> total (try_except body h).
Proof.
  intros Hb w. unfold try_except. destruct (Hb w) as (a & w' & ->).
  by eexists _, _.
Qed.

Lemma demo_run E pdf_path output_dir w :
  (forall p, open_error E p = None) ->
  exists w',
    Mineru._create_demo_result E pdf_path output_dir (Some update_progress) w
    = (Ok (demo_result E (path_stem pdf_path) output_dir), w').
Proof.
  intros Hopen.
  assert (total (Mineru._create_demo_result E pdf_path output_dir
                   (Some update_progress))) as Ht.
  { unfold Mineru._create_demo_result. apply total_try_body.
    repeat lazymatch goal with
    | |- total (bind _ _) => apply total_bind; [|intros ?]
    | |- total (notify _ _ _) => apply total_update_progress
    | |- total (write_file _ _ _) => apply total_write_file, Hopen
    | |- total (ret _) => apply total_ret
    end. }
  destruct (Ht w) as (r & w' & H). exists w'. rewrite H.
  by apply demo_result_inv in H as ->.
Qed.

Lemma mineru_demo_run E pdf_path output_dir l pm f t w :
  magic_pdf_importable E = false ->
  (forall p, open_error E p = None) ->
  makedirs_error E output_dir = None ->
  exists w',
    Mineru.process_pdf E (Mineru.new_processor E) pdf_path output_dir
                       l pm f t (Some update_progress) w
    = (Ok (demo_result E (path_stem pdf_path) output_dir), w').
Proof.
  intros Hmagic Hopen Hmk. unfold Mineru.process_pdf, try_except.
  rewrite bind_notify. unfold bind at 1. unfold os_makedirs at 1.
  rewrite Hmk. unfold Mineru.new_processor. cbn [Mineru.mineru_available].
  rewrite Hmagic. cbn [negb]. cbv iota.
  match goal with
  | |- context [Mineru._create_demo_result _ _ _ _ ?w0] =>
    destruct (demo_run E pdf_path output_dir w0 Hopen) as [w' ->]
  end.
  by exists w'.
Qed.

Lemma app_upload_demo E config input_dir output_dir f w :
  App.MINERU_AVAILABLE E = true ->
  magic_pdf_importable E = false ->
  (forall p, open_error E p = None) ->
  (forall p, makedirs_error E p = None) ->
  returned (App.process_upload E config input_dir output_dir f w)
  = Some (set_file_name
            (demo_result E (path_stem (path_join input_dir (name f)))
                         (path_join output_dir (path_stem (name f))))
            (name f)).
Proof.
  intros Hav Hmagic Hopen Hmk.
  unfold App.process_upload, bind, write_file, new_progress_bar, os_makedirs.
  rewrite Hopen, Hmk. unfold App.process_pdf_file, try_except.
  rewrite Hav.
  match goal with
  | |- context [Mineru.process_pdf _ _ ?p ?o ?l ?pm ?fe ?te _ ?w0] =>
    destruct (mineru_demo_run E p o l pm fe te w0) as [w' ->]; [done..|]
  end.
  reflexivity.
Qed.

(** ** [str.replace], [str.count], [str.split] *)

Lemma lit_hash_space : lit "# " = [HASH; SPACE].
Proof. vm_compute. reflexivity. Qed.

(** Replacing a character leaves none of it, when the new text holds
    none. *)
Lemma replace_char_gone c new s skip :
  Forall (fun x => x <> c) new ->
  Forall (fun x => x <> c) (replace_from [c] new s skip).
Proof.
  intros Hnew. revert skip.
  induction s as [|x s IH]; intros skip; simpl; [constructor|].
  destruct skip as [|k]; [|apply IH].
  rewrite andb_true_r. destruct (N.eqb_spec c x) as [->|Hx].
  - apply Forall_app_2; [done|apply IH].
  - constructor; [congruence|apply IH].
Qed.

(** A text in which [old] begins nowhere is left alone. *)
Lemma replace_fixed old new s :
  (forall k, starts_with old (drop k s) = false) ->
  replace old new s = s.
Proof.
  unfold replace. induction s as [|x s IH]; intros H; [done|].
  change (replace_from old new (x :: s) 0)
    with (if starts_with old (x :: s)
          then new ++ replace_from old new s (length old - 1)
          else x :: replace_from old new s 0).
  rewrite (H O : starts_with old (x :: s) = false). f_equal.
  apply IH. intros k. apply (H (S k)).
Qed.

Lemma replace_char_fixed c new s :
  Forall (fun x => x <> c) s -> replace [c] new s = s.
Proof.
  intros H. apply replace_fixed. intros k.
  assert (Forall (fun x => x <> c) (drop k s)) as Hk by by apply Forall_drop.
  destruct Hk as [|x t Hx _]; simpl; [done|].
  rewrite andb_true_r. apply N.eqb_neq. congruence.
Qed.

(** *** Adjacent pairs *)

Lemma pair_free_tail a b x s : pair_free a b (x :: s) = true ->
  pair_free a b s = true.
Proof. simpl. by intros [_ ?]%andb_true_iff. Qed.

Lemma pair_free_drop a b k s :
  pair_free a b s = true -> pair_free a b (drop k s) = true.
Proof.
  revert s. induction k as [|k IH]; intros [|x s] H; simpl; try done.
  apply IH. by eapply pair_free_tail.
Qed.

Lemma pair_free_occurs a b p q : pair_free a b (p ++ a :: b :: q) = false.
Proof.
  induction p as [|x p IH]; simpl.
  - by rewrite !N.eqb_refl.
  - rewrite IH. apply andb_false_r.
Qed.

(** A text without the pair holds no text that contains it. *)
Lemma pair_free_no_start a b pre post s k :
  pair_free a b s = true ->
  starts_with (pre ++ a :: b :: post) (drop k s) = false.
Proof.
  intros H%(pair_free_drop _ _ k).
  destruct (starts_with _ _) eqn:E; [|done].
  apply starts_with_drop in E. rewrite E, <- app_assoc in H.
  simpl in H. by rewrite pair_free_occurs in H.
Qed.

Lemma pair_free_app a b s t :
  pair_free a b s = true -> pair_free a b t = true ->
  last s <> Some a ->
  pair_free a b (s ++ t) = true.
Proof.
  intros Hs Ht. induction s as [|x s IH]; intros Hl; simpl; [done|].
  simpl in Hs. apply andb_true_iff in Hs as [Hx Hs].
  rewrite IH; [|done|]; cycle 1.
  { destruct s; [done|]. by rewrite last_cons_cons in Hl. }
  rewrite andb_true_r. destruct s as [|y s]; simpl; [|done].
  destruct (N.eqb_spec x a) as [->|]; [|done]. by destruct Hl.
Qed.

(** Replacing the pair [a b] by a text that neither ends with [a] nor
    begins with [b] leaves no such pair. *)
Lemma replace_pair_gone a b new n s :
  pair_free a b new = true ->
  last new <> Some a ->
  head new <> Some b -> new <> [] ->
  (length s <= n)%nat ->
  pair_free a b (replace [a; b] new s) = true
  /\ (head (replace [a; b] new s) = Some b -> head s = Some b).
Proof.
  intros Hnew Hlast Hhead Hne. unfold replace. revert s.
  induction n as [|n IH]; intros s Hn.
  { destruct s; [done|simpl in Hn; lia]. }
  destruct s as [|x s]; [done|].
  change (replace_from [a; b] new (x :: s) 0)
    with (if starts_with [a; b] (x :: s)
          then new ++ replace_from [a; b] new s 1
          else x :: replace_from [a; b] new s 0).
  destruct (starts_with [a; b] (x :: s)) eqn:E.
  - destruct s as [|y s]; [simpl in E; by rewrite andb_false_r in E|].
    simpl in E. rewrite andb_true_r in E.
    apply andb_true_iff in E as [Ha%N.eqb_eq Hb%N.eqb_eq]. subst x y.
    change (replace_from [a; b] new (b :: s) 1)
      with (replace_from [a; b] new s 0).
    destruct (IH s) as [Hs _]; [simpl in Hn; lia|].
    split; [by apply pair_free_app|].
    destruct new; [done|]. simpl in *. congruence.
  - destruct (IH s) as [Hs Hh]; [simpl in Hn; lia|].
    split; [|done]. simpl. rewrite Hs, andb_true_r.
    destruct (N.eqb_spec x a) as [->|]; [|done]. simpl.
    destruct (replace_from [a; b] new s 0) as [|y r] eqn:Er; [done|].
    destruct (N.eqb_spec y b) as [->|]; [|done].
    specialize (Hh eq_refl). destruct s as [|z s]; [done|].
    injection Hh as ->. simpl in E. by rewrite !N.eqb_refl in E.
Qed.

(** *** Counting *)

Lemma count_char c s : count [c] s = occurrences c s.
Proof.
  unfold count, occurrences. induction s as [|x s IH]; simpl; [done|].
  rewrite andb_true_r, N.eqb_sym. destruct (x =? c); simpl; by rewrite IH.
Qed.

Lemma occurrences_none c s :
  occurrences c s = O <-> Forall (fun x => x <> c) s.
Proof.
  unfold occurrences. induction s as [|x s IH]; simpl.
  - split; [constructor|done].
  - destruct (N.eqb_spec x c) as [->|Hx]; simpl.
    + split; [done|]. by inversion 1.
    + rewrite IH. split; [by constructor|by inversion 1].
Qed.

(** *** Splitting what was joined *)

Lemma split_from_piece c sep p rest cur :
  Forall (fun x => x <> c) p ->
  split_from (c :: sep) (p ++ rest) 0 cur
  = split_from (c :: sep) rest 0 (rev p ++ cur).
Proof.
  intros Hp. revert cur.
  induction Hp as [|x p Hx _ IH]; intros cur; [done|].
  change (split_from (c :: sep) ((x :: p) ++ rest) 0 cur)
    with (if starts_with (c :: sep) (x :: p ++ rest)
          then rev cur
               :: split_from (c :: sep) (p ++ rest) (length (c :: sep) - 1) []
          else split_from (c :: sep) (p ++ rest) 0 (x :: cur)).
  assert (starts_with (c :: sep) (x :: p ++ rest) = false) as ->.
  { simpl. apply andb_false_iff. left. apply N.eqb_neq. congruence. }
  rewrite IH. simpl. by rewrite <- app_assoc.
Qed.

(** Single-line pieces joined by blank lines are recovered by splitting
    at blank lines. *)
Lemma split_join_lines l :
  l <> [] ->
  Forall (Forall (fun x => x <> NL)) l ->
  split [NL; NL] (join [NL; NL] l) = l.
Proof.
  unfold split. intros Hne Hl.
  induction Hl as [|p l Hp Hl IH]; [done|]. clear Hne.
  destruct l as [|q l].
  - simpl. rewrite <- (app_nil_r p) at 1.
    rewrite split_from_piece by done. simpl.
    by rewrite app_nil_r, rev_involutive.
  - change (join [NL; NL] (p :: q :: l))
      with (p ++ [NL; NL] ++ join [NL; NL] (q :: l)).
    rewrite split_from_piece by done. rewrite app_nil_r.
    change (split_from [NL; NL] ([NL; NL] ++ join [NL; NL] (q :: l)) 0
              (rev p))
      with (rev (rev p)
            :: split_from [NL; NL] (join [NL; NL] (q :: l)) 0 []).
    by rewrite rev_involutive, IH.
Qed.

(** ** The fallback of [_markdown_to_html] *)

Lemma Forall_replace (P : N -> Prop) old new s skip :
  Forall P new -> Forall P s -> Forall P (replace_from old new s skip).
Proof.
  intros Hnew Hs. revert skip.
  induction Hs as [|x s Hx Hs IH]; intros skip; simpl; [constructor|].
  destruct skip as [|k]; [|apply IH].
  destruct (starts_with old (x :: s)).
  - apply Forall_app_2; [done|apply IH].
  - constructor; [done|apply IH].
Qed.

Lemma br_no_newline : Forall (fun x => x <> NL) (lit "<br>").
Proof. apply lacks_Forall. vm_compute. reflexivity. Qed.

Lemma h1_no_newline : Forall (fun x => x <> NL) (lit "<h1>").
Proof. apply lacks_Forall. vm_compute. reflexivity. Qed.

Lemma fallback_body_no_newline s :
  Forall (fun x => x <> NL)
         (replace (lit "# ") (lit "<h1>") (replace [NL] (lit "<br>") s)).
Proof.
  apply Forall_replace; [apply h1_no_newline|].
  apply replace_char_gone, br_no_newline.
Qed.

Lemma fallback_body_pair_free s :
  pair_free HASH SPACE (replace (lit "# ") (lit "<h1>") s) = true.
Proof.
  rewrite lit_hash_space.
  apply (replace_pair_gone HASH SPACE (lit "<h1>") (length s) s);
    try done; by vm_compute.
Qed.

Lemma markdown_to_html_fallback_eq E markdown_content :
  markdown_markdown E = None ->
  Mineru._markdown_to_html E markdown_content
  = Mineru.plain_html_head
    ++ replace (lit "# ") (lit "<h1>")
               (replace [NL] (lit "<br>") markdown_content)
    ++ Mineru.plain_html_tail.
Proof.
  intros Hmd. unfold Mineru._markdown_to_html. rewrite Hmd.
  set (body := replace (lit "# ") (lit "<h1>")
                       (replace [NL] (lit "<br>") markdown_content)).
  assert (Forall (fun x => x <> NL) body) as Hnl
    by apply fallback_body_no_newline.
  assert (pair_free HASH SPACE body = true) as Hpf
    by apply fallback_body_pair_free.
  assert (lit "## " = [HASH] ++ HASH :: SPACE :: []) as H2
    by (vm_compute; reflexivity).
  assert (lit "### " = [HASH; HASH] ++ HASH :: SPACE :: []) as H3
    by (vm_compute; reflexivity).
  rewrite (replace_char_fixed NL _ body) by done.
  rewrite (replace_fixed (lit "## ") _ body)
    by (intros k; rewrite H2; by apply pair_free_no_start).
  rewrite (replace_char_fixed NL _ body) by done.
  rewrite (replace_fixed (lit "### ") _ body)
    by (intros k; rewrite H3; by apply pair_free_no_start).
  by rewrite (replace_char_fixed NL _ body) by done.
Qed.

(** ** [_calculate_stats] *)

Lemma stats_tables_zero (outputs : gmap string pystr) :
  tables (Mineru._calculate_stats outputs) = O
  <-> occurrences PIPE (default [] (outputs !! "markdown_content"%string))
      = O.
Proof.
  unfold Mineru._calculate_stats. cbn [tables].
  rewrite count_char.
  destruct (occurrences PIPE _) as [|n]; [done|].
  change (0 <? S n)%nat with true. cbv iota.
  split; [|done]. by destruct (count _ _).
Qed.

(** ** More steps of a run *)

Lemma bind_write_file E p c {B} (k : unit -> M B) w :
  open_error E p = None ->
  bind (write_file E p c) k w = k tt (wrote p c w).
Proof. intros H. unfold bind, write_file. by rewrite H. Qed.

Lemma bind_write_file_inv E p c {B} (k : unit -> M B) w b w' :
  bind (write_file E p c) k w = (Ok b, w') ->
  open_error E p = None /\ k tt (wrote p c w) = (Ok b, w').
Proof. unfold bind, write_file. by destruct (open_error E p). Qed.

Lemma bind_makedirs E p {B} (k : unit -> M B) w :
  makedirs_error E p = None ->
  bind (os_makedirs E p) k w = k tt (made p w).
Proof. intros H. unfold bind, os_makedirs. by rewrite H. Qed.

Lemma bind_makedirs_raise E p e {B} (k : unit -> M B) w :
  makedirs_error E p = Some e ->
  bind (os_makedirs E p) k w = (Raise e, w).
Proof. intros H. unfold bind, os_makedirs. by rewrite H. Qed.

Lemma bind_makedirs_inv E p {B} (k : unit -> M B) w b w' :
  bind (os_makedirs E p) k w = (Ok b, w') ->
  makedirs_error E p = None /\ k tt (made p w) = (Ok b, w').
Proof. unfold bind, os_makedirs. by destruct (makedirs_error E p). Qed.

(** ** Paths of the output files *)

Lemma path_join_shape a b b' :
  starts_with [SLASH] b = starts_with [SLASH] b' ->
  path_join a b = b /\ path_join a b' = b'
  \/ exists pre, path_join a b = pre ++ b /\ path_join a b' = pre ++ b'.
Proof.
  intros H. unfold path_join. rewrite <- H.
  destruct (starts_with [SLASH] b); [by left|].
  destruct a as [|x a]; [by left|]. right.
  destruct (starts_with [SLASH] (rev (x :: a))).
  - by exists (x :: a).
  - exists ((x :: a) ++ [SLASH]). by rewrite <- !app_assoc.
Qed.

Lemma starts_with_suffixed n x y :
  starts_with [SLASH] x = false -> starts_with [SLASH] y = false ->
  starts_with [SLASH] (n ++ x) = starts_with [SLASH] (n ++ y).
Proof.
  intros Hx Hy. destruct n as [|c n]; [by rewrite !app_nil_l, Hx, Hy|done].
Qed.

(** Two files of one stem with different extensions have different
    paths. *)
Lemma path_join_ext_ne o n x y :
  starts_with [SLASH] x = false -> starts_with [SLASH] y = false ->
  x <> y ->
  path_join o (n ++ x) <> path_join o (n ++ y).
Proof.
  intros Hx Hy Hne Heq.
  destruct (path_join_shape o (n ++ x) (n ++ y)) as [[H1 H2]|(pre & H1 & H2)];
    [by apply starts_with_suffixed|..]; rewrite H1, H2 in Heq.
  - by apply app_inv_head in Heq.
  - by apply app_inv_head, app_inv_head in Heq.
Qed.

(** ** The files the facade writes *)

Lemma ext_not_absolute :
  starts_with [SLASH] (lit ".md") = false
  /\ starts_with [SLASH] (lit ".html") = false
  /\ starts_with [SLASH] (lit ".txt") = false
  /\ starts_with [SLASH] (lit ".json") = false.
Proof. vm_compute. done. Qed.

Lemma ext_distinct :
  lit ".md" <> lit ".html" /\ lit ".md" <> lit ".txt"
  /\ lit ".md" <> lit ".json" /\ lit ".html" <> lit ".txt"
  /\ lit ".html" <> lit ".json" /\ lit ".txt" <> lit ".json".
Proof. vm_compute. repeat split; discriminate. Qed.

Ltac ext_ne :=
  let H := fresh in
  pose proof ext_not_absolute as H; pose proof ext_distinct;
  apply path_join_ext_ne; solve [tauto | apply not_eq_sym; tauto].

Lemma demo_world_inv E pdf_path output_dir w r w' :
  Mineru._create_demo_result E pdf_path output_dir (Some update_progress) w
  = (Ok r, w') ->
  r = demo_result E (path_stem pdf_path) output_dir
  /\ files w'
     = <[path_join output_dir (path_stem pdf_path ++ lit ".json") :=
           Text (json_dumps E (Mineru.demo_json E (path_stem pdf_path)))]>
       (<[path_join output_dir (path_stem pdf_path ++ lit ".txt") :=
            Text (Mineru._markdown_to_text
                    (Mineru.demo_markdown (path_stem pdf_path)))]>
        (<[path_join output_dir (path_stem pdf_path ++ lit ".html") :=
             Text (Mineru._markdown_to_html E
                     (Mineru.demo_markdown (path_stem pdf_path)))]>
         (<[path_join output_dir (path_stem pdf_path ++ lit ".md") :=
              Text (Mineru.demo_markdown (path_stem pdf_path))]>
          (files w)))).
Proof.
  intros H. split; [by eapply demo_result_inv|].
  unfold Mineru._create_demo_result in H.
  apply try_except_inv in H as [H|(e & w1 & _ & H)]; [|done].
  cbv zeta in H. rewrite !bind_notify in H.
  apply bind_write_file_inv in H as [_ H].
  apply bind_write_file_inv in H as [_ H].
  apply bind_write_file_inv in H as [_ H].
  apply bind_write_file_inv in H as [_ H].
  rewrite bind_notify in H. by injection H as _ <-.
Qed.

Lemma demo_stored E pdf_path output_dir w r w' :
  Mineru._create_demo_result E pdf_path output_dir (Some update_progress) w
  = (Ok r, w') ->
  stored_output "markdown" r w' /\ stored_output "html" r w'
  /\ stored_output "text" r w' /\ stored_output "json" r w'.
Proof.
  intros [-> Hf]%demo_world_inv. unfold stored_output. rewrite Hf.
  unfold pystr in *.
  repeat split; eexists _, _;
    (split; [reflexivity|]; split; [reflexivity|]).
  - rewrite !lookup_insert_ne by ext_ne. apply lookup_insert_eq.
  - rewrite !lookup_insert_ne by ext_ne. apply lookup_insert_eq.
  - rewrite !lookup_insert_ne by ext_ne. apply lookup_insert_eq.
  - apply lookup_insert_eq.
Qed.

(** ** [_process_mineru_output] *)

Lemma scan_outputs_none paths md js :
  Forall (fun p => Mineru.ends_with (lit ".md") p = false
                   /\ Mineru.ends_with (lit ".json") p = false) paths ->
  Mineru.scan_outputs paths md js = (md, js).
Proof.
  induction 1 as [|p paths [H1 H2] _ IH]; simpl; [done|].
  by rewrite H1, H2.
Qed.

Lemma os_walk_files E output_dir w1 w2 :
  files w1 = files w2 ->
  Mineru.os_walk E output_dir w1 = Mineru.os_walk E output_dir w2.
Proof. unfold Mineru.os_walk. by intros ->. Qed.

(** When the walk finds neither a Markdown nor a JSON file, the
    placeholders are used and the two renditions are written. *)
Lemma mineru_output_nothing E output_dir pdf_path w :
  Mineru.scan_outputs (Mineru.os_walk E output_dir w) None None
  = (None, None) ->
  (forall p, open_error E p = None) ->
  Mineru._process_mineru_output E output_dir pdf_path w
  = (Ok (<["text"%string :=
             path_join output_dir (path_stem pdf_path ++ lit ".txt")]>
         (<["text_content"%string :=
              Mineru._markdown_to_text markdown_placeholder]>
          (<["html"%string :=
               path_join output_dir (path_stem pdf_path ++ lit ".html")]>
           (<["html_content"%string :=
                Mineru._markdown_to_html E markdown_placeholder]>
            (<["json_content"%string := json_placeholder]>
             (<["markdown_content"%string := markdown_placeholder]>
                ∅)))))),
     wrote (path_join output_dir (path_stem pdf_path ++ lit ".txt"))
           (Text (Mineru._markdown_to_text markdown_placeholder))
           (wrote (path_join output_dir (path_stem pdf_path ++ lit ".html"))
                  (Text (Mineru._markdown_to_html E markdown_placeholder))
                  w)).
Proof.
  intros Hscan Hopen. unfold Mineru._process_mineru_output.
  unfold bind at 1. unfold get_world at 1. rewrite Hscan.
  cbv beta iota zeta. rewrite !bind_ret. cbv beta iota zeta.
  assert (forall (o : gmap string pystr) md js,
            default [] (<["json_content"%string := js]>
                          (<["markdown_content"%string := md]> o)
                        !! "markdown_content"%string) = md) as Hmd.
  { intros o md js. rewrite lookup_insert_ne by done.
    by rewrite lookup_insert_eq. }
  fold markdown_placeholder. fold json_placeholder.
  rewrite Hmd. rewrite bind_write_file by done.
  assert (forall (o : gmap string pystr) md js h hf,
            default [] (<["html"%string := hf]>
                          (<["html_content"%string := h]>
                             (<["json_content"%string := js]>
                                (<["markdown_content"%string := md]> o)))
                        !! "markdown_content"%string) = md) as Hmd'.
  { intros o md js h hf. rewrite !lookup_insert_ne by done.
    by rewrite lookup_insert_eq. }
  rewrite Hmd'. by rewrite bind_write_file by done.
Qed.

Lemma placeholder_text :
  Mineru._markdown_to_text markdown_placeholder
  = lit "处理结果" ++ [NL; NL] ++ lit "未能生成 Markdown 内容。".
Proof. vm_compute. reflexivity. Qed.

Lemma read_text_bind_inv f {B} (k : pystr -> M B) w b w' :
  bind (Mineru.read_text f) k w = (Ok b, w') ->
  exists t, files w !! f = Some (Text t) /\ k t w = (Ok b, w').
Proof.
  unfold bind, Mineru.read_text.
  destruct (files w !! f) as [[d n|t]|]; try done. eauto.
Qed.

(** Reading a run of [_process_mineru_output] backwards: the two files
    it writes hold the renditions it returns. *)
Lemma mineru_output_world_inv E output_dir pdf_path w o w' :
  Mineru._process_mineru_output E output_dir pdf_path w = (Ok o, w') ->
  exists md,
    o !! "markdown_content"%string = Some md
    /\ o !! "html_content"%string = Some (Mineru._markdown_to_html E md)
    /\ o !! "text_content"%string = Some (Mineru._markdown_to_text md)
    /\ o !! "html"%string
       = Some (path_join output_dir (path_stem pdf_path ++ lit ".html"))
    /\ o !! "text"%string
       = Some (path_join output_dir (path_stem pdf_path ++ lit ".txt"))
    /\ files w'
       = <[path_join output_dir (path_stem pdf_path ++ lit ".txt") :=
             Text (Mineru._markdown_to_text md)]>
         (<[path_join output_dir (path_stem pdf_path ++ lit ".html") :=
              Text (Mineru._markdown_to_html E md)]> (files w)).
Proof.
  intros H. unfold Mineru._process_mineru_output in H.
  apply bind_inv in H as (w0 & w1 & [-> ->]%get_world_inv & H).
  cbv beta in H.
  destruct (Mineru.scan_outputs _ _ _) as [markdown_file json_file].
  apply bind_inv in H as (o1 & w2 & H1 & H). cbv beta in H.
  apply bind_inv in H as (o2 & w3 & H2 & H). cbv beta in H.
  assert (w2 = w /\ exists md, o1 !! "markdown_content"%string = Some md)
    as [-> [md Hmd]].
  { destruct markdown_file as [f|];
      [destruct (truthy f && os_path_exists f w);
       [apply read_text_bind_inv in H1 as (t & _ & H1)|]|];
      run_inv; (split; [done|]); eexists;
      first [by rewrite lookup_insert_eq
            |rewrite lookup_insert_ne by done; by rewrite lookup_insert_eq]. }
  assert (w3 = w /\ o2 !! "markdown_content"%string = Some md)
    as (-> & Hmd2).
  { destruct json_file as [f|];
      [destruct (truthy f && os_path_exists f w);
       [apply read_text_bind_inv in H2 as (t & _ & H2);
        destruct (json_loads E t)|]|];
      run_inv; (split; [done|]);
      by rewrite ?lookup_insert_ne by done. }
  cbv zeta in H.
  apply bind_write_file_inv in H as [_ H].
  apply bind_write_file_inv in H as [_ H].
  apply ret_inv in H as [<- <-].
  exists md. unfold pystr in *.
  rewrite !lookup_insert_ne by done. rewrite Hmd2. cbn [from_option id].
  repeat split;
    repeat first [by rewrite lookup_insert_eq
                 |rewrite lookup_insert_ne by done].
Qed.

(** ** Runs of the advanced branch *)

Lemma stats_placeholder (o : gmap string pystr) :
  o !! "markdown_content"%string = Some markdown_placeholder ->
  Mineru._calculate_stats o
  = {| total_pages := 1; text_blocks := 2; tables := 0; formulas := 0 |}.
Proof.
  intros H. unfold Mineru._calculate_stats. unfold pystr in *. rewrite H.
  vm_compute. reflexivity.
Qed.

Lemma bind_do_parse E pdf_path output_dir method lang produced
    {B} (k : unit -> M B) w :
  do_parse E pdf_path output_dir method lang (files w) = Ok produced ->
  bind (Mineru.run_do_parse E pdf_path output_dir method lang) k w
  = k tt {| files := foldr (fun kv m => <[kv.1 := Text kv.2]> m)
                           (files w) produced;
            dirs := dirs w; progress := progress w; ui := ui w;
            cleanups := cleanups w |}.
Proof. intros H. unfold bind, Mineru.run_do_parse. by rewrite H. Qed.

Lemma bind_do_parse_raise E pdf_path output_dir method lang e
    {B} (k : unit -> M B) w :
  do_parse E pdf_path output_dir method lang (files w) = Raise e ->
  bind (Mineru.run_do_parse E pdf_path output_dir method lang) k w
  = (Raise e, w).
Proof. intros H. unfold bind, Mineru.run_do_parse. by rewrite H. Qed.

Lemma made_add_progress p evs w :
  made p (add_progress evs w) = add_progress evs (made p w).
Proof. reflexivity. Qed.

(** The engine raises: the exception is wrapped twice and becomes a
    failure. *)
Lemma process_pdf_parse_error E self pdf_path output_dir language
    parse_method formula_enable table_enable w e :
  Mineru.mineru_available self = true ->
  makedirs_error E output_dir = None ->
  (forall lang,
     do_parse E pdf_path output_dir parse_method lang (files w) = Raise e) ->
  Mineru.process_pdf E self pdf_path output_dir language parse_method
                     formula_enable table_enable (Some update_progress) w
  = (Ok (Mineru.failure
           (lit "处理 PDF 时出错: " ++ lit "MinerU 处理失败: " ++ e)
           (Some (format_exc E (lit "MinerU 处理失败: " ++ e)))),
     add_progress
       [(1 # 10, lit "初始化处理器...");
        (2 # 10, lit "配置 MinerU 参数...");
        (3 # 10, lit "开始解析 PDF...");
        (1%Q, lit "处理失败: " ++ lit "MinerU 处理失败: " ++ e)]
       (made output_dir w)).
Proof.
  intros Hav Hmk Hparse. unfold Mineru.process_pdf, try_except.
  rewrite bind_notify, bind_makedirs by done. rewrite Hav. cbn [negb].
  cbv iota. unfold Mineru._process_with_mineru, try_except.
  rewrite !bind_notify. cbv zeta.
  rewrite (bind_do_parse_raise _ _ _ _ _ e) by apply Hparse.
  unfold raise. rewrite bind_notify. unfold ret.
  by rewrite made_add_progress, !add_progress_app.
Qed.

(** The engine returns and leaves neither a Markdown nor a JSON file. *)
Lemma process_pdf_no_output E self pdf_path output_dir language
    parse_method formula_enable table_enable w produced :
  Mineru.mineru_available self = true ->
  makedirs_error E output_dir = None ->
  (forall p, open_error E p = None) ->
  (forall lang,
     do_parse E pdf_path output_dir parse_method lang (files w)
     = Ok produced) ->
  Forall (fun p => Mineru.ends_with (lit ".md") p = false
                   /\ Mineru.ends_with (lit ".json") p = false)
         (Mineru.os_walk E output_dir (parsed produced w)) ->
  exists o w',
    Mineru.process_pdf E self pdf_path output_dir language parse_method
                       formula_enable table_enable (Some update_progress) w
    = (Ok {| success := true; outputs := Some o;
             stats := Some (Mineru._calculate_stats o);
             method := Some (lit "mineru");
             error := None; traceback := None; file_name := None;
             has_success := true |}, w')
    /\ o !! "markdown_content"%string = Some markdown_placeholder
    /\ o !! "json_content"%string = Some json_placeholder
    /\ o !! "text_content"%string
       = Some (Mineru._markdown_to_text markdown_placeholder)
    /\ o !! "markdown"%string = None
    /\ o !! "json"%string = None.
Proof.
  intros Hav Hmk Hopen Hparse Hwalk.
  unfold Mineru.process_pdf, try_except.
  rewrite bind_notify, bind_makedirs by done. rewrite Hav. cbn [negb].
  cbv iota. unfold Mineru._process_with_mineru, try_except.
  rewrite !bind_notify. cbv zeta.
  rewrite (bind_do_parse _ _ _ _ _ produced) by apply Hparse.
  rewrite bind_notify. unfold bind at 1.
  rewrite mineru_output_nothing;
    [|apply scan_outputs_none;
      by rewrite (os_walk_files E output_dir _ (parsed produced w))
     |done].
  rewrite bind_notify. unfold ret.
  eexists _, _. split; [reflexivity|]. done.
Qed.

Lemma advanced_stored E pdf_path output_dir l pm f t w r w' :
  Mineru._process_with_mineru E pdf_path output_dir l pm f t
                              (Some update_progress) w = (Ok r, w') ->
  stored_output "html" r w' /\ stored_output "text" r w'.
Proof.
  intros H. unfold Mineru._process_with_mineru in H.
  apply try_except_inv in H as [H|(e & w1 & _ & H)]; [|done].
  rewrite !bind_notify in H. cbv zeta in H.
  apply bind_inv in H as ([] & w2 & _ & H). cbv beta in H.
  rewrite bind_notify in H.
  apply bind_inv in H as (o & w3 & Ho & H). cbv beta in H.
  rewrite bind_notify in H. apply ret_inv in H as [<- <-].
  apply mineru_output_world_inv
    in Ho as (md & Hmd & Hhtml & Htext & Hh & Ht & Hf).
  unfold stored_output, output. cbn [outputs]. simpl files. rewrite Hf.
  unfold pystr in *. split; eexists _, _.
  - split; [exact Hh|]. split; [exact Hhtml|].
    rewrite lookup_insert_ne by ext_ne. apply lookup_insert_eq.
  - split; [exact Ht|]. split; [exact Htext|]. apply lookup_insert_eq.
Qed.

Lemma stored_output_progress kind r evs w :
  stored_output kind r w -> stored_output kind r (add_progress evs w).
Proof. done. Qed.

(** ** Answers of the endpoint with status 200 *)

Lemma call_api_answer E pdf_path config w f api_url body :
  MINERU_API_URL E = Some api_url ->
  truthy api_url = true ->
  files w !! pdf_path = Some f ->
  requests_post E (api_url ++ lit "/process") f config = Response 200 body ->
  Vercel.call_mineru_api E pdf_path config (Some update_progress) w
  = match body with
    | BadJson =>
      (Ok None, add_progress [(2 # 10, lit "连接 MinerU API 服务...")] w)
    | _ =>
      (Ok (body_value body),
       add_progress [(2 # 10, lit "连接 MinerU API 服务...");
                     (1%Q, lit "API 处理完成！")] w)
    end.
Proof.
  intros Hurl Hu Hf Hpost. unfold Vercel.call_mineru_api, try_except.
  rewrite Hurl, Hu. cbn [negb]; cbv iota.
  rewrite bind_notify. unfold bind at 1. unfold Vercel.open_rb.
  simpl files. rewrite Hf, Hpost.
  change (200 =? 200)%Z with true. cbv iota.
  destruct body as [| |r| |t]; [done|..];
    rewrite bind_notify; unfold ret; by rewrite add_progress_app.
Qed.

Lemma app_basic_files E pdf_path output_dir config w :
  files (App.process_pdf_basic E pdf_path output_dir config
                               (Some update_progress) w).2 = files w
  /\ ui (App.process_pdf_basic E pdf_path output_dir config
                               (Some update_progress) w).2 = ui w
  /\ dirs (App.process_pdf_basic E pdf_path output_dir config
                                 (Some update_progress) w).2 = dirs w
  /\ cleanups (App.process_pdf_basic E pdf_path output_dir config
                                     (Some update_progress) w).2
     = cleanups w.
Proof.
  rewrite app_basic_run.
  by destruct (opened E (files w) pdf_path) as [[pages sz]|e].
Qed.

(** ** A workspace that cannot be set up *)

Lemma create_temp_dirs_raise E w e :
  makedirs_error E (path_join (mkdtemp E) (lit "input")) = Some e
  \/ makedirs_error E (path_join (mkdtemp E) (lit "input")) = None
     /\ makedirs_error E (path_join (mkdtemp E) (lit "output")) = Some e ->
  exists w',
    create_temp_dirs E w = (Raise e, w')
    /\ mkdtemp E ∈ dirs w'
    /\ files w' = files w /\ ui w' = ui w /\ cleanups w' = cleanups w.
Proof.
  unfold create_temp_dirs, bind, os_makedirs.
  intros [->|[-> ->]]; eexists; (split; [reflexivity|]); simpl;
    (split; [set_solver|done]).
Qed.

(** ** The result page *)

Lemma bind_result_outputs {B} r o (k : gmap string pystr -> M B) w :
  outputs r = Some o -> bind (result_outputs r) k w = k o w.
Proof. intros H. unfold result_outputs. by rewrite H. Qed.

Lemma bind_result_outputs_none {B} r (k : gmap string pystr -> M B) w :
  outputs r = None ->
  bind (result_outputs r) k w = (Raise (lit "'outputs'"), w).
Proof. intros H. unfold result_outputs. by rewrite H. Qed.

Lemma result_outputs_inv r o w w' :
  result_outputs r w = (Ok o, w') -> outputs r = Some o /\ w' = w.
Proof.
  unfold result_outputs. destruct (outputs r); [|done].
  by intros [= -> ->].
Qed.

Lemma tab_entry_run enabled title format_type key r tabs o w :
  outputs r = Some o ->
  tab_entry enabled title format_type key r tabs w
  = (Ok (if enabled
         then match o !! key with
              | Some content => tabs ++ [(title, format_type, content)]
              | None => tabs
              end
         else tabs), w).
Proof.
  intros H. unfold tab_entry. destruct enabled; [|done].
  rewrite (bind_result_outputs r o) by done. by destruct (o !! key).
Qed.

Lemma tab_entry_none title format_type key r tabs w :
  outputs r = None ->
  tab_entry true title format_type key r tabs w
  = (Raise (lit "'outputs'"), w).
Proof. intros H. unfold tab_entry. by rewrite bind_result_outputs_none. Qed.

Lemma bind_tab_entry {B} enabled title format_type key r tabs o
    (k : list (pystr * string * pystr) -> M B) w :
  outputs r = Some o ->
  bind (tab_entry enabled title format_type key r tabs) k w
  = k (if enabled
       then match o !! key with
            | Some content => tabs ++ [(title, format_type, content)]
            | None => tabs
            end
       else tabs) w.
Proof.
  intros H. unfold bind at 1. by rewrite (tab_entry_run _ _ _ _ _ _ o).
Qed.

Lemma bind_tab_entry_off {B} title format_type key r tabs
    (k : list (pystr * string * pystr) -> M B) w :
  bind (tab_entry false title format_type key r tabs) k w = k tabs w.
Proof. reflexivity. Qed.

Lemma bind_tab_entry_none {B} title format_type key r tabs
    (k : list (pystr * string * pystr) -> M B) w :
  outputs r = None ->
  bind (tab_entry true title format_type key r tabs) k w
  = (Raise (lit "'outputs'"), w).
Proof. intros H. unfold bind at 1. by rewrite tab_entry_none. Qed.

Lemma offers_app_render stem r tabs :
  Forall (offers stem r) (map AppPage.render_tab tabs).
Proof.
  apply Forall_map, Forall_forall. intros [[title ft] c] _. simpl.
  by repeat case_bool_decide.
Qed.

Lemma offers_vercel_render stem r tabs :
  Forall (offers stem r) (map VercelPage.render_tab tabs).
Proof.
  apply Forall_map, Forall_forall. intros [[title ft] c] _. simpl.
  by repeat case_bool_decide.
Qed.

Lemma offers_cards stem r : Forall (offers stem r) (metric_cards r).
Proof.
  unfold metric_cards. destruct (stats r); by repeat constructor.
Qed.

Lemma app_preview_run output_formats r o w :
  outputs r = Some o ->
  exists tabs,
    AppPage.preview_tabs output_formats r w
    = (Ok (map AppPage.render_tab tabs), w).
Proof.
  intros H. unfold AppPage.preview_tabs.
  rewrite !(bind_tab_entry _ _ _ _ r _ o) by done. by eexists.
Qed.

Lemma vercel_preview_run output_formats r o w :
  outputs r = Some o ->
  exists tabs,
    VercelPage.preview_tabs output_formats r w
    = (Ok (map VercelPage.render_tab tabs), w).
Proof.
  intros H. unfold VercelPage.preview_tabs.
  rewrite !(bind_tab_entry _ _ _ _ r _ o) by done. by eexists.
Qed.

Lemma app_preview_inv output_formats r w ws w' :
  AppPage.preview_tabs output_formats r w = (Ok ws, w') ->
  w' = w /\ exists tabs, ws = map AppPage.render_tab tabs.
Proof.
  destruct (outputs r) as [o|] eqn:Ho.
  - destruct (app_preview_run output_formats r o w Ho) as [tabs ->].
    intros [= <- <-]. eauto.
  - unfold AppPage.preview_tabs.
    destruct output_formats as [[] [] [] []];
      cbn [fmt_markdown fmt_html fmt_text fmt_json];
      rewrite ?bind_tab_entry_off, ?bind_tab_entry_none by done;
      first [done|intros [= <- <-]; split; [done|by exists []]].
Qed.

Lemma vercel_preview_inv output_formats r w ws w' :
  VercelPage.preview_tabs output_formats r w = (Ok ws, w') ->
  w' = w /\ exists tabs, ws = map VercelPage.render_tab tabs.
Proof.
  destruct (outputs r) as [o|] eqn:Ho.
  - destruct (vercel_preview_run output_formats r o w Ho) as [tabs ->].
    intros [= <- <-]. eauto.
  - unfold VercelPage.preview_tabs.
    destruct output_formats as [[] [] [] []];
      cbn [fmt_markdown fmt_html fmt_text fmt_json];
      rewrite ?bind_tab_entry_off, ?bind_tab_entry_none by done;
      first [done|intros [= <- <-]; split; [done|by exists []]].
Qed.

(** The download loop, for a result with its outputs. *)
Lemma download_loop_run fs stem r o w :
  outputs r = Some o ->
  Forall (fun k => is_Some (file_exts !! k)) fs ->
  exists bs,
    download_loop fs stem r w = (Ok bs, w)
    /\ Forall (offers stem r) bs
    /\ forall k data,
         k ∈ fs ->
         o !! (k +:+ "_content")%string = Some data ->
         exists file_ext,
           file_exts !! k = Some file_ext
           /\ DownloadButton (lit "📄 " ++ upper (lit k)) data
                             (stem ++ lit "." ++ file_ext)
                             (lit "text/" ++ file_ext) ∈ bs.
Proof.
  intros Ho. induction 1 as [|k fs [ext Hext] _ (bs & IH & Hs & Hc)].
  - exists []. split; [done|]. split; [done|]. intros k data Hk.
    by apply elem_of_nil in Hk.
  - cbn [download_loop]. rewrite (bind_result_outputs r o) by done.
    destruct (o !! (k +:+ "_content")%string) as [content|] eqn:Hk.
    + unfold pystr in *. rewrite Hext, bind_ret. unfold bind at 1. rewrite IH. eexists.
      split; [reflexivity|]. split.
      * constructor; [|done]. simpl. by exists k, ext, o.
      * intros k' data [->|Hin]%elem_of_cons Hd.
        -- exists ext. split; [done|]. rewrite Hk in Hd.
           injection Hd as ->. apply elem_of_cons. by left.
        -- destruct (Hc k' data Hin Hd) as (e' & ? & ?). exists e'.
           split; [done|]. apply elem_of_cons. by right.
    + rewrite bind_ret. unfold bind at 1. rewrite IH. exists bs.
      split; [reflexivity|]. split; [done|].
      intros k' data [->|Hin]%elem_of_cons Hd; [congruence|].
      by apply Hc.
Qed.

Lemma download_loop_none k fs stem r w :
  outputs r = None ->
  download_loop (k :: fs) stem r w = (Raise (lit "'outputs'"), w).
Proof.
  intros H. cbn [download_loop]. by rewrite bind_result_outputs_none.
Qed.

Lemma enabled_formats_known output_formats :
  Forall (fun k => is_Some (file_exts !! k))
         (map fst (List.filter snd (format_items output_formats))).
Proof.
  destruct output_formats as [[] [] [] []]; cbn;
    repeat constructor; by eexists.
Qed.

Lemma enabled_formats_elem output_formats k :
  (k, true) ∈ format_items output_formats ->
  k ∈ map fst (List.filter snd (format_items output_formats)).
Proof.
  intros H. apply (list_elem_of_fmap_2 fst _ (k, true)).
  apply list_elem_of_In, filter_In. split; [by apply list_elem_of_In|done].
Qed.

Lemma download_buttons_run output_formats f others r o w :
  outputs r = Some o ->
  exists bs,
    download_buttons output_formats (f :: others) r w = (Ok bs, w)
    /\ Forall (offers (path_stem (name f)) r) bs
    /\ forall k data,
         (k, true) ∈ format_items output_formats ->
         o !! (k +:+ "_content")%string = Some data ->
         exists file_ext,
           file_exts !! k = Some file_ext
           /\ DownloadButton (lit "📄 " ++ upper (lit k)) data
                             (path_stem (name f) ++ lit "." ++ file_ext)
                             (lit "text/" ++ file_ext) ∈ bs.
Proof.
  intros Ho. unfold download_buttons.
  pose proof (enabled_formats_known output_formats) as Hk.
  pose proof (enabled_formats_elem output_formats) as He.
  destruct (map fst (List.filter snd (format_items output_formats)))
    as [|k0 fs] eqn:Hfs.
  - exists []. split; [done|]. split; [done|]. intros k data Hin.
    apply He in Hin. by apply elem_of_nil in Hin.
  - rewrite bind_ret.
    destruct (download_loop_run (k0 :: fs) (path_stem (name f)) r o w Ho Hk)
      as (bs & Hrun & Hs & Hc).
    exists bs. split; [done|]. split; [done|]. intros k data Hin.
    by apply Hc, He.
Qed.


Lemma download_buttons_inv output_formats f others r w bs w' :
  download_buttons output_formats (f :: others) r w = (Ok bs, w') ->
  w' = w /\ Forall (offers (path_stem (name f)) r) bs.
Proof.
  destruct (outputs r) as [o|] eqn:Ho.
  - destruct (download_buttons_run output_formats f others r o w Ho)
      as (bs' & -> & ? & _). by intros [= <- <-].
  - unfold download_buttons.
    destruct (map fst (List.filter snd (format_items output_formats))).
    + by intros [= <- <-].
    + rewrite bind_ret. by rewrite download_loop_none.
Qed.



(** ** Every success carries the four contents *)

Lemma mineru_output_complete E output_dir pdf_path w o w' :
  Mineru._process_mineru_output E output_dir pdf_path w = (Ok o, w') ->
  Forall (fun k => is_Some (o !! k)) content_keys.
Proof.
  intros H. unfold Mineru._process_mineru_output in H.
  apply bind_inv in H as (w0 & w1 & [-> ->]%get_world_inv & H).
  cbv beta in H.
  destruct (Mineru.scan_outputs _ _ _) as [markdown_file json_file].
  apply bind_inv in H as (o1 & w2 & H1 & H). cbv beta in H.
  apply bind_inv in H as (o2 & w3 & H2 & H). cbv beta in H.
  assert (is_Some (o1 !! "markdown_content"%string)) as Hmd.
  { destruct markdown_file as [f|];
      [destruct (truthy f && os_path_exists f w)|]; run_inv;
      rewrite ?lookup_insert_ne by done; by rewrite lookup_insert_eq. }
  assert (is_Some (o2 !! "markdown_content"%string)
          /\ is_Some (o2 !! "json_content"%string)) as [Hmd2 Hjs].
  { destruct json_file as [f|];
      [destruct (truthy f && os_path_exists f w)|]; run_inv;
      [destruct (json_loads E _); run_inv| |];
      rewrite ?lookup_insert_ne by done; rewrite ?lookup_insert_eq;
      by split. }
  run_inv. unfold content_keys, pystr in *.
  repeat constructor;
    rewrite ?lookup_insert_ne by done; by rewrite ?lookup_insert_eq.
Qed.

Lemma complete_demo E pdf_name output_dir :
  complete (demo_result E pdf_name output_dir).
Proof.
  eexists _, _. split; [reflexivity|]. split; [reflexivity|].
  unfold content_keys.
  repeat constructor;
    rewrite ?lookup_insert_ne by done; by rewrite ?lookup_insert_eq.
Qed.

Lemma complete_vercel_basic E pdf_path pages :
  complete (vercel_basic_success E pdf_path pages).
Proof.
  eexists _, _. split; [reflexivity|]. split; [reflexivity|].
  unfold content_keys.
  repeat constructor;
    rewrite ?lookup_insert_ne by done; by rewrite ?lookup_insert_eq.
Qed.

Lemma complete_app_basic E pdf_path pages sz :
  complete (app_basic_success E pdf_path pages sz).
Proof.
  eexists _, _. split; [reflexivity|]. split; [reflexivity|].
  unfold content_keys.
  repeat constructor;
    rewrite ?lookup_insert_ne by done; by rewrite ?lookup_insert_eq.
Qed.

Lemma complete_mineru E self pdf_path output_dir language parse_method
    formula_enable table_enable cb w r w' :
  Mineru.process_pdf E self pdf_path output_dir language parse_method
                     formula_enable table_enable cb w = (Ok r, w') ->
  success r = true -> complete r.
Proof.
  intros H Hs. unfold Mineru.process_pdf in H.
  apply try_except_inv in H as [H|(e & w1 & _ & H)].
  - apply bind_inv in H as (? & ? & _ & H). cbv beta in H.
    apply bind_inv in H as (? & ? & _ & H). cbv beta in H.
    destruct (Mineru.mineru_available self); simpl in H.
    + unfold Mineru._process_with_mineru in H. run_inv.
      match goal with
      | Ho : Mineru._process_mineru_output _ _ _ _ = _ |- _ =>
        apply mineru_output_complete in Ho
      end.
      by eexists _, _.
    + apply demo_result_inv in H. subst. apply complete_demo.
  - run_inv. done.
Qed.

Lemma complete_app_file E pdf_path output_dir config w r w' :
  App.process_pdf_file E pdf_path output_dir config (Some update_progress) w
  = (Ok r, w') ->
  success r = true -> complete r.
Proof.
  intros H Hs. unfold App.process_pdf_file in H.
  apply try_except_inv in H as [H|(e & w1 & _ & H)].
  - destruct (App.MINERU_AVAILABLE E).
    + by eapply complete_mineru.
    + apply app_basic_inv in H as (pages & sz & _ & -> & _).
      apply complete_app_basic.
  - apply (handler_run e w1 r w'
             (fun e => Mineru.failure (lit "处理 PDF 时出错: " ++ e)
                                      (Some (format_exc E e)))) in H
      as [-> _].
    done.
Qed.

Lemma complete_vercel_file E pdf_path output_dir config w r w' :
  Vercel.process_pdf_basic E pdf_path output_dir config
                           (Some update_progress) w = (Ok r, w') ->
  success r = true -> complete r.
Proof.
  intros H Hs.
  apply vercel_basic_inv in H as (pages & sz & _ & -> & _); [|done].
  apply complete_vercel_basic.
Qed.

(** ** Only [cleanup_temp_dirs] deletes a file *)

Ltac kf_prim := intros w p Hp; exact Hp.

Lemma kf_ret {A} (a : A) : keeps_files (ret a).
Proof. kf_prim. Qed.

Lemma kf_raise {A} e : keeps_files (@raise A e).
Proof. kf_prim. Qed.

Lemma kf_bind {A B} (m : M A) (k : A -> M B) :
  keeps_files m -> (forall a, keeps_files (k a)) -> keeps_files (bind m k).
Proof.
  intros Hm Hk w p Hp. unfold bind. specialize (Hm w p Hp).
  destruct (m w) as [[a|e] w1]; simpl in *; [|done]. by apply Hk.
Qed.

Lemma kf_try_except {A} (body : M A) h :
  keeps_files body -> (forall e, keeps_files (h e)) ->
  keeps_files (try_except body h).
Proof.
  intros Hm Hk w p Hp. unfold try_except. specialize (Hm w p Hp).
  destruct (body w) as [[a|e] w1]; simpl in *; [done|]. by apply Hk.
Qed.

Lemma kf_notify q msg : keeps_files (notify (Some update_progress) q msg).
Proof. kf_prim. Qed.

Lemma kf_show e : keeps_files (show e).
Proof. kf_prim. Qed.

Lemma kf_new_progress_bar : keeps_files new_progress_bar.
Proof. kf_prim. Qed.

Lemma kf_get_world : keeps_files get_world.
Proof. kf_prim. Qed.

Lemma kf_makedirs E d : keeps_files (os_makedirs E d).
Proof.
  intros w p Hp. unfold os_makedirs. by destruct (makedirs_error E d).
Qed.

Lemma kf_write_file E q c : keeps_files (write_file E q c).
Proof.
  intros w p Hp. unfold write_file.
  destruct (open_error E q); [done|]. simpl.
  apply lookup_insert_is_Some'. by right.
Qed.

Lemma kf_import_fitz E : keeps_files (import_fitz E).
Proof. intros w p Hp. unfold import_fitz. by destruct (fitz_importable E). Qed.

Lemma kf_fitz_open q : keeps_files (fitz_open q).
Proof.
  intros w p Hp. unfold fitz_open.
  by destruct (files w !! q) as [[[msg|pages] sz|t]|].
Qed.

Lemma kf_getsize q : keeps_files (os_path_getsize q).
Proof.
  intros w p Hp. unfold os_path_getsize. by destruct (files w !! q) as [[]|].
Qed.

Lemma kf_read_text q : keeps_files (Mineru.read_text q).
Proof.
  intros w p Hp. unfold Mineru.read_text. by destruct (files w !! q) as [[]|].
Qed.

Lemma kf_open_rb q : keeps_files (Vercel.open_rb q).
Proof. intros w p Hp. unfold Vercel.open_rb. by destruct (files w !! q). Qed.

Lemma kf_run_do_parse E q o m l : keeps_files (Mineru.run_do_parse E q o m l).
Proof.
  intros w p Hp. unfold Mineru.run_do_parse.
  destruct (do_parse E q o m l _) as [produced|e]; [|done]. simpl.
  induction produced as [|kv produced IH]; [done|]. simpl.
  apply lookup_insert_is_Some'. by right.
Qed.

Lemma kf_page_loop base span total pages k md txt :
  keeps_files
    (page_loop (Some update_progress) base span total pages k md txt).
Proof. intros w p Hp. by rewrite page_loop_run. Qed.

Ltac kf_tac :=
  repeat first
    [ apply kf_ret | apply kf_raise | apply kf_notify
    | apply kf_show | apply kf_new_progress_bar
    | apply kf_get_world | apply kf_makedirs | apply kf_write_file
    | apply kf_import_fitz | apply kf_fitz_open | apply kf_getsize
    | apply kf_read_text | apply kf_open_rb | apply kf_run_do_parse
    | apply kf_page_loop
    | apply kf_bind; [|intros ?]
    | apply kf_try_except; [|intros ?]
    | match goal with
      | |- keeps_files (let '(_, _) := ?x in _) => destruct x
      | |- keeps_files (match ?x with _ => _ end) => destruct x
      | |- keeps_files (if ?x then _ else _) => destruct x
      end ].

Lemma kf_demo E p o :
  keeps_files (Mineru._create_demo_result E p o (Some update_progress)).
Proof. unfold Mineru._create_demo_result. kf_tac. Qed.

Lemma kf_mineru_output E o p :
  keeps_files (Mineru._process_mineru_output E o p).
Proof. unfold Mineru._process_mineru_output. kf_tac. Qed.

Lemma kf_with_mineru E p o l pm f t :
  keeps_files
    (Mineru._process_with_mineru E p o l pm f t (Some update_progress)).
Proof.
  unfold Mineru._process_with_mineru.
  kf_tac; try apply kf_mineru_output.
Qed.

Lemma kf_process_pdf E self p o l pm f t :
  keeps_files (Mineru.process_pdf E self p o l pm f t (Some update_progress)).
Proof.
  unfold Mineru.process_pdf.
  kf_tac; first [apply kf_demo | apply kf_with_mineru].
Qed.

Lemma kf_app_basic E p o c :
  keeps_files (App.process_pdf_basic E p o c (Some update_progress)).
Proof. unfold App.process_pdf_basic. kf_tac. Qed.

Lemma kf_vercel_basic E p o c :
  keeps_files (Vercel.process_pdf_basic E p o c (Some update_progress)).
Proof. unfold Vercel.process_pdf_basic. kf_tac. Qed.

Lemma kf_app_file E p o c :
  keeps_files (App.process_pdf_file E p o c (Some update_progress)).
Proof.
  unfold App.process_pdf_file.
  kf_tac; first [apply kf_process_pdf | apply kf_app_basic].
Qed.

Lemma kf_call_api E p c :
  keeps_files (Vercel.call_mineru_api E p c (Some update_progress)).
Proof. unfold Vercel.call_mineru_api. kf_tac. Qed.

Lemma kf_app_upload E c i o f : keeps_files (App.process_upload E c i o f).
Proof. unfold App.process_upload. kf_tac; apply kf_app_file. Qed.

Lemma kf_vercel_upload E m c i o f :
  keeps_files (Vercel.process_upload E m c i o f).
Proof.
  unfold Vercel.process_upload. kf_tac;
    first [apply kf_call_api | apply kf_vercel_basic].
Qed.

Lemma kf_app_uploads E c i o ups rs :
  keeps_files (App.process_uploads E c i o ups rs).
Proof.
  revert rs. induction ups as [|f ups IH]; intros rs; simpl;
    kf_tac; first [apply kf_app_upload | apply IH].
Qed.

Lemma kf_vercel_uploads E m c i o ups rs :
  keeps_files (Vercel.process_uploads E m c i o ups rs).
Proof.
  revert rs. induction ups as [|f ups IH]; intros rs; simpl;
    kf_tac; first [apply kf_vercel_upload | apply IH].
Qed.

Lemma kf_show_errors (rs : list Result) :
  keeps_files
    (foldr (fun r k =>
              show (UiError (lit "文件 " ++ result_file_name r
                             ++ lit " 处理失败: " ++ result_error r)) ;; k)
           (ret tt) rs).
Proof. induction rs as [|r rs IH]; simpl; kf_tac; apply IH. Qed.

Lemma kf_show_results rs : keeps_files (show_results rs).
Proof. unfold show_results. kf_tac; apply kf_show_errors. Qed.

Lemma kf_create_temp_dirs E : keeps_files (create_temp_dirs E).
Proof. unfold create_temp_dirs. kf_tac. Qed.

(** ** Where the uploads are saved *)

Lemma wrote_stored p c w : is_Some (files (wrote p c w) !! p).
Proof.
  unfold wrote. simpl. unfold pystr in *. rewrite lookup_insert_eq. by eexists.
Qed.

Lemma app_upload_saved E config input_dir output_dir f w :
  open_error E (path_join input_dir (name f)) = None ->
  is_Some (files (App.process_upload E config input_dir output_dir f w).2
           !! path_join input_dir (name f)).
Proof.
  intros Hopen. unfold App.process_upload. rewrite bind_write_file by done.
  match goal with
  | |- is_Some (files (?m ?w0).2 !! _) =>
    assert (keeps_files m) as Hk
  end.
  { cbv beta. kf_tac; apply kf_app_file. }
  apply Hk, wrote_stored.
Qed.

Lemma vercel_upload_saved E mode config input_dir output_dir f w :
  open_error E (path_join input_dir (name f)) = None ->
  is_Some (files (Vercel.process_upload E mode config input_dir output_dir
                                        f w).2
           !! path_join input_dir (name f)).
Proof.
  intros Hopen. unfold Vercel.process_upload.
  rewrite bind_write_file by done.
  match goal with
  | |- is_Some (files (?m ?w0).2 !! _) =>
    assert (keeps_files m) as Hk
  end.
  { cbv beta. kf_tac; first [apply kf_call_api | apply kf_vercel_basic]. }
  apply Hk, wrote_stored.
Qed.

Lemma app_uploads_saved E config input_dir output_dir ups rs w f :
  (forall p, open_error E p = None) ->
  (forall p, makedirs_error E p = None) ->
  f ∈ ups ->
  is_Some (files (App.process_uploads E config input_dir output_dir ups rs
                                      w).2
           !! path_join input_dir (name f)).
Proof.
  intros Hopen Hmk. revert rs w.
  induction ups as [|f0 ups IH]; intros rs w Hf.
  { by apply elem_of_nil in Hf. }
  cbn [App.process_uploads]. unfold bind.
  pose proof (app_upload_saved E config input_dir output_dir f0 w (Hopen _))
    as Hsaved.
  destruct (app_upload_named E config input_dir output_dir f0 w Hopen Hmk)
    as (r & w1 & Hrun & _).
  rewrite Hrun in *. simpl in Hsaved.
  apply elem_of_cons in Hf as [->|Hf].
  - by apply kf_app_uploads.
  - by apply IH.
Qed.

Lemma vercel_uploads_saved E mode config input_dir output_dir ups rs w f :
  (forall p, open_error E p = None) ->
  pystr_eqb mode (lit "api") = false \/ answers_objects E ->
  f ∈ ups ->
  is_Some (files (Vercel.process_uploads E mode config input_dir output_dir
                                         ups rs w).2
           !! path_join input_dir (name f)).
Proof.
  intros Hopen Hmode. revert rs w.
  induction ups as [|f0 ups IH]; intros rs w Hf.
  { by apply elem_of_nil in Hf. }
  cbn [Vercel.process_uploads]. unfold bind.
  pose proof (vercel_upload_saved E mode config input_dir output_dir f0 w
                (Hopen _)) as Hsaved.
  destruct (vercel_upload_named E mode config input_dir output_dir f0 w
              Hopen Hmode) as (r & w1 & Hrun & _).
  rewrite Hrun in *. simpl in Hsaved.
  apply elem_of_cons in Hf as [->|Hf].
  - by apply kf_vercel_uploads.
  - by apply IH.
Qed.

(** What lies outside the workspace survives the cleanup. *)
Lemma cleaned_keeps E temp_dir w p :
  is_under temp_dir p = false ->
  is_Some (files w !! p) ->
  is_Some (files (cleaned E temp_dir w) !! p).
Proof.
  intros Hu [x Hx]. unfold cleaned.
  destruct (rmtree_error E temp_dir); simpl; [by exists x|].
  exists x. by apply map_lookup_filter_Some.
Qed.

Lemma app_main_saved E config ups w f :
  (forall p, open_error E p = None) ->
  (forall p, makedirs_error E p = None) ->
  dirname (path_join (mkdtemp E) (lit "input")) = mkdtemp E ->
  f ∈ ups ->
  is_under (mkdtemp E)
           (path_join (path_join (mkdtemp E) (lit "input")) (name f))
  = false ->
  is_Some (files (returned_world (App.main_batch E config ups w))
           !! path_join (path_join (mkdtemp E) (lit "input")) (name f)).
Proof.
  intros Hopen Hmk Hdir Hf Hu. unfold App.main_batch, returned_world.
  unfold bind at 1.
  destruct (create_temp_dirs_run E w) as (w0 & -> & Hc & Hd); [done..|].
  cbv beta iota. rewrite Hdir.
  set (body := bind _ _).
  assert (keeps_cleanups body) as Hb.
  { unfold body. apply keeps_bind; [apply keeps_app_uploads|].
    intros rs. apply keeps_bind; [apply keeps_show_results|].
    intros _. apply keeps_ret. }
  rewrite finally_cleanup by done. simpl.
  apply cleaned_keeps; [done|]. unfold body, bind at 1.
  pose proof (app_uploads_saved E config
                (path_join (mkdtemp E) (lit "input"))
                (path_join (mkdtemp E) (lit "output")) ups [] w0 f
                Hopen Hmk Hf) as Hs.
  destruct (App.process_uploads _ _ _ _ _ _ _) as [[rs|e] w1]; [|done].
  simpl in Hs.
  assert (keeps_files (show_results rs ;; ret rs)) as Hk.
  { apply kf_bind; [apply kf_show_results|]. intros _. apply kf_ret. }
  by apply Hk.
Qed.

Lemma vercel_main_saved E language mode ups w f :
  (forall p, open_error E p = None) ->
  (forall p, makedirs_error E p = None) ->
  pystr_eqb mode (lit "api") = false \/ answers_objects E ->
  dirname (path_join (mkdtemp E) (lit "input")) = mkdtemp E ->
  f ∈ ups ->
  is_under (mkdtemp E)
           (path_join (path_join (mkdtemp E) (lit "input")) (name f))
  = false ->
  is_Some (files (returned_world (Vercel.main_batch E language mode ups w))
           !! path_join (path_join (mkdtemp E) (lit "input")) (name f)).
Proof.
  intros Hopen Hmk Hmode Hdir Hf Hu.
  unfold Vercel.main_batch, returned_world.
  unfold bind at 1.
  destruct (create_temp_dirs_run E w) as (w0 & -> & Hc & Hd); [done..|].
  cbv beta iota zeta. rewrite Hdir.
  set (body := bind _ _).
  assert (keeps_cleanups body) as Hb.
  { unfold body. apply keeps_bind; [apply keeps_vercel_uploads|].
    intros rs. apply keeps_bind; [apply keeps_show_results|].
    intros _. apply keeps_ret. }
  rewrite finally_cleanup by done. simpl.
  apply cleaned_keeps; [done|]. unfold body, bind at 1.
  pose proof (vercel_uploads_saved E mode
                (Vercel.make_config language mode)
                (path_join (mkdtemp E) (lit "input"))
                (path_join (mkdtemp E) (lit "output")) ups [] w0 f
                Hopen Hmode Hf) as Hs.
  destruct (Vercel.process_uploads _ _ _ _ _ _ _ _) as [[rs|e] w1]; [|done].
  simpl in Hs.
  assert (keeps_files (show_results rs ;; ret rs)) as Hk.
  { apply kf_bind; [apply kf_show_results|]. intros _. apply kf_ret. }
  by apply Hk.
Qed.

Lemma path_join_absolute a b :
  starts_with [SLASH] b = true -> path_join a b = b.
Proof. intros H. unfold path_join. by rewrite H. Qed.

(** ** The size limit of [app.py] *)

Lemma over_limit (total : Z) (max_size : nat) :
  negb (Qle_bool (inject_Z total / 1024 / 1024)
                 (inject_Z (Z.of_nat max_size)))
  = (Z.of_nat max_size * 1048576 <? total)%Z.
Proof.
  rewrite Z.ltb_antisym. f_equal. apply eq_iff_eq_true.
  rewrite Qle_bool_iff, Z.leb_le.
  unfold Qle, Qdiv, Qmult, Qinv, inject_Z. simpl. lia.
Qed.

Lemma os_path_exists_stored p w :
  is_Some (files w !! p) -> os_path_exists p w = true.
Proof.
  intros H. unfold os_path_exists. apply orb_true_iff. right.
  by apply bool_decide_eq_true_2.
Qed.

Lemma total_bytes_sizes ups :
  AppPage.total_bytes ups = foldr Z.add 0%Z (map size ups).
Proof. induction ups as [|f ups IH]; simpl; [done|]. by rewrite IH. Qed.

(** ** What the engine left *)

Lemma bind_read_text f t {B} (k : pystr -> M B) w :
  files w !! f = Some (Text t) ->
  bind (Mineru.read_text f) k w = k t w.
Proof.
  intros H. unfold bind, Mineru.read_text. unfold pystr in *. by rewrite H.
Qed.

Lemma exists_stored f c w :
  files w !! f = Some c -> os_path_exists f w = true.
Proof. intros H. apply os_path_exists_stored. by eexists. Qed.

Lemma read_text_world f w : exists x, Mineru.read_text f w = (x, w).
Proof.
  unfold Mineru.read_text. destruct (files w !! f) as [[d sz|t]|];
    by eexists.
Qed.

(** The walk finds a Markdown file and no JSON file. *)
Lemma mineru_output_markdown E output_dir pdf_path w f t :
  Mineru.scan_outputs (Mineru.os_walk E output_dir w) None None
  = (Some f, None) ->
  truthy f = true ->
  files w !! f = Some (Text t) ->
  (forall p, open_error E p = None) ->
  Mineru._process_mineru_output E output_dir pdf_path w
  = (Ok (<["text"%string :=
             path_join output_dir (path_stem pdf_path ++ lit ".txt")]>
         (<["text_content"%string := Mineru._markdown_to_text t]>
          (<["html"%string :=
               path_join output_dir (path_stem pdf_path ++ lit ".html")]>
           (<["html_content"%string := Mineru._markdown_to_html E t]>
            (<["json_content"%string := json_placeholder]>
             (<["markdown"%string := f]>
              (<["markdown_content"%string := t]> ∅))))))),
     wrote (path_join output_dir (path_stem pdf_path ++ lit ".txt"))
           (Text (Mineru._markdown_to_text t))
           (wrote (path_join output_dir (path_stem pdf_path ++ lit ".html"))
                  (Text (Mineru._markdown_to_html E t))
                  w)).
Proof.
  intros Hscan Hf Hst Hopen. unfold Mineru._process_mineru_output.
  unfold bind at 1. unfold get_world at 1. rewrite Hscan.
  cbv beta iota zeta. rewrite Hf, (exists_stored f _ w Hst). cbn [andb].
  cbv iota. unfold bind at 1. rewrite (bind_read_text f t) by done.
  unfold ret at 1. cbv iota. rewrite !bind_ret.
  cbv beta iota zeta. fold json_placeholder.
  assert (forall (o : gmap string pystr) md js mf,
            default [] (<["json_content"%string := js]>
                          (<["markdown"%string := mf]>
                             (<["markdown_content"%string := md]> o))
                        !! "markdown_content"%string) = md) as Hmd.
  { intros o md js mf. rewrite !lookup_insert_ne by done.
    by rewrite lookup_insert_eq. }
  rewrite Hmd. rewrite bind_write_file by done.
  assert (forall (o : gmap string pystr) md js mf h hf,
            default [] (<["html"%string := hf]>
                          (<["html_content"%string := h]>
                             (<["json_content"%string := js]>
                                (<["markdown"%string := mf]>
                                   (<["markdown_content"%string := md]> o))))
                        !! "markdown_content"%string) = md) as Hmd'.
  { intros o md js mf h hf. rewrite !lookup_insert_ne by done.
    by rewrite lookup_insert_eq. }
  rewrite Hmd'. by rewrite bind_write_file by done.
Qed.

(** The walk finds a JSON file that does not parse. *)
Lemma mineru_output_bad_json E output_dir pdf_path w md f t :
  Mineru.scan_outputs (Mineru.os_walk E output_dir w) None None
  = (md, Some f) ->
  truthy f = true ->
  files w !! f = Some (Text t) ->
  json_loads E t = None ->
  exists e,
    Mineru._process_mineru_output E output_dir pdf_path w = (Raise e, w).
Proof.
  intros Hscan Hf Hst Hjs. unfold Mineru._process_mineru_output.
  unfold bind at 1. unfold get_world at 1. rewrite Hscan.
  cbv beta iota zeta. rewrite Hf, (exists_stored f _ w Hst). cbn [andb].
  cbv iota.
  assert (forall o : gmap string pystr,
            (let! text := Mineru.read_text f in
             match json_loads E text with
             | Some json_data =>
               ret (<["json"%string := f]>
                      (<["json_content"%string := json_dumps E json_data]>
                         o))
             | None => raise (lit "Expecting value")
             end) w = (Raise (lit "Expecting value"), w)) as Hraise.
  { intros o. rewrite (bind_read_text f t) by done. by rewrite Hjs. }
  destruct md as [m|].
  - destruct (truthy m && os_path_exists m w).
    + unfold bind at 1. unfold bind at 1.
      destruct (read_text_world m w) as [[tm|e] ->]; cbv beta iota;
        [|by eexists].
      unfold ret at 1. cbv iota. unfold bind at 1. rewrite Hraise.
      by eexists.
    + rewrite bind_ret. unfold bind at 1. rewrite Hraise. by eexists.
  - rewrite bind_ret. unfold bind at 1. rewrite Hraise. by eexists.
Qed.

(** ** The batch, mode by mode *)

Lemma mode_is_api mode : pystr_eqb mode (lit "api") = true -> mode = lit "api".
Proof. unfold pystr_eqb. by intros H%bool_decide_eq_true. Qed.

(** *** The serverless entry point when the endpoint is down *)

Lemma vercel_upload_fallback E mode config input_dir output_dir f w :
  fitz_importable E = true ->
  open_error E (path_join input_dir (name f)) = None ->
  pystr_eqb mode (lit "api") = false \/ endpoint_always_down E ->
  exists w',
    Vercel.process_upload E mode config input_dir output_dir f w
    = (Ok (vercel_upload_result E input_dir f), w').
Proof.
  intros Hfitz Hopen [Hmode|Hdown]; [by apply vercel_upload_run|].
  destruct (pystr_eqb mode (lit "api")) eqn:Hmode;
    [|by apply vercel_upload_run].
  apply mode_is_api in Hmode as ->.
  rewrite vercel_upload_api, Hopen.
  destruct (call_api_down E (path_join input_dir (name f)) config
              (saved (path_join input_dir (name f))
                     (Binary (getvalue f) (size f)) w)
              (Binary (getvalue f) (size f)))
    as (evs & -> & _); [apply lookup_insert_eq|apply Hdown|].
  rewrite vercel_basic_run.
  unfold opened, vercel_upload_result, named. rewrite Hfitz. simpl files.
  rewrite stored_saved. destruct (getvalue f); by eexists.
Qed.

Lemma vercel_uploads_fallback E mode config input_dir output_dir ups rs w :
  fitz_importable E = true ->
  (forall p, open_error E p = None) ->
  pystr_eqb mode (lit "api") = false \/ endpoint_always_down E ->
  exists w',
    Vercel.process_uploads E mode config input_dir output_dir ups rs w
    = (Ok (rs ++ map (vercel_upload_result E input_dir) ups), w').
Proof.
  intros Hfitz Hopen Hmode. revert rs w.
  induction ups as [|f ups IH]; intros rs w; simpl.
  - exists w. by rewrite app_nil_r.
  - unfold bind.
    destruct (vercel_upload_fallback E mode config input_dir output_dir f w)
      as [w1 ->]; [done..|].
    destruct (IH (rs ++ [vercel_upload_result E input_dir f]) w1) as [w2 ->].
    exists w2. by rewrite <- app_assoc.
Qed.

Lemma vercel_main_fallback E language mode ups w :
  fitz_importable E = true ->
  (forall p, open_error E p = None) ->
  (forall p, makedirs_error E p = None) ->
  pystr_eqb mode (lit "api") = false \/ endpoint_always_down E ->
  returned (Vercel.main_batch E language mode ups w)
  = Some (map (vercel_upload_result E (path_join (mkdtemp E) (lit "input")))
              ups).
Proof.
  intros Hfitz Hopen Hmk Hmode. unfold Vercel.main_batch.
  unfold bind at 1.
  destruct (create_temp_dirs_run E w) as (w0 & -> & _); [done..|].
  unfold try_finally, bind.
  destruct (vercel_uploads_fallback E mode
              (Vercel.make_config language mode)
              (path_join (mkdtemp E) (lit "input"))
              (path_join (mkdtemp E) (lit "output")) ups [] w0)
    as [w1 ->]; [done..|].
  destruct (show_results_run
              ([] ++ map (vercel_upload_result E
                            (path_join (mkdtemp E) (lit "input"))) ups) w1)
    as [w2 ->];
    [apply has_success_map, vercel_result_has_success|].
  unfold ret.
  by destruct (total_cleanup E (dirname (path_join (mkdtemp E) (lit "input")))
                 w2) as ([] & w3 & ->).
Qed.

(** *** Every result of the local entry point comes from its upload *)

Lemma app_uploads_each E config input_dir output_dir ups rs w :
  (forall p, open_error E p = None) ->
  (forall p, makedirs_error E p = None) ->
  exists rs' w',
    App.process_uploads E config input_dir output_dir ups rs w
    = (Ok (rs ++ rs'), w')
    /\ forallb has_success rs' = true
    /\ Forall2
         (fun f r =>
            exists w1 w2,
              App.process_upload E config input_dir output_dir f w1
              = (Ok r, w2))
         ups rs'.
Proof.
  intros Hopen Hmk. revert rs w.
  induction ups as [|f ups IH]; intros rs w; simpl.
  - exists [], w. by rewrite app_nil_r.
  - unfold bind.
    destruct (app_upload_named E config input_dir output_dir f w)
      as (r & w1 & Hrun & Hr & Hs); [done..|].
    rewrite Hrun.
    destruct (IH (rs ++ [r]) w1) as (rs' & w2 & -> & Hss & Hall).
    exists (r :: rs'), w2. rewrite <- app_assoc. simpl.
    rewrite Hs, Hss. split; [done|]. split; [done|].
    constructor; [by exists w, w1|done].
Qed.

Lemma app_main_each E config ups w :
  (forall p, open_error E p = None) ->
  (forall p, makedirs_error E p = None) ->
  exists results,
    returned (App.main_batch E config ups w) = Some results
    /\ Forall2
         (fun f r =>
            exists w1 w2,
              App.process_upload E config
                (path_join (mkdtemp E) (lit "input"))
                (path_join (mkdtemp E) (lit "output")) f w1
              = (Ok r, w2))
         ups results.
Proof.
  intros Hopen Hmk. unfold App.main_batch.
  unfold bind at 1.
  destruct (create_temp_dirs_run E w) as (w0 & -> & _); [done..|].
  unfold try_finally, bind.
  destruct (app_uploads_each E config
              (path_join (mkdtemp E) (lit "input"))
              (path_join (mkdtemp E) (lit "output")) ups [] w0)
    as (rs & w1 & -> & Hss & Hall); [done..|].
  destruct (show_results_run ([] ++ rs) w1) as [w2 ->]; [done|].
  unfold ret.
  destruct (total_cleanup E (dirname (path_join (mkdtemp E) (lit "input")))
              w2) as ([] & w3 & ->).
  by exists rs.
Qed.

Lemma each_named (P : UploadedFile -> Result -> Prop) ups results :
  (forall f r, P f r -> file_name r = Some (name f)) ->
  Forall2 P ups results ->
  map file_name results = map (fun f => Some (name f)) ups.
Proof.
  intros HP. induction 1 as [|f r ups results Hfr _ IH]; simpl; [done|].
  by rewrite (HP f r Hfr), IH.
Qed.

Lemma each_at (P : UploadedFile -> Result -> Prop) before bad after results :
  Forall2 P (before ++ bad :: after) results ->
  exists r, results !! length before = Some r /\ P bad r.
Proof.
  intros (r1 & r2' & H1 & H2 & ->)%Forall2_app_inv_l.
  apply Forall2_cons_inv_l in H2 as (r & r2 & Hr & _ & ->).
  exists r. split; [|done].
  rewrite lookup_app_r by (rewrite (Forall2_length _ _ _ H1); lia).
  by rewrite (Forall2_length _ _ _ H1), Nat.sub_diag.
Qed.

(** *** The demonstration mode *)

Lemma app_upload_demo_success E config input_dir output_dir f w r w' :
  App.MINERU_AVAILABLE E = true ->
  magic_pdf_importable E = false ->
  (forall p, open_error E p = None) ->
  (forall p, makedirs_error E p = None) ->
  App.process_upload E config input_dir output_dir f w = (Ok r, w') ->
  success r = true /\ file_name r = Some (name f).
Proof.
  intros Hav Hmagic Hopen Hmk Hrun.
  pose proof (app_upload_demo E config input_dir output_dir f w
                Hav Hmagic Hopen Hmk) as H.
  unfold returned in H. rewrite Hrun in H. simpl in H.
  by injection H as ->.
Qed.

(** *** The advanced mode on a document the engine rejects *)

Lemma process_pdf_engine_raises E self pdf_path output_dir language
    parse_method formula_enable table_enable w :
  Mineru.mineru_available self = true ->
  makedirs_error E output_dir = None ->
  (forall lang,
     exists e,
       do_parse E pdf_path output_dir parse_method lang (files w)
       = Raise e) ->
  exists e w',
    Mineru.process_pdf E self pdf_path output_dir language parse_method
                       formula_enable table_enable (Some update_progress) w
    = (Ok (Mineru.failure
             (lit "处理 PDF 时出错: " ++ lit "MinerU 处理失败: " ++ e)
             (Some (format_exc E (lit "MinerU 处理失败: " ++ e)))), w').
Proof.
  intros Hav Hmk Hparse.
  destruct (Hparse
              (if negb (bool_decide (language = CStr (lit "auto")))
               then language else CStr (lit "ch"))) as [e He].
  exists e. unfold Mineru.process_pdf, try_except.
  rewrite bind_notify, bind_makedirs by done. rewrite Hav. cbn [negb].
  cbv iota. unfold Mineru._process_with_mineru, try_except.
  rewrite !bind_notify. cbv zeta.
  rewrite (bind_do_parse_raise _ _ _ _ _ e) by exact He.
  unfold raise. rewrite bind_notify. unfold ret. by eexists.
Qed.

Lemma app_upload_engine_error E config input_dir output_dir f w r w' :
  App.MINERU_AVAILABLE E = true ->
  magic_pdf_importable E = true ->
  engine_rejects_unreadable E ->
  readable f = false ->
  App.process_upload E config input_dir output_dir f w = (Ok r, w') ->
  success r = false /\ is_Some (error r) /\ file_name r = Some (name f).
Proof.
  intros Hav Hmagic Hrej Hbad.
  unfold App.process_upload.
  intros (u1 & w1 & Hw & H)%bind_inv.
  apply bind_inv in H as (u2 & w2 & Hbar & H).
  apply bind_makedirs_inv in H as (Hmk & H).
  apply bind_inv in H as (r0 & w3 & Hfile & H).
  apply ret_inv in H as [<- _].
  assert (exists msg sz,
             files (made (path_join output_dir (path_stem (name f))) w2)
             !! path_join input_dir (name f)
             = Some (Binary (Unreadable msg) sz)) as (msg & sz & Hstored).
  { unfold readable in Hbad.
    destruct (getvalue f) as [msg|pages] eqn:Hv; [|done].
    exists msg, (size f). unfold write_file in Hw.
    destruct (open_error E (path_join input_dir (name f))); [done|].
    injection Hw as _ <-. unfold new_progress_bar in Hbar.
    injection Hbar as _ <-. simpl. unfold pystr in *.
    by rewrite lookup_insert_eq. }
  unfold App.process_pdf_file, try_except in Hfile. rewrite Hav in Hfile.
  match type of Hfile with
  | context [Mineru.process_pdf _ ?s ?p ?o ?l ?pm ?fe ?te _ ?w0] =>
    destruct (process_pdf_engine_raises E s p o l pm fe te w0)
      as (e & w4 & Hrun)
  end.
  - unfold Mineru.new_processor. by cbn.
  - exact Hmk.
  - intros lang. eapply Hrej. exact Hstored.
  - rewrite Hrun in Hfile. injection Hfile as <- _. simpl.
    split; [done|]. split; [by eexists|done].
Qed.

(** ** Answers of the endpoint that are not a result *)

Lemma vercel_upload_not_object E config input_dir output_dir f w api_url
    body e :
  MINERU_API_URL E = Some api_url ->
  truthy api_url = true ->
  open_error E (path_join input_dir (name f)) = None ->
  requests_post E (api_url ++ lit "/process")
                (Binary (getvalue f) (size f)) config
  = Response 200 body ->
  body_value body = Some (PyOther e) ->
  Vercel.process_upload E (lit "api") config input_dir output_dir f w
  = (Raise e,
     add_progress
       [(2 # 10, lit "连接 MinerU API 服务..."); (1%Q, lit "API 处理完成！")]
       (saved (path_join input_dir (name f))
              (Binary (getvalue f) (size f)) w)).
Proof.
  intros Hurl Hu Hopen Hpost Hbody. rewrite vercel_upload_api, Hopen.
  rewrite (call_api_answer E _ config _ (Binary (getvalue f) (size f))
             api_url body); try done; [|apply lookup_insert_eq].
  destruct body; try done; by rewrite Hbody.
Qed.

Lemma vercel_upload_object E config input_dir output_dir f w api_url r :
  MINERU_API_URL E = Some api_url ->
  truthy api_url = true ->
  open_error E (path_join input_dir (name f)) = None ->
  requests_post E (api_url ++ lit "/process")
                (Binary (getvalue f) (size f)) config
  = Response 200 (JsonResult r) ->
  exists w',
    Vercel.process_upload E (lit "api") config input_dir output_dir f w
    = (Ok (set_file_name r (name f)), w').
Proof.
  intros Hurl Hu Hopen Hpost. rewrite vercel_upload_api, Hopen.
  rewrite (call_api_answer E _ config _ (Binary (getvalue f) (size f))
             api_url (JsonResult r)); try done; [|apply lookup_insert_eq].
  by eexists.
Qed.

Lemma vercel_uploads_objects E config input_dir output_dir ups rs w api_url :
  MINERU_API_URL E = Some api_url ->
  truthy api_url = true ->
  (forall p, open_error E p = None) ->
  (forall f,
     exists r,
       requests_post E (api_url ++ lit "/process") f config
       = Response 200 (JsonResult r)
       /\ has_success r = false) ->
  exists rs' w',
    Vercel.process_uploads E (lit "api") config input_dir output_dir ups rs w
    = (Ok (rs ++ rs'), w')
    /\ length rs' = length ups
    /\ Forall (fun r => has_success r = false) rs'.
Proof.
  intros Hurl Hu Hopen Hpost. revert rs w.
  induction ups as [|f ups IH]; intros rs w; simpl.
  - exists [], w. by rewrite app_nil_r.
  - unfold bind.
    destruct (Hpost (Binary (getvalue f) (size f))) as (r & Hr & Hs).
    destruct (vercel_upload_object E config input_dir output_dir f w
                api_url r) as [w1 ->]; [done..|].
    destruct (IH (rs ++ [set_file_name r (name f)]) w1)
      as (rs' & w2 & -> & Hlen & Hall).
    exists (set_file_name r (name f) :: rs'), w2.
    rewrite <- app_assoc. simpl. rewrite Hlen.
    split; [done|]. split; [done|]. by constructor.
Qed.

Lemma lacking_success rs :
  rs <> [] -> Forall (fun r => has_success r = false) rs ->
  forallb has_success rs = false.
Proof.
  destruct rs as [|r rs]; [done|]. intros _ [Hr _]%Forall_cons.
  simpl. by rewrite Hr.
Qed.

(** * The claims *)

(** C1, as stated, fails: a document whose only page holds a blank makes
    the basic branch return [success = true] with an empty
    [markdown_content]. *)
Lemma C1_counterexample :
  exists r,
    returned (Vercel.process_pdf_basic plain_env (lit "blank.pdf") (lit "out")
                ∅ (Some update_progress)
                (world_with (lit "blank.pdf") (Binary (Pages [lit " "]) 1)))
    = Some r
    /\ success r = true
    /\ output "markdown_content" r = Some [].
Proof. eexists. vm_compute. repeat split. Qed.

(** C1 (amended): every result with [success = true] of the basic, demo
    and advanced branches has a [markdown_content] entry and an
    [html_content] entry holding [<html>] ... [</html>].  In the basic
    branches the Markdown is non-empty exactly when some page has text
    that is not whitespace; in the demo branch it is never empty. *)
Theorem C1_success_outputs E pdf_path output_dir config self language
    parse_method formula_enable table_enable cb w r w' :
  success r = true ->
  (Vercel.process_pdf_basic E pdf_path output_dir config
                            (Some update_progress) w = (Ok r, w')
   \/ App.process_pdf_basic E pdf_path output_dir config
                            (Some update_progress) w = (Ok r, w') ->
   exists pages sz md html,
     stored_pdf (files w) pdf_path = Ok (pages, sz)
     /\ output "markdown_content" r = Some md
     /\ output "html_content" r = Some html
     /\ html_wrapped html
     /\ (md <> [] <-> Exists (fun t => nonblank t = true) pages))
  /\ (Mineru.process_pdf E self pdf_path output_dir language parse_method
                         formula_enable table_enable cb w = (Ok r, w') ->
      exists md html,
        output "markdown_content" r = Some md
        /\ output "html_content" r = Some html
        /\ html_wrapped html
        /\ (Mineru.mineru_available self = false -> md <> [])).
Proof.
  intros Hs. split.
  - intros [H|H].
    + apply vercel_basic_inv in H as (pages & sz & Ho & -> & _); [|done].
      exists pages, sz. eexists _, _.
      split; [by eapply opened_stored|].
      split; [reflexivity|]. split; [reflexivity|].
      split; [apply vercel_html_wrapped|apply page_blocks_nonempty].
    + apply app_basic_inv in H as (pages & sz & Ho & -> & _).
      exists pages, sz. eexists _, _.
      split; [by eapply opened_stored|].
      split; [reflexivity|]. split; [reflexivity|].
      split; [apply app_html_wrapped|apply page_blocks_nonempty].
  - intros H.
    destruct (mineru_process_pdf_inv _ _ _ _ _ _ _ _ _ _ _ _ H Hs)
      as [[Hav ->]|[Hav (md & Hm & Hh)]].
    + eexists _, _. split; [reflexivity|]. split; [reflexivity|].
      split; [apply markdown_to_html_wrapped|].
      intros _. apply demo_markdown_nonempty.
    + exists md. eexists. split; [done|]. split; [done|].
      split; [apply markdown_to_html_wrapped|congruence].
Qed.

Lemma C1_success_outputs_witness :
  exists pages sz md html,
    stored_pdf
      (files (world_with (lit "a.pdf")
                (Binary (Pages [lit "text"; lit " "]) 9)))
      (lit "a.pdf") = Ok (pages, sz)
    /\ output "markdown_content"
              (vercel_basic_success plain_env (lit "a.pdf")
                                    [lit "text"; lit " "]) = Some md
    /\ output "html_content"
              (vercel_basic_success plain_env (lit "a.pdf")
                                    [lit "text"; lit " "]) = Some html
    /\ html_wrapped html
    /\ (md <> [] <-> Exists (fun t => nonblank t = true) pages).
Proof.
  refine (proj1 (C1_success_outputs plain_env (lit "a.pdf") (lit "out") ∅
            (Mineru.new_processor plain_env) (CStr (lit "ch"))
            (CStr (lit "auto")) (CBool true) (CBool true) None
            (world_with (lit "a.pdf") (Binary (Pages [lit "text"; lit " "]) 9))
            (vercel_basic_success plain_env (lit "a.pdf")
                                  [lit "text"; lit " "])
            (add_progress (vercel_basic_events [lit "text"; lit " "])
               (world_with (lit "a.pdf")
                  (Binary (Pages [lit "text"; lit " "]) 9)))
            _) _).
  - reflexivity.
  - left. vm_compute. reflexivity.
Defined.

(** C2, as stated, fails: the first pass over a nested link leaves a link
    that the second pass removes. *)
Lemma C2_counterexample :
  Mineru._markdown_to_text (Mineru._markdown_to_text (lit "[[a](b)](c)"))
  <> Mineru._markdown_to_text (lit "[[a](b)](c)").
Proof. vm_compute. discriminate. Qed.

(** C2 (amended): converting the converted text of [s] again changes
    nothing exactly when none of the seven marker patterns matches
    anywhere in that text, that is, when no pass finds a construct in
    it: no [#], no two [*], backticks or pipes on one line, no link
    [[x](u)] on one line and no three hyphens in a row.  Marker
    characters that form no construct do not matter. *)
Theorem C2_idempotent_iff_settled s :
  (Mineru._markdown_to_text (Mineru._markdown_to_text s)
   = Mineru._markdown_to_text s
   <-> unmatched (Mineru._markdown_to_text s) = true)
  /\ unmatched (Mineru._markdown_to_text s)
     = settled (Mineru._markdown_to_text s).
Proof.
  split; [|by rewrite settled_unmatched].
  rewrite <- settled_unmatched. split; [|apply to_text_settled].
  intros H. destruct (settled (Mineru._markdown_to_text s)) eqn:Hs; [done|].
  apply to_text_unsettled in Hs. rewrite H in Hs. lia.
Qed.

Lemma C2_idempotent_iff_settled_witness :
  Mineru._markdown_to_text
    (Mineru._markdown_to_text (Mineru.demo_markdown (lit "paper")))
  = Mineru._markdown_to_text (Mineru.demo_markdown (lit "paper")).
Proof.
  apply (proj2 (proj1 (C2_idempotent_iff_settled
                         (Mineru.demo_markdown (lit "paper"))))).
  vm_compute. reflexivity.
Defined.

(** C3: when the endpoint is unavailable (a transport failure or a status
    other than 200) for an upload that was saved, [call_mineru_api]
    returns [None] without raising and without showing anything; the
    loop of [main] then shows one warning (no error), calls
    [process_pdf_basic], and the result of the upload is the result
    [process_pdf_basic] returns on the saved upload, under the name of
    the upload; the stored files are those the basic branch leaves.
    This is also what the loop returns in basic mode, whatever the
    configuration.  The date written into the JSON rendition is that of
    the environment, the same in both runs. *)
Theorem C3_api_fallback_equals_basic E config config' input_dir output_dir
    uploaded_file w :
  endpoint_down E (Binary (getvalue uploaded_file) (size uploaded_file))
                config ->
  open_error E (path_join input_dir (name uploaded_file)) = None ->
  (exists evs,
     Vercel.call_mineru_api E (path_join input_dir (name uploaded_file))
       config (Some update_progress)
       (saved (path_join input_dir (name uploaded_file))
              (Binary (getvalue uploaded_file) (size uploaded_file)) w)
     = (Ok None,
        add_progress evs
          (saved (path_join input_dir (name uploaded_file))
                 (Binary (getvalue uploaded_file) (size uploaded_file)) w)))
  /\ (exists r w',
        Vercel.process_pdf_basic E (path_join input_dir (name uploaded_file))
          output_dir config' (Some update_progress)
          (saved (path_join input_dir (name uploaded_file))
                 (Binary (getvalue uploaded_file) (size uploaded_file)) w)
        = (Ok r, w')
        /\ (Vercel.process_upload E (lit "api") config input_dir output_dir
                                  uploaded_file w).1
           = Ok (set_file_name r (name uploaded_file))
        /\ files (Vercel.process_upload E (lit "api") config input_dir
                                        output_dir uploaded_file w).2
           = files w'
        /\ ui (Vercel.process_upload E (lit "api") config input_dir
                                     output_dir uploaded_file w).2
           = ui w ++ [UiWarning (lit "API 服务不可用，切换到基础模式")])
  /\ (Vercel.process_upload E (lit "api") config input_dir output_dir
                            uploaded_file w).1
     = (Vercel.process_upload E (lit "basic") config' input_dir output_dir
                              uploaded_file w).1.
Proof.
  intros Hdown Hopen.
  set (pdf_path := path_join input_dir (name uploaded_file)) in *.
  set (f := Binary (getvalue uploaded_file) (size uploaded_file)) in *.
  destruct (call_api_down E pdf_path config (saved pdf_path f w) f)
    as (evs & Hcall & _); [apply lookup_insert_eq|done|].
  split; [by exists evs|].
  rewrite vercel_upload_api, (vercel_upload_basic _ _ _ _ _ _ _ mode_basic).
  fold pdf_path f. rewrite Hopen, Hcall.
  set (w2 := shown _ _).
  pose proof (vercel_basic_files E pdf_path output_dir config w2)
    as (Hf2 & Hu2 & _).
  pose proof (vercel_basic_files E pdf_path output_dir config'
                (saved pdf_path f w)) as (Hf1 & Hu1 & _).
  pose proof (vercel_basic_frame E pdf_path output_dir config config'
                w2 (saved pdf_path f w) eq_refl) as Hres.
  destruct (total_vercel_basic E pdf_path output_dir config'
              (saved pdf_path f w)) as (r & w' & Hrun).
  rewrite Hrun in Hres, Hf1 |- *.
  destruct (Vercel.process_pdf_basic E pdf_path output_dir config
              (Some update_progress) w2) as [[r2|e2] w2'] eqn:Hrun2;
    simpl in Hres; [|done]. injection Hres as ->.
  split; [|done].
  exists r, w'. split; [done|]. split; [done|]. simpl in *.
  split; [congruence|]. by rewrite Hu2.
Qed.

Lemma C3_api_fallback_equals_basic_witness :
  (Vercel.process_upload api_down_env (lit "api")
     (Vercel.make_config (lit "ch") (lit "api"))
     (lit "/tmp/mineru_ab12cd/input") (lit "/tmp/mineru_ab12cd/output")
     (upload "paper.pdf" (Pages [lit "Abstract"])) empty_world).1
  = (Vercel.process_upload api_down_env (lit "basic")
       (Vercel.make_config (lit "ch") (lit "basic"))
       (lit "/tmp/mineru_ab12cd/input") (lit "/tmp/mineru_ab12cd/output")
       (upload "paper.pdf" (Pages [lit "Abstract"])) empty_world).1.
Proof.
  refine (proj2 (proj2
    (C3_api_fallback_equals_basic api_down_env
       (Vercel.make_config (lit "ch") (lit "api"))
       (Vercel.make_config (lit "ch") (lit "basic"))
       (lit "/tmp/mineru_ab12cd/input") (lit "/tmp/mineru_ab12cd/output")
       (upload "paper.pdf" (Pages [lit "Abstract"])) empty_world _ _))).
  - intros api_url _. simpl. discriminate.
  - reflexivity.
Defined.

(** C4, as stated, fails: when [shutil.rmtree] raises,
    [cleanup_temp_dirs] only shows a warning, the batch returns normally
    and the workspace directory is still there. *)
Lemma C4_counterexample :
  exists results,
    returned (App.main_batch rmtree_denied_env ∅
                [upload "paper.pdf" (Pages [lit "Abstract"])] empty_world)
    = Some results
    /\ os_path_exists (lit "/tmp/mineru_ab12cd")
         (returned_world
            (App.main_batch rmtree_denied_env ∅
               [upload "paper.pdf" (Pages [lit "Abstract"])] empty_world))
       = true.
Proof. eexists. split; vm_compute; reflexivity. Qed.

(** C4 (amended): once the workspace is created ([mkdtemp] returned a
    path that does not end with a slash and the two [makedirs] calls
    succeeded), a batch of either entry point calls [cleanup_temp_dirs]
    exactly once, on the workspace directory, whether the loop returned
    or raised and however many files failed.  If [shutil.rmtree]
    succeeds, neither the workspace nor anything under it exists
    afterwards; if it raises, the workspace is still there and the last
    message shown is the warning. *)
Theorem C4_cleanup_once E config language processing_mode uploaded_files
    w w' :
  proper_dir (mkdtemp E) = true ->
  makedirs_error E (path_join (mkdtemp E) (lit "input")) = None ->
  makedirs_error E (path_join (mkdtemp E) (lit "output")) = None ->
  w' = returned_world (App.main_batch E config uploaded_files w)
  \/ w' = returned_world
            (Vercel.main_batch E language processing_mode uploaded_files w) ->
  cleanups w' = cleanups w ++ [mkdtemp E]
  /\ match rmtree_error E (mkdtemp E) with
     | None =>
       forall p, is_under (mkdtemp E) p = true -> os_path_exists p w' = false
     | Some e =>
       os_path_exists (mkdtemp E) w' = true
       /\ last (ui w') = Some (UiWarning (lit "清理临时文件时出错: " ++ e))
     end.
Proof.
  intros Hdir%dirname_join_input Hin Hout Hw'.
  assert (exists w1, w' = cleaned E (mkdtemp E) w1
                     /\ cleanups w1 = cleanups w
                     /\ mkdtemp E ∈ dirs w1) as (w1 & -> & Hc & Hd).
  { destruct Hw' as [-> | ->];
      [by apply app_main_world|by apply vercel_main_world]. }
  split; [by rewrite cleaned_cleanups, Hc|].
  destruct (rmtree_error E (mkdtemp E)) as [e|] eqn:Hrm.
  - by apply cleaned_denied.
  - intros p Hp. by apply cleaned_gone.
Qed.

Lemma C4_cleanup_once_witness :
  cleanups
    (returned_world
       (Vercel.main_batch plain_env (lit "ch") (lit "basic")
          [upload "paper.pdf" (Pages [lit "Abstract"])] empty_world))
  = cleanups empty_world ++ [lit "/tmp/mineru_ab12cd"]
  /\ forall p,
       is_under (lit "/tmp/mineru_ab12cd") p = true ->
       os_path_exists p
         (returned_world
            (Vercel.main_batch plain_env (lit "ch") (lit "basic")
               [upload "paper.pdf" (Pages [lit "Abstract"])] empty_world))
       = false.
Proof.
  apply (C4_cleanup_once plain_env ∅ (lit "ch") (lit "basic")
           [upload "paper.pdf" (Pages [lit "Abstract"])] empty_world
           (returned_world
              (Vercel.main_batch plain_env (lit "ch") (lit "basic")
                 [upload "paper.pdf" (Pages [lit "Abstract"])] empty_world))).
  - vm_compute. reflexivity.
  - reflexivity.
  - reflexivity.
  - right. reflexivity.
Defined.

(** C5, as stated, fails in the demonstration mode of [app.py], the mode
    of the repository when MinerU is not installed: no upload is opened,
    and the batch with an unreadable second upload returns three
    successes. *)
Lemma C5_counterexample :
  option_map (map success)
    (returned
       (App.main_batch demo_env ∅
          [upload "a.pdf" (Pages [lit "A"]);
           upload "b.pdf" (Unreadable (lit "cannot open broken document"));
           upload "c.pdf" (Pages [lit "C"])] empty_world))
  = Some [true; true; true].
Proof. vm_compute. reflexivity. Qed.

(** C5 (amended): let the uploads of a batch be saved without error, and
    exactly one of them, [bad], be a document PyMuPDF cannot open.  The
    batch returns one result per upload, in order, in every mode.  Where
    PyMuPDF opens the uploads (the serverless entry point in basic mode
    or with the endpoint down, and [app.py] when [mineru_processor] does
    not import), all results are successes but the one of [bad], which
    has [success = false], an error message and the name of [bad].  In
    the demonstration mode of [app.py] all results are successes, the
    one of [bad] included.  In the advanced mode of [app.py], when the
    engine raises on unreadable documents, the result of [bad] has
    [success = false] and an error message. *)
Theorem C5_one_corrupted_file E language processing_mode config
    before bad after w :
  (forall p, open_error E p = None) ->
  (forall p, makedirs_error E p = None) ->
  forallb readable (before ++ after) = true ->
  readable bad = false ->
  (fitz_importable E = true ->
   pystr_eqb processing_mode (lit "api") = false \/ endpoint_always_down E ->
   exists results,
     returned (Vercel.main_batch E language processing_mode
                                 (before ++ bad :: after) w) = Some results
     /\ one_failure (before ++ bad :: after) (length before) bad results)
  /\ (fitz_importable E = true ->
      App.MINERU_AVAILABLE E = false ->
      exists results,
        returned (App.main_batch E config (before ++ bad :: after) w)
        = Some results
        /\ one_failure (before ++ bad :: after) (length before) bad results)
  /\ (App.MINERU_AVAILABLE E = true ->
      magic_pdf_importable E = false ->
      exists results,
        returned (App.main_batch E config (before ++ bad :: after) w)
        = Some results
        /\ map file_name results
           = map (fun f => Some (name f)) (before ++ bad :: after)
        /\ Forall (fun r => success r = true) results)
  /\ (App.MINERU_AVAILABLE E = true ->
      magic_pdf_importable E = true ->
      engine_rejects_unreadable E ->
      exists results r,
        returned (App.main_batch E config (before ++ bad :: after) w)
        = Some results
        /\ map file_name results
           = map (fun f => Some (name f)) (before ++ bad :: after)
        /\ results !! length before = Some r
        /\ success r = false
        /\ is_Some (error r)
        /\ file_name r = Some (name bad)).
Proof.
  intros Hopen Hmk Hall Hbad. split; [|split; [|split]].
  - intros Hfitz Hmode.
    eexists. split; [by apply vercel_main_fallback|].
    apply one_failure_map; try done.
    + apply vercel_result_success.
    + apply vercel_result_error.
  - intros Hfitz Hav.
    eexists. split; [by apply app_main_run|].
    apply one_failure_map; try done.
    + apply app_result_success.
    + apply app_result_error.
  - intros Hav Hmagic.
    destruct (app_main_each E config (before ++ bad :: after) w)
      as (results & Hrun & Heach); [done..|].
    exists results. split; [done|]. split.
    + eapply each_named; [|exact Heach].
      intros f r (w1 & w2 & H).
      by eapply app_upload_demo_success.
    + clear Hrun. induction Heach as [|f r ups rs (w1 & w2 & H) _ IH];
        constructor; [|done].
      by eapply app_upload_demo_success.
  - intros Hav Hmagic Hrej.
    destruct (app_main_each E config (before ++ bad :: after) w)
      as (results & Hrun & Heach); [done..|].
    destruct (each_at _ _ _ _ _ Heach) as (r & Hr & w1 & w2 & Hbadrun).
    exists results, r. split; [done|]. split.
    + eapply each_named; [|exact Heach].
      intros f r' (w1' & w2' & H).
      destruct (app_upload_named E config
                  (path_join (mkdtemp E) (lit "input"))
                  (path_join (mkdtemp E) (lit "output")) f w1')
        as (r'' & w'' & H' & Hn & _); [done..|].
      rewrite H in H'. by injection H' as -> _.
    + split; [done|].
      by eapply app_upload_engine_error.
Qed.

Lemma C5_one_corrupted_file_witness :
  (exists results,
     returned
       (Vercel.main_batch api_down_env (lit "ch") (lit "api")
          ([upload "a.pdf" (Pages [lit "A"])]
          ++ upload "b.pdf" (Unreadable (lit "cannot open broken document"))
          :: [upload "c.pdf" (Pages [lit "C"])]) empty_world)
     = Some results
     /\ one_failure
          ([upload "a.pdf" (Pages [lit "A"])]
          ++ upload "b.pdf" (Unreadable (lit "cannot open broken document"))
          :: [upload "c.pdf" (Pages [lit "C"])])
          1 (upload "b.pdf" (Unreadable (lit "cannot open broken document")))
          results)
  /\ (exists results,
     returned
       (App.main_batch plain_env ∅
          ([upload "a.pdf" (Pages [lit "A"])]
          ++ upload "b.pdf" (Unreadable (lit "cannot open broken document"))
          :: [upload "c.pdf" (Pages [lit "C"])]) empty_world)
     = Some results
     /\ one_failure
          ([upload "a.pdf" (Pages [lit "A"])]
          ++ upload "b.pdf" (Unreadable (lit "cannot open broken document"))
          :: [upload "c.pdf" (Pages [lit "C"])])
          1 (upload "b.pdf" (Unreadable (lit "cannot open broken document")))
          results)
  /\ (exists results,
     returned
       (App.main_batch demo_env ∅
          ([upload "a.pdf" (Pages [lit "A"])]
          ++ upload "b.pdf" (Unreadable (lit "cannot open broken document"))
          :: [upload "c.pdf" (Pages [lit "C"])]) empty_world)
     = Some results
     /\ map file_name results
        = map (fun f => Some (name f))
            ([upload "a.pdf" (Pages [lit "A"])]
          ++ upload "b.pdf" (Unreadable (lit "cannot open broken document"))
          :: [upload "c.pdf" (Pages [lit "C"])])
     /\ Forall (fun r => success r = true) results)
  /\ (exists results r,
     returned
       (App.main_batch strict_engine_env ∅
          ([upload "a.pdf" (Pages [lit "A"])]
          ++ upload "b.pdf" (Unreadable (lit "cannot open broken document"))
          :: [upload "c.pdf" (Pages [lit "C"])]) empty_world)
     = Some results
     /\ map file_name results
        = map (fun f => Some (name f))
            ([upload "a.pdf" (Pages [lit "A"])]
          ++ upload "b.pdf" (Unreadable (lit "cannot open broken document"))
          :: [upload "c.pdf" (Pages [lit "C"])])
     /\ results !! 1%nat = Some r
     /\ success r = false
     /\ is_Some (error r)
     /\ file_name r = Some (lit "b.pdf")).
Proof.
  split; [|split; [|split]].
  - apply (proj1
      (C5_one_corrupted_file api_down_env (lit "ch") (lit "api") ∅
         [upload "a.pdf" (Pages [lit "A"])]
         (upload "b.pdf" (Unreadable (lit "cannot open broken document")))
         [upload "c.pdf" (Pages [lit "C"])] empty_world
         (fun p => eq_refl) (fun p => eq_refl) eq_refl eq_refl));
      [reflexivity|right].
    intros f c api_url _. simpl. discriminate.
  - apply (proj1 (proj2
      (C5_one_corrupted_file plain_env (lit "ch") (lit "basic") ∅
         [upload "a.pdf" (Pages [lit "A"])]
         (upload "b.pdf" (Unreadable (lit "cannot open broken document")))
         [upload "c.pdf" (Pages [lit "C"])] empty_world
         (fun p => eq_refl) (fun p => eq_refl) eq_refl eq_refl)));
      reflexivity.
  - apply (proj1 (proj2 (proj2
      (C5_one_corrupted_file demo_env (lit "ch") (lit "basic") ∅
         [upload "a.pdf" (Pages [lit "A"])]
         (upload "b.pdf" (Unreadable (lit "cannot open broken document")))
         [upload "c.pdf" (Pages [lit "C"])] empty_world
         (fun p => eq_refl) (fun p => eq_refl) eq_refl eq_refl))));
      reflexivity.
  - apply (proj2 (proj2 (proj2
      (C5_one_corrupted_file strict_engine_env (lit "ch") (lit "basic") ∅
         [upload "a.pdf" (Pages [lit "A"])]
         (upload "b.pdf" (Unreadable (lit "cannot open broken document")))
         [upload "c.pdf" (Pages [lit "C"])] empty_world
         (fun p => eq_refl) (fun p => eq_refl) eq_refl eq_refl))));
      [reflexivity|reflexivity|].
    intros pdf_path output_dir method lang fs msg sz H. simpl.
    unfold pystr in *. rewrite H. by eexists.
Defined.

(** C6 fails on the fallback path: with an API URL configured and the
    endpoint unavailable, [call_mineru_api] reports 0.2 before it gives
    up, and the basic branch that takes over starts again at 0.1.  The
    progress values of that one file therefore begin with 0.2, 0.1 and
    are not non-decreasing. *)
Theorem C6_fallback_progress_regresses E config input_dir output_dir
    uploaded_file api_url w :
  MINERU_API_URL E = Some api_url ->
  truthy api_url = true ->
  open_error E (path_join input_dir (name uploaded_file)) = None ->
  endpoint_down E (Binary (getvalue uploaded_file) (size uploaded_file))
                config ->
  (exists rest,
     fractions
       (returned_world
          (Vercel.process_upload E (lit "api") config input_dir output_dir
                                 uploaded_file w))
     = (2 # 10)%Q :: (1 # 10)%Q :: rest)
  /\ ~ nondecreasing
         (fractions
            (returned_world
               (Vercel.process_upload E (lit "api") config input_dir
                                      output_dir uploaded_file w))).
Proof.
  intros Hurl Hu Hopen Hdown.
  assert (exists rest,
     fractions
       (returned_world
          (Vercel.process_upload E (lit "api") config input_dir output_dir
                                 uploaded_file w))
     = (2 # 10)%Q :: (1 # 10)%Q :: rest) as [rest Hrest].
  { rewrite vercel_upload_api, Hopen.
    set (pdf_path := path_join input_dir (name uploaded_file)).
    set (f := Binary (getvalue uploaded_file) (size uploaded_file)) in *.
    rewrite (call_api_down_configured E pdf_path config _ f api_url)
      by (try done; apply lookup_insert_eq).
    destruct (vercel_basic_first E pdf_path output_dir config
                (shown (UiWarning (lit "API 服务不可用，切换到基础模式"))
                   (add_progress [(2 # 10, lit "连接 MinerU API 服务...")]
                      (saved pdf_path f w)))) as (r & rest & ->).
    exists (map fst rest). unfold returned_world.
    by rewrite named_snd. }
  split; [by exists rest|].
  rewrite Hrest. intros [H _]. revert H. vm_compute. intros H.
  by apply H.
Qed.

Lemma C6_fallback_progress_regresses_witness :
  (exists rest,
     fractions
       (returned_world
          (Vercel.process_upload api_down_env (lit "api")
             (Vercel.make_config (lit "ch") (lit "api"))
             (lit "/tmp/mineru_ab12cd/input")
             (lit "/tmp/mineru_ab12cd/output")
             (upload "paper.pdf" (Pages [lit "Abstract"])) empty_world))
     = (2 # 10)%Q :: (1 # 10)%Q :: rest)
  /\ ~ nondecreasing
         (fractions
            (returned_world
               (Vercel.process_upload api_down_env (lit "api")
                  (Vercel.make_config (lit "ch") (lit "api"))
                  (lit "/tmp/mineru_ab12cd/input")
                  (lit "/tmp/mineru_ab12cd/output")
                  (upload "paper.pdf" (Pages [lit "Abstract"]))
                  empty_world))).
Proof.
  apply (C6_fallback_progress_regresses api_down_env
           (Vercel.make_config (lit "ch") (lit "api"))
           (lit "/tmp/mineru_ab12cd/input") (lit "/tmp/mineru_ab12cd/output")
           (upload "paper.pdf" (Pages [lit "Abstract"]))
           (lit "http://mineru.example") empty_world).
  - reflexivity.
  - vm_compute. reflexivity.
  - reflexivity.
  - intros api_url _. simpl. discriminate.
Defined.

(** C7, as stated, fails: a run of exactly two blank lines (three newline
    characters) is not left unchanged but reduced to one blank line. *)
Lemma C7_counterexample :
  Mineru._markdown_to_text (lit "a" ++ [NL; NL; NL] ++ lit "b")
  = lit "a" ++ [NL; NL] ++ lit "b"
  /\ Mineru._markdown_to_text (lit "a" ++ [NL; NL; NL] ++ lit "b")
     <> lit "a" ++ [NL; NL; NL] ++ lit "b".
Proof. vm_compute. split; [reflexivity|discriminate]. Qed.

(** C7 (amended): on every text, the conversion is the eight passes of
    [to_text_passes], in this order, each scanning the text once from
    left to right and resuming after what it replaced, followed by the
    trimming of whitespace at both ends: up to six [#] with all the
    whitespace after them are deleted; [**x**], [*x*] and a backtick
    pair around [x] become [x], [x] being the shortest text without a
    line break before the closing marker; a link [[x](u)] on one line
    becomes [x]; from a pipe to the next pipe on the line everything is
    deleted; three or more hyphens in a row are deleted; three or more
    newline characters in a row become two. *)
Theorem C7_markdown_to_text_passes (s : pystr) :
  Mineru._markdown_to_text s = to_text_passes s.
Proof. apply to_text_passes_eq. Qed.

(** C8: on a readable document with at least one page of extractable
    text, both basic branches succeed and report exactly the number of
    pages of the document, blank pages included. *)
Theorem C8_basic_total_pages E pdf_path output_dir config w pages sz :
  fitz_importable E = true ->
  files w !! pdf_path = Some (Binary (Pages pages) sz) ->
  Exists (fun t => nonblank t = true) pages ->
  exists r1 w1 r2 w2,
    Vercel.process_pdf_basic E pdf_path output_dir config
                             (Some update_progress) w = (Ok r1, w1)
    /\ App.process_pdf_basic E pdf_path output_dir config
                             (Some update_progress) w = (Ok r2, w2)
    /\ success r1 = true /\ success r2 = true
    /\ total_pages <$> stats r1 = Some (length pages)
    /\ total_pages <$> stats r2 = Some (length pages).
Proof.
  intros Hfitz Hfile _.
  rewrite vercel_basic_run, app_basic_run. unfold opened, stored_pdf.
  rewrite Hfitz, Hfile. eexists _, _, _, _. repeat split.
Qed.

Lemma C8_basic_total_pages_witness :
  exists r1 w1 r2 w2,
    Vercel.process_pdf_basic plain_env (lit "a.pdf") (lit "out") ∅
      (Some update_progress)
      (world_with (lit "a.pdf") (Binary (Pages [lit "text"; lit " "; []]) 9))
    = (Ok r1, w1)
    /\ App.process_pdf_basic plain_env (lit "a.pdf") (lit "out") ∅
         (Some update_progress)
         (world_with (lit "a.pdf") (Binary (Pages [lit "text"; lit " "; []]) 9))
       = (Ok r2, w2)
    /\ success r1 = true /\ success r2 = true
    /\ total_pages <$> stats r1 = Some 3%nat
    /\ total_pages <$> stats r2 = Some 3%nat.
Proof.
  apply (C8_basic_total_pages plain_env (lit "a.pdf") (lit "out") ∅
           (world_with (lit "a.pdf")
              (Binary (Pages [lit "text"; lit " "; []]) 9))
           [lit "text"; lit " "; []] 9).
  - reflexivity.
  - vm_compute. reflexivity.
  - left. vm_compute. reflexivity.
Defined.




(** C10: on a stored document PyMuPDF can open, both basic branches
    return a result whose statistics report the page count, no tables,
    no formulas, and as many text blocks as the document has pages whose
    text is not only whitespace.  Whatever the input, a result of a
    basic branch that carries statistics carries these.  The
    configuration, the switches [formula_enable] and [table_enable]
    included, has no effect on what the basic branches do. *)
Theorem C10_basic_stats E pdf_path output_dir config w :
  (forall pages sz,
     fitz_importable E = true ->
     files w !! pdf_path = Some (Binary (Pages pages) sz) ->
     exists r1 w1 r2 w2,
       Vercel.process_pdf_basic E pdf_path output_dir config
                                (Some update_progress) w = (Ok r1, w1)
       /\ App.process_pdf_basic E pdf_path output_dir config
                                (Some update_progress) w = (Ok r2, w2)
       /\ stats r1
          = Some {| total_pages := length pages;
                    text_blocks := length (List.filter nonblank pages);
                    tables := 0; formulas := 0 |}
       /\ stats r2
          = Some {| total_pages := length pages;
                    text_blocks := length (List.filter nonblank pages);
                    tables := 0; formulas := 0 |})
  /\ (forall r w' st,
        Vercel.process_pdf_basic E pdf_path output_dir config
                                 (Some update_progress) w = (Ok r, w')
        \/ App.process_pdf_basic E pdf_path output_dir config
                                 (Some update_progress) w = (Ok r, w') ->
        stats r = Some st ->
        exists pages sz,
          stored_pdf (files w) pdf_path = Ok (pages, sz)
          /\ tables st = O /\ formulas st = O
          /\ text_blocks st = length (List.filter nonblank pages))
  /\ (forall config',
        Vercel.process_pdf_basic E pdf_path output_dir config'
                                 (Some update_progress) w
        = Vercel.process_pdf_basic E pdf_path output_dir config
                                   (Some update_progress) w
        /\ App.process_pdf_basic E pdf_path output_dir config'
                                 (Some update_progress) w
           = App.process_pdf_basic E pdf_path output_dir config
                                   (Some update_progress) w
        /\ (App.MINERU_AVAILABLE E = false ->
            App.process_pdf_file E pdf_path output_dir config'
                                 (Some update_progress) w
            = App.process_pdf_file E pdf_path output_dir config
                                   (Some update_progress) w)).
Proof.
  split; [|split].
  - intros pages sz Hfitz Hfile.
    rewrite vercel_basic_run, app_basic_run. unfold opened, stored_pdf.
    rewrite Hfitz, Hfile. eexists _, _, _, _. repeat split.
  - intros r w' st H Hst. destruct H as [H|H].
    + rewrite vercel_basic_run in H.
      destruct (opened E (files w) pdf_path) as [[pages sz]|e] eqn:Ho;
        injection H as <- <-; [|done].
      injection Hst as <-. exists pages, sz.
      split; [by eapply opened_stored|done].
    + apply app_basic_inv in H as (pages & sz & Ho & -> & _).
      injection Hst as <-. exists pages, sz.
      split; [by eapply opened_stored|done].
  - intros config'. split; [reflexivity|]. split; [reflexivity|].
    intros Hav. by rewrite !app_file_basic_run.
Qed.

Lemma C10_basic_stats_witness :
  exists r1 w1 r2 w2,
    Vercel.process_pdf_basic plain_env (lit "a.pdf") (lit "out")
      {[ "table_enable"%string := CBool false ]} (Some update_progress)
      (world_with (lit "a.pdf") (Binary (Pages [lit "text"; lit " "]) 9))
    = (Ok r1, w1)
    /\ App.process_pdf_basic plain_env (lit "a.pdf") (lit "out")
         {[ "table_enable"%string := CBool false ]} (Some update_progress)
         (world_with (lit "a.pdf") (Binary (Pages [lit "text"; lit " "]) 9))
       = (Ok r2, w2)
    /\ stats r1
       = Some {| total_pages := 2; text_blocks := 1;
                 tables := 0; formulas := 0 |}
    /\ stats r2
       = Some {| total_pages := 2; text_blocks := 1;
                 tables := 0; formulas := 0 |}.
Proof.
  apply (proj1 (C10_basic_stats plain_env (lit "a.pdf") (lit "out")
                  {[ "table_enable"%string := CBool false ]}
                  (world_with (lit "a.pdf")
                     (Binary (Pages [lit "text"; lit " "]) 9)))
               [lit "text"; lit " "] 9%Z).
  - reflexivity.
  - vm_compute. reflexivity.
Defined.

(** * Further properties of the code *)

(** X1: each branch on its own reports progress values that never
    decrease and lie between 0 and 1, on every path, failures included:
    the facade of [mineru_processor.py] (demo and advanced branch), the
    facade of [app.py], the basic branch of the serverless entry point
    and its API call. *)
Theorem progress_rises_on_each_branch E self pdf_path output_dir config
    language parse_method formula_enable table_enable :
  rises (Mineru.process_pdf E self pdf_path output_dir language parse_method
                            formula_enable table_enable
                            (Some update_progress))
  /\ rises (App.process_pdf_file E pdf_path output_dir config
                                 (Some update_progress))
  /\ rises (Vercel.process_pdf_basic E pdf_path output_dir config
                                     (Some update_progress))
  /\ rises (Vercel.call_mineru_api E pdf_path config
                                   (Some update_progress)).
Proof.
  split; [apply climbs_rises, climbs_process_pdf|].
  split; [apply climbs_rises, climbs_app_file|].
  split; [apply climbs_rises, climbs_vercel_basic|].
  apply climbs_rises, climbs_call_api.
Qed.

(** X2: when one of the three facades returns a failure, the last
    progress event it emitted is 1.0 with the failure message, and the
    result carries the error message built from the same exception. *)
Theorem failure_ends_progress_at_one E self pdf_path output_dir config
    language parse_method formula_enable table_enable w r w' :
  Mineru.process_pdf E self pdf_path output_dir language parse_method
                     formula_enable table_enable (Some update_progress) w
  = (Ok r, w')
  \/ App.process_pdf_file E pdf_path output_dir config
                          (Some update_progress) w = (Ok r, w')
  \/ Vercel.process_pdf_basic E pdf_path output_dir config
                              (Some update_progress) w = (Ok r, w') ->
  success r = false ->
  exists e,
    error r = Some (lit "处理 PDF 时出错: " ++ e)
    /\ last (progress w') = Some (1%Q, lit "处理失败: " ++ e).
Proof.
  intros [H|[H|H]] Hs.
  - destruct (mineru_failure_inv _ _ _ _ _ _ _ _ _ _ _ H Hs)
      as (e & -> & Hl).
    by exists e.
  - destruct (app_file_failure_inv _ _ _ _ _ _ _ H Hs) as (e & -> & Hl).
    by exists e.
  - destruct (vercel_basic_failure_inv _ _ _ _ _ _ _ H Hs) as (e & -> & Hl).
    by exists e.
Qed.

Lemma failure_ends_progress_at_one_witness :
  exists e,
    error (Vercel.failure (lit "处理 PDF 时出错: " ++ lit "no such file"))
    = Some (lit "处理 PDF 时出错: " ++ e)
    /\ last (progress
               (add_progress (vercel_failure_events plain_env
                                                    (lit "no such file"))
                             empty_world))
       = Some (1%Q, lit "处理失败: " ++ e).
Proof.
  apply (failure_ends_progress_at_one plain_env
           (Mineru.new_processor plain_env) (lit "missing.pdf") (lit "out")
           ∅ (CStr (lit "ch")) (CStr (lit "auto")) (CBool true) (CBool true)
           empty_world
           (Vercel.failure (lit "处理 PDF 时出错: " ++ lit "no such file"))
           (add_progress (vercel_failure_events plain_env
                                                (lit "no such file"))
                         empty_world)).
  - right. right. vm_compute. reflexivity.
  - reflexivity.
Defined.

(** X3: nothing that happens while a file is processed aborts the
    batch of [app.py]: in every branch (basic, demo, advanced), as long
    as the uploads can be saved and the directories made, it returns one
    result per upload, in order, each carrying the name of its upload.
    The loop of the serverless entry point does the same in basic mode,
    and in API mode (with or without fallback) as long as the endpoint
    does not answer a list, a string, a number or a boolean. *)
Theorem batch_returns_one_result_per_upload E config language
    processing_mode input_dir output_dir uploaded_files w :
  (forall p, open_error E p = None) ->
  (forall p, makedirs_error E p = None) ->
  (exists results,
     returned (App.main_batch E config uploaded_files w) = Some results
     /\ map file_name results
        = map (fun f => Some (name f)) uploaded_files)
  /\ (pystr_eqb processing_mode (lit "api") = false
      \/ answers_objects E ->
      exists results,
        returned (Vercel.process_uploads E processing_mode
                    (Vercel.make_config language processing_mode)
                    input_dir output_dir uploaded_files [] w)
        = Some results
        /\ map file_name results
           = map (fun f => Some (name f)) uploaded_files).
Proof.
  intros Hopen Hmk. split.
  - by apply app_main_named.
  - intros Hmode.
    destruct (vercel_uploads_named E processing_mode
                (Vercel.make_config language processing_mode)
                input_dir output_dir uploaded_files [] w Hopen Hmode)
      as (rs & w' & Hrun & Hrs).
    exists rs. by rewrite Hrun.
Qed.

Lemma batch_returns_one_result_per_upload_witness :
  (exists results,
     returned (App.main_batch demo_env ∅
                 [upload "a.pdf" (Pages [lit "A"]);
                  upload "b.pdf" (Unreadable (lit "broken"))] empty_world)
     = Some results
     /\ map file_name results
        = map (fun f => Some (name f))
              [upload "a.pdf" (Pages [lit "A"]);
               upload "b.pdf" (Unreadable (lit "broken"))])
  /\ (exists results,
        returned (Vercel.process_uploads demo_env (lit "api")
                    (Vercel.make_config (lit "ch") (lit "api"))
                    (lit "/tmp/mineru_ab12cd/input")
                    (lit "/tmp/mineru_ab12cd/output")
                    [upload "a.pdf" (Pages [lit "A"]);
                     upload "b.pdf" (Unreadable (lit "broken"))] []
                    empty_world)
        = Some results
        /\ map file_name results
           = map (fun f => Some (name f))
                 [upload "a.pdf" (Pages [lit "A"]);
                  upload "b.pdf" (Unreadable (lit "broken"))]).
Proof.
  destruct (batch_returns_one_result_per_upload demo_env ∅ (lit "ch")
              (lit "api") (lit "/tmp/mineru_ab12cd/input")
              (lit "/tmp/mineru_ab12cd/output")
              [upload "a.pdf" (Pages [lit "A"]);
               upload "b.pdf" (Unreadable (lit "broken"))] empty_world)
    as [Happ Hloop].
  - intros p. reflexivity.
  - intros p. reflexivity.
  - split; [exact Happ|]. apply Hloop. right.
    intros url f config body e. simpl. discriminate.
Defined.

(** X4: the demo branch never opens the upload.  When [mineru_processor]
    imports and the engine ([magic_pdf]) does not, the local entry point
    answers every upload, readable or not, with the demo document of its
    file stem and [success = true]. *)
Theorem demo_branch_ignores_file_contents E config input_dir output_dir
    uploaded_file w :
  App.MINERU_AVAILABLE E = true ->
  magic_pdf_importable E = false ->
  (forall p, open_error E p = None) ->
  (forall p, makedirs_error E p = None) ->
  exists r,
    returned (App.process_upload E config input_dir output_dir
                                 uploaded_file w) = Some r
    /\ r = set_file_name
             (demo_result E
                (path_stem (path_join input_dir (name uploaded_file)))
                (path_join output_dir (path_stem (name uploaded_file))))
             (name uploaded_file)
    /\ success r = true
    /\ method r = Some (lit "demo").
Proof.
  intros Hav Hmagic Hopen Hmk. eexists.
  split; [by apply app_upload_demo|]. done.
Qed.

Lemma demo_branch_ignores_file_contents_witness :
  exists r,
    returned (App.process_upload demo_env ∅ (lit "/tmp/mineru_ab12cd/input")
                (lit "/tmp/mineru_ab12cd/output")
                (upload "b.pdf" (Unreadable (lit "broken"))) empty_world)
    = Some r
    /\ r = set_file_name
             (demo_result demo_env
                (path_stem (path_join (lit "/tmp/mineru_ab12cd/input")
                                      (name (upload "b.pdf"
                                               (Unreadable (lit "broken"))))))
                (path_join (lit "/tmp/mineru_ab12cd/output")
                           (path_stem
                              (name (upload "b.pdf"
                                       (Unreadable (lit "broken")))))))
             (name (upload "b.pdf" (Unreadable (lit "broken"))))
    /\ success r = true
    /\ method r = Some (lit "demo").
Proof.
  apply (demo_branch_ignores_file_contents demo_env ∅
           (lit "/tmp/mineru_ab12cd/input") (lit "/tmp/mineru_ab12cd/output")
           (upload "b.pdf" (Unreadable (lit "broken"))) empty_world).
  - reflexivity.
  - reflexivity.
  - intros p. reflexivity.
  - intros p. reflexivity.
Defined.

(** X5: whatever the input, the text [_markdown_to_text] returns holds no
    three newline characters in a row and no whitespace at either end. *)
Theorem markdown_to_text_normal_form s :
  nl3_free (Mineru._markdown_to_text s) = true
  /\ strip (Mineru._markdown_to_text s) = Mineru._markdown_to_text s.
Proof.
  rewrite to_text_unfold. split.
  - apply nl3_free_strip, collapse_nl3_free.
  - apply strip_idem.
Qed.

(** X6: [os.path.dirname(input_dir)] in [main] is the directory
    [mkdtemp] returned, for every path that is not empty and does not end
    with a slash. *)
Theorem temp_base_dir_is_workspace temp_dir :
  proper_dir temp_dir = true ->
  dirname (path_join temp_dir (lit "input")) = temp_dir.
Proof. apply dirname_join_input. Qed.

Lemma temp_base_dir_is_workspace_witness :
  dirname (path_join (lit "/tmp/mineru_ab12cd") (lit "input"))
  = lit "/tmp/mineru_ab12cd".
Proof.
  apply (temp_base_dir_is_workspace (lit "/tmp/mineru_ab12cd")).
  vm_compute. reflexivity.
Defined.

(** X7: without the [markdown] package, [_markdown_to_html] wraps the
    Markdown text with every newline turned into [<br>] and every ["# "]
    into [<h1>].  The replacements that follow (closing the heading at the
    end of the line, opening [<h2>] and [<h3>]) never find anything to
    replace: no newline is left, and ["## "] and ["### "] have already
    lost their ["# "].  So a heading is never closed and a second-level
    heading reads [#<h1>]. *)
Theorem markdown_to_html_fallback E markdown_content :
  markdown_markdown E = None ->
  Mineru._markdown_to_html E markdown_content
  = Mineru.plain_html_head
    ++ replace (lit "# ") (lit "<h1>")
               (replace [NL] (lit "<br>") markdown_content)
    ++ Mineru.plain_html_tail
  /\ Forall (fun c => c <> NL)
            (replace (lit "# ") (lit "<h1>")
                     (replace [NL] (lit "<br>") markdown_content)).
Proof.
  intros Hmd. split.
  - by apply markdown_to_html_fallback_eq.
  - apply fallback_body_no_newline.
Qed.

Lemma markdown_to_html_fallback_witness :
  Mineru._markdown_to_html plain_env (lit "## Title" ++ [NL] ++ lit "text")
  = Mineru.plain_html_head
    ++ replace (lit "# ") (lit "<h1>")
               (replace [NL] (lit "<br>")
                        (lit "## Title" ++ [NL] ++ lit "text"))
    ++ Mineru.plain_html_tail
  /\ Forall (fun c => c <> NL)
            (replace (lit "# ") (lit "<h1>")
                     (replace [NL] (lit "<br>")
                              (lit "## Title" ++ [NL] ++ lit "text"))).
Proof.
  apply (markdown_to_html_fallback plain_env
           (lit "## Title" ++ [NL] ++ lit "text")).
  reflexivity.
Defined.

(** X8: [_calculate_stats] always reports one page; it reports no table
    exactly when the Markdown holds no pipe character, and half the
    number of dollar signs (rounded down) as formulas.  When [outputs]
    has no [markdown_content], all counts are zero. *)
Theorem calculate_stats_counts (outputs : gmap string pystr) :
  total_pages (Mineru._calculate_stats outputs) = 1%nat
  /\ formulas (Mineru._calculate_stats outputs)
     = (occurrences DOLLAR
          (default [] (outputs !! "markdown_content"%string)) / 2)%nat
  /\ (tables (Mineru._calculate_stats outputs) = O
      <-> occurrences PIPE
            (default [] (outputs !! "markdown_content"%string)) = O)
  /\ (outputs !! "markdown_content"%string = None ->
      Mineru._calculate_stats outputs
      = {| total_pages := 1; text_blocks := 0; tables := 0;
           formulas := 0 |}).
Proof.
  split; [done|]. split.
  - unfold Mineru._calculate_stats. cbn [formulas]. by rewrite count_char.
  - split; [apply stats_tables_zero|].
    intros H. unfold Mineru._calculate_stats. unfold pystr in *.
    by rewrite H.
Qed.

Lemma calculate_stats_counts_witness :
  Mineru._calculate_stats ∅
  = {| total_pages := 1; text_blocks := 0; tables := 0; formulas := 0 |}.
Proof.
  apply (proj2 (proj2 (proj2 (calculate_stats_counts ∅)))).
  reflexivity.
Defined.

(** X9: on a Markdown text made of single-line paragraphs separated by
    blank lines, [_calculate_stats] counts as text blocks the paragraphs
    that are not only whitespace. *)
Theorem calculate_stats_text_blocks (outputs : gmap string pystr)
    paragraphs :
  paragraphs <> [] ->
  Forall (Forall (fun c => c <> NL)) paragraphs ->
  outputs !! "markdown_content"%string = Some (join [NL; NL] paragraphs) ->
  text_blocks (Mineru._calculate_stats outputs)
  = length (List.filter nonblank paragraphs).
Proof.
  intros Hne Hp Ho. unfold Mineru._calculate_stats. cbn [text_blocks].
  unfold pystr in *. rewrite Ho. cbn [from_option id].
  by rewrite split_join_lines.
Qed.

Lemma calculate_stats_text_blocks_witness :
  text_blocks
    (Mineru._calculate_stats
       {[ "markdown_content"%string :=
            join [NL; NL] [lit "# Title"; lit "  "; lit "Some text."] ]})
  = length (List.filter nonblank [lit "# Title"; lit "  "; lit "Some text."]).
Proof.
  apply (calculate_stats_text_blocks
           {[ "markdown_content"%string :=
                join [NL; NL] [lit "# Title"; lit "  "; lit "Some text."] ]}
           [lit "# Title"; lit "  "; lit "Some text."]).
  - done.
  - repeat constructor; apply lacks_Forall; vm_compute; reflexivity.
  - reflexivity.
Defined.

(** X10: the files written by the facade of [mineru_processor.py] hold
    what it returns.  Whenever [process_pdf] returns a success, the file
    named under [html] holds [html_content] and the one under [text]
    holds [text_content]; in the demo branch the same is true of
    [markdown] and [json]. *)
Theorem written_files_match_outputs E self pdf_path output_dir language
    parse_method formula_enable table_enable w r w' :
  Mineru.process_pdf E self pdf_path output_dir language parse_method
                     formula_enable table_enable (Some update_progress) w
  = (Ok r, w') ->
  success r = true ->
  stored_output "html" r w' /\ stored_output "text" r w'
  /\ (Mineru.mineru_available self = false ->
      stored_output "markdown" r w' /\ stored_output "json" r w').
Proof.
  intros H Hs. unfold Mineru.process_pdf in H.
  apply try_except_inv in H as [H|(e & w1 & _ & H)].
  - rewrite bind_notify in H. apply bind_makedirs_inv in H as [_ H].
    destruct (Mineru.mineru_available self); cbn [negb] in H; cbv iota in H.
    + apply advanced_stored in H as [? ?]. by repeat split.
    + apply demo_stored in H as (? & ? & ? & ?). by repeat split.
  - rewrite bind_notify in H. apply ret_inv in H as [<- _]. done.
Qed.

Lemma written_files_match_outputs_witness :
  stored_output "html" (demo_result plain_env (lit "a") (lit "out"))
    (returned_world
       (Mineru.process_pdf plain_env (Mineru.new_processor plain_env)
          (lit "in/a.pdf") (lit "out") (CStr (lit "ch")) (CStr (lit "auto"))
          (CBool true) (CBool true) (Some update_progress) empty_world))
  /\ stored_output "text" (demo_result plain_env (lit "a") (lit "out"))
       (returned_world
          (Mineru.process_pdf plain_env (Mineru.new_processor plain_env)
             (lit "in/a.pdf") (lit "out") (CStr (lit "ch"))
             (CStr (lit "auto")) (CBool true) (CBool true)
             (Some update_progress) empty_world))
  /\ (Mineru.mineru_available (Mineru.new_processor plain_env) = false ->
      stored_output "markdown" (demo_result plain_env (lit "a") (lit "out"))
        (returned_world
           (Mineru.process_pdf plain_env (Mineru.new_processor plain_env)
              (lit "in/a.pdf") (lit "out") (CStr (lit "ch"))
              (CStr (lit "auto")) (CBool true) (CBool true)
              (Some update_progress) empty_world))
      /\ stored_output "json" (demo_result plain_env (lit "a") (lit "out"))
           (returned_world
              (Mineru.process_pdf plain_env (Mineru.new_processor plain_env)
                 (lit "in/a.pdf") (lit "out") (CStr (lit "ch"))
                 (CStr (lit "auto")) (CBool true) (CBool true)
                 (Some update_progress) empty_world))).
Proof.
  apply (written_files_match_outputs plain_env
           (Mineru.new_processor plain_env) (lit "in/a.pdf") (lit "out")
           (CStr (lit "ch")) (CStr (lit "auto")) (CBool true) (CBool true)
           empty_world).
  - vm_compute. reflexivity.
  - reflexivity.
Defined.

(** X11: when the engine returns and, after it, no file below the
    output directory ends with [.md] or [.json] (whatever else the
    engine wrote), the advanced branch still reports
    success: the Markdown and JSON contents are the two placeholders, the
    text is the placeholder without its heading marker, no [markdown] or
    [json] path is given, and the statistics are those of the
    placeholder (one page, two text blocks). *)
Theorem advanced_placeholders E self pdf_path output_dir language
    parse_method formula_enable table_enable w produced :
  Mineru.mineru_available self = true ->
  makedirs_error E output_dir = None ->
  (forall p, open_error E p = None) ->
  (forall lang,
     do_parse E pdf_path output_dir parse_method lang (files w)
     = Ok produced) ->
  Forall (fun p => Mineru.ends_with (lit ".md") p = false
                   /\ Mineru.ends_with (lit ".json") p = false)
         (Mineru.os_walk E output_dir (parsed produced w)) ->
  exists r,
    returned
      (Mineru.process_pdf E self pdf_path output_dir language parse_method
                          formula_enable table_enable
                          (Some update_progress) w) = Some r
    /\ success r = true
    /\ method r = Some (lit "mineru")
    /\ output "markdown_content" r = Some markdown_placeholder
    /\ output "json_content" r = Some json_placeholder
    /\ output "text_content" r
       = Some (lit "处理结果" ++ [NL; NL] ++ lit "未能生成 Markdown 内容。")
    /\ output "markdown" r = None
    /\ output "json" r = None
    /\ stats r = Some {| total_pages := 1; text_blocks := 2;
                         tables := 0; formulas := 0 |}.
Proof.
  intros Hav Hmk Hopen Hparse Hwalk.
  destruct (process_pdf_no_output E self pdf_path output_dir language
              parse_method formula_enable table_enable w produced)
    as (o & w' & -> & Hmd & Hjs & Htx & Hm & Hj); [done..|].
  eexists. split; [reflexivity|]. unfold output. cbn [outputs].
  rewrite <- placeholder_text.
  by rewrite (stats_placeholder o Hmd).
Qed.

Lemma advanced_placeholders_witness :
  exists r,
    returned
      (Mineru.process_pdf
         (engine_env (Ok [(lit "out/auto/images/p1.png", lit "PNG")]))
         (Mineru.new_processor
            (engine_env (Ok [(lit "out/auto/images/p1.png", lit "PNG")])))
         (lit "in/a.pdf") (lit "out/") (CStr (lit "ch")) (CStr (lit "auto"))
         (CBool true) (CBool true) (Some update_progress) empty_world)
    = Some r
    /\ success r = true
    /\ method r = Some (lit "mineru")
    /\ output "markdown_content" r = Some markdown_placeholder
    /\ output "json_content" r = Some json_placeholder
    /\ output "text_content" r
       = Some (lit "处理结果" ++ [NL; NL] ++ lit "未能生成 Markdown 内容。")
    /\ output "markdown" r = None
    /\ output "json" r = None
    /\ stats r = Some {| total_pages := 1; text_blocks := 2;
                         tables := 0; formulas := 0 |}.
Proof.
  apply (advanced_placeholders
           (engine_env (Ok [(lit "out/auto/images/p1.png", lit "PNG")]))
           (Mineru.new_processor
              (engine_env (Ok [(lit "out/auto/images/p1.png", lit "PNG")])))
           (lit "in/a.pdf") (lit "out/") (CStr (lit "ch"))
           (CStr (lit "auto")) (CBool true) (CBool true) empty_world
           [(lit "out/auto/images/p1.png", lit "PNG")]).
  - reflexivity.
  - reflexivity.
  - intros p. reflexivity.
  - intros lang. reflexivity.
  - vm_compute. repeat constructor.
Defined.

(** X12: when the engine raises [e], [process_pdf] does not raise: it
    returns a failure whose message wraps the exception twice
    ([处理 PDF 时出错: MinerU 处理失败: e]), with the traceback, after the
    progress events 0.1, 0.2, 0.3 and 1.0; the output directory was made
    and no file was written. *)
Theorem advanced_engine_error E self pdf_path output_dir language
    parse_method formula_enable table_enable w e :
  Mineru.mineru_available self = true ->
  makedirs_error E output_dir = None ->
  (forall lang,
     do_parse E pdf_path output_dir parse_method lang (files w) = Raise e) ->
  returned
    (Mineru.process_pdf E self pdf_path output_dir language parse_method
                        formula_enable table_enable
                        (Some update_progress) w)
  = Some (Mineru.failure
            (lit "处理 PDF 时出错: " ++ lit "MinerU 处理失败: " ++ e)
            (Some (format_exc E (lit "MinerU 处理失败: " ++ e))))
  /\ fractions
       (returned_world
          (Mineru.process_pdf E self pdf_path output_dir language
                              parse_method formula_enable table_enable
                              (Some update_progress) w))
     = fractions w ++ [(1 # 10)%Q; (2 # 10)%Q; (3 # 10)%Q; 1%Q]
  /\ files
       (returned_world
          (Mineru.process_pdf E self pdf_path output_dir language
                              parse_method formula_enable table_enable
                              (Some update_progress) w))
     = files w.
Proof.
  intros Hav Hmk Hparse.
  rewrite (process_pdf_parse_error E self pdf_path output_dir language
             parse_method formula_enable table_enable w e) by done.
  split; [done|]. split; [|done].
  unfold returned_world. cbn [snd]. by rewrite fractions_add_progress.
Qed.

Lemma advanced_engine_error_witness :
  returned
    (Mineru.process_pdf (engine_env (Raise (lit "out of memory")))
       (Mineru.new_processor (engine_env (Raise (lit "out of memory"))))
       (lit "a.pdf") (lit "out") (CStr (lit "ch")) (CStr (lit "auto"))
       (CBool true) (CBool true) (Some update_progress) empty_world)
  = Some (Mineru.failure
            (lit "处理 PDF 时出错: " ++ lit "MinerU 处理失败: "
             ++ lit "out of memory")
            (Some (format_exc (engine_env (Raise (lit "out of memory")))
                              (lit "MinerU 处理失败: "
                               ++ lit "out of memory"))))
  /\ fractions
       (returned_world
          (Mineru.process_pdf (engine_env (Raise (lit "out of memory")))
             (Mineru.new_processor
                (engine_env (Raise (lit "out of memory"))))
             (lit "a.pdf") (lit "out") (CStr (lit "ch")) (CStr (lit "auto"))
             (CBool true) (CBool true) (Some update_progress) empty_world))
     = fractions empty_world ++ [(1 # 10)%Q; (2 # 10)%Q; (3 # 10)%Q; 1%Q]
  /\ files
       (returned_world
          (Mineru.process_pdf (engine_env (Raise (lit "out of memory")))
             (Mineru.new_processor
                (engine_env (Raise (lit "out of memory"))))
             (lit "a.pdf") (lit "out") (CStr (lit "ch")) (CStr (lit "auto"))
             (CBool true) (CBool true) (Some update_progress) empty_world))
     = files empty_world.
Proof.
  apply (advanced_engine_error (engine_env (Raise (lit "out of memory")))
           (Mineru.new_processor (engine_env (Raise (lit "out of memory"))))
           (lit "a.pdf") (lit "out") (CStr (lit "ch")) (CStr (lit "auto"))
           (CBool true) (CBool true) empty_world (lit "out of memory")).
  - reflexivity.
  - reflexivity.
  - intros lang. reflexivity.
Defined.

(** X13: in every branch of [process_pdf_file], only the [language] and
    [parse_method] entries of the configuration are looked at: the
    switches [formula_enable] and [table_enable] (and any other key)
    change nothing.  In [process_pdf], the language [auto] does exactly
    what [ch] does. *)
Theorem only_language_and_method_matter E self pdf_path output_dir
    (config config' : gmap string cfgval) parse_method formula_enable
    table_enable formula_enable' table_enable' cb :
  config !! "language"%string = config' !! "language"%string ->
  config !! "parse_method"%string = config' !! "parse_method"%string ->
  App.process_pdf_file E pdf_path output_dir config cb
  = App.process_pdf_file E pdf_path output_dir config' cb
  /\ Mineru.process_pdf E self pdf_path output_dir (CStr (lit "auto"))
                        parse_method formula_enable table_enable cb
     = Mineru.process_pdf E self pdf_path output_dir (CStr (lit "ch"))
                          parse_method formula_enable' table_enable' cb.
Proof.
  intros Hl Hm. split.
  - unfold App.process_pdf_file, config_get. by rewrite Hl, Hm.
  - unfold Mineru.process_pdf, Mineru._process_with_mineru.
    rewrite bool_decide_eq_true_2 by done.
    rewrite bool_decide_eq_false_2; [done|].
    intros [= H]; try (vm_compute in H; discriminate).
Qed.

Lemma only_language_and_method_matter_witness :
  App.process_pdf_file plain_env (lit "a.pdf") (lit "out")
    (<["formula_enable"%string := CBool true]>
       {[ "language"%string := CStr (lit "en") ]}) None
  = App.process_pdf_file plain_env (lit "a.pdf") (lit "out")
      (<["table_enable"%string := CBool false]>
         {[ "language"%string := CStr (lit "en") ]}) None
  /\ Mineru.process_pdf plain_env (Mineru.new_processor plain_env)
       (lit "a.pdf") (lit "out") (CStr (lit "auto")) (CStr (lit "ocr"))
       (CBool true) (CBool true) None
     = Mineru.process_pdf plain_env (Mineru.new_processor plain_env)
         (lit "a.pdf") (lit "out") (CStr (lit "ch")) (CStr (lit "ocr"))
         (CBool false) (CBool false) None.
Proof.
  apply (only_language_and_method_matter plain_env
           (Mineru.new_processor plain_env) (lit "a.pdf") (lit "out")
           (<["formula_enable"%string := CBool true]>
              {[ "language"%string := CStr (lit "en") ]})
           (<["table_enable"%string := CBool false]>
              {[ "language"%string := CStr (lit "en") ]})
           (CStr (lit "ocr")) (CBool true) (CBool true) (CBool false)
           (CBool false) None).
  - reflexivity.
  - reflexivity.
Defined.

(** X14: the two basic branches write nothing.  Whether they succeed or
    fail, the stored files, the directories and the messages shown are
    what they were; [output_dir] is not used; and a successful result
    gives contents only, no [markdown], [html], [text] or [json] path. *)
Theorem basic_branches_write_nothing E pdf_path output_dir output_dir'
    config w :
  (files (Vercel.process_pdf_basic E pdf_path output_dir config
                                   (Some update_progress) w).2 = files w
   /\ dirs (Vercel.process_pdf_basic E pdf_path output_dir config
                                     (Some update_progress) w).2 = dirs w
   /\ files (App.process_pdf_basic E pdf_path output_dir config
                                   (Some update_progress) w).2 = files w
   /\ dirs (App.process_pdf_basic E pdf_path output_dir config
                                  (Some update_progress) w).2 = dirs w)
  /\ Vercel.process_pdf_basic E pdf_path output_dir config
                              (Some update_progress) w
     = Vercel.process_pdf_basic E pdf_path output_dir' config
                                (Some update_progress) w
  /\ App.process_pdf_basic E pdf_path output_dir config
                           (Some update_progress) w
     = App.process_pdf_basic E pdf_path output_dir' config
                             (Some update_progress) w
  /\ (forall r,
        returned (Vercel.process_pdf_basic E pdf_path output_dir config
                                           (Some update_progress) w)
        = Some r
        \/ returned (App.process_pdf_basic E pdf_path output_dir config
                                           (Some update_progress) w)
           = Some r ->
        success r = true ->
        output "markdown" r = None /\ output "html" r = None
        /\ output "text" r = None /\ output "json" r = None).
Proof.
  pose proof (vercel_basic_files E pdf_path output_dir config w)
    as (Hf & _ & Hd & _).
  pose proof (app_basic_files E pdf_path output_dir config w)
    as (Hf' & _ & Hd' & _).
  split; [done|]. split; [done|]. split; [done|].
  intros r Hr Hs. rewrite vercel_basic_run, app_basic_run in Hr.
  destruct (opened E (files w) pdf_path) as [[pages sz]|e];
    destruct Hr as [[= <-]|[= <-]]; done.
Qed.

Lemma basic_branches_write_nothing_witness :
  output "markdown" (vercel_basic_success plain_env (lit "a.pdf") [lit "A"])
  = None
  /\ output "html" (vercel_basic_success plain_env (lit "a.pdf") [lit "A"])
     = None
  /\ output "text" (vercel_basic_success plain_env (lit "a.pdf") [lit "A"])
     = None
  /\ output "json" (vercel_basic_success plain_env (lit "a.pdf") [lit "A"])
     = None.
Proof.
  apply (proj2 (proj2 (proj2
           (basic_branches_write_nothing plain_env (lit "a.pdf") (lit "out")
              (lit "elsewhere") ∅
              (world_with (lit "a.pdf") (Binary (Pages [lit "A"]) 1024)))))
           (vercel_basic_success plain_env (lit "a.pdf") [lit "A"])).
  - left. vm_compute. reflexivity.
  - reflexivity.
Defined.

(** X15: when [os.makedirs] fails while the workspace is set up, the
    exception escapes [main]: [create_temp_dirs] runs before the [try]
    block, so [cleanup_temp_dirs] is not called, nothing is shown, and
    the directory [mkdtemp] made is left behind. *)
Theorem workspace_setup_failure_escapes E config language processing_mode
    uploaded_files w e :
  makedirs_error E (path_join (mkdtemp E) (lit "input")) = Some e
  \/ makedirs_error E (path_join (mkdtemp E) (lit "input")) = None
     /\ makedirs_error E (path_join (mkdtemp E) (lit "output")) = Some e ->
  exists w',
    App.main_batch E config uploaded_files w = (Raise e, w')
    /\ Vercel.main_batch E language processing_mode uploaded_files w
       = (Raise e, w')
    /\ os_path_exists (mkdtemp E) w' = true
    /\ cleanups w' = cleanups w
    /\ ui w' = ui w
    /\ files w' = files w.
Proof.
  intros H.
  destruct (create_temp_dirs_raise E w e H) as (w' & Hc & Hd & Hf & Hu & Hcl).
  exists w'. unfold App.main_batch, Vercel.main_batch, bind. rewrite Hc.
  repeat split; try done.
  unfold os_path_exists. by rewrite bool_decide_eq_true_2.
Qed.

Lemma workspace_setup_failure_escapes_witness :
  exists w',
    App.main_batch disk_full_env ∅ [upload "a.pdf" (Pages [lit "A"])]
                   empty_world
    = (Raise (lit "No space left on device"), w')
    /\ Vercel.main_batch disk_full_env (lit "ch") (lit "basic")
                          [upload "a.pdf" (Pages [lit "A"])] empty_world
       = (Raise (lit "No space left on device"), w')
    /\ os_path_exists (lit "/tmp/mineru_ab12cd") w' = true
    /\ cleanups w' = cleanups empty_world
    /\ ui w' = ui empty_world
    /\ files w' = files empty_world.
Proof.
  apply (workspace_setup_failure_escapes disk_full_env ∅ (lit "ch")
           (lit "basic") [upload "a.pdf" (Pages [lit "A"])]
           empty_world (lit "No space left on device")).
  left. reflexivity.
Defined.

(** X16: with an API URL configured, an answer of status 200 that
    carries a result is final.  The result is returned as the endpoint
    gave it, with the name of the upload, after the progress events 0.2
    and 1.0; there is no fallback to the basic branch, whatever the
    result says (a failure included), PyMuPDF is not used and no warning
    is shown. *)
Theorem api_answer_is_final E config input_dir output_dir uploaded_file w
    api_url r :
  MINERU_API_URL E = Some api_url ->
  truthy api_url = true ->
  open_error E (path_join input_dir (name uploaded_file)) = None ->
  requests_post E (api_url ++ lit "/process")
                (Binary (getvalue uploaded_file) (size uploaded_file)) config
  = Response 200 (JsonResult r) ->
  Vercel.process_upload E (lit "api") config input_dir output_dir
                        uploaded_file w
  = (Ok (set_file_name r (name uploaded_file)),
     add_progress
       [(2 # 10, lit "连接 MinerU API 服务..."); (1%Q, lit "API 处理完成！")]
       (saved (path_join input_dir (name uploaded_file))
              (Binary (getvalue uploaded_file) (size uploaded_file)) w)).
Proof.
  intros Hurl Hu Hopen Hpost. rewrite vercel_upload_api, Hopen.
  rewrite (call_api_answer E _ config _
             (Binary (getvalue uploaded_file) (size uploaded_file))
             api_url (JsonResult r));
    try done.
  apply lookup_insert_eq.
Qed.

Lemma api_answer_is_final_witness :
  Vercel.process_upload
    (sample_env (Some (lit "http://mineru.example"))
       (Response 200
          (JsonResult (Vercel.failure (lit "unsupported document")))) None)
    (lit "api") (Vercel.make_config (lit "ch") (lit "api"))
    (lit "/tmp/mineru_ab12cd/input") (lit "/tmp/mineru_ab12cd/output")
    (upload "paper.pdf" (Pages [lit "Abstract"])) empty_world
  = (Ok (set_file_name (Vercel.failure (lit "unsupported document"))
                       (name (upload "paper.pdf" (Pages [lit "Abstract"])))),
     add_progress
       [(2 # 10, lit "连接 MinerU API 服务..."); (1%Q, lit "API 处理完成！")]
       (saved (path_join (lit "/tmp/mineru_ab12cd/input")
                 (name (upload "paper.pdf" (Pages [lit "Abstract"]))))
              (Binary (getvalue (upload "paper.pdf" (Pages [lit "Abstract"])))
                      (size (upload "paper.pdf" (Pages [lit "Abstract"]))))
              empty_world)).
Proof.
  apply (api_answer_is_final
           (sample_env (Some (lit "http://mineru.example"))
              (Response 200
                 (JsonResult (Vercel.failure (lit "unsupported document"))))
              None)
           (Vercel.make_config (lit "ch") (lit "api"))
           (lit "/tmp/mineru_ab12cd/input") (lit "/tmp/mineru_ab12cd/output")
           (upload "paper.pdf" (Pages [lit "Abstract"])) empty_world
           (lit "http://mineru.example")
           (Vercel.failure (lit "unsupported document"))).
  - reflexivity.
  - vm_compute. reflexivity.
  - reflexivity.
  - reflexivity.
Defined.

(** X17: an answer of status 200 whose body is not JSON, or is JSON
    [null], is treated like an unavailable endpoint: the upload gets the
    result of the basic branch.  With a [null] body the API call has
    already reported 1.0 ("done") when the basic branch starts again at
    0.1. *)
Theorem api_empty_answer_falls_back E config config' input_dir output_dir
    uploaded_file w api_url body :
  MINERU_API_URL E = Some api_url ->
  truthy api_url = true ->
  open_error E (path_join input_dir (name uploaded_file)) = None ->
  requests_post E (api_url ++ lit "/process")
                (Binary (getvalue uploaded_file) (size uploaded_file)) config
  = Response 200 body ->
  body = BadJson \/ body = JsonNull ->
  (Vercel.process_upload E (lit "api") config input_dir output_dir
                         uploaded_file w).1
  = (Vercel.process_upload E (lit "basic") config' input_dir output_dir
                           uploaded_file w).1
  /\ (body = JsonNull ->
      exists rest,
        fractions
          (returned_world
             (Vercel.process_upload E (lit "api") config input_dir
                                    output_dir uploaded_file w))
        = (2 # 10)%Q :: 1%Q :: (1 # 10)%Q :: rest).
Proof.
  intros Hurl Hu Hopen Hpost Hbody.
  rewrite vercel_upload_api, (vercel_upload_basic _ _ _ _ _ _ _ mode_basic).
  rewrite Hopen.
  rewrite (call_api_answer E _ config _
             (Binary (getvalue uploaded_file) (size uploaded_file))
             api_url body)
    by (try done; apply lookup_insert_eq).
  split.
  - destruct Hbody as [-> | ->]; by apply named_fst, vercel_basic_frame.
  - intros ->. cbn [body_value]. cbv iota.
    match goal with
    | |- context [Vercel.process_pdf_basic ?a ?b ?c ?d ?cb ?w0] =>
      destruct (vercel_basic_first a b c d w0) as (r & rest & ->)
    end.
    exists (map fst rest). unfold returned_world. by rewrite named_snd.
Qed.

Lemma api_empty_answer_falls_back_witness :
  (Vercel.process_upload
     (sample_env (Some (lit "http://mineru.example"))
                 (Response 200 JsonNull) None)
     (lit "api") (Vercel.make_config (lit "ch") (lit "api"))
     (lit "/tmp/mineru_ab12cd/input") (lit "/tmp/mineru_ab12cd/output")
     (upload "paper.pdf" (Pages [lit "Abstract"])) empty_world).1
  = (Vercel.process_upload
       (sample_env (Some (lit "http://mineru.example"))
                   (Response 200 JsonNull) None)
       (lit "basic") (Vercel.make_config (lit "ch") (lit "basic"))
       (lit "/tmp/mineru_ab12cd/input") (lit "/tmp/mineru_ab12cd/output")
       (upload "paper.pdf" (Pages [lit "Abstract"])) empty_world).1
  /\ (JsonNull = JsonNull ->
      exists rest,
        fractions
          (returned_world
             (Vercel.process_upload
                (sample_env (Some (lit "http://mineru.example"))
                            (Response 200 JsonNull) None)
                (lit "api") (Vercel.make_config (lit "ch") (lit "api"))
                (lit "/tmp/mineru_ab12cd/input")
                (lit "/tmp/mineru_ab12cd/output")
                (upload "paper.pdf" (Pages [lit "Abstract"])) empty_world))
        = (2 # 10)%Q :: 1%Q :: (1 # 10)%Q :: rest).
Proof.
  apply (api_empty_answer_falls_back
           (sample_env (Some (lit "http://mineru.example"))
                       (Response 200 JsonNull) None)
           (Vercel.make_config (lit "ch") (lit "api"))
           (Vercel.make_config (lit "ch") (lit "basic"))
           (lit "/tmp/mineru_ab12cd/input") (lit "/tmp/mineru_ab12cd/output")
           (upload "paper.pdf" (Pages [lit "Abstract"])) empty_world
           (lit "http://mineru.example") JsonNull).
  - reflexivity.
  - vm_compute. reflexivity.
  - reflexivity.
  - reflexivity.
  - by right.
Defined.

(** X18: every result the three facades return with [success = true]
    carries its outputs, with the four contents (Markdown, HTML, text,
    JSON) among them, and its statistics: what the result page reads with
    [result['outputs']] is always there. *)
Theorem successes_are_complete E self pdf_path output_dir config language
    parse_method formula_enable table_enable w r w' :
  Mineru.process_pdf E self pdf_path output_dir language parse_method
                     formula_enable table_enable (Some update_progress) w
  = (Ok r, w')
  \/ App.process_pdf_file E pdf_path output_dir config
                          (Some update_progress) w = (Ok r, w')
  \/ Vercel.process_pdf_basic E pdf_path output_dir config
                              (Some update_progress) w = (Ok r, w') ->
  success r = true ->
  complete r.
Proof.
  intros [H|[H|H]] Hs.
  - by eapply complete_mineru.
  - by eapply complete_app_file.
  - by eapply complete_vercel_file.
Qed.

Lemma successes_are_complete_witness :
  complete (demo_result demo_env (lit "missing") (lit "out")).
Proof.
  apply (successes_are_complete demo_env (Mineru.new_processor demo_env)
           (lit "missing.pdf") (lit "out") ∅ (CStr (lit "ch"))
           (CStr (lit "auto")) (CBool true) (CBool true) empty_world
           (demo_result demo_env (lit "missing") (lit "out"))
           (returned_world
              (Mineru.process_pdf demo_env (Mineru.new_processor demo_env)
                 (lit "missing.pdf") (lit "out") (CStr (lit "ch"))
                 (CStr (lit "auto")) (CBool true) (CBool true)
                 (Some update_progress) empty_world))).
  - left. vm_compute. reflexivity.
  - reflexivity.
Defined.

(** X19: the download buttons are named after the first upload of the
    batch, whichever upload the one successful result belongs to: each
    button hands out one content of that result as
    [<stem of the first upload>.<extension>].  When no file or more than
    one file succeeded, the page has no statistics, preview or download
    at all. *)
Theorem downloads_named_after_first_upload output_formats uploaded_file
    others results w ws w' :
  AppPage.result_widgets output_formats (uploaded_file :: others) results w
  = (Ok ws, w')
  \/ VercelPage.result_widgets output_formats (uploaded_file :: others)
                               results w = (Ok ws, w') ->
  w' = w
  /\ match List.filter success results with
     | [result] => Forall (offers (path_stem (name uploaded_file)) result) ws
     | _ => ws = []
     end.
Proof.
  unfold AppPage.result_widgets, VercelPage.result_widgets.
  destruct (List.filter success results) as [|r [|r' rs]].
  - by intros [[= <- <-]|[= <- <-]].
  - intros [H|H].
    + apply bind_inv in H as (tabs & w1 & Ht & H). cbv beta in H.
      apply bind_inv in H as (bs & w2 & Hb & H). cbv beta in H.
      apply app_preview_inv in Ht as [-> [ts ->]].
      apply download_buttons_inv in Hb as [-> Hb].
      injection H as <- <-. split; [done|].
      apply Forall_app. split; [apply offers_cards|].
      apply Forall_app. split; [apply offers_app_render|done].
    + apply bind_inv in H as (tabs & w1 & Ht & H). cbv beta in H.
      apply bind_inv in H as (bs & w2 & Hb & H). cbv beta in H.
      apply vercel_preview_inv in Ht as [-> [ts ->]].
      apply download_buttons_inv in Hb as [-> Hb].
      injection H as <- <-. split; [done|].
      apply Forall_app. split; [apply offers_cards|].
      apply Forall_app. split; [apply offers_vercel_render|done].
  - by intros [[= <- <-]|[= <- <-]].
Qed.

Lemma downloads_named_after_first_upload_witness :
  empty_world = empty_world
  /\ Forall (offers (path_stem (name (upload "a.pdf" (Unreadable []))))
               (set_file_name (vercel_basic_success plain_env (lit "b.pdf")
                                                    [lit "B"])
                              (lit "b.pdf")))
       [MetricCards 1 1 0 0; PreviewTab (lit "📄 纯文本") (lit "B");
        DownloadButton (lit "📄 TEXT") (lit "B") (lit "a.txt")
                       (lit "text/txt")].
Proof.
  apply (downloads_named_after_first_upload
           {| fmt_markdown := false; fmt_html := false; fmt_text := true;
              fmt_json := false |}
           (upload "a.pdf" (Unreadable []))
           [upload "b.pdf" (Pages [lit "B"])]
           [set_file_name (Vercel.failure (lit "broken")) (lit "a.pdf");
            set_file_name (vercel_basic_success plain_env (lit "b.pdf")
                                                [lit "B"])
                          (lit "b.pdf")]
           empty_world
           [MetricCards 1 1 0 0; PreviewTab (lit "📄 纯文本") (lit "B");
            DownloadButton (lit "📄 TEXT") (lit "B") (lit "a.txt")
                           (lit "text/txt")]
           empty_world).
  right. vm_compute. reflexivity.
Defined.





(** X22: an upload is saved at [os.path.join(input_dir, name)], so a name
    that is an absolute path is written at that very path.  When the path
    does not start with the workspace directory, the file is still there
    after the batch of either entry point, whether or not the cleanup
    succeeded (for the serverless entry point: in basic mode, or when
    the endpoint answers no list, string, number or boolean, which
    would end the loop before the later uploads are saved). *)
Theorem absolute_upload_name_outlives_cleanup E config language
    processing_mode uploaded_files uploaded_file w w' :
  proper_dir (mkdtemp E) = true ->
  (forall p, open_error E p = None) ->
  (forall p, makedirs_error E p = None) ->
  uploaded_file ∈ uploaded_files ->
  starts_with [SLASH] (name uploaded_file) = true ->
  is_under (mkdtemp E) (name uploaded_file) = false ->
  w' = returned_world (App.main_batch E config uploaded_files w)
  \/ (pystr_eqb processing_mode (lit "api") = false \/ answers_objects E)
     /\ w' = returned_world
               (Vercel.main_batch E language processing_mode
                                  uploaded_files w) ->
  path_join (path_join (mkdtemp E) (lit "input")) (name uploaded_file)
  = name uploaded_file
  /\ os_path_exists (name uploaded_file) w' = true.
Proof.
  intros Hdir%dirname_join_input Hopen Hmk Hin Habs Hout Hw'.
  pose proof (path_join_absolute (path_join (mkdtemp E) (lit "input"))
                (name uploaded_file) Habs) as Hjoin.
  split; [done|]. apply os_path_exists_stored. rewrite <- Hjoin.
  destruct Hw' as [-> | [Hmode ->]].
  - apply app_main_saved; try done. by rewrite Hjoin.
  - apply vercel_main_saved; try done. by rewrite Hjoin.
Qed.

Lemma absolute_upload_name_outlives_cleanup_witness :
  path_join (path_join (mkdtemp plain_env) (lit "input"))
            (name (upload "/srv/app/notes.pdf" (Pages [lit "A"])))
  = name (upload "/srv/app/notes.pdf" (Pages [lit "A"]))
  /\ os_path_exists (name (upload "/srv/app/notes.pdf" (Pages [lit "A"])))
       (returned_world
          (Vercel.main_batch plain_env (lit "ch") (lit "basic")
             [upload "/srv/app/notes.pdf" (Pages [lit "A"])] empty_world))
     = true.
Proof.
  apply (absolute_upload_name_outlives_cleanup plain_env ∅ (lit "ch")
           (lit "basic") [upload "/srv/app/notes.pdf" (Pages [lit "A"])]
           (upload "/srv/app/notes.pdf" (Pages [lit "A"])) empty_world
           (returned_world
              (Vercel.main_batch plain_env (lit "ch") (lit "basic")
                 [upload "/srv/app/notes.pdf" (Pages [lit "A"])]
                 empty_world))).
  - vm_compute. reflexivity.
  - intros p. reflexivity.
  - intros p. reflexivity.
  - left.
  - vm_compute. reflexivity.
  - vm_compute. reflexivity.
  - right. split; [left; vm_compute; reflexivity|reflexivity].
Defined.

(** X23: [main] of [app.py] compares the sum of the sizes of all uploads
    with the limit (50 MB on Vercel, 200 MB elsewhere).  Over the limit
    it shows one error and returns, button pressed or not: nothing is
    saved, no workspace is made and nothing is cleaned.  A batch of
    exactly the limit is accepted and processed. *)
Theorem total_size_limit E IS_VERCEL language parse_method enable_formula
    enable_table uploaded_files start w :
  uploaded_files <> [] ->
  AppPage.main E IS_VERCEL language parse_method enable_formula enable_table
               uploaded_files start w
  = if ((if IS_VERCEL then 50 else 200) * 1048576
        <? foldr Z.add 0 (map size uploaded_files))%Z
    then (Ok None,
          shown (UiError (lit "❌ 文件总大小超出限制（"
                          ++ str_of_nat (if IS_VERCEL then 50 else 200)
                          ++ lit "MB），请减少文件数量或选择较小的文件")) w)
    else if start
         then (let! results :=
                 App.main_batch E
                   (AppPage.make_config language parse_method enable_formula
                                        enable_table)
                   uploaded_files in
               ret (Some results)) w
         else (Ok None, w).
Proof.
  intros Hne. unfold AppPage.main.
  destruct uploaded_files as [|f fs]; [done|].
  rewrite over_limit, total_bytes_sizes.
  destruct IS_VERCEL.
  - change (Z.of_nat 50) with 50%Z.
    destruct (50 * 1048576 <? foldr Z.add 0 (map size (f :: fs)))%Z;
      [reflexivity|by destruct start].
  - change (Z.of_nat 200) with 200%Z.
    destruct (200 * 1048576 <? foldr Z.add 0 (map size (f :: fs)))%Z;
      [reflexivity|by destruct start].
Qed.

Lemma total_size_limit_witness :
  AppPage.main plain_env true (lit "ch") (lit "auto") true true
    [{| name := lit "a.pdf"; size := 30000000; getvalue := Pages [lit "A"] |};
     {| name := lit "b.pdf"; size := 30000000; getvalue := Pages [lit "B"] |}]
    true empty_world
  = (Ok None,
     shown (UiError (lit "❌ 文件总大小超出限制（" ++ str_of_nat 50
                     ++ lit "MB），请减少文件数量或选择较小的文件"))
           empty_world).
Proof.
  apply (total_size_limit plain_env true (lit "ch") (lit "auto") true true
           [{| name := lit "a.pdf"; size := 30000000;
               getvalue := Pages [lit "A"] |};
            {| name := lit "b.pdf"; size := 30000000;
               getvalue := Pages [lit "B"] |}]
           true empty_world).
  done.
Defined.

(** X24: when the last [.md] file the walk over the output directory
    meets is readable and the walk meets no [.json] file,
    [_process_mineru_output] returns that file's path and text as
    [markdown] and [markdown_content], its two renditions as
    [html_content] and [text_content], and the JSON placeholder, with no
    [json] path. *)
Theorem engine_markdown_is_returned E output_dir pdf_path w f t :
  Mineru.scan_outputs (Mineru.os_walk E output_dir w) None None
  = (Some f, None) ->
  truthy f = true ->
  files w !! f = Some (Text t) ->
  (forall p, open_error E p = None) ->
  exists o w',
    Mineru._process_mineru_output E output_dir pdf_path w = (Ok o, w')
    /\ o !! "markdown"%string = Some f
    /\ o !! "markdown_content"%string = Some t
    /\ o !! "html_content"%string = Some (Mineru._markdown_to_html E t)
    /\ o !! "text_content"%string = Some (Mineru._markdown_to_text t)
    /\ o !! "json_content"%string = Some json_placeholder
    /\ o !! "json"%string = None.
Proof.
  intros Hscan Hf Hst Hopen.
  rewrite (mineru_output_markdown E output_dir pdf_path w f t) by done.
  eexists _, _. split; [reflexivity|]. unfold pystr in *.
  repeat split;
    rewrite ?lookup_insert_ne by done; by rewrite ?lookup_insert_eq.
Qed.

Lemma engine_markdown_is_returned_witness :
  exists o w',
    Mineru._process_mineru_output plain_env (lit "out/") (lit "in/a.pdf")
      (wrote (lit "out/zz/c.md") (Text (lit "# T"))
             (world_with (lit "out/a.md") (Text (lit "draft"))))
    = (Ok o, w')
    /\ o !! "markdown"%string = Some (lit "out/zz/c.md")
    /\ o !! "markdown_content"%string = Some (lit "# T")
    /\ o !! "html_content"%string
       = Some (Mineru._markdown_to_html plain_env (lit "# T"))
    /\ o !! "text_content"%string
       = Some (Mineru._markdown_to_text (lit "# T"))
    /\ o !! "json_content"%string = Some json_placeholder
    /\ o !! "json"%string = None.
Proof.
  apply (engine_markdown_is_returned plain_env (lit "out/") (lit "in/a.pdf")
           (wrote (lit "out/zz/c.md") (Text (lit "# T"))
                  (world_with (lit "out/a.md") (Text (lit "draft"))))
           (lit "out/zz/c.md") (lit "# T")).
  - vm_compute. reflexivity.
  - vm_compute. reflexivity.
  - vm_compute. reflexivity.
  - intros p. reflexivity.
Defined.

(** X25: when the last [.json] file the walk over the output directory
    meets holds text that does not parse,
    [_process_mineru_output] raises before anything is written: the
    Markdown the engine produced, if any, is not returned and no HTML or
    text file is made. *)
Theorem malformed_engine_json_raises E output_dir pdf_path w
    markdown_file f t :
  Mineru.scan_outputs (Mineru.os_walk E output_dir w) None None
  = (markdown_file, Some f) ->
  truthy f = true ->
  files w !! f = Some (Text t) ->
  json_loads E t = None ->
  exists e,
    Mineru._process_mineru_output E output_dir pdf_path w = (Raise e, w).
Proof. apply mineru_output_bad_json. Qed.

Lemma malformed_engine_json_raises_witness :
  exists e,
    Mineru._process_mineru_output json_env (lit "out") (lit "in/a.pdf")
      (wrote (lit "out/zz/c.json") (Text (lit "{"))
             (wrote (lit "out/a.json") (Text (lit "{}"))
                    (world_with (lit "out/a.md") (Text (lit "# T")))))
    = (Raise e,
       wrote (lit "out/zz/c.json") (Text (lit "{"))
             (wrote (lit "out/a.json") (Text (lit "{}"))
                    (world_with (lit "out/a.md") (Text (lit "# T"))))).
Proof.
  apply (malformed_engine_json_raises json_env (lit "out") (lit "in/a.pdf")
           (wrote (lit "out/zz/c.json") (Text (lit "{"))
                  (wrote (lit "out/a.json") (Text (lit "{}"))
                         (world_with (lit "out/a.md") (Text (lit "# T")))))
           (Some (lit "out/a.md")) (lit "out/zz/c.json") (lit "{")).
  - vm_compute. reflexivity.
  - vm_compute. reflexivity.
  - vm_compute. reflexivity.
  - vm_compute. reflexivity.
Defined.

(** X26: in API mode, an answer of status 200 whose body is JSON but not
    an object (a list, a string, a number, a boolean) is returned by
    [call_mineru_api] as it is; [result['file_name'] = ...] then raises
    and nothing catches the exception: [main] ends with it at the first
    such upload instead of returning results.  The workspace is still
    cleaned, once. *)
Theorem non_object_api_answer_aborts_batch E language uploaded_file rest w
    api_url body e :
  MINERU_API_URL E = Some api_url ->
  truthy api_url = true ->
  proper_dir (mkdtemp E) = true ->
  (forall p, open_error E p = None) ->
  (forall p, makedirs_error E p = None) ->
  requests_post E (api_url ++ lit "/process")
    (Binary (getvalue uploaded_file) (size uploaded_file))
    (Vercel.make_config language (lit "api"))
  = Response 200 body ->
  body_value body = Some (PyOther e) ->
  (Vercel.main_batch E language (lit "api") (uploaded_file :: rest) w).1
  = Raise e
  /\ cleanups
       (returned_world
          (Vercel.main_batch E language (lit "api") (uploaded_file :: rest)
                             w))
     = cleanups w ++ [mkdtemp E].
Proof.
  intros Hurl Hu Hdir%dirname_join_input Hopen Hmk Hpost Hbody. split.
  - unfold Vercel.main_batch. unfold bind at 1.
    destruct (create_temp_dirs_run E w) as (w0 & -> & _); [done..|].
    unfold try_finally. cbn [Vercel.process_uploads]. unfold bind at 1 2.
    rewrite (vercel_upload_not_object E _ _ _ uploaded_file w0 api_url
               body e) by done.
    match goal with
    | |- context [cleanup_temp_dirs E ?d ?w1] =>
      by destruct (total_cleanup E d w1) as ([] & w2 & ->)
    end.
  - destruct (vercel_main_world E language (lit "api")
                (uploaded_file :: rest) w) as (w1 & -> & Hc & _);
      [done..|].
    by rewrite cleaned_cleanups, Hc.
Qed.

Lemma non_object_api_answer_aborts_batch_witness :
  (Vercel.main_batch
     (sample_env (Some (lit "http://mineru.example"))
        (Response 200 JsonList) None)
     (lit "ch") (lit "api")
     [upload "a.pdf" (Pages [lit "A"]); upload "b.pdf" (Pages [lit "B"])]
     empty_world).1
  = Raise (lit "list indices must be integers or slices, not str")
  /\ cleanups
       (returned_world
          (Vercel.main_batch
             (sample_env (Some (lit "http://mineru.example"))
                (Response 200 JsonList) None)
             (lit "ch") (lit "api")
             [upload "a.pdf" (Pages [lit "A"]);
              upload "b.pdf" (Pages [lit "B"])]
             empty_world))
     = cleanups empty_world ++ [lit "/tmp/mineru_ab12cd"].
Proof.
  apply (non_object_api_answer_aborts_batch
           (sample_env (Some (lit "http://mineru.example"))
              (Response 200 JsonList) None)
           (lit "ch") (upload "a.pdf" (Pages [lit "A"]))
           [upload "b.pdf" (Pages [lit "B"])] empty_world
           (lit "http://mineru.example") JsonList
           (lit "list indices must be integers or slices, not str")).
  - reflexivity.
  - vm_compute. reflexivity.
  - vm_compute. reflexivity.
  - intros p. reflexivity.
  - intros p. reflexivity.
  - reflexivity.
  - reflexivity.
Defined.

(** X27: in API mode, when the endpoint answers every upload with an
    object that has no [success] entry, the loop stores each answer
    under the name of its upload, and [main] raises [KeyError:
    'success'] when it counts the successes after the loop. *)
Theorem api_answer_without_success_raises E language uploaded_files w
    api_url :
  MINERU_API_URL E = Some api_url ->
  truthy api_url = true ->
  (forall p, open_error E p = None) ->
  (forall p, makedirs_error E p = None) ->
  (forall f,
     exists r,
       requests_post E (api_url ++ lit "/process") f
                     (Vercel.make_config language (lit "api"))
       = Response 200 (JsonResult r)
       /\ has_success r = false) ->
  uploaded_files <> [] ->
  (exists results w',
     Vercel.process_uploads E (lit "api")
       (Vercel.make_config language (lit "api"))
       (path_join (mkdtemp E) (lit "input"))
       (path_join (mkdtemp E) (lit "output")) uploaded_files [] w
     = (Ok results, w')
     /\ length results = length uploaded_files)
  /\ (Vercel.main_batch E language (lit "api") uploaded_files w).1
     = Raise (lit "'success'").
Proof.
  intros Hurl Hu Hopen Hmk Hpost Hne. split.
  - destruct (vercel_uploads_objects E
                (Vercel.make_config language (lit "api"))
                (path_join (mkdtemp E) (lit "input"))
                (path_join (mkdtemp E) (lit "output")) uploaded_files [] w
                api_url) as (rs & w' & Hrun & Hlen & _); [done..|].
    by exists rs, w'.
  - unfold Vercel.main_batch. unfold bind at 1.
    destruct (create_temp_dirs_run E w) as (w0 & -> & _); [done..|].
    unfold try_finally. unfold bind at 1.
    destruct (vercel_uploads_objects E
                (Vercel.make_config language (lit "api"))
                (path_join (mkdtemp E) (lit "input"))
                (path_join (mkdtemp E) (lit "output")) uploaded_files [] w0
                api_url) as (rs & w1 & -> & Hlen & Hall); [done..|].
    unfold bind at 1. rewrite show_results_raise.
    + match goal with
      | |- context [cleanup_temp_dirs E ?d ?w2] =>
        by destruct (total_cleanup E d w2) as ([] & w3 & ->)
      end.
    + apply lacking_success; [|done].
      destruct rs; [|done]. by destruct uploaded_files.
Qed.

Lemma api_answer_without_success_raises_witness :
  (Vercel.main_batch
     (sample_env (Some (lit "http://mineru.example"))
        (Response 200
           (JsonResult
              {| success := false; outputs := None; stats := None;
                 method := None; error := Some (lit "busy");
                 traceback := None; file_name := None;
                 has_success := false |})) None)
     (lit "ch") (lit "api") [upload "a.pdf" (Pages [lit "A"])]
     empty_world).1
  = Raise (lit "'success'").
Proof.
  apply (proj2
    (api_answer_without_success_raises
       (sample_env (Some (lit "http://mineru.example"))
          (Response 200
             (JsonResult
                {| success := false; outputs := None; stats := None;
                   method := None; error := Some (lit "busy");
                   traceback := None; file_name := None;
                   has_success := false |})) None)
       (lit "ch") [upload "a.pdf" (Pages [lit "A"])] empty_world
       (lit "http://mineru.example")
       eq_refl eq_refl (fun p => eq_refl) (fun p => eq_refl)
       (fun f => ex_intro _ _ (conj eq_refl eq_refl))
       ltac:(discriminate))).
Defined.

